(** * ym-player: the YM2149 chip emulator, the LZH unpacker, the YM file
      decoder and the playback engine, embedded in Rocq.

    Integers are [Z]; every Go conversion or fixed-width operation is written
    out with the wrap-around functions below.  Go's [int] is taken to be 64 bits
    wide.  A slice is a [list] whose capacity equals its length (what [make]
    and the callers of this package produce).  A Go run-time panic (index out of
    range, slice bounds, integer division by zero) is the outcome [Panic]; a
    loop that the model could not finish within its fuel is [OutOfFuel]. *)

From Stdlib Require Import ZArith List Lia Bool String Ascii.
From stdpp Require Import base tactics option list numbers.
Import ListNotations.
Open Scope Z_scope.

(** ** Fixed-width integers *)

Module Word.

Definition u8  (x : Z) : Z := x mod 2^8.
Definition u16 (x : Z) : Z := x mod 2^16.
Definition u32 (x : Z) : Z := x mod 2^32.
Definition s16 (x : Z) : Z := (x + 2^15) mod 2^16 - 2^15.
Definition s32 (x : Z) : Z := (x + 2^31) mod 2^32 - 2^31.
Definition s64 (x : Z) : Z := (x + 2^63) mod 2^64 - 2^63.

(** Go's [/] on signed integers truncates toward zero. *)
Definition sdiv (a b : Z) : Z := Z.quot a b.

Definition testmask (x m : Z) : bool := negb (Z.land x m =? 0).

End Word.
Import Word.

(** ** Outcomes of running Go code *)

Inductive exec (A : Type) : Type :=
  | Ret (a : A)
  | Panic
  | OutOfFuel.
Arguments Ret {A} a.
Arguments Panic {A}.
Arguments OutOfFuel {A}.

Definition exec_bind {A B : Type} (m : exec A) (k : A -> exec B) : exec B :=
  match m with
  | Ret a => k a
  | Panic => Panic
  | OutOfFuel => OutOfFuel
  end.

#[global] Instance exec_mbind : MBind exec := fun A B k m => exec_bind m k.
#[global] Instance exec_mret : MRet exec := fun A a => Ret a.

(** [a[i]] on a slice or array: panics out of range. *)
Definition index {A : Type} (l : list A) (i : Z) : exec A :=
  if (0 <=? i) && (i <? Z.of_nat (length l))
  then match l !! Z.to_nat i with Some x => Ret x | None => Panic end
  else Panic.

(** [a[i] = v] on a slice or array: panics out of range. *)
Definition store {A : Type} (l : list A) (i : Z) (v : A) : exec (list A) :=
  if (0 <=? i) && (i <? Z.of_nat (length l))
  then Ret (<[Z.to_nat i := v]> l)
  else Panic.

(** Reads of fixed-size tables whose index the code has masked into range. *)
Definition tab (l : list Z) (i : Z) : Z := nth (Z.to_nat i) l 0.

Module Ym2149.

(** ** The YM2149 emulator (CYm2149Ex) *)

(** Envelope shapes. *)
Definition env00xx : list Z := [1; 0; 0; 0; 0; 0; 0; 0].
Definition env01xx : list Z := [0; 1; 0; 0; 0; 0; 0; 0].
Definition env1000 : list Z := [1; 0; 1; 0; 1; 0; 1; 0].
Definition env1001 : list Z := [1; 0; 0; 0; 0; 0; 0; 0].
Definition env1010 : list Z := [1; 0; 0; 1; 1; 0; 0; 1].
Definition env1011 : list Z := [1; 0; 1; 1; 1; 1; 1; 1].
Definition env1100 : list Z := [0; 1; 0; 1; 0; 1; 0; 1].
Definition env1101 : list Z := [0; 1; 1; 1; 1; 1; 1; 1].
Definition env1110 : list Z := [0; 1; 1; 0; 0; 1; 1; 0].
Definition env1111 : list Z := [0; 1; 0; 0; 0; 0; 0; 0].

Definition envWave : list (list Z) :=
  [ env00xx; env00xx; env00xx; env00xx;
    env01xx; env01xx; env01xx; env01xx;
    env1000; env1001; env1010; env1011;
    env1100; env1101; env1110; env1111 ].

(** The volume table as the program text has it, before the one-time scaling
    done by the first [NewYm2149Ex] of the process. *)
Definition ymVolumeTable0 : list Z :=
  [ 62; 161; 265; 377; 580; 774; 1155; 1575;
    2260; 3088; 4570; 6233; 9330; 13187; 21220; 32767 ].

(** The package-level variables [ymVolumeTable] and [volumeTableInitialized]. *)
Record Globals : Type := mkGlobals {
  ymVolumeTable : list Z;
  volumeTableInitialized : bool
}.

Definition globals0 : Globals := mkGlobals ymVolumeTable0 false.

Definition DC_ADJUST_BUFFERLEN : Z := 512.
Definition DRUM_PREC : Z := 15.
Definition ATARI_CLOCK : Z := 2000000.
Definition MFP_CLOCK : Z := 2457600.

(** Where a voice's volume pointer ([pVolA], [pVolB], [pVolC]) points: at the
    voice's own volume ([&ym.volA] ...) or at the envelope volume ([&ym.volE]).
    The code assigns nothing else to it. *)
Inductive VolPtr : Type := PtrVol | PtrEnv.

(** [DcAdjuster]: running mean over the last [DC_ADJUST_BUFFERLEN] samples. *)
Record DcAdjuster : Type := mkDcAdjuster {
  dc_buffer : list Z;  (* buffer [512]YmInt *)
  dc_pos : Z;  (* pos int *)
  dc_sum : Z  (* sum YmInt *)
}.

Definition set_dc_buffer (v : list Z) (r : DcAdjuster) : DcAdjuster :=
  mkDcAdjuster v (dc_pos r) (dc_sum r).
Definition set_dc_pos (v : Z) (r : DcAdjuster) : DcAdjuster :=
  mkDcAdjuster (dc_buffer r) v (dc_sum r).
Definition set_dc_sum (v : Z) (r : DcAdjuster) : DcAdjuster :=
  mkDcAdjuster (dc_buffer r) (dc_pos r) v.

(** [YmSpecialEffect]: one effect slot (DigiDrum and SID state of a voice). *)
Record YmSpecialEffect : Type := mkSpecialEffect {
  Drum : bool;
  DrumSize : Z;  (* YmU32 *)
  DrumData : list Z;  (* []YmU8 *)
  DrumPos : Z;  (* YmU32 *)
  DrumStep : Z;  (* YmU32 *)
  Sid : bool;
  SidPos : Z;  (* YmU32 *)
  SidStep : Z;  (* YmU32 *)
  SidVol : Z  (* YmInt *)
}.

Definition set_Drum (v : bool) (r : YmSpecialEffect) : YmSpecialEffect :=
  mkSpecialEffect v (DrumSize r) (DrumData r) (DrumPos r) (DrumStep r) (Sid r)
    (SidPos r) (SidStep r) (SidVol r).
Definition set_DrumSize (v : Z) (r : YmSpecialEffect) : YmSpecialEffect :=
  mkSpecialEffect (Drum r) v (DrumData r) (DrumPos r) (DrumStep r) (Sid r)
    (SidPos r) (SidStep r) (SidVol r).
Definition set_DrumData (v : list Z) (r : YmSpecialEffect) : YmSpecialEffect :=
  mkSpecialEffect (Drum r) (DrumSize r) v (DrumPos r) (DrumStep r) (Sid r)
    (SidPos r) (SidStep r) (SidVol r).
Definition set_DrumPos (v : Z) (r : YmSpecialEffect) : YmSpecialEffect :=
  mkSpecialEffect (Drum r) (DrumSize r) (DrumData r) v (DrumStep r) (Sid r)
    (SidPos r) (SidStep r) (SidVol r).
Definition set_DrumStep (v : Z) (r : YmSpecialEffect) : YmSpecialEffect :=
  mkSpecialEffect (Drum r) (DrumSize r) (DrumData r) (DrumPos r) v (Sid r)
    (SidPos r) (SidStep r) (SidVol r).
Definition set_Sid (v : bool) (r : YmSpecialEffect) : YmSpecialEffect :=
  mkSpecialEffect (Drum r) (DrumSize r) (DrumData r) (DrumPos r) (DrumStep r)
    v (SidPos r) (SidStep r) (SidVol r).
Definition set_SidPos (v : Z) (r : YmSpecialEffect) : YmSpecialEffect :=
  mkSpecialEffect (Drum r) (DrumSize r) (DrumData r) (DrumPos r) (DrumStep r)
    (Sid r) v (SidStep r) (SidVol r).
Definition set_SidStep (v : Z) (r : YmSpecialEffect) : YmSpecialEffect :=
  mkSpecialEffect (Drum r) (DrumSize r) (DrumData r) (DrumPos r) (DrumStep r)
    (Sid r) (SidPos r) v (SidVol r).
Definition set_SidVol (v : Z) (r : YmSpecialEffect) : YmSpecialEffect :=
  mkSpecialEffect (Drum r) (DrumSize r) (DrumData r) (DrumPos r) (DrumStep r)
    (Sid r) (SidPos r) (SidStep r) v.

(** [CYm2149Ex]: the extended YM2149 emulator state.  The envelope table
    [envData] is filled once by [initEnvelopeData] and never written again, so it
    is the constant [envData] below rather than a field. *)
Record CYm2149Ex : Type := mkYm2149Ex {
  bFilter : bool;
  replayFrequency : Z;  (* YmInt *)
  internalClock : Z;  (* YmU32 *)
  registers : list Z;  (* [14]YmU8 *)
  stepA : Z;
  stepB : Z;
  stepC : Z;  (* YmU32 *)
  posA : Z;
  posB : Z;
  posC : Z;  (* YmU32 *)
  volA : Z;
  volB : Z;
  volC : Z;  (* YmInt *)
  volE : Z;  (* YmInt *)
  mixerTA : Z;
  mixerTB : Z;
  mixerTC : Z;  (* YmU32 *)
  mixerNA : Z;
  mixerNB : Z;
  mixerNC : Z;  (* YmU32 *)
  pVolA : VolPtr;
  pVolB : VolPtr;
  pVolC : VolPtr;  (* *YmInt *)
  noiseStep : Z;
  noisePos : Z;
  rndRack : Z;
  currentNoise : Z;  (* YmU32 *)
  envStep : Z;
  envPos : Z;  (* YmU32 *)
  envPhase : Z;
  envShape : Z;  (* YmInt *)
  specialEffect : list YmSpecialEffect;  (* [3]YmSpecialEffect *)
  bSyncBuzzer : bool;
  syncBuzzerStep : Z;
  syncBuzzerPhase : Z;  (* YmU32 *)
  lowPassFilter : Z * Z;  (* [2]int *)
  dcAdjust : DcAdjuster
}.

Definition set_bFilter (v : bool) (r : CYm2149Ex) : CYm2149Ex :=
  mkYm2149Ex v (replayFrequency r) (internalClock r) (registers r) (stepA r)
    (stepB r) (stepC r) (posA r) (posB r) (posC r) (volA r) (volB r) (volC r)
    (volE r) (mixerTA r) (mixerTB r) (mixerTC r) (mixerNA r) (mixerNB r)
    (mixerNC r) (pVolA r) (pVolB r) (pVolC r) (noiseStep r) (noisePos r)
    (rndRack r) (currentNoise r) (envStep r) (envPos r) (envPhase r)
    (envShape r) (specialEffect r) (bSyncBuzzer r) (syncBuzzerStep r)
    (syncBuzzerPhase r) (lowPassFilter r) (dcAdjust r).
Definition set_replayFrequency (v : Z) (r : CYm2149Ex) : CYm2149Ex :=
  mkYm2149Ex (bFilter r) v (internalClock r) (registers r) (stepA r) (stepB r)
    (stepC r) (posA r) (posB r) (posC r) (volA r) (volB r) (volC r) (volE r)
    (mixerTA r) (mixerTB r) (mixerTC r) (mixerNA r) (mixerNB r) (mixerNC r)
    (pVolA r) (pVolB r) (pVolC r) (noiseStep r) (noisePos r) (rndRack r)
    (currentNoise r) (envStep r) (envPos r) (envPhase r) (envShape r)
    (specialEffect r) (bSyncBuzzer r) (syncBuzzerStep r) (syncBuzzerPhase r)
    (lowPassFilter r) (dcAdjust r).
Definition set_internalClock (v : Z) (r : CYm2149Ex) : CYm2149Ex :=
  mkYm2149Ex (bFilter r) (replayFrequency r) v (registers r) (stepA r)
    (stepB r) (stepC r) (posA r) (posB r) (posC r) (volA r) (volB r) (volC r)
    (volE r) (mixerTA r) (mixerTB r) (mixerTC r) (mixerNA r) (mixerNB r)
    (mixerNC r) (pVolA r) (pVolB r) (pVolC r) (noiseStep r) (noisePos r)
    (rndRack r) (currentNoise r) (envStep r) (envPos r) (envPhase r)
    (envShape r) (specialEffect r) (bSyncBuzzer r) (syncBuzzerStep r)
    (syncBuzzerPhase r) (lowPassFilter r) (dcAdjust r).
Definition set_registers (v : list Z) (r : CYm2149Ex) : CYm2149Ex :=
  mkYm2149Ex (bFilter r) (replayFrequency r) (internalClock r) v (stepA r)
    (stepB r) (stepC r) (posA r) (posB r) (posC r) (volA r) (volB r) (volC r)
    (volE r) (mixerTA r) (mixerTB r) (mixerTC r) (mixerNA r) (mixerNB r)
    (mixerNC r) (pVolA r) (pVolB r) (pVolC r) (noiseStep r) (noisePos r)
    (rndRack r) (currentNoise r) (envStep r) (envPos r) (envPhase r)
    (envShape r) (specialEffect r) (bSyncBuzzer r) (syncBuzzerStep r)
    (syncBuzzerPhase r) (lowPassFilter r) (dcAdjust r).
Definition set_stepA (v : Z) (r : CYm2149Ex) : CYm2149Ex :=
  mkYm2149Ex (bFilter r) (replayFrequency r) (internalClock r) (registers r) v
    (stepB r) (stepC r) (posA r) (posB r) (posC r) (volA r) (volB r) (volC r)
    (volE r) (mixerTA r) (mixerTB r) (mixerTC r) (mixerNA r) (mixerNB r)
    (mixerNC r) (pVolA r) (pVolB r) (pVolC r) (noiseStep r) (noisePos r)
    (rndRack r) (currentNoise r) (envStep r) (envPos r) (envPhase r)
    (envShape r) (specialEffect r) (bSyncBuzzer r) (syncBuzzerStep r)
    (syncBuzzerPhase r) (lowPassFilter r) (dcAdjust r).
Definition set_stepB (v : Z) (r : CYm2149Ex) : CYm2149Ex :=
  mkYm2149Ex (bFilter r) (replayFrequency r) (internalClock r) (registers r)
    (stepA r) v (stepC r) (posA r) (posB r) (posC r) (volA r) (volB r)
    (volC r) (volE r) (mixerTA r) (mixerTB r) (mixerTC r) (mixerNA r)
    (mixerNB r) (mixerNC r) (pVolA r) (pVolB r) (pVolC r) (noiseStep r)
    (noisePos r) (rndRack r) (currentNoise r) (envStep r) (envPos r)
    (envPhase r) (envShape r) (specialEffect r) (bSyncBuzzer r)
    (syncBuzzerStep r) (syncBuzzerPhase r) (lowPassFilter r) (dcAdjust r).
Definition set_stepC (v : Z) (r : CYm2149Ex) : CYm2149Ex :=
  mkYm2149Ex (bFilter r) (replayFrequency r) (internalClock r) (registers r)
    (stepA r) (stepB r) v (posA r) (posB r) (posC r) (volA r) (volB r)
    (volC r) (volE r) (mixerTA r) (mixerTB r) (mixerTC r) (mixerNA r)
    (mixerNB r) (mixerNC r) (pVolA r) (pVolB r) (pVolC r) (noiseStep r)
    (noisePos r) (rndRack r) (currentNoise r) (envStep r) (envPos r)
    (envPhase r) (envShape r) (specialEffect r) (bSyncBuzzer r)
    (syncBuzzerStep r) (syncBuzzerPhase r) (lowPassFilter r) (dcAdjust r).
Definition set_posA (v : Z) (r : CYm2149Ex) : CYm2149Ex :=
  mkYm2149Ex (bFilter r) (replayFrequency r) (internalClock r) (registers r)
    (stepA r) (stepB r) (stepC r) v (posB r) (posC r) (volA r) (volB r)
    (volC r) (volE r) (mixerTA r) (mixerTB r) (mixerTC r) (mixerNA r)
    (mixerNB r) (mixerNC r) (pVolA r) (pVolB r) (pVolC r) (noiseStep r)
    (noisePos r) (rndRack r) (currentNoise r) (envStep r) (envPos r)
    (envPhase r) (envShape r) (specialEffect r) (bSyncBuzzer r)
    (syncBuzzerStep r) (syncBuzzerPhase r) (lowPassFilter r) (dcAdjust r).
Definition set_posB (v : Z) (r : CYm2149Ex) : CYm2149Ex :=
  mkYm2149Ex (bFilter r) (replayFrequency r) (internalClock r) (registers r)
    (stepA r) (stepB r) (stepC r) (posA r) v (posC r) (volA r) (volB r)
    (volC r) (volE r) (mixerTA r) (mixerTB r) (mixerTC r) (mixerNA r)
    (mixerNB r) (mixerNC r) (pVolA r) (pVolB r) (pVolC r) (noiseStep r)
    (noisePos r) (rndRack r) (currentNoise r) (envStep r) (envPos r)
    (envPhase r) (envShape r) (specialEffect r) (bSyncBuzzer r)
    (syncBuzzerStep r) (syncBuzzerPhase r) (lowPassFilter r) (dcAdjust r).
Definition set_posC (v : Z) (r : CYm2149Ex) : CYm2149Ex :=
  mkYm2149Ex (bFilter r) (replayFrequency r) (internalClock r) (registers r)
    (stepA r) (stepB r) (stepC r) (posA r) (posB r) v (volA r) (volB r)
    (volC r) (volE r) (mixerTA r) (mixerTB r) (mixerTC r) (mixerNA r)
    (mixerNB r) (mixerNC r) (pVolA r) (pVolB r) (pVolC r) (noiseStep r)
    (noisePos r) (rndRack r) (currentNoise r) (envStep r) (envPos r)
    (envPhase r) (envShape r) (specialEffect r) (bSyncBuzzer r)
    (syncBuzzerStep r) (syncBuzzerPhase r) (lowPassFilter r) (dcAdjust r).
Definition set_volA (v : Z) (r : CYm2149Ex) : CYm2149Ex :=
  mkYm2149Ex (bFilter r) (replayFrequency r) (internalClock r) (registers r)
    (stepA r) (stepB r) (stepC r) (posA r) (posB r) (posC r) v (volB r)
    (volC r) (volE r) (mixerTA r) (mixerTB r) (mixerTC r) (mixerNA r)
    (mixerNB r) (mixerNC r) (pVolA r) (pVolB r) (pVolC r) (noiseStep r)
    (noisePos r) (rndRack r) (currentNoise r) (envStep r) (envPos r)
    (envPhase r) (envShape r) (specialEffect r) (bSyncBuzzer r)
    (syncBuzzerStep r) (syncBuzzerPhase r) (lowPassFilter r) (dcAdjust r).
Definition set_volB (v : Z) (r : CYm2149Ex) : CYm2149Ex :=
  mkYm2149Ex (bFilter r) (replayFrequency r) (internalClock r) (registers r)
    (stepA r) (stepB r) (stepC r) (posA r) (posB r) (posC r) (volA r) v
    (volC r) (volE r) (mixerTA r) (mixerTB r) (mixerTC r) (mixerNA r)
    (mixerNB r) (mixerNC r) (pVolA r) (pVolB r) (pVolC r) (noiseStep r)
    (noisePos r) (rndRack r) (currentNoise r) (envStep r) (envPos r)
    (envPhase r) (envShape r) (specialEffect r) (bSyncBuzzer r)
    (syncBuzzerStep r) (syncBuzzerPhase r) (lowPassFilter r) (dcAdjust r).
Definition set_volC (v : Z) (r : CYm2149Ex) : CYm2149Ex :=
  mkYm2149Ex (bFilter r) (replayFrequency r) (internalClock r) (registers r)
    (stepA r) (stepB r) (stepC r) (posA r) (posB r) (posC r) (volA r) (volB r)
    v (volE r) (mixerTA r) (mixerTB r) (mixerTC r) (mixerNA r) (mixerNB r)
    (mixerNC r) (pVolA r) (pVolB r) (pVolC r) (noiseStep r) (noisePos r)
    (rndRack r) (currentNoise r) (envStep r) (envPos r) (envPhase r)
    (envShape r) (specialEffect r) (bSyncBuzzer r) (syncBuzzerStep r)
    (syncBuzzerPhase r) (lowPassFilter r) (dcAdjust r).
Definition set_volE (v : Z) (r : CYm2149Ex) : CYm2149Ex :=
  mkYm2149Ex (bFilter r) (replayFrequency r) (internalClock r) (registers r)
    (stepA r) (stepB r) (stepC r) (posA r) (posB r) (posC r) (volA r) (volB r)
    (volC r) v (mixerTA r) (mixerTB r) (mixerTC r) (mixerNA r) (mixerNB r)
    (mixerNC r) (pVolA r) (pVolB r) (pVolC r) (noiseStep r) (noisePos r)
    (rndRack r) (currentNoise r) (envStep r) (envPos r) (envPhase r)
    (envShape r) (specialEffect r) (bSyncBuzzer r) (syncBuzzerStep r)
    (syncBuzzerPhase r) (lowPassFilter r) (dcAdjust r).
Definition set_mixerTA (v : Z) (r : CYm2149Ex) : CYm2149Ex :=
  mkYm2149Ex (bFilter r) (replayFrequency r) (internalClock r) (registers r)
    (stepA r) (stepB r) (stepC r) (posA r) (posB r) (posC r) (volA r) (volB r)
    (volC r) (volE r) v (mixerTB r) (mixerTC r) (mixerNA r) (mixerNB r)
    (mixerNC r) (pVolA r) (pVolB r) (pVolC r) (noiseStep r) (noisePos r)
    (rndRack r) (currentNoise r) (envStep r) (envPos r) (envPhase r)
    (envShape r) (specialEffect r) (bSyncBuzzer r) (syncBuzzerStep r)
    (syncBuzzerPhase r) (lowPassFilter r) (dcAdjust r).
Definition set_mixerTB (v : Z) (r : CYm2149Ex) : CYm2149Ex :=
  mkYm2149Ex (bFilter r) (replayFrequency r) (internalClock r) (registers r)
    (stepA r) (stepB r) (stepC r) (posA r) (posB r) (posC r) (volA r) (volB r)
    (volC r) (volE r) (mixerTA r) v (mixerTC r) (mixerNA r) (mixerNB r)
    (mixerNC r) (pVolA r) (pVolB r) (pVolC r) (noiseStep r) (noisePos r)
    (rndRack r) (currentNoise r) (envStep r) (envPos r) (envPhase r)
    (envShape r) (specialEffect r) (bSyncBuzzer r) (syncBuzzerStep r)
    (syncBuzzerPhase r) (lowPassFilter r) (dcAdjust r).
Definition set_mixerTC (v : Z) (r : CYm2149Ex) : CYm2149Ex :=
  mkYm2149Ex (bFilter r) (replayFrequency r) (internalClock r) (registers r)
    (stepA r) (stepB r) (stepC r) (posA r) (posB r) (posC r) (volA r) (volB r)
    (volC r) (volE r) (mixerTA r) (mixerTB r) v (mixerNA r) (mixerNB r)
    (mixerNC r) (pVolA r) (pVolB r) (pVolC r) (noiseStep r) (noisePos r)
    (rndRack r) (currentNoise r) (envStep r) (envPos r) (envPhase r)
    (envShape r) (specialEffect r) (bSyncBuzzer r) (syncBuzzerStep r)
    (syncBuzzerPhase r) (lowPassFilter r) (dcAdjust r).
Definition set_mixerNA (v : Z) (r : CYm2149Ex) : CYm2149Ex :=
  mkYm2149Ex (bFilter r) (replayFrequency r) (internalClock r) (registers r)
    (stepA r) (stepB r) (stepC r) (posA r) (posB r) (posC r) (volA r) (volB r)
    (volC r) (volE r) (mixerTA r) (mixerTB r) (mixerTC r) v (mixerNB r)
    (mixerNC r) (pVolA r) (pVolB r) (pVolC r) (noiseStep r) (noisePos r)
    (rndRack r) (currentNoise r) (envStep r) (envPos r) (envPhase r)
    (envShape r) (specialEffect r) (bSyncBuzzer r) (syncBuzzerStep r)
    (syncBuzzerPhase r) (lowPassFilter r) (dcAdjust r).
Definition set_mixerNB (v : Z) (r : CYm2149Ex) : CYm2149Ex :=
  mkYm2149Ex (bFilter r) (replayFrequency r) (internalClock r) (registers r)
    (stepA r) (stepB r) (stepC r) (posA r) (posB r) (posC r) (volA r) (volB r)
    (volC r) (volE r) (mixerTA r) (mixerTB r) (mixerTC r) (mixerNA r) v
    (mixerNC r) (pVolA r) (pVolB r) (pVolC r) (noiseStep r) (noisePos r)
    (rndRack r) (currentNoise r) (envStep r) (envPos r) (envPhase r)
    (envShape r) (specialEffect r) (bSyncBuzzer r) (syncBuzzerStep r)
    (syncBuzzerPhase r) (lowPassFilter r) (dcAdjust r).
Definition set_mixerNC (v : Z) (r : CYm2149Ex) : CYm2149Ex :=
  mkYm2149Ex (bFilter r) (replayFrequency r) (internalClock r) (registers r)
    (stepA r) (stepB r) (stepC r) (posA r) (posB r) (posC r) (volA r) (volB r)
    (volC r) (volE r) (mixerTA r) (mixerTB r) (mixerTC r) (mixerNA r)
    (mixerNB r) v (pVolA r) (pVolB r) (pVolC r) (noiseStep r) (noisePos r)
    (rndRack r) (currentNoise r) (envStep r) (envPos r) (envPhase r)
    (envShape r) (specialEffect r) (bSyncBuzzer r) (syncBuzzerStep r)
    (syncBuzzerPhase r) (lowPassFilter r) (dcAdjust r).
Definition set_pVolA (v : VolPtr) (r : CYm2149Ex) : CYm2149Ex :=
  mkYm2149Ex (bFilter r) (replayFrequency r) (internalClock r) (registers r)
    (stepA r) (stepB r) (stepC r) (posA r) (posB r) (posC r) (volA r) (volB r)
    (volC r) (volE r) (mixerTA r) (mixerTB r) (mixerTC r) (mixerNA r)
    (mixerNB r) (mixerNC r) v (pVolB r) (pVolC r) (noiseStep r) (noisePos r)
    (rndRack r) (currentNoise r) (envStep r) (envPos r) (envPhase r)
    (envShape r) (specialEffect r) (bSyncBuzzer r) (syncBuzzerStep r)
    (syncBuzzerPhase r) (lowPassFilter r) (dcAdjust r).
Definition set_pVolB (v : VolPtr) (r : CYm2149Ex) : CYm2149Ex :=
  mkYm2149Ex (bFilter r) (replayFrequency r) (internalClock r) (registers r)
    (stepA r) (stepB r) (stepC r) (posA r) (posB r) (posC r) (volA r) (volB r)
    (volC r) (volE r) (mixerTA r) (mixerTB r) (mixerTC r) (mixerNA r)
    (mixerNB r) (mixerNC r) (pVolA r) v (pVolC r) (noiseStep r) (noisePos r)
    (rndRack r) (currentNoise r) (envStep r) (envPos r) (envPhase r)
    (envShape r) (specialEffect r) (bSyncBuzzer r) (syncBuzzerStep r)
    (syncBuzzerPhase r) (lowPassFilter r) (dcAdjust r).
Definition set_pVolC (v : VolPtr) (r : CYm2149Ex) : CYm2149Ex :=
  mkYm2149Ex (bFilter r) (replayFrequency r) (internalClock r) (registers r)
    (stepA r) (stepB r) (stepC r) (posA r) (posB r) (posC r) (volA r) (volB r)
    (volC r) (volE r) (mixerTA r) (mixerTB r) (mixerTC r) (mixerNA r)
    (mixerNB r) (mixerNC r) (pVolA r) (pVolB r) v (noiseStep r) (noisePos r)
    (rndRack r) (currentNoise r) (envStep r) (envPos r) (envPhase r)
    (envShape r) (specialEffect r) (bSyncBuzzer r) (syncBuzzerStep r)
    (syncBuzzerPhase r) (lowPassFilter r) (dcAdjust r).
Definition set_noiseStep (v : Z) (r : CYm2149Ex) : CYm2149Ex :=
  mkYm2149Ex (bFilter r) (replayFrequency r) (internalClock r) (registers r)
    (stepA r) (stepB r) (stepC r) (posA r) (posB r) (posC r) (volA r) (volB r)
    (volC r) (volE r) (mixerTA r) (mixerTB r) (mixerTC r) (mixerNA r)
    (mixerNB r) (mixerNC r) (pVolA r) (pVolB r) (pVolC r) v (noisePos r)
    (rndRack r) (currentNoise r) (envStep r) (envPos r) (envPhase r)
    (envShape r) (specialEffect r) (bSyncBuzzer r) (syncBuzzerStep r)
    (syncBuzzerPhase r) (lowPassFilter r) (dcAdjust r).
Definition set_noisePos (v : Z) (r : CYm2149Ex) : CYm2149Ex :=
  mkYm2149Ex (bFilter r) (replayFrequency r) (internalClock r) (registers r)
    (stepA r) (stepB r) (stepC r) (posA r) (posB r) (posC r) (volA r) (volB r)
    (volC r) (volE r) (mixerTA r) (mixerTB r) (mixerTC r) (mixerNA r)
    (mixerNB r) (mixerNC r) (pVolA r) (pVolB r) (pVolC r) (noiseStep r) v
    (rndRack r) (currentNoise r) (envStep r) (envPos r) (envPhase r)
    (envShape r) (specialEffect r) (bSyncBuzzer r) (syncBuzzerStep r)
    (syncBuzzerPhase r) (lowPassFilter r) (dcAdjust r).
Definition set_rndRack (v : Z) (r : CYm2149Ex) : CYm2149Ex :=
  mkYm2149Ex (bFilter r) (replayFrequency r) (internalClock r) (registers r)
    (stepA r) (stepB r) (stepC r) (posA r) (posB r) (posC r) (volA r) (volB r)
    (volC r) (volE r) (mixerTA r) (mixerTB r) (mixerTC r) (mixerNA r)
    (mixerNB r) (mixerNC r) (pVolA r) (pVolB r) (pVolC r) (noiseStep r)
    (noisePos r) v (currentNoise r) (envStep r) (envPos r) (envPhase r)
    (envShape r) (specialEffect r) (bSyncBuzzer r) (syncBuzzerStep r)
    (syncBuzzerPhase r) (lowPassFilter r) (dcAdjust r).
Definition set_currentNoise (v : Z) (r : CYm2149Ex) : CYm2149Ex :=
  mkYm2149Ex (bFilter r) (replayFrequency r) (internalClock r) (registers r)
    (stepA r) (stepB r) (stepC r) (posA r) (posB r) (posC r) (volA r) (volB r)
    (volC r) (volE r) (mixerTA r) (mixerTB r) (mixerTC r) (mixerNA r)
    (mixerNB r) (mixerNC r) (pVolA r) (pVolB r) (pVolC r) (noiseStep r)
    (noisePos r) (rndRack r) v (envStep r) (envPos r) (envPhase r)
    (envShape r) (specialEffect r) (bSyncBuzzer r) (syncBuzzerStep r)
    (syncBuzzerPhase r) (lowPassFilter r) (dcAdjust r).
Definition set_envStep (v : Z) (r : CYm2149Ex) : CYm2149Ex :=
  mkYm2149Ex (bFilter r) (replayFrequency r) (internalClock r) (registers r)
    (stepA r) (stepB r) (stepC r) (posA r) (posB r) (posC r) (volA r) (volB r)
    (volC r) (volE r) (mixerTA r) (mixerTB r) (mixerTC r) (mixerNA r)
    (mixerNB r) (mixerNC r) (pVolA r) (pVolB r) (pVolC r) (noiseStep r)
    (noisePos r) (rndRack r) (currentNoise r) v (envPos r) (envPhase r)
    (envShape r) (specialEffect r) (bSyncBuzzer r) (syncBuzzerStep r)
    (syncBuzzerPhase r) (lowPassFilter r) (dcAdjust r).
Definition set_envPos (v : Z) (r : CYm2149Ex) : CYm2149Ex :=
  mkYm2149Ex (bFilter r) (replayFrequency r) (internalClock r) (registers r)
    (stepA r) (stepB r) (stepC r) (posA r) (posB r) (posC r) (volA r) (volB r)
    (volC r) (volE r) (mixerTA r) (mixerTB r) (mixerTC r) (mixerNA r)
    (mixerNB r) (mixerNC r) (pVolA r) (pVolB r) (pVolC r) (noiseStep r)
    (noisePos r) (rndRack r) (currentNoise r) (envStep r) v (envPhase r)
    (envShape r) (specialEffect r) (bSyncBuzzer r) (syncBuzzerStep r)
    (syncBuzzerPhase r) (lowPassFilter r) (dcAdjust r).
Definition set_envPhase (v : Z) (r : CYm2149Ex) : CYm2149Ex :=
  mkYm2149Ex (bFilter r) (replayFrequency r) (internalClock r) (registers r)
    (stepA r) (stepB r) (stepC r) (posA r) (posB r) (posC r) (volA r) (volB r)
    (volC r) (volE r) (mixerTA r) (mixerTB r) (mixerTC r) (mixerNA r)
    (mixerNB r) (mixerNC r) (pVolA r) (pVolB r) (pVolC r) (noiseStep r)
    (noisePos r) (rndRack r) (currentNoise r) (envStep r) (envPos r) v
    (envShape r) (specialEffect r) (bSyncBuzzer r) (syncBuzzerStep r)
    (syncBuzzerPhase r) (lowPassFilter r) (dcAdjust r).
Definition set_envShape (v : Z) (r : CYm2149Ex) : CYm2149Ex :=
  mkYm2149Ex (bFilter r) (replayFrequency r) (internalClock r) (registers r)
    (stepA r) (stepB r) (stepC r) (posA r) (posB r) (posC r) (volA r) (volB r)
    (volC r) (volE r) (mixerTA r) (mixerTB r) (mixerTC r) (mixerNA r)
    (mixerNB r) (mixerNC r) (pVolA r) (pVolB r) (pVolC r) (noiseStep r)
    (noisePos r) (rndRack r) (currentNoise r) (envStep r) (envPos r)
    (envPhase r) v (specialEffect r) (bSyncBuzzer r) (syncBuzzerStep r)
    (syncBuzzerPhase r) (lowPassFilter r) (dcAdjust r).
Definition set_specialEffect (v : list YmSpecialEffect) (r : CYm2149Ex) : CYm2149Ex :=
  mkYm2149Ex (bFilter r) (replayFrequency r) (internalClock r) (registers r)
    (stepA r) (stepB r) (stepC r) (posA r) (posB r) (posC r) (volA r) (volB r)
    (volC r) (volE r) (mixerTA r) (mixerTB r) (mixerTC r) (mixerNA r)
    (mixerNB r) (mixerNC r) (pVolA r) (pVolB r) (pVolC r) (noiseStep r)
    (noisePos r) (rndRack r) (currentNoise r) (envStep r) (envPos r)
    (envPhase r) (envShape r) v (bSyncBuzzer r) (syncBuzzerStep r)
    (syncBuzzerPhase r) (lowPassFilter r) (dcAdjust r).
Definition set_bSyncBuzzer (v : bool) (r : CYm2149Ex) : CYm2149Ex :=
  mkYm2149Ex (bFilter r) (replayFrequency r) (internalClock r) (registers r)
    (stepA r) (stepB r) (stepC r) (posA r) (posB r) (posC r) (volA r) (volB r)
    (volC r) (volE r) (mixerTA r) (mixerTB r) (mixerTC r) (mixerNA r)
    (mixerNB r) (mixerNC r) (pVolA r) (pVolB r) (pVolC r) (noiseStep r)
    (noisePos r) (rndRack r) (currentNoise r) (envStep r) (envPos r)
    (envPhase r) (envShape r) (specialEffect r) v (syncBuzzerStep r)
    (syncBuzzerPhase r) (lowPassFilter r) (dcAdjust r).
Definition set_syncBuzzerStep (v : Z) (r : CYm2149Ex) : CYm2149Ex :=
  mkYm2149Ex (bFilter r) (replayFrequency r) (internalClock r) (registers r)
    (stepA r) (stepB r) (stepC r) (posA r) (posB r) (posC r) (volA r) (volB r)
    (volC r) (volE r) (mixerTA r) (mixerTB r) (mixerTC r) (mixerNA r)
    (mixerNB r) (mixerNC r) (pVolA r) (pVolB r) (pVolC r) (noiseStep r)
    (noisePos r) (rndRack r) (currentNoise r) (envStep r) (envPos r)
    (envPhase r) (envShape r) (specialEffect r) (bSyncBuzzer r) v
    (syncBuzzerPhase r) (lowPassFilter r) (dcAdjust r).
Definition set_syncBuzzerPhase (v : Z) (r : CYm2149Ex) : CYm2149Ex :=
  mkYm2149Ex (bFilter r) (replayFrequency r) (internalClock r) (registers r)
    (stepA r) (stepB r) (stepC r) (posA r) (posB r) (posC r) (volA r) (volB r)
    (volC r) (volE r) (mixerTA r) (mixerTB r) (mixerTC r) (mixerNA r)
    (mixerNB r) (mixerNC r) (pVolA r) (pVolB r) (pVolC r) (noiseStep r)
    (noisePos r) (rndRack r) (currentNoise r) (envStep r) (envPos r)
    (envPhase r) (envShape r) (specialEffect r) (bSyncBuzzer r)
    (syncBuzzerStep r) v (lowPassFilter r) (dcAdjust r).
Definition set_lowPassFilter (v : Z * Z) (r : CYm2149Ex) : CYm2149Ex :=
  mkYm2149Ex (bFilter r) (replayFrequency r) (internalClock r) (registers r)
    (stepA r) (stepB r) (stepC r) (posA r) (posB r) (posC r) (volA r) (volB r)
    (volC r) (volE r) (mixerTA r) (mixerTB r) (mixerTC r) (mixerNA r)
    (mixerNB r) (mixerNC r) (pVolA r) (pVolB r) (pVolC r) (noiseStep r)
    (noisePos r) (rndRack r) (currentNoise r) (envStep r) (envPos r)
    (envPhase r) (envShape r) (specialEffect r) (bSyncBuzzer r)
    (syncBuzzerStep r) (syncBuzzerPhase r) v (dcAdjust r).
Definition set_dcAdjust (v : DcAdjuster) (r : CYm2149Ex) : CYm2149Ex :=
  mkYm2149Ex (bFilter r) (replayFrequency r) (internalClock r) (registers r)
    (stepA r) (stepB r) (stepC r) (posA r) (posB r) (posC r) (volA r) (volB r)
    (volC r) (volE r) (mixerTA r) (mixerTB r) (mixerTC r) (mixerNA r)
    (mixerNB r) (mixerNC r) (pVolA r) (pVolB r) (pVolC r) (noiseStep r)
    (noisePos r) (rndRack r) (currentNoise r) (envStep r) (envPos r)
    (envPhase r) (envShape r) (specialEffect r) (bSyncBuzzer r)
    (syncBuzzerStep r) (syncBuzzerPhase r) (lowPassFilter r) v.

Definition NewDcAdjuster : DcAdjuster := mkDcAdjuster (repeat 0 512%nat) 0 0.

Definition Dc_Reset (d : DcAdjuster) : DcAdjuster :=
  mkDcAdjuster (repeat 0 512%nat) 0 0.

Definition AddSample (sample : Z) (d : DcAdjuster) : DcAdjuster :=
  let sum := s32 (dc_sum d - tab (dc_buffer d) (dc_pos d)) in
  let sum := s32 (sum + sample) in
  mkDcAdjuster (<[Z.to_nat (dc_pos d) := sample]> (dc_buffer d))
               (Z.land (dc_pos d + 1) (DC_ADJUST_BUFFERLEN - 1))
               sum.

Definition GetDcLevel (d : DcAdjuster) : Z := sdiv (dc_sum d) DC_ADJUST_BUFFERLEN.

(** *** Envelope table ([initEnvelopeData]) *)

Definition envClamp (val : Z) : Z :=
  if val <? 0 then 0 else if val >? 15 then 15 else val.

Definition envStore (t : list (list Z)) (phase pEnv val : Z) : list (list Z) :=
  <[Z.to_nat phase := <[Z.to_nat pEnv := val]> (nth (Z.to_nat phase) t [])]> t.

(** The loop [for i := 0; i < 16; i++] of one phase; the state is
    [(a, pEnv, envData[env])]. *)
Fixpoint envInner (n : nat) (phase d : Z) (s : Z * Z * list (list Z))
  : Z * Z * list (list Z) :=
  match n with
  | O => s
  | S n' =>
      let '(a, pEnv, t) := s in
      let val := a in
      let a := a + d in
      let val := envClamp val in
      if phase <? 2
      then envInner n' phase d (a, pEnv + 1, envStore t phase pEnv (u8 val))
      else envInner n' phase d (a, pEnv, t)
  end.

(** The loop [for phase := 0; phase < 4; phase++] for one shape [pse]. *)
Fixpoint envPhases (n : nat) (phase : Z) (pse : list Z) (pEnv : Z)
    (t : list (list Z)) : list (list Z) :=
  match n with
  | O => t
  | S n' =>
      let a := tab pse (phase * 2) in
      let b := tab pse (phase * 2 + 1) in
      let d := b - a in
      let a := a * 15 in
      let '(_, pEnv, t) := envInner 16 phase d (a, pEnv, t) in
      let pEnv := if phase =? 1 then 0 else pEnv in
      envPhases n' (phase + 1) pse pEnv t
  end.

Definition initEnvelopeData : list (list (list Z)) :=
  map (fun pse => envPhases 4 0 pse 0 (repeat (repeat 0 32%nat) 2%nat)) envWave.

(** [envData]: 16 shapes, 2 phases, 32 steps. *)
Definition envData : list (list (list Z)) := Eval vm_compute in initEnvelopeData.

Definition envDataAt (shape phase pos : Z) : Z :=
  tab (nth (Z.to_nat phase) (nth (Z.to_nat shape) envData []) []) pos.

(** *** Step computations *)

Definition toneStepCompute (ym : CYm2149Ex) (rHigh rLow : Z) : exec Z :=
  let per := s32 (Z.land rHigh 15) in
  let per := s32 (Z.shiftl per 8 + s32 rLow) in
  if per <=? 5 then Ret 0
  else
    let step := s64 (internalClock ym) in
    let step := s64 (Z.shiftl step (15 + 16 - 3)) in
    let d := s64 (s32 (per * replayFrequency ym)) in
    if d =? 0 then Panic
    else Ret (u32 (s64 (sdiv step d))).

Definition noiseStepCompute (ym : CYm2149Ex) (rNoise : Z) : exec Z :=
  let per := s32 (Z.land rNoise 31) in
  if per <? 3 then Ret 0
  else
    let step := s64 (internalClock ym) in
    let step := s64 (Z.shiftl step (16 - 1 - 3)) in
    let d := s64 (s32 (per * replayFrequency ym)) in
    if d =? 0 then Panic
    else Ret (u32 (s64 (sdiv step d))).

Definition envStepCompute (ym : CYm2149Ex) (rHigh rLow : Z) : exec Z :=
  let per := s32 rHigh in
  let per := s32 (Z.shiftl per 8 + s32 rLow) in
  if per <? 3 then Ret 0
  else
    let step := s64 (internalClock ym) in
    let step := s64 (Z.shiftl step (16 + 16 - 9)) in
    let d := s64 (s32 (per * replayFrequency ym)) in
    if d =? 0 then Panic
    else Ret (u32 (s64 (sdiv step d))).

(** Advances the 17-bit LFSR and returns the noise mask. *)
Definition rndCompute (ym : CYm2149Ex) : CYm2149Ex * Z :=
  let rBit := Z.lxor (Z.land (rndRack ym) 1) (Z.land (Z.shiftr (rndRack ym) 2) 1) in
  let ym := set_rndRack (u32 (Z.lor (Z.shiftr (rndRack ym) 1) (u32 (Z.shiftl rBit 16)))) ym in
  if negb (rBit =? 0) then (ym, 0) else (ym, 65535).

Definition SetClock (clock : Z) (ym : CYm2149Ex) : CYm2149Ex :=
  set_internalClock clock ym.

Definition SetFilter (b : bool) (ym : CYm2149Ex) : CYm2149Ex :=
  set_bFilter b ym.

Definition mixerBit (data : Z) (bit : Z) : Z :=
  if testmask data (Z.shiftl 1 bit) then 65535 else 0.

Definition setReg (i : nat) (v : Z) (ym : CYm2149Ex) : CYm2149Ex :=
  set_registers (<[i := v]> (registers ym)) ym.

Definition reg (ym : CYm2149Ex) (i : nat) : Z := nth i (registers ym) 0.

(** *** Register writes ([WriteRegister]); [vt] is the current [ymVolumeTable]. *)
Definition WriteRegister (vt : list Z) (r data : Z) (ym : CYm2149Ex)
  : exec CYm2149Ex :=
  match r with
  | 0 =>
      let ym := setReg 0 (u8 (Z.land data 255)) ym in
      step ← toneStepCompute ym (reg ym 1) (reg ym 0);
      let ym := set_stepA step ym in
      Ret (if stepA ym =? 0 then set_posA (Z.shiftl 1 31) ym else ym)
  | 1 =>
      let ym := setReg 1 (u8 (Z.land data 15)) ym in
      step ← toneStepCompute ym (reg ym 1) (reg ym 0);
      let ym := set_stepA step ym in
      Ret (if stepA ym =? 0 then set_posA (Z.shiftl 1 31) ym else ym)
  | 2 =>
      let ym := setReg 2 (u8 (Z.land data 255)) ym in
      step ← toneStepCompute ym (reg ym 3) (reg ym 2);
      let ym := set_stepB step ym in
      Ret (if stepB ym =? 0 then set_posB (Z.shiftl 1 31) ym else ym)
  | 3 =>
      let ym := setReg 3 (u8 (Z.land data 15)) ym in
      step ← toneStepCompute ym (reg ym 3) (reg ym 2);
      let ym := set_stepB step ym in
      Ret (if stepB ym =? 0 then set_posB (Z.shiftl 1 31) ym else ym)
  | 4 =>
      let ym := setReg 4 (u8 (Z.land data 255)) ym in
      step ← toneStepCompute ym (reg ym 5) (reg ym 4);
      let ym := set_stepC step ym in
      Ret (if stepC ym =? 0 then set_posC (Z.shiftl 1 31) ym else ym)
  | 5 =>
      let ym := setReg 5 (u8 (Z.land data 15)) ym in
      step ← toneStepCompute ym (reg ym 5) (reg ym 4);
      let ym := set_stepC step ym in
      Ret (if stepC ym =? 0 then set_posC (Z.shiftl 1 31) ym else ym)
  | 6 =>
      let ym := setReg 6 (u8 (Z.land data 31)) ym in
      step ← noiseStepCompute ym (reg ym 6);
      let ym := set_noiseStep step ym in
      Ret (if noiseStep ym =? 0
           then set_currentNoise 65535 (set_noisePos 0 ym) else ym)
  | 7 =>
      let ym := setReg 7 (u8 (Z.land data 255)) ym in
      let ym := set_mixerTA (mixerBit data 0) ym in
      let ym := set_mixerTB (mixerBit data 1) ym in
      let ym := set_mixerTC (mixerBit data 2) ym in
      let ym := set_mixerNA (mixerBit data 3) ym in
      let ym := set_mixerNB (mixerBit data 4) ym in
      let ym := set_mixerNC (mixerBit data 5) ym in
      Ret ym
  | 8 =>
      let ym := setReg 8 (u8 (Z.land data 31)) ym in
      let ym := set_volA (tab vt (Z.land data 15)) ym in
      Ret (set_pVolA (if testmask data 16 then PtrEnv else PtrVol) ym)
  | 9 =>
      let ym := setReg 9 (u8 (Z.land data 31)) ym in
      let ym := set_volB (tab vt (Z.land data 15)) ym in
      Ret (set_pVolB (if testmask data 16 then PtrEnv else PtrVol) ym)
  | 10 =>
      let ym := setReg 10 (u8 (Z.land data 31)) ym in
      let ym := set_volC (tab vt (Z.land data 15)) ym in
      Ret (set_pVolC (if testmask data 16 then PtrEnv else PtrVol) ym)
  | 11 =>
      let ym := setReg 11 (u8 (Z.land data 255)) ym in
      step ← envStepCompute ym (reg ym 12) (reg ym 11);
      Ret (set_envStep step ym)
  | 12 =>
      let ym := setReg 12 (u8 (Z.land data 255)) ym in
      step ← envStepCompute ym (reg ym 12) (reg ym 11);
      Ret (set_envStep step ym)
  | 13 =>
      let ym := setReg 13 (u8 (Z.land data 15)) ym in
      let ym := set_envPos 0 ym in
      let ym := set_envPhase 0 ym in
      Ret (set_envShape (Z.land data 15) ym)
  | _ => Ret ym
  end.

Definition ReadRegister (r : Z) (ym : CYm2149Ex) : Z :=
  if (0 <=? r) && (r <=? 13) then s32 (tab (registers ym) r) else -1.

(** *** Special effects *)

(** [ym.specialEffect[voice]] updated in place; the array has 3 slots. *)
Definition withEffect (voice : Z) (f : YmSpecialEffect -> YmSpecialEffect)
    (ym : CYm2149Ex) : exec CYm2149Ex :=
  fx ← index (specialEffect ym) voice;
  l ← store (specialEffect ym) voice (f fx);
  Ret (set_specialEffect l ym).

Definition DrumStop (voice : Z) (ym : CYm2149Ex) : exec CYm2149Ex :=
  withEffect voice (set_Drum false) ym.

Definition SidStop (voice : Z) (ym : CYm2149Ex) : exec CYm2149Ex :=
  withEffect voice (set_Sid false) ym.

Definition DrumStart (voice : Z) (pDrumBuffer : list Z) (drumSize drumFreq : Z)
    (ym : CYm2149Ex) : exec CYm2149Ex :=
  if (0 <? Z.of_nat (length pDrumBuffer)) && (0 <? drumSize) then
    ym ← withEffect voice (set_DrumData pDrumBuffer) ym;
    ym ← withEffect voice (set_DrumPos 0) ym;
    ym ← withEffect voice (set_DrumSize drumSize) ym;
    if replayFrequency ym =? 0 then Panic
    else
      let q := s32 (sdiv (s32 (Z.shiftl drumFreq DRUM_PREC)) (replayFrequency ym)) in
      ym ← withEffect voice (set_DrumStep (u32 q)) ym;
      withEffect voice (set_Drum true) ym
  else Ret ym.

(** [YmU32(timerFreq) * (YmU32(1) << 31) / YmU32(ym.replayFrequency)]: Go
    evaluates [*] and [/] left to right, in 32 unsigned bits. *)
Definition timerStep (ym : CYm2149Ex) (timerFreq : Z) : exec Z :=
  let prod := u32 (u32 timerFreq * u32 (Z.shiftl (u32 1) 31)) in
  if u32 (replayFrequency ym) =? 0 then Panic
  else Ret (prod / u32 (replayFrequency ym)).

Definition SidStart (voice timerFreq vol : Z) (ym : CYm2149Ex) : exec CYm2149Ex :=
  tmp ← timerStep ym timerFreq;
  ym ← withEffect voice (set_SidStep tmp) ym;
  ym ← withEffect voice (set_SidVol (Z.land vol 15)) ym;
  withEffect voice (set_Sid true) ym.

Definition SyncBuzzerStart (timerFreq envShape_ : Z) (ym : CYm2149Ex)
  : exec CYm2149Ex :=
  tmp ← timerStep ym timerFreq;
  let ym := set_envShape (Z.land envShape_ 15) ym in
  let ym := set_syncBuzzerStep tmp ym in
  let ym := set_syncBuzzerPhase 0 ym in
  Ret (set_bSyncBuzzer true ym).

Definition SyncBuzzerStop (ym : CYm2149Ex) : CYm2149Ex :=
  let ym := set_bSyncBuzzer false ym in
  let ym := set_syncBuzzerPhase 0 ym in
  set_syncBuzzerStep 0 ym.

Definition emptyEffect : YmSpecialEffect :=
  mkSpecialEffect false 0 [] 0 0 false 0 0 0.

(** [for i := 0; i < 14; i++ { ym.WriteRegister(YmInt(i), 0) }] *)
Fixpoint writeZeros (vt : list Z) (n : nat) (r : Z) (ym : CYm2149Ex)
  : exec CYm2149Ex :=
  match n with
  | O => Ret ym
  | S n' => ym ← WriteRegister vt r 0 ym; writeZeros vt n' (r + 1) ym
  end.

Definition Reset (vt : list Z) (ym : CYm2149Ex) : exec CYm2149Ex :=
  let ym := set_registers (repeat 0 14%nat) ym in
  ym ← writeZeros vt 14 0 ym;
  ym ← WriteRegister vt 7 255 ym;
  let ym := set_currentNoise 65535 ym in
  let ym := set_rndRack 1 ym in
  ym ← SidStop 0 ym;
  ym ← SidStop 1 ym;
  ym ← SidStop 2 ym;
  let ym := set_envShape 0 ym in
  let ym := set_envPhase 0 ym in
  let ym := set_envPos 0 ym in
  let ym := set_dcAdjust (Dc_Reset (dcAdjust ym)) ym in
  let ym := set_specialEffect (repeat emptyEffect 3%nat) ym in
  let ym := SyncBuzzerStop ym in
  Ret (set_lowPassFilter (0, 0) ym).

(** [*pVol = v] for the pointer [&ym.volA], [&ym.volB] or [&ym.volC] that
    [nextSample] passes for voice 0, 1, 2. *)
Definition setVoiceVol (target v : Z) (ym : CYm2149Ex) : CYm2149Ex :=
  match target with
  | 0 => set_volA v ym
  | 1 => set_volB v ym
  | _ => set_volC v ym
  end.

Definition sidVolumeCompute (vt : list Z) (voice target : Z) (ym : CYm2149Ex)
  : exec CYm2149Ex :=
  pVoice ← index (specialEffect ym) voice;
  if Sid pVoice then
    if testmask (SidPos pVoice) (Z.shiftl 1 31)
    then WriteRegister vt (s32 (8 + voice)) (SidVol pVoice) ym
    else WriteRegister vt (s32 (8 + voice)) 0 ym
  else if Drum pVoice then
    b ← index (DrumData pVoice) (Z.shiftr (DrumPos pVoice) DRUM_PREC);
    let ym := setVoiceVol target (s32 (sdiv (s32 (s32 b * 255)) 6)) ym in
    let ym :=
      match voice with
      | 0 => set_mixerNA 65535 (set_mixerTA 65535 (set_pVolA PtrVol ym))
      | 1 => set_mixerNB 65535 (set_mixerTB 65535 (set_pVolB PtrVol ym))
      | 2 => set_mixerNC 65535 (set_mixerTC 65535 (set_pVolC PtrVol ym))
      | _ => ym
      end in
    let pVoice := set_DrumPos (u32 (DrumPos pVoice + DrumStep pVoice)) pVoice in
    let pVoice :=
      if DrumSize pVoice <=? Z.shiftr (DrumPos pVoice) DRUM_PREC
      then set_Drum false pVoice else pVoice in
    l ← store (specialEffect ym) voice pVoice;
    Ret (set_specialEffect l ym)
  else Ret ym.

Definition LowPassFilter (inp : Z) (ym : CYm2149Ex) : CYm2149Ex * Z :=
  let '(lp0, lp1) := lowPassFilter ym in
  let out := Z.shiftr lp0 2 + Z.shiftr lp1 1 + Z.shiftr inp 2 in
  (set_lowPassFilter (lp1, inp) ym, out).

(** [*ym.pVolA], [*ym.pVolB], [*ym.pVolC]. *)
Definition derefA (ym : CYm2149Ex) : Z :=
  match pVolA ym with PtrVol => volA ym | PtrEnv => volE ym end.
Definition derefB (ym : CYm2149Ex) : Z :=
  match pVolB ym with PtrVol => volB ym | PtrEnv => volE ym end.
Definition derefC (ym : CYm2149Ex) : Z :=
  match pVolC ym with PtrVol => volC ym | PtrEnv => volE ym end.

(** [YmU32(YmS32(pos) >> 31)]: all ones when bit 31 of [pos] is set. *)
Definition signOf (pos : Z) : Z := u32 (Z.shiftr (s32 pos) 31).

(** The gated DAC output of one voice:
    [YmInt( *pVol ) & YmInt((sign | mixerT) & (bn | mixerN))]. *)
Definition voiceOut (vol pos mixerT bn mixerN : Z) : Z :=
  let bt := Z.land (Z.lor (signOf pos) mixerT) (Z.lor bn mixerN) in
  Z.land (s32 vol) (s32 bt).

(** The three voice contributions [volA], [volB], [volC] that [nextSample]
    sums, read off the state reached after the effect updates. *)
Definition voiceOutA (ym : CYm2149Ex) : Z :=
  voiceOut (derefA ym) (posA ym) (mixerTA ym) (currentNoise ym) (mixerNA ym).
Definition voiceOutB (ym : CYm2149Ex) : Z :=
  voiceOut (derefB ym) (posB ym) (mixerTB ym) (currentNoise ym) (mixerNB ym).
Definition voiceOutC (ym : CYm2149Ex) : Z :=
  voiceOut (derefC ym) (posC ym) (mixerTC ym) (currentNoise ym) (mixerNC ym).

(** The first half of [nextSample]: noise generator, envelope volume and the
    three effect slots.  The voices are mixed in the state this returns. *)
Definition sampleFront (vt : list Z) (ym : CYm2149Ex) : exec CYm2149Ex :=
  let ym :=
    if testmask (noisePos ym) 4294901760 then
      let '(ym, r) := rndCompute ym in
      let ym := set_currentNoise (u32 (Z.lxor (currentNoise ym) r)) ym in
      set_noisePos (Z.land (noisePos ym) 65535) ym
    else ym in
  let ym :=
    set_volE (tab vt (envDataAt (envShape ym) (envPhase ym)
                                (Z.shiftr (envPos ym) (32 - 5)))) ym in
  ym ← sidVolumeCompute vt 0 0 ym;
  ym ← sidVolumeCompute vt 1 1 ym;
  sidVolumeCompute vt 2 2 ym.

Definition bumpSid (fx : YmSpecialEffect) : YmSpecialEffect :=
  set_SidPos (u32 (SidPos fx + SidStep fx)) fx.

(** The second half of [nextSample]: phase accumulators, DC removal and the
    low-pass filter; [vol] is the sum of the three voices. *)
Definition sampleBack (vol : Z) (ym : CYm2149Ex) : exec (CYm2149Ex * Z) :=
  let ym := set_posA (u32 (posA ym + stepA ym)) ym in
  let ym := set_posB (u32 (posB ym + stepB ym)) ym in
  let ym := set_posC (u32 (posC ym + stepC ym)) ym in
  let ym := set_noisePos (u32 (noisePos ym + noiseStep ym)) ym in
  let ym := set_envPos (u32 (envPos ym + envStep ym)) ym in
  let ym :=
    if (envPhase ym =? 0) && (envPos ym <? envStep ym)
    then set_envPhase 1 ym else ym in
  let ym := set_syncBuzzerPhase (u32 (syncBuzzerPhase ym + syncBuzzerStep ym)) ym in
  let ym :=
    if testmask (syncBuzzerPhase ym) (Z.shiftl 1 31) then
      let ym := set_envPos 0 ym in
      let ym := set_envPhase 0 ym in
      set_syncBuzzerPhase (Z.land (syncBuzzerPhase ym) 2147483647) ym
    else ym in
  ym ← withEffect 0 bumpSid ym;
  ym ← withEffect 1 bumpSid ym;
  ym ← withEffect 2 bumpSid ym;
  let ym := set_dcAdjust (AddSample vol (dcAdjust ym)) ym in
  let inp := s32 (vol - GetDcLevel (dcAdjust ym)) in
  if bFilter ym then
    let '(ym, out) := LowPassFilter inp ym in Ret (ym, s16 out)
  else Ret (ym, s16 inp).

Definition nextSample (vt : list Z) (ym : CYm2149Ex) : exec (CYm2149Ex * Z) :=
  ym ← sampleFront vt ym;
  let vol := s32 (s32 (voiceOutA ym + voiceOutB ym) + voiceOutC ym) in
  sampleBack vol ym.

(** [for i := 0; i < nbSample; i++ { pSampleBuffer[i] = ym.nextSample() }],
    writing into [buf] from offset [i]. *)
Fixpoint updateFrom (vt : list Z) (n : nat) (i : Z) (ym : CYm2149Ex)
    (buf : list Z) : exec (CYm2149Ex * list Z) :=
  match n with
  | O => Ret (ym, buf)
  | S n' =>
      '(ym, s) ← nextSample vt ym;
      buf ← store buf i s;
      updateFrom vt n' (i + 1) ym buf
  end.

Definition Update (vt : list Z) (pSampleBuffer : list Z) (nbSample : Z)
    (ym : CYm2149Ex) : exec (CYm2149Ex * list Z) :=
  updateFrom vt (Z.to_nat nbSample) 0 ym pSampleBuffer.

(** [NewYm2149Ex]: scales the shared volume table once per process, then
    resets the chip. *)
Definition scaleVolumeTable (g : Globals) : Globals :=
  if negb (volumeTableInitialized g) && (tab (ymVolumeTable g) 15 =? 32767)
  then mkGlobals (map (fun v => s32 (sdiv (s32 (v * 2)) 6)) (ymVolumeTable g)) true
  else g.

Definition NewYm2149Ex (g : Globals) (masterClock prediv playRate : Z)
  : exec (Globals * CYm2149Ex) :=
  if u32 prediv =? 0 then Panic
  else
    let ym :=
      mkYm2149Ex true (s32 playRate) (masterClock / u32 prediv) (repeat 0 14%nat)
        0 0 0 0 0 0 0 0 0 0 0 0 0 0 0 0 PtrVol PtrVol PtrVol
        0 0 0 0 0 0 0 0 (repeat emptyEffect 3%nat) false 0 0 (0, 0)
        NewDcAdjuster in
    let g := scaleVolumeTable g in
    ym ← Reset (ymVolumeTable g) ym;
    Ret (g, ym).

End Ym2149.

(** ** The LZH unpacker (package lzh) *)

Module Lzh.

Definition CHAR_BIT : Z := 8.
Definition UCHAR_MAX : Z := 255.
Definition BITBUFSIZ : Z := 16.
Definition DICBIT : Z := 13.
Definition DICSIZ : Z := Z.shiftl 1 DICBIT.
Definition MAXMATCH : Z := 256.
Definition THRESHOLD : Z := 3.
Definition NC : Z := UCHAR_MAX + MAXMATCH + 2 - THRESHOLD.
Definition CBIT : Z := 9.
Definition CODE_BIT : Z := 16.
Definition NP : Z := DICBIT + 1.
Definition NT : Z := CODE_BIT + 3.
Definition PBIT : Z := 4.
Definition TBIT : Z := 5.
Definition NPT : Z := NT.
Definition BUFSIZE : Z := 4096.

(** The [Decoder] fields that the bit reader and the Huffman routines use:
    the input reader (the bytes not yet read), the bit buffer and the trees. *)
Record BitHuff : Type := mkBitHuff {
  input : list Z;  (* *bytes.Reader: unread bytes *)
  bitbuf : Z;  (* uint16 *)
  subbitbuf : Z;  (* uint8 *)
  bitcount : Z;  (* int *)
  fillbufsize : Z;  (* int *)
  fillbuf_i : Z;  (* int *)
  buf : list Z;  (* [BUFSIZE]byte *)
  left : list Z;  (* [2*NC-1]uint16 *)
  right : list Z;  (* [2*NC-1]uint16 *)
  c_len : list Z;  (* [NC]uint8 *)
  pt_len : list Z;  (* [NPT]uint8 *)
  c_table : list Z;  (* [4096]uint16 *)
  pt_table : list Z;  (* [256]uint16 *)
  blocksize : Z  (* uint16 *)
}.

Definition set_input (v : list Z) (r : BitHuff) : BitHuff :=
  mkBitHuff v (bitbuf r) (subbitbuf r) (bitcount r) (fillbufsize r)
    (fillbuf_i r) (buf r) (left r) (right r) (c_len r) (pt_len r) (c_table r)
    (pt_table r) (blocksize r).
Definition set_bitbuf (v : Z) (r : BitHuff) : BitHuff :=
  mkBitHuff (input r) v (subbitbuf r) (bitcount r) (fillbufsize r)
    (fillbuf_i r) (buf r) (left r) (right r) (c_len r) (pt_len r) (c_table r)
    (pt_table r) (blocksize r).
Definition set_subbitbuf (v : Z) (r : BitHuff) : BitHuff :=
  mkBitHuff (input r) (bitbuf r) v (bitcount r) (fillbufsize r) (fillbuf_i r)
    (buf r) (left r) (right r) (c_len r) (pt_len r) (c_table r) (pt_table r)
    (blocksize r).
Definition set_bitcount (v : Z) (r : BitHuff) : BitHuff :=
  mkBitHuff (input r) (bitbuf r) (subbitbuf r) v (fillbufsize r) (fillbuf_i r)
    (buf r) (left r) (right r) (c_len r) (pt_len r) (c_table r) (pt_table r)
    (blocksize r).
Definition set_fillbufsize (v : Z) (r : BitHuff) : BitHuff :=
  mkBitHuff (input r) (bitbuf r) (subbitbuf r) (bitcount r) v (fillbuf_i r)
    (buf r) (left r) (right r) (c_len r) (pt_len r) (c_table r) (pt_table r)
    (blocksize r).
Definition set_fillbuf_i (v : Z) (r : BitHuff) : BitHuff :=
  mkBitHuff (input r) (bitbuf r) (subbitbuf r) (bitcount r) (fillbufsize r) v
    (buf r) (left r) (right r) (c_len r) (pt_len r) (c_table r) (pt_table r)
    (blocksize r).
Definition set_buf (v : list Z) (r : BitHuff) : BitHuff :=
  mkBitHuff (input r) (bitbuf r) (subbitbuf r) (bitcount r) (fillbufsize r)
    (fillbuf_i r) v (left r) (right r) (c_len r) (pt_len r) (c_table r)
    (pt_table r) (blocksize r).
Definition set_left (v : list Z) (r : BitHuff) : BitHuff :=
  mkBitHuff (input r) (bitbuf r) (subbitbuf r) (bitcount r) (fillbufsize r)
    (fillbuf_i r) (buf r) v (right r) (c_len r) (pt_len r) (c_table r)
    (pt_table r) (blocksize r).
Definition set_right (v : list Z) (r : BitHuff) : BitHuff :=
  mkBitHuff (input r) (bitbuf r) (subbitbuf r) (bitcount r) (fillbufsize r)
    (fillbuf_i r) (buf r) (left r) v (c_len r) (pt_len r) (c_table r)
    (pt_table r) (blocksize r).
Definition set_c_len (v : list Z) (r : BitHuff) : BitHuff :=
  mkBitHuff (input r) (bitbuf r) (subbitbuf r) (bitcount r) (fillbufsize r)
    (fillbuf_i r) (buf r) (left r) (right r) v (pt_len r) (c_table r)
    (pt_table r) (blocksize r).
Definition set_pt_len (v : list Z) (r : BitHuff) : BitHuff :=
  mkBitHuff (input r) (bitbuf r) (subbitbuf r) (bitcount r) (fillbufsize r)
    (fillbuf_i r) (buf r) (left r) (right r) (c_len r) v (c_table r)
    (pt_table r) (blocksize r).
Definition set_c_table (v : list Z) (r : BitHuff) : BitHuff :=
  mkBitHuff (input r) (bitbuf r) (subbitbuf r) (bitcount r) (fillbufsize r)
    (fillbuf_i r) (buf r) (left r) (right r) (c_len r) (pt_len r) v
    (pt_table r) (blocksize r).
Definition set_pt_table (v : list Z) (r : BitHuff) : BitHuff :=
  mkBitHuff (input r) (bitbuf r) (subbitbuf r) (bitcount r) (fillbufsize r)
    (fillbuf_i r) (buf r) (left r) (right r) (c_len r) (pt_len r) (c_table r)
    v (blocksize r).
Definition set_blocksize (v : Z) (r : BitHuff) : BitHuff :=
  mkBitHuff (input r) (bitbuf r) (subbitbuf r) (bitcount r) (fillbufsize r)
    (fillbuf_i r) (buf r) (left r) (right r) (c_len r) (pt_len r) (c_table r)
    (pt_table r) v.

(** The remaining [Decoder] fields: the output buffer and the decode state. *)
Record Decoder : Type := mkDecoder {
  huff : BitHuff;
  output : list Z;      (* *bytes.Buffer: the bytes written so far *)
  decode_j : Z;         (* int *)
  decode_i : Z;         (* uint32 *)
  outbuf : list Z       (* [DICSIZ]uint8 *)
}.

Definition uint8 (x : Z) : Z := x mod 2^8.
Definition uint16 (x : Z) : Z := x mod 2^16.
Definition uint32 (x : Z) : Z := x mod 2^32.

(** [x << n] and [x >> n] with a signed count: Go panics on a negative one. *)
Definition shl (x n : Z) : exec Z := if n <? 0 then Panic else Ret (Z.shiftl x n).
Definition shr (x n : Z) : exec Z := if n <? 0 then Panic else Ret (Z.shiftr x n).

(** [d.input.Read(d.buf[:BUFSIZE-32])]: copies what is left, at most
    [BUFSIZE-32] bytes, to the front of [buf]. *)
Definition refill (d : BitHuff) : BitHuff :=
  let chunk := take (Z.to_nat (BUFSIZE - 32)) (input d) in
  let d := set_buf (chunk ++ drop (length chunk) (buf d)) d in
  let d := set_input (drop (Z.to_nat (BUFSIZE - 32)) (input d)) d in
  set_fillbufsize (Z.of_nat (length chunk)) d.

(** The loop [for n > d.bitcount] of [fillbuf]. *)
Fixpoint fillbufLoop (fuel : nat) (n : Z) (d : BitHuff) : exec (Z * BitHuff) :=
  if n >? bitcount d then
    match fuel with
    | O => OutOfFuel
    | S fuel' =>
        s ← shl (uint16 (subbitbuf d)) (n - bitcount d);
        let d := set_bitbuf (Z.lor (bitbuf d) (uint16 s)) d in
        let n := n - bitcount d in
        let d := if fillbufsize d =? 0 then refill (set_fillbuf_i 0 d) else d in
        d ← (if fillbufsize d >? 0 then
               let d := set_fillbufsize (fillbufsize d - 1) d in
               b ← index (buf d) (fillbuf_i d);
               Ret (set_fillbuf_i (fillbuf_i d + 1) (set_subbitbuf b d))
             else Ret (set_subbitbuf 0 d));
        fillbufLoop fuel' n (set_bitcount CHAR_BIT d)
    end
  else Ret (n, d).

Definition fillbuf (n : Z) (d : BitHuff) : exec BitHuff :=
  s ← shl (bitbuf d) n;
  let d := set_bitbuf (Z.land (uint16 s) 65535) d in
  '(n, d) ← fillbufLoop (S (Z.to_nat n)) n d;
  let d := set_bitcount (bitcount d - n) d in
  s ← shr (uint16 (subbitbuf d)) (bitcount d);
  Ret (set_bitbuf (Z.lor (bitbuf d) s) d).

Definition getbits (n : Z) (d : BitHuff) : exec (Z * BitHuff) :=
  x ← shr (bitbuf d) (BITBUFSIZ - n);
  d ← fillbuf n d;
  Ret (x, d).

Definition init_getbits (d : BitHuff) : exec BitHuff :=
  let d := set_bitbuf 0 d in
  let d := set_subbitbuf 0 d in
  let d := set_bitcount 0 d in
  let d := set_fillbufsize 0 d in
  fillbuf BITBUFSIZ d.

(** *** [make_table] *)

(** Which table [make_table] builds: [pt_table] from [pt_len], or [c_table]
    from [c_len] (its two calls). *)
Inductive Which : Type := PT | CT.

Definition tableOf (w : Which) (d : BitHuff) : list Z :=
  match w with PT => pt_table d | CT => c_table d end.
Definition set_tableOf (w : Which) (t : list Z) (d : BitHuff) : BitHuff :=
  match w with PT => set_pt_table t d | CT => set_c_table t d end.
Definition bitlenOf (w : Which) (d : BitHuff) : list Z :=
  match w with PT => pt_len d | CT => c_len d end.

(** The pointer [p] of [make_table]: into [table], [d.left] or [d.right]. *)
Inductive Ptr : Type := InTable (i : Z) | InLeft (i : Z) | InRight (i : Z).

Definition load (w : Which) (p : Ptr) (d : BitHuff) : exec Z :=
  match p with
  | InTable i => index (tableOf w d) i
  | InLeft i => index (left d) i
  | InRight i => index (right d) i
  end.

Definition poke (w : Which) (p : Ptr) (v : Z) (d : BitHuff) : exec BitHuff :=
  match p with
  | InTable i => t ← store (tableOf w d) i v; Ret (set_tableOf w t d)
  | InLeft i => t ← store (left d) i v; Ret (set_left t d)
  | InRight i => t ← store (right d) i v; Ret (set_right t d)
  end.

(** [for i := 0; i < nchar; i++ { if 0 < bitlen[i] <= 16 { count[bitlen[i]]++ } }] *)
Fixpoint countLens (n : nat) (i : Z) (bitlen count : list Z) : exec (list Z) :=
  match n with
  | O => Ret count
  | S n' =>
      b ← index bitlen i;
      count ← (if (b >? 0) && (b <=? 16)
               then c ← index count b; store count b (uint16 (c + 1))
               else Ret count);
      countLens n' (i + 1) bitlen count
  end.

(** [for i := 1; i <= 16; i++ { start[i+1] = start[i] + (count[i] << (16 - i)) }] *)
Fixpoint startCodes (n : nat) (i : Z) (count start : list Z) : exec (list Z) :=
  match n with
  | O => Ret start
  | S n' =>
      s ← index start i;
      c ← index count i;
      start ← store start (i + 1) (uint16 (s + uint16 (Z.shiftl c (16 - i))));
      startCodes n' (i + 1) count start
  end.

(** [for i := 1; i <= tablebits; i++ { start[i] >>= jutbits; weight[i] = 1 << (tablebits - i) }] *)
Fixpoint shortWeights (n : nat) (i tablebits jutbits : Z) (start weight : list Z)
  : exec (list Z * list Z) :=
  match n with
  | O => Ret (start, weight)
  | S n' =>
      s ← index start i;
      start ← store start i (Z.shiftr s jutbits);
      weight ← store weight i (uint16 (Z.shiftl 1 (tablebits - i)));
      shortWeights n' (i + 1) tablebits jutbits start weight
  end.

(** [for i := tablebits + 1; i <= 16; i++ { weight[i] = 1 << (16 - i) }] *)
Fixpoint longWeights (n : nat) (i : Z) (weight : list Z) : exec (list Z) :=
  match n with
  | O => Ret weight
  | S n' =>
      weight ← store weight i (uint16 (Z.shiftl 1 (16 - i)));
      longWeights n' (i + 1) weight
  end.

(** [for ; j < k && j < len(table); j++ { table[j] = v }] *)
Fixpoint fillRange (n : nat) (j k v : Z) (t : list Z) : list Z :=
  match n with
  | O => t
  | S n' =>
      if (j <? k) && (j <? Z.of_nat (length t))
      then fillRange n' (j + 1) k v (<[Z.to_nat j := v]> t)
      else t
  end.

(** The loop [for remaining > 0] that threads a long code through the tree;
    the state is [(p, k, avail, remaining, d)]. *)
Fixpoint treeInsert (n : nat) (w : Which) (mask : Z) (p : Ptr) (k avail : Z)
    (d : BitHuff) : exec (Ptr * Z * nat * BitHuff) :=
  match n with
  | O => Ret (p, avail, O, d)
  | S n' =>
      v ← load w p d;
      r ← (if v =? 0 then
             if Z.of_nat (length (left d)) <=? avail then Ret (None : option (Z * BitHuff))
             else
               t ← store (right d) avail 0;
               let d := set_right t d in
               t ← store (left d) avail 0;
               let d := set_left t d in
               d ← poke w p avail d;
               Ret (Some (uint16 (avail + 1), d))
           else Ret (Some (avail, d)));
      match r with
      | None => Ret (p, avail, n, d)
      | Some (avail, d) =>
          v ← load w p d;
          if Z.of_nat (length (left d)) <=? v then Ret (p, avail, n, d)
          else
            let p := if negb (Z.land k mask =? 0) then InRight v else InLeft v in
            treeInsert n' w mask p (uint16 (Z.shiftl k 1)) avail d
      end
  end.

(** The loop [for ch := 0; ch < nchar; ch++] of [make_table]. *)
Fixpoint assignCodes (n : nat) (w : Which) (ch tablebits : Z)
    (start weight : list Z) (avail : Z) (d : BitHuff) : exec BitHuff :=
  match n with
  | O => Ret d
  | S n' =>
      b ← index (bitlenOf w d) ch;
      let bitLength := b in
      if bitLength =? 0 then
        assignCodes n' w (ch + 1) tablebits start weight avail d
      else
        s ← index start bitLength;
        wt ← index weight bitLength;
        let nextcode := uint16 (s + wt) in
        let jutbits := 16 - tablebits in
        let mask := uint16 (Z.shiftl 1 (15 - tablebits)) in
        if bitLength <=? tablebits then
          let t := fillRange (Z.to_nat (nextcode - s)) s nextcode (uint16 ch)
                             (tableOf w d) in
          let d := set_tableOf w t d in
          start ← store start bitLength nextcode;
          assignCodes n' w (ch + 1) tablebits start weight avail d
        else
          let k := s in
          let idx := Z.shiftr k jutbits in
          if Z.of_nat (length (tableOf w d)) <=? idx then
            assignCodes n' w (ch + 1) tablebits start weight avail d
          else
            '(p, avail, remaining, d) ←
              treeInsert (Z.to_nat (bitLength - tablebits)) w mask
                         (InTable idx) k avail d;
            d ← (match remaining with
                 | O => poke w p (uint16 ch) d
                 | S _ => Ret d
                 end);
            start ← store start bitLength nextcode;
            assignCodes n' w (ch + 1) tablebits start weight avail d
  end.

Definition make_table (nchar : Z) (w : Which) (tablebits : Z) (d : BitHuff)
  : exec BitHuff :=
  let count := repeat 0 17%nat in
  let weight := repeat 0 17%nat in
  let start := repeat 0 18%nat in
  count ← countLens (Z.to_nat nchar) 0 (bitlenOf w d) count;
  start ← store start 1 0;
  start ← startCodes 16 1 count start;
  let jutbits := 16 - tablebits in
  '(start, weight) ← shortWeights (Z.to_nat tablebits) 1 tablebits jutbits start weight;
  weight ← longWeights (Z.to_nat (16 - tablebits)) (tablebits + 1) weight;
  s ← index start (tablebits + 1);
  let i := Z.shiftr s jutbits in
  let d :=
    if negb (i =? 0) && (i <? Z.shiftl 1 16) then
      let k := Z.shiftl 1 tablebits in
      set_tableOf w (fillRange (Z.to_nat (k - i)) i k 0 (tableOf w d)) d
    else d in
  assignCodes (Z.to_nat nchar) w 0 tablebits start weight (uint16 nchar) d.

(** *** Code-length tables *)

(** [for (mask & d.bitbuf) != 0 { mask >>= 1; c++ }] *)
Fixpoint countOnes (fuel : nat) (mask c : Z) (d : BitHuff) : exec Z :=
  if negb (Z.land mask (bitbuf d) =? 0) then
    match fuel with
    | O => OutOfFuel
    | S fuel' => countOnes fuel' (Z.shiftr mask 1) (c + 1) d
    end
  else Ret c.

(** [for c > 0 { len[i] = 0; i++; c-- }] on [pt_len] or [c_len]. *)
Fixpoint zeroRun (n : nat) (i : Z) (l : list Z) : exec (Z * list Z) :=
  match n with
  | O => Ret (i, l)
  | S n' => l ← store l i 0; zeroRun n' (i + 1) l
  end.

(** [for i < nn { len[i] = 0; i++ }] *)
Fixpoint zeroTail (n : nat) (i : Z) (l : list Z) : exec (list Z) :=
  match n with
  | O => Ret l
  | S n' => l ← store l i 0; zeroTail n' (i + 1) l
  end.

(** The loop [for i < int(n)] of [read_pt_len]. *)
Fixpoint readPtLoop (fuel : nat) (n i i_special : Z) (d : BitHuff)
  : exec (Z * BitHuff) :=
  if i <? n then
    match fuel with
    | O => OutOfFuel
    | S fuel' =>
        let c := Z.shiftr (bitbuf d) (BITBUFSIZ - 3) in
        c ← (if c =? 7
             then countOnes 16 (uint16 (Z.shiftl 1 (BITBUFSIZ - 1 - 3))) c d
             else Ret c);
        let fillLen := if c <? 7 then 3 else c - 3 in
        d ← fillbuf fillLen d;
        l ← store (pt_len d) i (uint8 c);
        let d := set_pt_len l d in
        let i := i + 1 in
        if i =? i_special then
          '(c, d) ← getbits 2 d;
          '(i, l) ← zeroRun (Z.to_nat c) i (pt_len d);
          readPtLoop fuel' n i i_special (set_pt_len l d)
        else readPtLoop fuel' n i i_special d
    end
  else Ret (i, d).

Definition read_pt_len (nn nbit i_special : Z) (d : BitHuff) : exec BitHuff :=
  '(n, d) ← getbits nbit d;
  if n =? 0 then
    '(c, d) ← getbits nbit d;
    l ← zeroTail (Z.to_nat nn) 0 (pt_len d);
    let d := set_pt_len l d in
    Ret (set_pt_table (repeat c 256%nat) d)
  else
    '(i, d) ← readPtLoop (Z.to_nat n) n 0 i_special d;
    l ← zeroTail (Z.to_nat (nn - i)) i (pt_len d);
    let d := set_pt_len l d in
    make_table nn PT 8 d.

(** The tree walk [for c >= bound { c = right[c] or left[c]; mask >>= 1 }]. *)
Fixpoint walk (fuel : nat) (bound mask c : Z) (d : BitHuff) : exec Z :=
  if bound <=? c then
    match fuel with
    | O => OutOfFuel
    | S fuel' =>
        c ← (if negb (Z.land (bitbuf d) mask =? 0)
             then index (right d) c else index (left d) c);
        walk fuel' bound (Z.shiftr mask 1) c d
    end
  else Ret c.

(** A walk that revisits no node takes fewer steps than the trees have slots. *)
Definition walkFuel : nat := 1024.

(** The loop [for i < int(n)] of [read_c_len]. *)
Fixpoint readCLoop (fuel : nat) (n i : Z) (d : BitHuff) : exec (Z * BitHuff) :=
  if i <? n then
    match fuel with
    | O => OutOfFuel
    | S fuel' =>
        c ← index (pt_table d) (Z.shiftr (bitbuf d) (BITBUFSIZ - 8));
        c ← (if NT <=? c
             then walk walkFuel NT (uint16 (Z.shiftl 1 (BITBUFSIZ - 1 - 8))) c d
             else Ret c);
        len ← index (pt_len d) c;
        d ← fillbuf len d;
        if c <=? 2 then
          '(c, d) ← (if c =? 0 then Ret (1, d)
                     else if c =? 1 then
                       '(x, d) ← getbits 4 d; Ret (uint16 (x + 3), d)
                     else
                       '(x, d) ← getbits CBIT d; Ret (uint16 (x + 20), d));
          '(i, l) ← zeroRun (Z.to_nat c) i (c_len d);
          readCLoop fuel' n i (set_c_len l d)
        else
          l ← store (c_len d) i (uint8 (c - 2));
          readCLoop fuel' n (i + 1) (set_c_len l d)
    end
  else Ret (i, d).

Definition read_c_len (d : BitHuff) : exec BitHuff :=
  '(n, d) ← getbits CBIT d;
  if n =? 0 then
    '(c, d) ← getbits CBIT d;
    l ← zeroTail (Z.to_nat NC) 0 (c_len d);
    let d := set_c_len l d in
    Ret (set_c_table (repeat c 4096%nat) d)
  else
    '(i, d) ← readCLoop (Z.to_nat n) n 0 d;
    l ← zeroTail (Z.to_nat (NC - i)) i (c_len d);
    let d := set_c_len l d in
    make_table NC CT 12 d.

(** *** Symbol decoding *)

Definition decode_c (d : BitHuff) : exec (Z * BitHuff) :=
  d ← (if blocksize d =? 0 then
         '(b, d) ← getbits 16 d;
         let d := set_blocksize b d in
         d ← read_pt_len NT TBIT 3 d;
         d ← read_c_len d;
         read_pt_len NP PBIT (-1) d
       else Ret d);
  let d := set_blocksize (uint16 (blocksize d - 1)) d in
  j ← index (c_table d) (Z.shiftr (bitbuf d) (BITBUFSIZ - 12));
  j ← (if NC <=? j
       then walk walkFuel NC (uint16 (Z.shiftl 1 (BITBUFSIZ - 1 - 12))) j d
       else Ret j);
  len ← index (c_len d) j;
  d ← fillbuf len d;
  Ret (j, d).

Definition decode_p (d : BitHuff) : exec (Z * BitHuff) :=
  j ← index (pt_table d) (Z.shiftr (bitbuf d) (BITBUFSIZ - 8));
  j ← (if NP <=? j
       then walk walkFuel NP (uint16 (Z.shiftl 1 (BITBUFSIZ - 1 - 8))) j d
       else Ret j);
  len ← index (pt_len d) j;
  d ← fillbuf len d;
  if negb (j =? 0) then
    let j := uint16 (j - 1) in
    '(x, d) ← getbits j d;
    Ret (uint16 (uint16 (Z.shiftl 1 j) + x), d)
  else Ret (j, d).

Definition set_huff (h : BitHuff) (d : Decoder) : Decoder :=
  mkDecoder h (output d) (decode_j d) (decode_i d) (outbuf d).
Definition set_output (v : list Z) (d : Decoder) : Decoder :=
  mkDecoder (huff d) v (decode_j d) (decode_i d) (outbuf d).
Definition set_decode_j (v : Z) (d : Decoder) : Decoder :=
  mkDecoder (huff d) (output d) v (decode_i d) (outbuf d).
Definition set_decode_i (v : Z) (d : Decoder) : Decoder :=
  mkDecoder (huff d) (output d) (decode_j d) v (outbuf d).
Definition set_outbuf (v : list Z) (d : Decoder) : Decoder :=
  mkDecoder (huff d) (output d) (decode_j d) (decode_i d) v.

(** [for d.decode_j > 0 && r < uint32(count) { outbuf[r] = outbuf[decode_i]; ... }] *)
Fixpoint copyMatch (fuel : nat) (count r : Z) (d : Decoder) : exec (Z * Decoder) :=
  if (decode_j d >? 0) && (r <? uint32 count) then
    match fuel with
    | O => OutOfFuel
    | S fuel' =>
        b ← index (outbuf d) (decode_i d);
        l ← store (outbuf d) r b;
        let d := set_outbuf l d in
        let d := set_decode_i (Z.land (uint32 (decode_i d + 1)) (DICSIZ - 1)) d in
        let r := uint32 (r + 1) in
        copyMatch fuel' count r (set_decode_j (decode_j d - 1) d)
    end
  else Ret (r, d).

(** The loop [for r < uint32(count)] of [decodeBuffer]. *)
Fixpoint decodeLoop (fuel : nat) (count r : Z) (d : Decoder) : exec Decoder :=
  if r <? uint32 count then
    match fuel with
    | O => OutOfFuel
    | S fuel' =>
        '(c, h) ← decode_c (huff d);
        let d := set_huff h d in
        if c <=? UCHAR_MAX then
          l ← store (outbuf d) r (uint8 c);
          decodeLoop fuel' count (uint32 (r + 1)) (set_outbuf l d)
        else
          let d := set_decode_j (c - (UCHAR_MAX + 1 - THRESHOLD)) d in
          '(p, h) ← decode_p (huff d);
          let d := set_huff h d in
          let d := set_decode_i (Z.land (uint32 (r - p - 1)) (DICSIZ - 1)) d in
          '(r, d) ← copyMatch (Z.to_nat count) count r d;
          decodeLoop fuel' count r d
    end
  else Ret d.

Definition decodeBuffer (count : Z) (d : Decoder) : exec Decoder :=
  let r := 0 in
  '(r, d) ← copyMatch (Z.to_nat count) count r d;
  decodeLoop (Z.to_nat count) count r d.

(** The loop [for origSize > 0] of [decode]. *)
Fixpoint decodeBlocks (fuel : nat) (origSize : Z) (d : Decoder) : exec Decoder :=
  if origSize >? 0 then
    match fuel with
    | O => OutOfFuel
    | S fuel' =>
        let count := if origSize >? DICSIZ then DICSIZ else origSize in
        d ← decodeBuffer count d;
        if Z.of_nat (length (outbuf d)) <? count then Panic
        else
          let d := set_output (output d ++ take (Z.to_nat count) (outbuf d)) d in
          decodeBlocks fuel' (origSize - count) d
    end
  else Ret d.

Definition decode (origSize : Z) (d : Decoder) : exec Decoder :=
  h ← init_getbits (huff d);
  let d := set_huff (set_blocksize 0 h) d in
  let d := set_decode_j 0 d in
  decodeBlocks (S (Z.to_nat (origSize / DICSIZ))) origSize d.

(** *** [Decompress] *)

Inductive LzhError : Type :=
  | ErrDataTooSmall            (* "data too small" *)
  | ErrHeaderNotFound          (* "LZH header not found" *)
  | ErrEOF                     (* io.EOF from binary.Read *)
  | ErrUnexpectedEOF           (* io.ErrUnexpectedEOF from binary.Read *)
  | ErrUnsupportedMethod (m : list Z)       (* "unsupported method: %s" *)
  | ErrIncomplete (got expected : Z).       (* "incomplete data: got %d, expected %d" *)

Definition isMagicAt (data : list Z) (i : Z) : bool :=
  (tab data (i + 2) =? 45) && (tab data (i + 3) =? 108)
  && (tab data (i + 4) =? 104) && (tab data (i + 6) =? 45).

(** [for i := 0; i <= len(data)-7; i++]: the first offset with the [-lh?-] mark. *)
Fixpoint findHeader (n : nat) (i : Z) (data : list Z) : option Z :=
  match n with
  | O => None
  | S n' => if isMagicAt data i then Some i else findHeader n' (i + 1) data
  end.

Definition le32 (b : list Z) : Z :=
  Z.lor (Z.lor (Z.lor (tab b 0) (Z.shiftl (tab b 1) 8)) (Z.shiftl (tab b 2) 16))
        (Z.shiftl (tab b 3) 24).

(** [binary.Read(reader, binary.LittleEndian, &v)] for a [uint32]. *)
Definition readU32 (r : list Z) : (Z * list Z) + LzhError :=
  match r with
  | [] => inr ErrEOF
  | _ => if (length r <? 4)%nat then inr ErrUnexpectedEOF
         else inl (le32 (take 4 r), drop 4 r)
  end.

Definition lh0 : list Z := [45; 108; 104; 48; 45].
Definition lh4 : list Z := [45; 108; 104; 52; 45].
Definition lh5 : list Z := [45; 108; 104; 53; 45].

Definition bytes_eqb (a b : list Z) : bool :=
  (length a =? length b)%nat && forallb (fun p => fst p =? snd p) (combine a b).

Definition newDecoder (inp : list Z) : Decoder :=
  mkDecoder
    (mkBitHuff inp 0 0 0 0 0 (repeat 0 (Z.to_nat BUFSIZE))
       (repeat 0 (Z.to_nat (2 * NC - 1))) (repeat 0 (Z.to_nat (2 * NC - 1)))
       (repeat 0 (Z.to_nat NC)) (repeat 0 (Z.to_nat NPT))
       (repeat 0 4096%nat) (repeat 0 256%nat) 0)
    [] 0 0 (repeat 0 (Z.to_nat DICSIZ)).

Definition Decompress (data : list Z) : exec (list Z + LzhError) :=
  if (length data <? 7)%nat then Ret (inr ErrDataTooSmall)
  else
    match findHeader (length data - 6) 0 data with
    | None => Ret (inr ErrHeaderNotFound)
    | Some headerStart =>
        let reader := drop (Z.to_nat headerStart) data in
        let HeaderSize := tab reader 0 in
        let reader := drop 2 reader in
        let Method := take 5 reader in
        let reader := drop 5 reader in
        if negb (bytes_eqb Method lh5 || bytes_eqb Method lh4 || bytes_eqb Method lh0)
        then Ret (inr (ErrUnsupportedMethod Method))
        else
          match readU32 reader with
          | inr e => Ret (inr e)
          | inl (PackedSize, reader) =>
              match readU32 reader with
              | inr e => Ret (inr e)
              | inl (OriginalSize, reader) =>
                  let toSkip := HeaderSize + 2 - 15 in
                  let reader := if toSkip >? 0 then drop (Z.to_nat toSkip) reader
                                else reader in
                  if bytes_eqb Method lh0 then
                    let got := take (Z.to_nat OriginalSize) reader in
                    let out := got ++ repeat 0 (Z.to_nat OriginalSize - length got) in
                    if negb (Z.of_nat (length got) =? OriginalSize)
                    then Ret (inr (ErrIncomplete (Z.of_nat (length got)) OriginalSize))
                    else Ret (inl out)
                  else
                    let compressedData := take (Z.to_nat PackedSize) reader in
                    d ← decode OriginalSize (newDecoder compressedData);
                    Ret (inl (output d))
              end
          end
    end.

(** [IsLZHCompressed]: the [-lh?-] mark at offset 2. *)
Definition IsLZHCompressed (data : list Z) : bool :=
  if (length data <? 7)%nat then false else isMagicAt data 0.

End Lzh.

(** ** The player (package stsound: CYmMusic) *)

Module Music.

Import Ym2149.

(** YM file types ([YmFileType]); the constants of one [iota] block. *)
Definition YM_V2 : Z := 0.
Definition YM_V3 : Z := 1.
Definition YM_V4 : Z := 2.
Definition YM_V5 : Z := 3.
Definition YM_V6 : Z := 4.
Definition YM_VMAX : Z := 5.
Definition YM_TRACKER1 : Z := 32 + 6.
Definition YM_TRACKER2 : Z := 32 + 7.
Definition YM_TRACKERMAX : Z := 32 + 8.
Definition YM_MIX1 : Z := 64 + 9.
Definition YM_MIX2 : Z := 64 + 10.
Definition YM_MIXMAX : Z := 64 + 11.

(** Attributes. *)
Definition A_STREAMINTERLEAVED : Z := 1.
Definition A_DRUMSIGNED : Z := 2.
Definition A_DRUM4BITS : Z := 4.
Definition A_TIMECONTROL : Z := 8.
Definition A_LOOPMODE : Z := 16.

Definition YMTPREC : Z := 16.
Definition MAX_VOICE : Z := 8.

(** MFP chip predivisor. *)
Definition mfpPrediv : list Z := [0; 4; 10; 16; 50; 64; 100; 200].

(** File ids, read big-endian. *)
Definition e_YM2a : Z := 0x594D3221.
Definition e_YM3a : Z := 0x594D3321.
Definition e_YM3b : Z := 0x594D3362.
Definition e_YM4a : Z := 0x594D3421.
Definition e_YM5a : Z := 0x594D3521.
Definition e_YM6a : Z := 0x594D3621.
Definition e_MIX1 : Z := 0x4D495831.
Definition e_YMT1 : Z := 0x594D5431.
Definition e_YMT2 : Z := 0x594D5432.

Record MixBlock : Type := mkMixBlock {
  SampleStart : Z;    (* YmU32 *)
  SampleLength : Z;   (* YmU32 *)
  NbRepeat : Z;       (* YmU16 *)
  ReplayFreq : Z      (* YmU16 *)
}.

Record DigiDrum : Type := mkDigiDrum {
  Size : Z;           (* YmU32 *)
  Data : list Z;      (* []YmU8 *)
  DrumRepLen : Z      (* RepLen YmU32 *)
}.

Record TimeKey : Type := mkTimeKey {
  Time : Z;           (* YmU32 *)
  NRepeat : Z;        (* YmU16 *)
  NBlock : Z          (* YmU16 *)
}.

(** [YmTrackerVoice]: one voice of the tracker mixer. *)
Record YmTrackerVoice : Type := mkTrackerVoice {
  Sample : list Z;  (* []YmU8 *)
  SampleSize : Z;  (* YmU32 *)
  SamplePos : Z;  (* YmU32 *)
  RepLen : Z;  (* YmU32 *)
  SampleVolume : Z;  (* YmS32 *)
  SampleFreq : Z;  (* YmU32 *)
  Loop : bool;
  Running : bool
}.

Definition set_Sample (v : list Z) (r : YmTrackerVoice) : YmTrackerVoice :=
  mkTrackerVoice v (SampleSize r) (SamplePos r) (RepLen r) (SampleVolume r)
    (SampleFreq r) (Loop r) (Running r).
Definition set_SampleSize (v : Z) (r : YmTrackerVoice) : YmTrackerVoice :=
  mkTrackerVoice (Sample r) v (SamplePos r) (RepLen r) (SampleVolume r)
    (SampleFreq r) (Loop r) (Running r).
Definition set_SamplePos (v : Z) (r : YmTrackerVoice) : YmTrackerVoice :=
  mkTrackerVoice (Sample r) (SampleSize r) v (RepLen r) (SampleVolume r)
    (SampleFreq r) (Loop r) (Running r).
Definition set_RepLen (v : Z) (r : YmTrackerVoice) : YmTrackerVoice :=
  mkTrackerVoice (Sample r) (SampleSize r) (SamplePos r) v (SampleVolume r)
    (SampleFreq r) (Loop r) (Running r).
Definition set_SampleVolume (v : Z) (r : YmTrackerVoice) : YmTrackerVoice :=
  mkTrackerVoice (Sample r) (SampleSize r) (SamplePos r) (RepLen r) v
    (SampleFreq r) (Loop r) (Running r).
Definition set_SampleFreq (v : Z) (r : YmTrackerVoice) : YmTrackerVoice :=
  mkTrackerVoice (Sample r) (SampleSize r) (SamplePos r) (RepLen r)
    (SampleVolume r) v (Loop r) (Running r).
Definition set_Loop (v : bool) (r : YmTrackerVoice) : YmTrackerVoice :=
  mkTrackerVoice (Sample r) (SampleSize r) (SamplePos r) (RepLen r)
    (SampleVolume r) (SampleFreq r) v (Running r).
Definition set_Running (v : bool) (r : YmTrackerVoice) : YmTrackerVoice :=
  mkTrackerVoice (Sample r) (SampleSize r) (SamplePos r) (RepLen r)
    (SampleVolume r) (SampleFreq r) (Loop r) v.

(** [CYmMusic]: the player.  [lastError] and [musicTime] are never read or
    written by the code below and are left out. *)
Record CYmMusic : Type := mkYmMusic {
  ymChip : Ym2149.CYm2149Ex;
  songType : Z;  (* YmFileType *)
  nbFrame : Z;
  loopFrame : Z;
  currentFrame : Z;  (* int *)
  nbDrum : Z;  (* int *)
  pDrumTab : list DigiDrum;
  pBigMalloc : list Z;
  pDataStream : list Z;  (* []byte *)
  bLoop : bool;
  fileSize : Z;
  playerRate : Z;
  attrib : Z;  (* YmInt *)
  bMusicOk : bool;
  bPause : bool;
  streamInc : Z;
  innerSamplePos : Z;
  replayRate : Z;  (* int *)
  bMusicOver : bool;
  pSongName : string;
  pSongAuthor : string;
  pSongComment : string;
  pSongType : string;
  pSongPlayer : string;
  nbRepeat : Z;
  nbMixBlock : Z;  (* int *)
  pMixBlock : list MixBlock;
  mixPos : Z;  (* int *)
  pBigSampleBuffer : list Z;
  pCurrentMixSample : list Z;  (* []byte *)
  currentSampleLength : Z;
  currentPente : Z;
  currentPos : Z;  (* YmU32 *)
  nbTimeKey : Z;  (* int *)
  pTimeInfo : list TimeKey;
  musicLenInMs : Z;
  iMusicPosAccurateSample : Z;
  iMusicPosInMs : Z;  (* YmU32 *)
  nbVoice : Z;  (* int *)
  ymTrackerVoice : list YmTrackerVoice;  (* [MAX_VOICE]YmTrackerVoice *)
  ymTrackerNbSampleBefore : Z;  (* int *)
  ymTrackerVolumeTable : list Z;  (* [256*64]YmSample *)
  ymTrackerFreqShift : Z  (* int *)
}.

Definition set_ymChip (v : Ym2149.CYm2149Ex) (r : CYmMusic) : CYmMusic :=
  mkYmMusic v (songType r) (nbFrame r) (loopFrame r) (currentFrame r)
    (nbDrum r) (pDrumTab r) (pBigMalloc r) (pDataStream r) (bLoop r)
    (fileSize r) (playerRate r) (attrib r) (bMusicOk r) (bPause r)
    (streamInc r) (innerSamplePos r) (replayRate r) (bMusicOver r)
    (pSongName r) (pSongAuthor r) (pSongComment r) (pSongType r)
    (pSongPlayer r) (nbRepeat r) (nbMixBlock r) (pMixBlock r) (mixPos r)
    (pBigSampleBuffer r) (pCurrentMixSample r) (currentSampleLength r)
    (currentPente r) (currentPos r) (nbTimeKey r) (pTimeInfo r)
    (musicLenInMs r) (iMusicPosAccurateSample r) (iMusicPosInMs r) (nbVoice r)
    (ymTrackerVoice r) (ymTrackerNbSampleBefore r) (ymTrackerVolumeTable r)
    (ymTrackerFreqShift r).
Definition set_songType (v : Z) (r : CYmMusic) : CYmMusic :=
  mkYmMusic (ymChip r) v (nbFrame r) (loopFrame r) (currentFrame r) (nbDrum r)
    (pDrumTab r) (pBigMalloc r) (pDataStream r) (bLoop r) (fileSize r)
    (playerRate r) (attrib r) (bMusicOk r) (bPause r) (streamInc r)
    (innerSamplePos r) (replayRate r) (bMusicOver r) (pSongName r)
    (pSongAuthor r) (pSongComment r) (pSongType r) (pSongPlayer r)
    (nbRepeat r) (nbMixBlock r) (pMixBlock r) (mixPos r) (pBigSampleBuffer r)
    (pCurrentMixSample r) (currentSampleLength r) (currentPente r)
    (currentPos r) (nbTimeKey r) (pTimeInfo r) (musicLenInMs r)
    (iMusicPosAccurateSample r) (iMusicPosInMs r) (nbVoice r)
    (ymTrackerVoice r) (ymTrackerNbSampleBefore r) (ymTrackerVolumeTable r)
    (ymTrackerFreqShift r).
Definition set_nbFrame (v : Z) (r : CYmMusic) : CYmMusic :=
  mkYmMusic (ymChip r) (songType r) v (loopFrame r) (currentFrame r)
    (nbDrum r) (pDrumTab r) (pBigMalloc r) (pDataStream r) (bLoop r)
    (fileSize r) (playerRate r) (attrib r) (bMusicOk r) (bPause r)
    (streamInc r) (innerSamplePos r) (replayRate r) (bMusicOver r)
    (pSongName r) (pSongAuthor r) (pSongComment r) (pSongType r)
    (pSongPlayer r) (nbRepeat r) (nbMixBlock r) (pMixBlock r) (mixPos r)
    (pBigSampleBuffer r) (pCurrentMixSample r) (currentSampleLength r)
    (currentPente r) (currentPos r) (nbTimeKey r) (pTimeInfo r)
    (musicLenInMs r) (iMusicPosAccurateSample r) (iMusicPosInMs r) (nbVoice r)
    (ymTrackerVoice r) (ymTrackerNbSampleBefore r) (ymTrackerVolumeTable r)
    (ymTrackerFreqShift r).
Definition set_loopFrame (v : Z) (r : CYmMusic) : CYmMusic :=
  mkYmMusic (ymChip r) (songType r) (nbFrame r) v (currentFrame r) (nbDrum r)
    (pDrumTab r) (pBigMalloc r) (pDataStream r) (bLoop r) (fileSize r)
    (playerRate r) (attrib r) (bMusicOk r) (bPause r) (streamInc r)
    (innerSamplePos r) (replayRate r) (bMusicOver r) (pSongName r)
    (pSongAuthor r) (pSongComment r) (pSongType r) (pSongPlayer r)
    (nbRepeat r) (nbMixBlock r) (pMixBlock r) (mixPos r) (pBigSampleBuffer r)
    (pCurrentMixSample r) (currentSampleLength r) (currentPente r)
    (currentPos r) (nbTimeKey r) (pTimeInfo r) (musicLenInMs r)
    (iMusicPosAccurateSample r) (iMusicPosInMs r) (nbVoice r)
    (ymTrackerVoice r) (ymTrackerNbSampleBefore r) (ymTrackerVolumeTable r)
    (ymTrackerFreqShift r).
Definition set_currentFrame (v : Z) (r : CYmMusic) : CYmMusic :=
  mkYmMusic (ymChip r) (songType r) (nbFrame r) (loopFrame r) v (nbDrum r)
    (pDrumTab r) (pBigMalloc r) (pDataStream r) (bLoop r) (fileSize r)
    (playerRate r) (attrib r) (bMusicOk r) (bPause r) (streamInc r)
    (innerSamplePos r) (replayRate r) (bMusicOver r) (pSongName r)
    (pSongAuthor r) (pSongComment r) (pSongType r) (pSongPlayer r)
    (nbRepeat r) (nbMixBlock r) (pMixBlock r) (mixPos r) (pBigSampleBuffer r)
    (pCurrentMixSample r) (currentSampleLength r) (currentPente r)
    (currentPos r) (nbTimeKey r) (pTimeInfo r) (musicLenInMs r)
    (iMusicPosAccurateSample r) (iMusicPosInMs r) (nbVoice r)
    (ymTrackerVoice r) (ymTrackerNbSampleBefore r) (ymTrackerVolumeTable r)
    (ymTrackerFreqShift r).
Definition set_nbDrum (v : Z) (r : CYmMusic) : CYmMusic :=
  mkYmMusic (ymChip r) (songType r) (nbFrame r) (loopFrame r) (currentFrame r)
    v (pDrumTab r) (pBigMalloc r) (pDataStream r) (bLoop r) (fileSize r)
    (playerRate r) (attrib r) (bMusicOk r) (bPause r) (streamInc r)
    (innerSamplePos r) (replayRate r) (bMusicOver r) (pSongName r)
    (pSongAuthor r) (pSongComment r) (pSongType r) (pSongPlayer r)
    (nbRepeat r) (nbMixBlock r) (pMixBlock r) (mixPos r) (pBigSampleBuffer r)
    (pCurrentMixSample r) (currentSampleLength r) (currentPente r)
    (currentPos r) (nbTimeKey r) (pTimeInfo r) (musicLenInMs r)
    (iMusicPosAccurateSample r) (iMusicPosInMs r) (nbVoice r)
    (ymTrackerVoice r) (ymTrackerNbSampleBefore r) (ymTrackerVolumeTable r)
    (ymTrackerFreqShift r).
Definition set_pDrumTab (v : list DigiDrum) (r : CYmMusic) : CYmMusic :=
  mkYmMusic (ymChip r) (songType r) (nbFrame r) (loopFrame r) (currentFrame r)
    (nbDrum r) v (pBigMalloc r) (pDataStream r) (bLoop r) (fileSize r)
    (playerRate r) (attrib r) (bMusicOk r) (bPause r) (streamInc r)
    (innerSamplePos r) (replayRate r) (bMusicOver r) (pSongName r)
    (pSongAuthor r) (pSongComment r) (pSongType r) (pSongPlayer r)
    (nbRepeat r) (nbMixBlock r) (pMixBlock r) (mixPos r) (pBigSampleBuffer r)
    (pCurrentMixSample r) (currentSampleLength r) (currentPente r)
    (currentPos r) (nbTimeKey r) (pTimeInfo r) (musicLenInMs r)
    (iMusicPosAccurateSample r) (iMusicPosInMs r) (nbVoice r)
    (ymTrackerVoice r) (ymTrackerNbSampleBefore r) (ymTrackerVolumeTable r)
    (ymTrackerFreqShift r).
Definition set_pBigMalloc (v : list Z) (r : CYmMusic) : CYmMusic :=
  mkYmMusic (ymChip r) (songType r) (nbFrame r) (loopFrame r) (currentFrame r)
    (nbDrum r) (pDrumTab r) v (pDataStream r) (bLoop r) (fileSize r)
    (playerRate r) (attrib r) (bMusicOk r) (bPause r) (streamInc r)
    (innerSamplePos r) (replayRate r) (bMusicOver r) (pSongName r)
    (pSongAuthor r) (pSongComment r) (pSongType r) (pSongPlayer r)
    (nbRepeat r) (nbMixBlock r) (pMixBlock r) (mixPos r) (pBigSampleBuffer r)
    (pCurrentMixSample r) (currentSampleLength r) (currentPente r)
    (currentPos r) (nbTimeKey r) (pTimeInfo r) (musicLenInMs r)
    (iMusicPosAccurateSample r) (iMusicPosInMs r) (nbVoice r)
    (ymTrackerVoice r) (ymTrackerNbSampleBefore r) (ymTrackerVolumeTable r)
    (ymTrackerFreqShift r).
Definition set_pDataStream (v : list Z) (r : CYmMusic) : CYmMusic :=
  mkYmMusic (ymChip r) (songType r) (nbFrame r) (loopFrame r) (currentFrame r)
    (nbDrum r) (pDrumTab r) (pBigMalloc r) v (bLoop r) (fileSize r)
    (playerRate r) (attrib r) (bMusicOk r) (bPause r) (streamInc r)
    (innerSamplePos r) (replayRate r) (bMusicOver r) (pSongName r)
    (pSongAuthor r) (pSongComment r) (pSongType r) (pSongPlayer r)
    (nbRepeat r) (nbMixBlock r) (pMixBlock r) (mixPos r) (pBigSampleBuffer r)
    (pCurrentMixSample r) (currentSampleLength r) (currentPente r)
    (currentPos r) (nbTimeKey r) (pTimeInfo r) (musicLenInMs r)
    (iMusicPosAccurateSample r) (iMusicPosInMs r) (nbVoice r)
    (ymTrackerVoice r) (ymTrackerNbSampleBefore r) (ymTrackerVolumeTable r)
    (ymTrackerFreqShift r).
Definition set_bLoop (v : bool) (r : CYmMusic) : CYmMusic :=
  mkYmMusic (ymChip r) (songType r) (nbFrame r) (loopFrame r) (currentFrame r)
    (nbDrum r) (pDrumTab r) (pBigMalloc r) (pDataStream r) v (fileSize r)
    (playerRate r) (attrib r) (bMusicOk r) (bPause r) (streamInc r)
    (innerSamplePos r) (replayRate r) (bMusicOver r) (pSongName r)
    (pSongAuthor r) (pSongComment r) (pSongType r) (pSongPlayer r)
    (nbRepeat r) (nbMixBlock r) (pMixBlock r) (mixPos r) (pBigSampleBuffer r)
    (pCurrentMixSample r) (currentSampleLength r) (currentPente r)
    (currentPos r) (nbTimeKey r) (pTimeInfo r) (musicLenInMs r)
    (iMusicPosAccurateSample r) (iMusicPosInMs r) (nbVoice r)
    (ymTrackerVoice r) (ymTrackerNbSampleBefore r) (ymTrackerVolumeTable r)
    (ymTrackerFreqShift r).
Definition set_fileSize (v : Z) (r : CYmMusic) : CYmMusic :=
  mkYmMusic (ymChip r) (songType r) (nbFrame r) (loopFrame r) (currentFrame r)
    (nbDrum r) (pDrumTab r) (pBigMalloc r) (pDataStream r) (bLoop r) v
    (playerRate r) (attrib r) (bMusicOk r) (bPause r) (streamInc r)
    (innerSamplePos r) (replayRate r) (bMusicOver r) (pSongName r)
    (pSongAuthor r) (pSongComment r) (pSongType r) (pSongPlayer r)
    (nbRepeat r) (nbMixBlock r) (pMixBlock r) (mixPos r) (pBigSampleBuffer r)
    (pCurrentMixSample r) (currentSampleLength r) (currentPente r)
    (currentPos r) (nbTimeKey r) (pTimeInfo r) (musicLenInMs r)
    (iMusicPosAccurateSample r) (iMusicPosInMs r) (nbVoice r)
    (ymTrackerVoice r) (ymTrackerNbSampleBefore r) (ymTrackerVolumeTable r)
    (ymTrackerFreqShift r).
Definition set_playerRate (v : Z) (r : CYmMusic) : CYmMusic :=
  mkYmMusic (ymChip r) (songType r) (nbFrame r) (loopFrame r) (currentFrame r)
    (nbDrum r) (pDrumTab r) (pBigMalloc r) (pDataStream r) (bLoop r)
    (fileSize r) v (attrib r) (bMusicOk r) (bPause r) (streamInc r)
    (innerSamplePos r) (replayRate r) (bMusicOver r) (pSongName r)
    (pSongAuthor r) (pSongComment r) (pSongType r) (pSongPlayer r)
    (nbRepeat r) (nbMixBlock r) (pMixBlock r) (mixPos r) (pBigSampleBuffer r)
    (pCurrentMixSample r) (currentSampleLength r) (currentPente r)
    (currentPos r) (nbTimeKey r) (pTimeInfo r) (musicLenInMs r)
    (iMusicPosAccurateSample r) (iMusicPosInMs r) (nbVoice r)
    (ymTrackerVoice r) (ymTrackerNbSampleBefore r) (ymTrackerVolumeTable r)
    (ymTrackerFreqShift r).
Definition set_attrib (v : Z) (r : CYmMusic) : CYmMusic :=
  mkYmMusic (ymChip r) (songType r) (nbFrame r) (loopFrame r) (currentFrame r)
    (nbDrum r) (pDrumTab r) (pBigMalloc r) (pDataStream r) (bLoop r)
    (fileSize r) (playerRate r) v (bMusicOk r) (bPause r) (streamInc r)
    (innerSamplePos r) (replayRate r) (bMusicOver r) (pSongName r)
    (pSongAuthor r) (pSongComment r) (pSongType r) (pSongPlayer r)
    (nbRepeat r) (nbMixBlock r) (pMixBlock r) (mixPos r) (pBigSampleBuffer r)
    (pCurrentMixSample r) (currentSampleLength r) (currentPente r)
    (currentPos r) (nbTimeKey r) (pTimeInfo r) (musicLenInMs r)
    (iMusicPosAccurateSample r) (iMusicPosInMs r) (nbVoice r)
    (ymTrackerVoice r) (ymTrackerNbSampleBefore r) (ymTrackerVolumeTable r)
    (ymTrackerFreqShift r).
Definition set_bMusicOk (v : bool) (r : CYmMusic) : CYmMusic :=
  mkYmMusic (ymChip r) (songType r) (nbFrame r) (loopFrame r) (currentFrame r)
    (nbDrum r) (pDrumTab r) (pBigMalloc r) (pDataStream r) (bLoop r)
    (fileSize r) (playerRate r) (attrib r) v (bPause r) (streamInc r)
    (innerSamplePos r) (replayRate r) (bMusicOver r) (pSongName r)
    (pSongAuthor r) (pSongComment r) (pSongType r) (pSongPlayer r)
    (nbRepeat r) (nbMixBlock r) (pMixBlock r) (mixPos r) (pBigSampleBuffer r)
    (pCurrentMixSample r) (currentSampleLength r) (currentPente r)
    (currentPos r) (nbTimeKey r) (pTimeInfo r) (musicLenInMs r)
    (iMusicPosAccurateSample r) (iMusicPosInMs r) (nbVoice r)
    (ymTrackerVoice r) (ymTrackerNbSampleBefore r) (ymTrackerVolumeTable r)
    (ymTrackerFreqShift r).
Definition set_bPause (v : bool) (r : CYmMusic) : CYmMusic :=
  mkYmMusic (ymChip r) (songType r) (nbFrame r) (loopFrame r) (currentFrame r)
    (nbDrum r) (pDrumTab r) (pBigMalloc r) (pDataStream r) (bLoop r)
    (fileSize r) (playerRate r) (attrib r) (bMusicOk r) v (streamInc r)
    (innerSamplePos r) (replayRate r) (bMusicOver r) (pSongName r)
    (pSongAuthor r) (pSongComment r) (pSongType r) (pSongPlayer r)
    (nbRepeat r) (nbMixBlock r) (pMixBlock r) (mixPos r) (pBigSampleBuffer r)
    (pCurrentMixSample r) (currentSampleLength r) (currentPente r)
    (currentPos r) (nbTimeKey r) (pTimeInfo r) (musicLenInMs r)
    (iMusicPosAccurateSample r) (iMusicPosInMs r) (nbVoice r)
    (ymTrackerVoice r) (ymTrackerNbSampleBefore r) (ymTrackerVolumeTable r)
    (ymTrackerFreqShift r).
Definition set_streamInc (v : Z) (r : CYmMusic) : CYmMusic :=
  mkYmMusic (ymChip r) (songType r) (nbFrame r) (loopFrame r) (currentFrame r)
    (nbDrum r) (pDrumTab r) (pBigMalloc r) (pDataStream r) (bLoop r)
    (fileSize r) (playerRate r) (attrib r) (bMusicOk r) (bPause r) v
    (innerSamplePos r) (replayRate r) (bMusicOver r) (pSongName r)
    (pSongAuthor r) (pSongComment r) (pSongType r) (pSongPlayer r)
    (nbRepeat r) (nbMixBlock r) (pMixBlock r) (mixPos r) (pBigSampleBuffer r)
    (pCurrentMixSample r) (currentSampleLength r) (currentPente r)
    (currentPos r) (nbTimeKey r) (pTimeInfo r) (musicLenInMs r)
    (iMusicPosAccurateSample r) (iMusicPosInMs r) (nbVoice r)
    (ymTrackerVoice r) (ymTrackerNbSampleBefore r) (ymTrackerVolumeTable r)
    (ymTrackerFreqShift r).
Definition set_innerSamplePos (v : Z) (r : CYmMusic) : CYmMusic :=
  mkYmMusic (ymChip r) (songType r) (nbFrame r) (loopFrame r) (currentFrame r)
    (nbDrum r) (pDrumTab r) (pBigMalloc r) (pDataStream r) (bLoop r)
    (fileSize r) (playerRate r) (attrib r) (bMusicOk r) (bPause r)
    (streamInc r) v (replayRate r) (bMusicOver r) (pSongName r)
    (pSongAuthor r) (pSongComment r) (pSongType r) (pSongPlayer r)
    (nbRepeat r) (nbMixBlock r) (pMixBlock r) (mixPos r) (pBigSampleBuffer r)
    (pCurrentMixSample r) (currentSampleLength r) (currentPente r)
    (currentPos r) (nbTimeKey r) (pTimeInfo r) (musicLenInMs r)
    (iMusicPosAccurateSample r) (iMusicPosInMs r) (nbVoice r)
    (ymTrackerVoice r) (ymTrackerNbSampleBefore r) (ymTrackerVolumeTable r)
    (ymTrackerFreqShift r).
Definition set_replayRate (v : Z) (r : CYmMusic) : CYmMusic :=
  mkYmMusic (ymChip r) (songType r) (nbFrame r) (loopFrame r) (currentFrame r)
    (nbDrum r) (pDrumTab r) (pBigMalloc r) (pDataStream r) (bLoop r)
    (fileSize r) (playerRate r) (attrib r) (bMusicOk r) (bPause r)
    (streamInc r) (innerSamplePos r) v (bMusicOver r) (pSongName r)
    (pSongAuthor r) (pSongComment r) (pSongType r) (pSongPlayer r)
    (nbRepeat r) (nbMixBlock r) (pMixBlock r) (mixPos r) (pBigSampleBuffer r)
    (pCurrentMixSample r) (currentSampleLength r) (currentPente r)
    (currentPos r) (nbTimeKey r) (pTimeInfo r) (musicLenInMs r)
    (iMusicPosAccurateSample r) (iMusicPosInMs r) (nbVoice r)
    (ymTrackerVoice r) (ymTrackerNbSampleBefore r) (ymTrackerVolumeTable r)
    (ymTrackerFreqShift r).
Definition set_bMusicOver (v : bool) (r : CYmMusic) : CYmMusic :=
  mkYmMusic (ymChip r) (songType r) (nbFrame r) (loopFrame r) (currentFrame r)
    (nbDrum r) (pDrumTab r) (pBigMalloc r) (pDataStream r) (bLoop r)
    (fileSize r) (playerRate r) (attrib r) (bMusicOk r) (bPause r)
    (streamInc r) (innerSamplePos r) (replayRate r) v (pSongName r)
    (pSongAuthor r) (pSongComment r) (pSongType r) (pSongPlayer r)
    (nbRepeat r) (nbMixBlock r) (pMixBlock r) (mixPos r) (pBigSampleBuffer r)
    (pCurrentMixSample r) (currentSampleLength r) (currentPente r)
    (currentPos r) (nbTimeKey r) (pTimeInfo r) (musicLenInMs r)
    (iMusicPosAccurateSample r) (iMusicPosInMs r) (nbVoice r)
    (ymTrackerVoice r) (ymTrackerNbSampleBefore r) (ymTrackerVolumeTable r)
    (ymTrackerFreqShift r).
Definition set_pSongName (v : string) (r : CYmMusic) : CYmMusic :=
  mkYmMusic (ymChip r) (songType r) (nbFrame r) (loopFrame r) (currentFrame r)
    (nbDrum r) (pDrumTab r) (pBigMalloc r) (pDataStream r) (bLoop r)
    (fileSize r) (playerRate r) (attrib r) (bMusicOk r) (bPause r)
    (streamInc r) (innerSamplePos r) (replayRate r) (bMusicOver r) v
    (pSongAuthor r) (pSongComment r) (pSongType r) (pSongPlayer r)
    (nbRepeat r) (nbMixBlock r) (pMixBlock r) (mixPos r) (pBigSampleBuffer r)
    (pCurrentMixSample r) (currentSampleLength r) (currentPente r)
    (currentPos r) (nbTimeKey r) (pTimeInfo r) (musicLenInMs r)
    (iMusicPosAccurateSample r) (iMusicPosInMs r) (nbVoice r)
    (ymTrackerVoice r) (ymTrackerNbSampleBefore r) (ymTrackerVolumeTable r)
    (ymTrackerFreqShift r).
Definition set_pSongAuthor (v : string) (r : CYmMusic) : CYmMusic :=
  mkYmMusic (ymChip r) (songType r) (nbFrame r) (loopFrame r) (currentFrame r)
    (nbDrum r) (pDrumTab r) (pBigMalloc r) (pDataStream r) (bLoop r)
    (fileSize r) (playerRate r) (attrib r) (bMusicOk r) (bPause r)
    (streamInc r) (innerSamplePos r) (replayRate r) (bMusicOver r)
    (pSongName r) v (pSongComment r) (pSongType r) (pSongPlayer r)
    (nbRepeat r) (nbMixBlock r) (pMixBlock r) (mixPos r) (pBigSampleBuffer r)
    (pCurrentMixSample r) (currentSampleLength r) (currentPente r)
    (currentPos r) (nbTimeKey r) (pTimeInfo r) (musicLenInMs r)
    (iMusicPosAccurateSample r) (iMusicPosInMs r) (nbVoice r)
    (ymTrackerVoice r) (ymTrackerNbSampleBefore r) (ymTrackerVolumeTable r)
    (ymTrackerFreqShift r).
Definition set_pSongComment (v : string) (r : CYmMusic) : CYmMusic :=
  mkYmMusic (ymChip r) (songType r) (nbFrame r) (loopFrame r) (currentFrame r)
    (nbDrum r) (pDrumTab r) (pBigMalloc r) (pDataStream r) (bLoop r)
    (fileSize r) (playerRate r) (attrib r) (bMusicOk r) (bPause r)
    (streamInc r) (innerSamplePos r) (replayRate r) (bMusicOver r)
    (pSongName r) (pSongAuthor r) v (pSongType r) (pSongPlayer r) (nbRepeat r)
    (nbMixBlock r) (pMixBlock r) (mixPos r) (pBigSampleBuffer r)
    (pCurrentMixSample r) (currentSampleLength r) (currentPente r)
    (currentPos r) (nbTimeKey r) (pTimeInfo r) (musicLenInMs r)
    (iMusicPosAccurateSample r) (iMusicPosInMs r) (nbVoice r)
    (ymTrackerVoice r) (ymTrackerNbSampleBefore r) (ymTrackerVolumeTable r)
    (ymTrackerFreqShift r).
Definition set_pSongType (v : string) (r : CYmMusic) : CYmMusic :=
  mkYmMusic (ymChip r) (songType r) (nbFrame r) (loopFrame r) (currentFrame r)
    (nbDrum r) (pDrumTab r) (pBigMalloc r) (pDataStream r) (bLoop r)
    (fileSize r) (playerRate r) (attrib r) (bMusicOk r) (bPause r)
    (streamInc r) (innerSamplePos r) (replayRate r) (bMusicOver r)
    (pSongName r) (pSongAuthor r) (pSongComment r) v (pSongPlayer r)
    (nbRepeat r) (nbMixBlock r) (pMixBlock r) (mixPos r) (pBigSampleBuffer r)
    (pCurrentMixSample r) (currentSampleLength r) (currentPente r)
    (currentPos r) (nbTimeKey r) (pTimeInfo r) (musicLenInMs r)
    (iMusicPosAccurateSample r) (iMusicPosInMs r) (nbVoice r)
    (ymTrackerVoice r) (ymTrackerNbSampleBefore r) (ymTrackerVolumeTable r)
    (ymTrackerFreqShift r).
Definition set_pSongPlayer (v : string) (r : CYmMusic) : CYmMusic :=
  mkYmMusic (ymChip r) (songType r) (nbFrame r) (loopFrame r) (currentFrame r)
    (nbDrum r) (pDrumTab r) (pBigMalloc r) (pDataStream r) (bLoop r)
    (fileSize r) (playerRate r) (attrib r) (bMusicOk r) (bPause r)
    (streamInc r) (innerSamplePos r) (replayRate r) (bMusicOver r)
    (pSongName r) (pSongAuthor r) (pSongComment r) (pSongType r) v
    (nbRepeat r) (nbMixBlock r) (pMixBlock r) (mixPos r) (pBigSampleBuffer r)
    (pCurrentMixSample r) (currentSampleLength r) (currentPente r)
    (currentPos r) (nbTimeKey r) (pTimeInfo r) (musicLenInMs r)
    (iMusicPosAccurateSample r) (iMusicPosInMs r) (nbVoice r)
    (ymTrackerVoice r) (ymTrackerNbSampleBefore r) (ymTrackerVolumeTable r)
    (ymTrackerFreqShift r).
Definition set_nbRepeat (v : Z) (r : CYmMusic) : CYmMusic :=
  mkYmMusic (ymChip r) (songType r) (nbFrame r) (loopFrame r) (currentFrame r)
    (nbDrum r) (pDrumTab r) (pBigMalloc r) (pDataStream r) (bLoop r)
    (fileSize r) (playerRate r) (attrib r) (bMusicOk r) (bPause r)
    (streamInc r) (innerSamplePos r) (replayRate r) (bMusicOver r)
    (pSongName r) (pSongAuthor r) (pSongComment r) (pSongType r)
    (pSongPlayer r) v (nbMixBlock r) (pMixBlock r) (mixPos r)
    (pBigSampleBuffer r) (pCurrentMixSample r) (currentSampleLength r)
    (currentPente r) (currentPos r) (nbTimeKey r) (pTimeInfo r)
    (musicLenInMs r) (iMusicPosAccurateSample r) (iMusicPosInMs r) (nbVoice r)
    (ymTrackerVoice r) (ymTrackerNbSampleBefore r) (ymTrackerVolumeTable r)
    (ymTrackerFreqShift r).
Definition set_nbMixBlock (v : Z) (r : CYmMusic) : CYmMusic :=
  mkYmMusic (ymChip r) (songType r) (nbFrame r) (loopFrame r) (currentFrame r)
    (nbDrum r) (pDrumTab r) (pBigMalloc r) (pDataStream r) (bLoop r)
    (fileSize r) (playerRate r) (attrib r) (bMusicOk r) (bPause r)
    (streamInc r) (innerSamplePos r) (replayRate r) (bMusicOver r)
    (pSongName r) (pSongAuthor r) (pSongComment r) (pSongType r)
    (pSongPlayer r) (nbRepeat r) v (pMixBlock r) (mixPos r)
    (pBigSampleBuffer r) (pCurrentMixSample r) (currentSampleLength r)
    (currentPente r) (currentPos r) (nbTimeKey r) (pTimeInfo r)
    (musicLenInMs r) (iMusicPosAccurateSample r) (iMusicPosInMs r) (nbVoice r)
    (ymTrackerVoice r) (ymTrackerNbSampleBefore r) (ymTrackerVolumeTable r)
    (ymTrackerFreqShift r).
Definition set_pMixBlock (v : list MixBlock) (r : CYmMusic) : CYmMusic :=
  mkYmMusic (ymChip r) (songType r) (nbFrame r) (loopFrame r) (currentFrame r)
    (nbDrum r) (pDrumTab r) (pBigMalloc r) (pDataStream r) (bLoop r)
    (fileSize r) (playerRate r) (attrib r) (bMusicOk r) (bPause r)
    (streamInc r) (innerSamplePos r) (replayRate r) (bMusicOver r)
    (pSongName r) (pSongAuthor r) (pSongComment r) (pSongType r)
    (pSongPlayer r) (nbRepeat r) (nbMixBlock r) v (mixPos r)
    (pBigSampleBuffer r) (pCurrentMixSample r) (currentSampleLength r)
    (currentPente r) (currentPos r) (nbTimeKey r) (pTimeInfo r)
    (musicLenInMs r) (iMusicPosAccurateSample r) (iMusicPosInMs r) (nbVoice r)
    (ymTrackerVoice r) (ymTrackerNbSampleBefore r) (ymTrackerVolumeTable r)
    (ymTrackerFreqShift r).
Definition set_mixPos (v : Z) (r : CYmMusic) : CYmMusic :=
  mkYmMusic (ymChip r) (songType r) (nbFrame r) (loopFrame r) (currentFrame r)
    (nbDrum r) (pDrumTab r) (pBigMalloc r) (pDataStream r) (bLoop r)
    (fileSize r) (playerRate r) (attrib r) (bMusicOk r) (bPause r)
    (streamInc r) (innerSamplePos r) (replayRate r) (bMusicOver r)
    (pSongName r) (pSongAuthor r) (pSongComment r) (pSongType r)
    (pSongPlayer r) (nbRepeat r) (nbMixBlock r) (pMixBlock r) v
    (pBigSampleBuffer r) (pCurrentMixSample r) (currentSampleLength r)
    (currentPente r) (currentPos r) (nbTimeKey r) (pTimeInfo r)
    (musicLenInMs r) (iMusicPosAccurateSample r) (iMusicPosInMs r) (nbVoice r)
    (ymTrackerVoice r) (ymTrackerNbSampleBefore r) (ymTrackerVolumeTable r)
    (ymTrackerFreqShift r).
Definition set_pBigSampleBuffer (v : list Z) (r : CYmMusic) : CYmMusic :=
  mkYmMusic (ymChip r) (songType r) (nbFrame r) (loopFrame r) (currentFrame r)
    (nbDrum r) (pDrumTab r) (pBigMalloc r) (pDataStream r) (bLoop r)
    (fileSize r) (playerRate r) (attrib r) (bMusicOk r) (bPause r)
    (streamInc r) (innerSamplePos r) (replayRate r) (bMusicOver r)
    (pSongName r) (pSongAuthor r) (pSongComment r) (pSongType r)
    (pSongPlayer r) (nbRepeat r) (nbMixBlock r) (pMixBlock r) (mixPos r) v
    (pCurrentMixSample r) (currentSampleLength r) (currentPente r)
    (currentPos r) (nbTimeKey r) (pTimeInfo r) (musicLenInMs r)
    (iMusicPosAccurateSample r) (iMusicPosInMs r) (nbVoice r)
    (ymTrackerVoice r) (ymTrackerNbSampleBefore r) (ymTrackerVolumeTable r)
    (ymTrackerFreqShift r).
Definition set_pCurrentMixSample (v : list Z) (r : CYmMusic) : CYmMusic :=
  mkYmMusic (ymChip r) (songType r) (nbFrame r) (loopFrame r) (currentFrame r)
    (nbDrum r) (pDrumTab r) (pBigMalloc r) (pDataStream r) (bLoop r)
    (fileSize r) (playerRate r) (attrib r) (bMusicOk r) (bPause r)
    (streamInc r) (innerSamplePos r) (replayRate r) (bMusicOver r)
    (pSongName r) (pSongAuthor r) (pSongComment r) (pSongType r)
    (pSongPlayer r) (nbRepeat r) (nbMixBlock r) (pMixBlock r) (mixPos r)
    (pBigSampleBuffer r) v (currentSampleLength r) (currentPente r)
    (currentPos r) (nbTimeKey r) (pTimeInfo r) (musicLenInMs r)
    (iMusicPosAccurateSample r) (iMusicPosInMs r) (nbVoice r)
    (ymTrackerVoice r) (ymTrackerNbSampleBefore r) (ymTrackerVolumeTable r)
    (ymTrackerFreqShift r).
Definition set_currentSampleLength (v : Z) (r : CYmMusic) : CYmMusic :=
  mkYmMusic (ymChip r) (songType r) (nbFrame r) (loopFrame r) (currentFrame r)
    (nbDrum r) (pDrumTab r) (pBigMalloc r) (pDataStream r) (bLoop r)
    (fileSize r) (playerRate r) (attrib r) (bMusicOk r) (bPause r)
    (streamInc r) (innerSamplePos r) (replayRate r) (bMusicOver r)
    (pSongName r) (pSongAuthor r) (pSongComment r) (pSongType r)
    (pSongPlayer r) (nbRepeat r) (nbMixBlock r) (pMixBlock r) (mixPos r)
    (pBigSampleBuffer r) (pCurrentMixSample r) v (currentPente r)
    (currentPos r) (nbTimeKey r) (pTimeInfo r) (musicLenInMs r)
    (iMusicPosAccurateSample r) (iMusicPosInMs r) (nbVoice r)
    (ymTrackerVoice r) (ymTrackerNbSampleBefore r) (ymTrackerVolumeTable r)
    (ymTrackerFreqShift r).
Definition set_currentPente (v : Z) (r : CYmMusic) : CYmMusic :=
  mkYmMusic (ymChip r) (songType r) (nbFrame r) (loopFrame r) (currentFrame r)
    (nbDrum r) (pDrumTab r) (pBigMalloc r) (pDataStream r) (bLoop r)
    (fileSize r) (playerRate r) (attrib r) (bMusicOk r) (bPause r)
    (streamInc r) (innerSamplePos r) (replayRate r) (bMusicOver r)
    (pSongName r) (pSongAuthor r) (pSongComment r) (pSongType r)
    (pSongPlayer r) (nbRepeat r) (nbMixBlock r) (pMixBlock r) (mixPos r)
    (pBigSampleBuffer r) (pCurrentMixSample r) (currentSampleLength r) v
    (currentPos r) (nbTimeKey r) (pTimeInfo r) (musicLenInMs r)
    (iMusicPosAccurateSample r) (iMusicPosInMs r) (nbVoice r)
    (ymTrackerVoice r) (ymTrackerNbSampleBefore r) (ymTrackerVolumeTable r)
    (ymTrackerFreqShift r).
Definition set_currentPos (v : Z) (r : CYmMusic) : CYmMusic :=
  mkYmMusic (ymChip r) (songType r) (nbFrame r) (loopFrame r) (currentFrame r)
    (nbDrum r) (pDrumTab r) (pBigMalloc r) (pDataStream r) (bLoop r)
    (fileSize r) (playerRate r) (attrib r) (bMusicOk r) (bPause r)
    (streamInc r) (innerSamplePos r) (replayRate r) (bMusicOver r)
    (pSongName r) (pSongAuthor r) (pSongComment r) (pSongType r)
    (pSongPlayer r) (nbRepeat r) (nbMixBlock r) (pMixBlock r) (mixPos r)
    (pBigSampleBuffer r) (pCurrentMixSample r) (currentSampleLength r)
    (currentPente r) v (nbTimeKey r) (pTimeInfo r) (musicLenInMs r)
    (iMusicPosAccurateSample r) (iMusicPosInMs r) (nbVoice r)
    (ymTrackerVoice r) (ymTrackerNbSampleBefore r) (ymTrackerVolumeTable r)
    (ymTrackerFreqShift r).
Definition set_nbTimeKey (v : Z) (r : CYmMusic) : CYmMusic :=
  mkYmMusic (ymChip r) (songType r) (nbFrame r) (loopFrame r) (currentFrame r)
    (nbDrum r) (pDrumTab r) (pBigMalloc r) (pDataStream r) (bLoop r)
    (fileSize r) (playerRate r) (attrib r) (bMusicOk r) (bPause r)
    (streamInc r) (innerSamplePos r) (replayRate r) (bMusicOver r)
    (pSongName r) (pSongAuthor r) (pSongComment r) (pSongType r)
    (pSongPlayer r) (nbRepeat r) (nbMixBlock r) (pMixBlock r) (mixPos r)
    (pBigSampleBuffer r) (pCurrentMixSample r) (currentSampleLength r)
    (currentPente r) (currentPos r) v (pTimeInfo r) (musicLenInMs r)
    (iMusicPosAccurateSample r) (iMusicPosInMs r) (nbVoice r)
    (ymTrackerVoice r) (ymTrackerNbSampleBefore r) (ymTrackerVolumeTable r)
    (ymTrackerFreqShift r).
Definition set_pTimeInfo (v : list TimeKey) (r : CYmMusic) : CYmMusic :=
  mkYmMusic (ymChip r) (songType r) (nbFrame r) (loopFrame r) (currentFrame r)
    (nbDrum r) (pDrumTab r) (pBigMalloc r) (pDataStream r) (bLoop r)
    (fileSize r) (playerRate r) (attrib r) (bMusicOk r) (bPause r)
    (streamInc r) (innerSamplePos r) (replayRate r) (bMusicOver r)
    (pSongName r) (pSongAuthor r) (pSongComment r) (pSongType r)
    (pSongPlayer r) (nbRepeat r) (nbMixBlock r) (pMixBlock r) (mixPos r)
    (pBigSampleBuffer r) (pCurrentMixSample r) (currentSampleLength r)
    (currentPente r) (currentPos r) (nbTimeKey r) v (musicLenInMs r)
    (iMusicPosAccurateSample r) (iMusicPosInMs r) (nbVoice r)
    (ymTrackerVoice r) (ymTrackerNbSampleBefore r) (ymTrackerVolumeTable r)
    (ymTrackerFreqShift r).
Definition set_musicLenInMs (v : Z) (r : CYmMusic) : CYmMusic :=
  mkYmMusic (ymChip r) (songType r) (nbFrame r) (loopFrame r) (currentFrame r)
    (nbDrum r) (pDrumTab r) (pBigMalloc r) (pDataStream r) (bLoop r)
    (fileSize r) (playerRate r) (attrib r) (bMusicOk r) (bPause r)
    (streamInc r) (innerSamplePos r) (replayRate r) (bMusicOver r)
    (pSongName r) (pSongAuthor r) (pSongComment r) (pSongType r)
    (pSongPlayer r) (nbRepeat r) (nbMixBlock r) (pMixBlock r) (mixPos r)
    (pBigSampleBuffer r) (pCurrentMixSample r) (currentSampleLength r)
    (currentPente r) (currentPos r) (nbTimeKey r) (pTimeInfo r) v
    (iMusicPosAccurateSample r) (iMusicPosInMs r) (nbVoice r)
    (ymTrackerVoice r) (ymTrackerNbSampleBefore r) (ymTrackerVolumeTable r)
    (ymTrackerFreqShift r).
Definition set_iMusicPosAccurateSample (v : Z) (r : CYmMusic) : CYmMusic :=
  mkYmMusic (ymChip r) (songType r) (nbFrame r) (loopFrame r) (currentFrame r)
    (nbDrum r) (pDrumTab r) (pBigMalloc r) (pDataStream r) (bLoop r)
    (fileSize r) (playerRate r) (attrib r) (bMusicOk r) (bPause r)
    (streamInc r) (innerSamplePos r) (replayRate r) (bMusicOver r)
    (pSongName r) (pSongAuthor r) (pSongComment r) (pSongType r)
    (pSongPlayer r) (nbRepeat r) (nbMixBlock r) (pMixBlock r) (mixPos r)
    (pBigSampleBuffer r) (pCurrentMixSample r) (currentSampleLength r)
    (currentPente r) (currentPos r) (nbTimeKey r) (pTimeInfo r)
    (musicLenInMs r) v (iMusicPosInMs r) (nbVoice r) (ymTrackerVoice r)
    (ymTrackerNbSampleBefore r) (ymTrackerVolumeTable r)
    (ymTrackerFreqShift r).
Definition set_iMusicPosInMs (v : Z) (r : CYmMusic) : CYmMusic :=
  mkYmMusic (ymChip r) (songType r) (nbFrame r) (loopFrame r) (currentFrame r)
    (nbDrum r) (pDrumTab r) (pBigMalloc r) (pDataStream r) (bLoop r)
    (fileSize r) (playerRate r) (attrib r) (bMusicOk r) (bPause r)
    (streamInc r) (innerSamplePos r) (replayRate r) (bMusicOver r)
    (pSongName r) (pSongAuthor r) (pSongComment r) (pSongType r)
    (pSongPlayer r) (nbRepeat r) (nbMixBlock r) (pMixBlock r) (mixPos r)
    (pBigSampleBuffer r) (pCurrentMixSample r) (currentSampleLength r)
    (currentPente r) (currentPos r) (nbTimeKey r) (pTimeInfo r)
    (musicLenInMs r) (iMusicPosAccurateSample r) v (nbVoice r)
    (ymTrackerVoice r) (ymTrackerNbSampleBefore r) (ymTrackerVolumeTable r)
    (ymTrackerFreqShift r).
Definition set_nbVoice (v : Z) (r : CYmMusic) : CYmMusic :=
  mkYmMusic (ymChip r) (songType r) (nbFrame r) (loopFrame r) (currentFrame r)
    (nbDrum r) (pDrumTab r) (pBigMalloc r) (pDataStream r) (bLoop r)
    (fileSize r) (playerRate r) (attrib r) (bMusicOk r) (bPause r)
    (streamInc r) (innerSamplePos r) (replayRate r) (bMusicOver r)
    (pSongName r) (pSongAuthor r) (pSongComment r) (pSongType r)
    (pSongPlayer r) (nbRepeat r) (nbMixBlock r) (pMixBlock r) (mixPos r)
    (pBigSampleBuffer r) (pCurrentMixSample r) (currentSampleLength r)
    (currentPente r) (currentPos r) (nbTimeKey r) (pTimeInfo r)
    (musicLenInMs r) (iMusicPosAccurateSample r) (iMusicPosInMs r) v
    (ymTrackerVoice r) (ymTrackerNbSampleBefore r) (ymTrackerVolumeTable r)
    (ymTrackerFreqShift r).
Definition set_ymTrackerVoice (v : list YmTrackerVoice) (r : CYmMusic) : CYmMusic :=
  mkYmMusic (ymChip r) (songType r) (nbFrame r) (loopFrame r) (currentFrame r)
    (nbDrum r) (pDrumTab r) (pBigMalloc r) (pDataStream r) (bLoop r)
    (fileSize r) (playerRate r) (attrib r) (bMusicOk r) (bPause r)
    (streamInc r) (innerSamplePos r) (replayRate r) (bMusicOver r)
    (pSongName r) (pSongAuthor r) (pSongComment r) (pSongType r)
    (pSongPlayer r) (nbRepeat r) (nbMixBlock r) (pMixBlock r) (mixPos r)
    (pBigSampleBuffer r) (pCurrentMixSample r) (currentSampleLength r)
    (currentPente r) (currentPos r) (nbTimeKey r) (pTimeInfo r)
    (musicLenInMs r) (iMusicPosAccurateSample r) (iMusicPosInMs r) (nbVoice r)
    v (ymTrackerNbSampleBefore r) (ymTrackerVolumeTable r)
    (ymTrackerFreqShift r).
Definition set_ymTrackerNbSampleBefore (v : Z) (r : CYmMusic) : CYmMusic :=
  mkYmMusic (ymChip r) (songType r) (nbFrame r) (loopFrame r) (currentFrame r)
    (nbDrum r) (pDrumTab r) (pBigMalloc r) (pDataStream r) (bLoop r)
    (fileSize r) (playerRate r) (attrib r) (bMusicOk r) (bPause r)
    (streamInc r) (innerSamplePos r) (replayRate r) (bMusicOver r)
    (pSongName r) (pSongAuthor r) (pSongComment r) (pSongType r)
    (pSongPlayer r) (nbRepeat r) (nbMixBlock r) (pMixBlock r) (mixPos r)
    (pBigSampleBuffer r) (pCurrentMixSample r) (currentSampleLength r)
    (currentPente r) (currentPos r) (nbTimeKey r) (pTimeInfo r)
    (musicLenInMs r) (iMusicPosAccurateSample r) (iMusicPosInMs r) (nbVoice r)
    (ymTrackerVoice r) v (ymTrackerVolumeTable r) (ymTrackerFreqShift r).
Definition set_ymTrackerVolumeTable (v : list Z) (r : CYmMusic) : CYmMusic :=
  mkYmMusic (ymChip r) (songType r) (nbFrame r) (loopFrame r) (currentFrame r)
    (nbDrum r) (pDrumTab r) (pBigMalloc r) (pDataStream r) (bLoop r)
    (fileSize r) (playerRate r) (attrib r) (bMusicOk r) (bPause r)
    (streamInc r) (innerSamplePos r) (replayRate r) (bMusicOver r)
    (pSongName r) (pSongAuthor r) (pSongComment r) (pSongType r)
    (pSongPlayer r) (nbRepeat r) (nbMixBlock r) (pMixBlock r) (mixPos r)
    (pBigSampleBuffer r) (pCurrentMixSample r) (currentSampleLength r)
    (currentPente r) (currentPos r) (nbTimeKey r) (pTimeInfo r)
    (musicLenInMs r) (iMusicPosAccurateSample r) (iMusicPosInMs r) (nbVoice r)
    (ymTrackerVoice r) (ymTrackerNbSampleBefore r) v (ymTrackerFreqShift r).
Definition set_ymTrackerFreqShift (v : Z) (r : CYmMusic) : CYmMusic :=
  mkYmMusic (ymChip r) (songType r) (nbFrame r) (loopFrame r) (currentFrame r)
    (nbDrum r) (pDrumTab r) (pBigMalloc r) (pDataStream r) (bLoop r)
    (fileSize r) (playerRate r) (attrib r) (bMusicOk r) (bPause r)
    (streamInc r) (innerSamplePos r) (replayRate r) (bMusicOver r)
    (pSongName r) (pSongAuthor r) (pSongComment r) (pSongType r)
    (pSongPlayer r) (nbRepeat r) (nbMixBlock r) (pMixBlock r) (mixPos r)
    (pBigSampleBuffer r) (pCurrentMixSample r) (currentSampleLength r)
    (currentPente r) (currentPos r) (nbTimeKey r) (pTimeInfo r)
    (musicLenInMs r) (iMusicPosAccurateSample r) (iMusicPosInMs r) (nbVoice r)
    (ymTrackerVoice r) (ymTrackerNbSampleBefore r) (ymTrackerVolumeTable r) v.

(** *** Byte readers *)

(** [s[lo:]] and [s[lo:hi]]: Go panics when the bounds are out of order or
    beyond the capacity. *)
Definition sliceFrom {A : Type} (l : list A) (lo : Z) : exec (list A) :=
  if (0 <=? lo) && (lo <=? Z.of_nat (length l))
  then Ret (drop (Z.to_nat lo) l) else Panic.

Definition slice {A : Type} (l : list A) (lo hi : Z) : exec (list A) :=
  if (0 <=? lo) && (lo <=? hi) && (hi <=? Z.of_nat (length l))
  then Ret (take (Z.to_nat (hi - lo)) (drop (Z.to_nat lo) l)) else Panic.

Definition readBigEndian32 (data : list Z) : Z :=
  if (length data <? 4)%nat then 0
  else Z.lor (Z.lor (Z.lor (u32 (Z.shiftl (tab data 0) 24))
                           (u32 (Z.shiftl (tab data 1) 16)))
                    (u32 (Z.shiftl (tab data 2) 8)))
             (tab data 3).

Definition readBigEndian16 (data : list Z) : Z :=
  if (length data <? 2)%nat then 0
  else Z.lor (u16 (Z.shiftl (tab data 0) 8)) (tab data 1).

Definition readLittleEndian32 (data : list Z) : Z :=
  if (length data <? 4)%nat then 0
  else Z.lor (Z.lor (Z.lor (tab data 0) (u32 (Z.shiftl (tab data 1) 8)))
                    (u32 (Z.shiftl (tab data 2) 16)))
             (u32 (Z.shiftl (tab data 3) 24)).

(** [buf.Read(p)] on a [bytes.Buffer] for a fresh [p] of [n] zero bytes: what
    [p] holds afterwards, and the unread rest. *)
Definition bufRead (n : nat) (buf : list Z) : list Z * list Z :=
  let got := take n buf in
  (got ++ repeat 0 (n - length got)%nat, drop n buf).

Definition readMotorolaDword (buf : list Z) : Z * list Z :=
  let '(data, buf) := bufRead 4 buf in (readBigEndian32 data, buf).

Definition readMotorolaWord (buf : list Z) : Z * list Z :=
  let '(data, buf) := bufRead 2 buf in (readBigEndian16 data, buf).

(** [readNtString]: the bytes up to a NUL (consumed) or the end. *)
Fixpoint readNtBytes (buf : list Z) : list Z * list Z :=
  match buf with
  | [] => ([], [])
  | b :: rest =>
      if b =? 0 then ([], rest)
      else let '(s, rest) := readNtBytes rest in (b :: s, rest)
  end.

Definition bytesToString (l : list Z) : string :=
  fold_right (fun b s => String (ascii_of_N (Z.to_N b)) s) EmptyString l.

Definition readNtString (buf : list Z) : string * list Z :=
  let '(s, rest) := readNtBytes buf in (bytesToString s, rest).

(** "LeOnArD!" *)
Definition leonard : list Z := [76; 101; 79; 110; 65; 114; 68; 33].

(** *** Errors returned by the loader *)
Inductive LoadError : Type :=
  | ErrFileTooSmall                          (* "file too small" *)
  | ErrNotValidYM                            (* "not a valid YM format" *)
  | ErrYM4Unsupported                        (* "YM4 format not yet supported" *)
  | ErrUnknownFormat (idStr : list Z) (id : Z)   (* "unknown YM format: %s (0x%08X)" *)
  | ErrLzhFailed (e : Lzh.LzhError).         (* "LZH decompression failed: %w" *)

(** *** Small methods *)

Definition IsSeekable (ym : CYmMusic) : bool :=
  negb (Z.land (attrib ym) A_TIMECONTROL =? 0).

Definition SetLoopMode (b : bool) (ym : CYmMusic) : CYmMusic := set_bLoop b ym.

Definition setPlayerRate (rate : Z) (ym : CYmMusic) : CYmMusic :=
  set_playerRate (s32 rate) ym.

Definition setAttrib (a : Z) (ym : CYmMusic) : CYmMusic := set_attrib a ym.

Definition unLoad (ym : CYmMusic) : CYmMusic :=
  let ym := set_bMusicOk false ym in
  let ym := set_bPause true ym in
  let ym := set_bMusicOver false ym in
  let ym := set_pSongName EmptyString ym in
  let ym := set_pSongAuthor EmptyString ym in
  let ym := set_pSongComment EmptyString ym in
  let ym := set_pSongType EmptyString ym in
  let ym := set_pSongPlayer EmptyString ym in
  let ym := set_pBigMalloc [] ym in
  let ym := set_pDataStream [] ym in
  let ym := set_pDrumTab [] ym in
  let ym := set_pBigSampleBuffer [] ym in
  let ym := set_pMixBlock [] ym in
  let ym := set_pTimeInfo [] ym in
  set_nbDrum 0 ym.

Definition stop (ym : CYmMusic) : CYmMusic :=
  let ym := set_bPause true ym in
  let ym := set_currentFrame 0 ym in
  let ym := set_iMusicPosInMs 0 ym in
  let ym := set_iMusicPosAccurateSample 0 ym in
  set_mixPos (-1) ym.

Definition play (ym : CYmMusic) : CYmMusic := set_bPause false ym.
Definition pause (ym : CYmMusic) : CYmMusic := set_bPause true ym.

Definition ReadYmRegister (r : Z) (ym : CYmMusic) : Z :=
  ReadRegister (s32 r) (ymChip ym).

Definition SetLowpassFilter (b : bool) (ym : CYmMusic) : CYmMusic :=
  set_ymChip (SetFilter b (ymChip ym)) ym.

Definition GetMusicOver (ym : CYmMusic) : bool := bMusicOver ym.

(** *** Loading *)

Definition depackFile (ym : CYmMusic) : exec (list Z + LoadError) :=
  if (length (pBigMalloc ym) <? 22)%nat then Ret (inl (pBigMalloc ym))
  else if Lzh.IsLZHCompressed (pBigMalloc ym) then
    r ← Lzh.Decompress (pBigMalloc ym);
    match r with
    | inr e => Ret (inr (ErrLzhFailed e))
    | inl decompressed => Ret (inl decompressed)
    end
  else Ret (inl (pBigMalloc ym)).

(** The inner loop [for frame := 0; frame < ym.nbFrame; frame++] of
    [deInterleave]. *)
Fixpoint deInterleaveFrames (n : nat) (frame voice srcOffset : Z)
    (ym : CYmMusic) (tmpBuff : list Z) : exec (list Z) :=
  match n with
  | O => Ret tmpBuff
  | S n' =>
      let dstOffset := frame * streamInc ym + voice in
      b ← index (pDataStream ym) (srcOffset + frame);
      tmpBuff ← store tmpBuff dstOffset b;
      deInterleaveFrames n' (frame + 1) voice srcOffset ym tmpBuff
  end.

(** The outer loop [for voice := 0; voice < ym.streamInc; voice++]. *)
Fixpoint deInterleaveVoices (n : nat) (voice : Z) (ym : CYmMusic)
    (tmpBuff : list Z) : exec (list Z) :=
  match n with
  | O => Ret tmpBuff
  | S n' =>
      let srcOffset := voice * nbFrame ym in
      tmpBuff ← deInterleaveFrames (Z.to_nat (nbFrame ym)) 0 voice srcOffset ym tmpBuff;
      deInterleaveVoices n' (voice + 1) ym tmpBuff
  end.

Definition deInterleave (ym : CYmMusic) : exec CYmMusic :=
  if Z.land (attrib ym) A_STREAMINTERLEAVED =? 0 then Ret ym
  else if nbFrame ym * streamInc ym <? 0 then Panic
  else
    let tmpBuff := repeat 0 (Z.to_nat (nbFrame ym * streamInc ym)) in
    tmpBuff ← deInterleaveVoices (Z.to_nat (streamInc ym)) 0 ym tmpBuff;
    let ym := set_pBigMalloc tmpBuff ym in
    let ym := set_pDataStream tmpBuff ym in
    Ret (set_attrib (s32 (Z.land (attrib ym) (Z.lnot A_STREAMINTERLEAVED))) ym).

(** The headers shared by the YM2!, YM3! and YM3b cases. *)
Definition decodeYm23 (ty : Z) (loop : Z) (comment type : string)
    (ym : CYmMusic) : exec CYmMusic :=
  let ym := set_songType ty ym in
  let ym := set_nbFrame (sdiv (s32 (fileSize ym - 4)) 14) ym in
  let ym := set_loopFrame loop ym in
  let ym := set_ymChip (SetClock ATARI_CLOCK (ymChip ym)) ym in
  let ym := setPlayerRate 50 ym in
  stream ← sliceFrom (pBigMalloc ym) 4;
  let ym := set_pDataStream stream ym in
  let ym := set_streamInc 14 ym in
  let ym := set_nbDrum 0 ym in
  let ym := setAttrib (Z.lor A_STREAMINTERLEAVED A_TIMECONTROL) ym in
  let ym := set_pSongName "Unknown"%string ym in
  let ym := set_pSongAuthor "Unknown"%string ym in
  let ym := set_pSongComment comment ym in
  let ym := set_pSongType type ym in
  Ret (set_pSongPlayer "YM-Chip driver"%string ym).

(** The loop [for i := 0; i < ym.nbDrum; i++] that loads the drum bank; it
    returns the drums in order and the unread rest of the buffer. *)
Fixpoint loadDrums (vt : list Z) (n : nat) (attr : Z) (buf : list Z)
  : list DigiDrum * list Z :=
  match n with
  | O => ([], buf)
  | S n' =>
      let '(size, buf) := readMotorolaDword buf in
      let '(drum, buf) :=
        if size >? 0 then
          let '(tmpData, buf) := bufRead (Z.to_nat size) buf in
          let data := map u8 tmpData in
          let data :=
            if negb (Z.land attr A_DRUM4BITS =? 0)
            then map (fun b => u8 (Z.shiftr (tab vt (Z.land b 15)) 7)) data
            else data in
          (mkDigiDrum size data 0, buf)
        else (mkDigiDrum size [] 0, buf) in
      let '(rest, buf) := loadDrums vt n' attr buf in
      (drum :: rest, buf)
  end.

(** The YM5!/YM6! header, drums, texts and stream, read from the buffer [buf]
    that starts after the signature. *)
Definition decodeYm56 (vt : list Z) (id : Z) (buf : list Z) (ym : CYmMusic)
  : CYmMusic :=
  let '(v, buf) := readMotorolaDword buf in
  let ym := set_nbFrame v ym in
  let '(v, buf) := readMotorolaDword buf in
  let ym := setAttrib (Z.lor (s32 v) A_TIMECONTROL) ym in
  let '(v, buf) := readMotorolaWord buf in
  let ym := set_nbDrum v ym in
  let '(v, buf) := readMotorolaDword buf in
  let ym := set_ymChip (SetClock v (ymChip ym)) ym in
  let '(v, buf) := readMotorolaWord buf in
  let ym := setPlayerRate v ym in
  let '(v, buf) := readMotorolaDword buf in
  let ym := set_loopFrame v ym in
  let '(skip, buf) := readMotorolaWord buf in
  let buf := drop (Z.to_nat skip) buf in
  let '(ym, buf) :=
    if nbDrum ym >? 0 then
      let '(drums, buf) :=
        loadDrums vt (Z.to_nat (nbDrum ym)) (attrib ym) buf in
      let ym := set_pDrumTab drums ym in
      (set_attrib (s32 (Z.land (attrib ym) (Z.lnot A_DRUM4BITS))) ym, buf)
    else (ym, buf) in
  let '(s, buf) := readNtString buf in
  let ym := set_pSongName s ym in
  let '(s, buf) := readNtString buf in
  let ym := set_pSongAuthor s ym in
  let '(s, buf) := readNtString buf in
  let ym := set_pSongComment s ym in
  let ym :=
    if id =? e_YM6a
    then set_pSongType "YM 6"%string (set_songType YM_V6 ym)
    else set_pSongType "YM 5"%string (set_songType YM_V5 ym) in
  let ym := set_pDataStream buf ym in
  let ym := set_streamInc 16 ym in
  set_pSongPlayer "YM-Chip driver"%string ym.

Definition ymDecode (vt : list Z) (ym : CYmMusic)
  : exec (CYmMusic * option LoadError) :=
  if (length (pBigMalloc ym) <? 4)%nat then Ret (ym, Some ErrFileTooSmall)
  else
    let id := readBigEndian32 (take 4 (pBigMalloc ym)) in
    r ← (if id =? e_YM2a then
           ym ← decodeYm23 YM_V2 0 "Converted by Leonard."%string "YM 2"%string ym;
           Ret (inl ym)
         else if id =? e_YM3a then
           ym ← decodeYm23 YM_V3 0 EmptyString "YM 3"%string ym;
           Ret (inl ym)
         else if id =? e_YM3b then
           pUD ← sliceFrom (pBigMalloc ym) (s32 (fileSize ym - 4));
           ym ← decodeYm23 YM_V3 (readLittleEndian32 pUD) EmptyString
                           "YM 3b (loop)"%string ym;
           Ret (inl ym)
         else if (id =? e_YM5a) || (id =? e_YM6a) then
           sig ← slice (pBigMalloc ym) 4 12;
           if negb (Lzh.bytes_eqb sig leonard) then Ret (inr ErrNotValidYM)
           else
             buf ← sliceFrom (pBigMalloc ym) 12;
             Ret (inl (decodeYm56 vt id buf ym))
         else if id =? e_YM4a then Ret (inr ErrYM4Unsupported)
         else Ret (inr (ErrUnknownFormat (take 4 (pBigMalloc ym)) id)));
    match r with
    | inr e => Ret (ym, Some e)
    | inl ym => ym ← deInterleave ym; Ret (ym, None)
    end.

Definition loadMemory (vt : list Z) (data : list Z) (ym : CYmMusic)
  : exec (CYmMusic * option LoadError) :=
  let ym := stop ym in
  let ym := unLoad ym in
  let ym := set_pBigMalloc data ym in
  let ym := set_fileSize (s32 (Z.of_nat (length data))) ym in
  r ← depackFile ym;
  match r with
  | inr e => Ret (ym, Some e)
  | inl depackedData =>
      let ym := set_pBigMalloc depackedData ym in
      '(ym, err) ← ymDecode vt ym;
      match err with
      | Some e => Ret (ym, Some e)
      | None =>
          chip ← Reset vt (ymChip ym);
          let ym := set_ymChip chip ym in
          let ym := set_bMusicOk true ym in
          Ret (set_bPause false ym, None)
      end
  end.

Definition LoadMemory := loadMemory.

(** [IsYMFile]: the nine known signatures. *)
Definition IsYMFile (data : list Z) : bool :=
  if (length data <? 4)%nat then false
  else
    let id := readBigEndian32 (take 4 data) in
    (id =? e_YM2a) || (id =? e_YM3a) || (id =? e_YM3b) || (id =? e_YM4a)
    || (id =? e_YM5a) || (id =? e_YM6a) || (id =? e_MIX1) || (id =? e_YMT1)
    || (id =? e_YMT2).

(** *** The frame player *)

Section Player.

(** The MADMAX sample bank used by the YM2! driver ([sampleAddress] and
    [sampleLen]): package-level tables whose defining file is not part of the
    sources at hand. *)
Variable sampleAddress : list (list Z).
Variable sampleLen : list Z.

(** [YmU32(step)] for the [float64] expression
    [float64(SampleFreq<<YMTPREC) * float64(1<<ymTrackerFreqShift) / float64(replayRate)]
    of [ymTrackerVoiceAdd], as a function of the three integers. *)
Variable trackerSampleInc : Z -> Z -> Z -> Z.

(** [for i := 0; i <= 10; i++ { ym.ymChip.WriteRegister(YmInt(i), YmInt(data[i])) }] *)
Fixpoint writeRegs (vt : list Z) (n : nat) (i : Z) (data : list Z)
    (chip : CYm2149Ex) : exec CYm2149Ex :=
  match n with
  | O => Ret chip
  | S n' =>
      b ← index data i;
      chip ← WriteRegister vt (s32 i) (s32 b) chip;
      writeRegs vt n' (i + 1) data chip
  end.

(** [2457600 / prediv] for [prediv := mfpPrediv[idx] * YmInt(count)], when the
    product is not zero. *)
Definition mfpFreq (idx count : Z) : option Z :=
  let prediv := tab mfpPrediv idx in
  let prediv := s32 (prediv * s32 count) in
  if negb (prediv =? 0) then Some (s32 (sdiv 2457600 prediv)) else None.

Definition readYm5Effects (data : list Z) (ym : CYmMusic) : exec CYmMusic :=
  (* SID voice *)
  d1 ← index data 1;
  let code := Z.land (Z.shiftr d1 4) 3 in
  ym ← (if negb (code =? 0) then
          let voice := u8 (code - 1) in
          d6 ← index data 6;
          d14 ← index data 14;
          match mfpFreq (Z.land (Z.shiftr d6 5) 7) d14 with
          | Some tmpFreq =>
              dv ← index data (voice + 8);
              chip ← SidStart (s32 voice) tmpFreq (s32 (Z.land dv 15)) (ymChip ym);
              Ret (set_ymChip chip ym)
          | None => Ret ym
          end
        else Ret ym);
  (* Digi drum *)
  d3 ← index data 3;
  let code := Z.land (Z.shiftr d3 4) 3 in
  if negb (code =? 0) then
    let voice := u8 (code - 1) in
    dv ← index data (8 + voice);
    let ndrum := Z.land dv 31 in
    if ndrum <? nbDrum ym then
      d8 ← index data 8;
      d15 ← index data 15;
      match mfpFreq (Z.land (Z.shiftr d8 5) 7) d15 with
      | Some sampleFrq =>
          drum ← index (pDrumTab ym) ndrum;
          chip ← DrumStart (s32 voice) (Data drum) (Size drum) sampleFrq (ymChip ym);
          Ret (set_ymChip chip ym)
      | None => Ret ym
      end
    else Ret ym
  else Ret ym.

Definition readYm6Effect (pReg : list Z) (code prediv count : Z) (ym : CYmMusic)
  : exec CYmMusic :=
  rc ← index pReg code;
  let effectCode := Z.land rc 240 in
  rp ← index pReg prediv;
  let predivVal := Z.land (Z.shiftr rp 5) 7 in
  countVal ← index pReg count;
  if negb (Z.land effectCode 48 =? 0) then
    let voice := u8 (Z.shiftr (Z.land effectCode 48) 4 - 1) in
    let action := Z.land effectCode 192 in
    if (action =? 0) || (action =? 128) then
      (* SID or Sinus-SID *)
      match mfpFreq predivVal countVal with
      | Some tmpFreq =>
          if Z.land effectCode 192 =? 0 then
            dv ← index pReg (voice + 8);
            chip ← SidStart (s32 voice) tmpFreq (s32 (Z.land dv 15)) (ymChip ym);
            Ret (set_ymChip chip ym)
          else Ret ym
      | None => Ret ym
      end
    else if action =? 64 then
      (* DigiDrum *)
      dv ← index pReg (voice + 8);
      let ndrum := Z.land dv 31 in
      if ndrum <? nbDrum ym then
        match mfpFreq predivVal countVal with
        | Some tmpFreq =>
            drum ← index (pDrumTab ym) ndrum;
            chip ← DrumStart (s32 voice) (Data drum) (Size drum) tmpFreq (ymChip ym);
            Ret (set_ymChip chip ym)
        | None => Ret ym
        end
      else Ret ym
    else
      (* 0xc0: Sync-Buzzer *)
      match mfpFreq predivVal countVal with
      | Some tmpFreq =>
          dv ← index pReg (voice + 8);
          chip ← SyncBuzzerStart tmpFreq (s32 (Z.land dv 15)) (ymChip ym);
          Ret (set_ymChip chip ym)
      | None => Ret ym
      end
  else Ret ym.

(** The YM2! (MADMAX) part of [player]. *)
Definition playerYm2 (vt : list Z) (data : list Z) (chip : CYm2149Ex)
  : exec CYm2149Ex :=
  d13 ← index data 13;
  chip ← (if negb (d13 =? 255) then
            d11 ← index data 11;
            chip ← WriteRegister vt 11 (s32 d11) chip;
            chip ← WriteRegister vt 12 0 chip;
            WriteRegister vt 13 10 chip
          else Ret chip);
  d10 ← index data 10;
  if negb (Z.land d10 128 =? 0) then
    let sampleNum := Z.land d10 127 in
    d12 ← index data 12;
    if negb (d12 =? 0) then
      let sampleFrq := s32 (sdiv MFP_CLOCK (s32 d12)) in
      if sampleNum <? Z.of_nat (length sampleAddress) then
        sa ← index sampleAddress sampleNum;
        sl ← index sampleLen sampleNum;
        DrumStart 2 sa sl sampleFrq chip
      else Ret chip
    else Ret chip
  else Ret chip.

Definition player (vt : list Z) (ym : CYmMusic) : exec CYmMusic :=
  let ym := if currentFrame ym <? 0 then set_currentFrame 0 ym else ym in
  r ← (if nbFrame ym <=? currentFrame ym then
         if bLoop ym then Ret (inl (set_currentFrame (loopFrame ym) ym))
         else
           let ym := set_bMusicOver true ym in
           chip ← Reset vt (ymChip ym);
           Ret (inr (set_ymChip chip ym))
       else Ret (inl ym));
  match r with
  | inr ym => Ret ym
  | inl ym =>
      let ptr := currentFrame ym * streamInc ym in
      if ptr + streamInc ym >? Z.of_nat (length (pDataStream ym)) then
        Ret (set_bMusicOver true ym)
      else
        data ← slice (pDataStream ym) ptr (ptr + streamInc ym);
        (* Write registers 0-10 *)
        chip ← writeRegs vt 11 0 data (ymChip ym);
        (* Stop all special effects *)
        chip ← SidStop 0 chip;
        chip ← SidStop 1 chip;
        chip ← SidStop 2 chip;
        let chip := SyncBuzzerStop chip in
        let ym := set_ymChip chip ym in
        ym ← (if songType ym =? YM_V2 then
                chip ← playerYm2 vt data (ymChip ym);
                Ret (set_ymChip chip ym)
              else if YM_V3 <=? songType ym then
                d11 ← index data 11;
                chip ← WriteRegister vt 11 (s32 d11) (ymChip ym);
                d12 ← index data 12;
                chip ← WriteRegister vt 12 (s32 d12) chip;
                d13 ← index data 13;
                chip ← (if negb (d13 =? 255)
                        then WriteRegister vt 13 (s32 d13) chip else Ret chip);
                let ym := set_ymChip chip ym in
                if YM_V5 <=? songType ym then
                  if songType ym =? YM_V6 then
                    ym ← readYm6Effect data 1 6 14 ym;
                    readYm6Effect data 3 8 15 ym
                  else readYm5Effects data ym
                else Ret ym
              else Ret ym);
        Ret (set_currentFrame (currentFrame ym + 1) ym)
  end.

(** *** Digital-stream (MIX) mixer *)

Definition readNextBlockInfo (ym : CYmMusic) : exec CYmMusic :=
  let ym := set_nbRepeat (nbRepeat ym - 1) ym in
  ym ← (if nbRepeat ym <=? 0 then
          let ym := set_mixPos (mixPos ym + 1) ym in
          let ym :=
            if nbMixBlock ym <=? mixPos ym then
              let ym := set_mixPos 0 ym in
              let ym := if negb (bLoop ym) then set_bMusicOver true ym else ym in
              let ym := set_iMusicPosAccurateSample 0 ym in
              set_iMusicPosInMs 0 ym
            else ym in
          b ← index (pMixBlock ym) (mixPos ym);
          Ret (set_nbRepeat (NbRepeat b) ym)
        else Ret ym);
  b ← index (pMixBlock ym) (mixPos ym);
  s ← sliceFrom (pBigSampleBuffer ym) (SampleStart b);
  let ym := set_pCurrentMixSample s ym in
  let ym := set_currentSampleLength (u32 (Z.shiftl (SampleLength b) 12)) ym in
  if u32 (replayRate ym) =? 0 then Panic
  else
    let ym := set_currentPente
                (u32 (Z.shiftl (u32 (ReplayFreq b)) 12) / u32 (replayRate ym)) ym in
    Ret (set_currentPos (Z.land (currentPos ym) (Z.shiftl 1 12 - 1)) ym).

(** [YmInt(YmSample(b) << 8)] *)
Definition mixSample (b : Z) : Z := s32 (s16 (Z.shiftl (s16 b) 8)).

(** The loop [for i := 0; i < nbs; i++] of [stDigitMix]; [inr] is the early
    [return] taken when the music is over. *)
Fixpoint stDigitMixLoop (n : nat) (i : Z) (ym : CYmMusic) (pWrite16 : list Z)
  : exec (CYmMusic * list Z) :=
  match n with
  | O => Ret (ym, pWrite16)
  | S n' =>
      b ← index (pCurrentMixSample ym) (Z.shiftr (currentPos ym) 12);
      let sa := mixSample b in
      sb ← (if Z.shiftr (currentPos ym) 12
               <? u32 (Z.shiftr (currentSampleLength ym) 12 - 1)
            then b' ← index (pCurrentMixSample ym) (Z.shiftr (currentPos ym) 12 + 1);
                 Ret (mixSample b')
            else Ret sa);
      let frac := Z.land (currentPos ym) (Z.shiftl 1 12 - 1) in
      let sa := s32 (sa + Z.shiftr (s32 (s32 (sb - sa) * s32 frac)) 12) in
      pWrite16 ← store pWrite16 i (s16 sa);
      let ym := set_currentPos (u32 (currentPos ym + currentPente ym)) ym in
      if currentSampleLength ym <=? currentPos ym then
        ym ← readNextBlockInfo ym;
        if bMusicOver ym then Ret (ym, pWrite16)
        else stDigitMixLoop n' (i + 1) ym pWrite16
      else stDigitMixLoop n' (i + 1) ym pWrite16
  end.

Definition stDigitMix (pWrite16 : list Z) (nbs : Z) (ym : CYmMusic)
  : exec (CYmMusic * list Z) :=
  if bMusicOver ym then Ret (ym, pWrite16)
  else
    ym ← (if mixPos ym =? -1
          then readNextBlockInfo (set_nbRepeat (-1) ym) else Ret ym);
    let ym := set_iMusicPosAccurateSample
                (u32 (iMusicPosAccurateSample ym + u32 (nbs * 1000))) ym in
    if u32 (replayRate ym) =? 0 then Panic
    else
      let ym := set_iMusicPosInMs
                  (u32 (iMusicPosInMs ym
                        + iMusicPosAccurateSample ym / u32 (replayRate ym))) ym in
      let ym := set_iMusicPosAccurateSample
                  (iMusicPosAccurateSample ym mod u32 (replayRate ym)) ym in
      stDigitMixLoop (Z.to_nat nbs) 0 ym pWrite16.

(** The loop [for i := 0; i < ym.nbTimeKey; i++] of [setMixTime], up to its
    [break]. *)
Fixpoint setMixTimeLoop (n : nat) (i : Z) (time : Z) (ym : CYmMusic)
  : exec CYmMusic :=
  match n with
  | O => Ret ym
  | S n' =>
      tEnd ← (if i <? nbTimeKey ym - 1
              then k ← index (pTimeInfo ym) (i + 1); Ret (Time k)
              else Ret (musicLenInMs ym));
      k ← index (pTimeInfo ym) i;
      if (Time k <=? time) && (time <? tEnd) then
        let ym := set_mixPos (NBlock k) ym in
        b ← index (pMixBlock ym) (mixPos ym);
        s ← sliceFrom (pBigSampleBuffer ym) (SampleStart b);
        let ym := set_pCurrentMixSample s ym in
        let ym := set_currentSampleLength (u32 (Z.shiftl (SampleLength b) 12)) ym in
        if u32 (replayRate ym) =? 0 then Panic
        else
          let ym := set_currentPente
                      (u32 (Z.shiftl (u32 (ReplayFreq b)) 12) / u32 (replayRate ym))
                      ym in
          let len := u32 (tEnd - Time k) in
          if len =? 0 then Panic
          else
            let t0 := u32 (u32 (time - Time k) * SampleLength b) / len in
            let ym := set_currentPos (u32 (Z.shiftl t0 12)) ym in
            Ret (set_nbRepeat (NRepeat k) ym)
      else setMixTimeLoop n' (i + 1) time ym
  end.

Definition setMixTime (time : Z) (ym : CYmMusic) : exec CYmMusic :=
  if time >? musicLenInMs ym then Ret ym
  else
    ym ← setMixTimeLoop (Z.to_nat (nbTimeKey ym)) 0 time ym;
    let ym := set_iMusicPosInMs time ym in
    Ret (set_iMusicPosAccurateSample 0 ym).

(** *** Tracker mixer *)

(** [pVoice[i]] updated in place. *)
Definition withVoice (i : Z) (f : YmTrackerVoice -> YmTrackerVoice)
    (l : list YmTrackerVoice) : exec (list YmTrackerVoice) :=
  v ← index l i; store l i (f v).

(** The loop [for i := 0; i < ym.nbVoice; i++] of [ymTrackerPlayer], up to its
    [break]. *)
Fixpoint trackerLines (n : nat) (i offset : Z) (ym : CYmMusic)
    (pVoice : list YmTrackerVoice) : exec (list YmTrackerVoice) :=
  match n with
  | O => Ret pVoice
  | S n' =>
      let idx := offset + i * 4 in
      if Z.of_nat (length (pDataStream ym)) <=? idx + 3 then Ret pVoice
      else
        NoteOn ← index (pDataStream ym) idx;
        Volume ← index (pDataStream ym) (idx + 1);
        FreqHigh ← index (pDataStream ym) (idx + 2);
        FreqLow ← index (pDataStream ym) (idx + 3);
        let freq := Z.lor (u32 (Z.shiftl FreqHigh 8)) FreqLow in
        pVoice ← withVoice i (set_SampleFreq freq) pVoice;
        pVoice ←
          (if negb (freq =? 0) then
             pVoice ← withVoice i (set_SampleVolume (s32 (Z.land Volume 63))) pVoice;
             pVoice ← withVoice i (set_Loop (negb (Z.land Volume 64 =? 0))) pVoice;
             if negb (NoteOn =? 255) then
               pVoice ← withVoice i (set_Running true) pVoice;
               drum ← index (pDrumTab ym) NoteOn;
               pVoice ← withVoice i (set_Sample (Data drum)) pVoice;
               drum ← index (pDrumTab ym) NoteOn;
               pVoice ← withVoice i (set_SampleSize (Size drum)) pVoice;
               drum ← index (pDrumTab ym) NoteOn;
               pVoice ← withVoice i (set_RepLen (DrumRepLen drum)) pVoice;
               withVoice i (set_SamplePos 0) pVoice
             else Ret pVoice
           else withVoice i (set_Running false) pVoice);
        trackerLines n' (i + 1) offset ym pVoice
  end.

Definition ymTrackerPlayer (ym : CYmMusic) : exec CYmMusic :=
  let lineSize := 4 in
  let offset := currentFrame ym * nbVoice ym * lineSize in
  pVoice ← trackerLines (Z.to_nat (nbVoice ym)) 0 offset ym (ymTrackerVoice ym);
  let ym := set_ymTrackerVoice pVoice ym in
  let ym := set_currentFrame (currentFrame ym + 1) ym in
  if nbFrame ym <=? currentFrame ym then
    let ym := if negb (bLoop ym) then set_bMusicOver true ym else ym in
    Ret (set_currentFrame 0 ym)
  else Ret ym.

(** The loop [for i := 0; i < nbs; i++] of [ymTrackerVoiceAdd]; it returns the
    voice (stopped, or with its new [SamplePos]) and the buffer. *)
Fixpoint voiceAddLoop (n : nat) (i off : Z) (pVolumeTab : list Z)
    (sampleInc sampleEnd repLen samplePos : Z) (v : YmTrackerVoice)
    (pBuffer : list Z) : exec (YmTrackerVoice * list Z) :=
  match n with
  | O => Ret (set_SamplePos samplePos v, pBuffer)
  | S n' =>
      if Z.of_nat (length (Sample v)) <=? Z.shiftr samplePos YMTPREC
      then Ret (set_Running false v, pBuffer)
      else
        b ← index (Sample v) (Z.shiftr samplePos YMTPREC);
        t ← index pVolumeTab b;
        let va := s32 t in
        vb ← (if samplePos <? u32 (sampleEnd - Z.shiftl 1 YMTPREC) then
                let nextIdx := u32 (Z.shiftr samplePos YMTPREC + 1) in
                if nextIdx <? Z.of_nat (length (Sample v)) then
                  b' ← index (Sample v) nextIdx;
                  t' ← index pVolumeTab b';
                  Ret (s32 t')
                else Ret va
              else Ret va);
        let frac := Z.land samplePos (Z.shiftl 1 YMTPREC - 1) in
        let va := s32 (va + Z.shiftr (s32 (s32 (vb - va) * s32 frac)) YMTPREC) in
        old ← index pBuffer (off + i);
        pBuffer ← store pBuffer (off + i) (s16 (old + s16 va));
        let samplePos := u32 (samplePos + sampleInc) in
        if sampleEnd <=? samplePos then
          if Loop v then
            voiceAddLoop n' (i + 1) off pVolumeTab sampleInc sampleEnd repLen
                         (u32 (samplePos - repLen)) v pBuffer
          else Ret (set_Running false v, pBuffer)
        else
          voiceAddLoop n' (i + 1) off pVolumeTab sampleInc sampleEnd repLen
                       samplePos v pBuffer
  end.

(** [ymTrackerVoiceAdd(pVoice, pBuffer[off:], nbs)] *)
Definition ymTrackerVoiceAdd (v : YmTrackerVoice) (pBuffer : list Z)
    (off nbs : Z) (ym : CYmMusic) : exec (YmTrackerVoice * list Z) :=
  if negb (Running v) then Ret (v, pBuffer)
  else
    pVolumeTab ← sliceFrom (ymTrackerVolumeTable ym)
                           (256 * Z.land (SampleVolume v) 63);
    let samplePos := SamplePos v in
    let sampleInc :=
      trackerSampleInc (SampleFreq v) (ymTrackerFreqShift ym) (replayRate ym) in
    let sampleEnd := u32 (Z.shiftl (SampleSize v) YMTPREC) in
    let repLen := u32 (Z.shiftl (RepLen v) YMTPREC) in
    voiceAddLoop (Z.to_nat nbs) 0 off pVolumeTab sampleInc sampleEnd repLen
                 samplePos v pBuffer.

(** [for i := 0; i < ym.nbVoice; i++ { ym.ymTrackerVoiceAdd(&ym.ymTrackerVoice[i], ...) }] *)
Fixpoint addVoices (n : nat) (i off nbs : Z) (ym : CYmMusic) (pBuffer : list Z)
  : exec (CYmMusic * list Z) :=
  match n with
  | O => Ret (ym, pBuffer)
  | S n' =>
      v ← index (ymTrackerVoice ym) i;
      '(v, pBuffer) ← ymTrackerVoiceAdd v pBuffer off nbs ym;
      l ← store (ymTrackerVoice ym) i v;
      addVoices n' (i + 1) off nbs (set_ymTrackerVoice l ym) pBuffer
  end.

(** The loop [for remaining > 0] of [ymTrackerUpdate]. *)
Fixpoint trackerLoop (fuel : nat) (remaining bufIdx : Z) (ym : CYmMusic)
    (pBuffer : list Z) : exec (CYmMusic * list Z) :=
  if remaining >? 0 then
    match fuel with
    | O => OutOfFuel
    | S fuel' =>
        r ← (if ymTrackerNbSampleBefore ym =? 0 then
               ym ← ymTrackerPlayer ym;
               if bMusicOver ym then Ret (inr ym)
               else if playerRate ym =? 0 then Panic
               else Ret (inl (set_ymTrackerNbSampleBefore
                                (sdiv (replayRate ym) (playerRate ym)) ym))
             else Ret (inl ym));
        match r with
        | inr ym => Ret (ym, pBuffer)
        | inl ym =>
            let nbs := ymTrackerNbSampleBefore ym in
            let nbs := if nbs >? remaining then remaining else nbs in
            let ym := set_ymTrackerNbSampleBefore
                        (ymTrackerNbSampleBefore ym - nbs) ym in
            if nbs >? 0 then
              if Z.of_nat (length pBuffer) <? bufIdx then Panic
              else
                '(ym, pBuffer) ← addVoices (Z.to_nat (nbVoice ym)) 0 bufIdx nbs
                                           ym pBuffer;
                trackerLoop fuel' (remaining - nbs) (bufIdx + nbs) ym pBuffer
            else trackerLoop fuel' remaining bufIdx ym pBuffer
        end
    end
  else Ret (ym, pBuffer).

(** [for i := 0; i < nbSample; i++ { pBuffer[i] = 0 }] *)
Fixpoint clearFrom (n : nat) (i : Z) (pBuffer : list Z) : exec (list Z) :=
  match n with
  | O => Ret pBuffer
  | S n' => pBuffer ← store pBuffer i 0; clearFrom n' (i + 1) pBuffer
  end.

Definition bufferClear (pBuffer : list Z) (nbSample : Z) : exec (list Z) :=
  clearFrom (Z.to_nat nbSample) 0 pBuffer.

Definition ymTrackerUpdate (fuel : nat) (pBuffer : list Z) (nbSample : Z)
    (ym : CYmMusic) : exec (CYmMusic * list Z) :=
  pBuffer ← clearFrom (Z.to_nat nbSample) 0 pBuffer;
  if bMusicOver ym then Ret (ym, pBuffer)
  else trackerLoop fuel nbSample 0 ym pBuffer.

(** *** [Update] *)

(** The loop [for nbs > 0] of [Update] for the register-stream formats; [off]
    is where [pOut] starts in [pBuffer]. *)
Fixpoint updateLoop (fuel : nat) (vt : list Z) (vblNbSample nbs off : Z)
    (ym : CYmMusic) (pBuffer : list Z) : exec (CYmMusic * list Z) :=
  if nbs >? 0 then
    match fuel with
    | O => OutOfFuel
    | S fuel' =>
        let sampleToCompute := vblNbSample - innerSamplePos ym in
        let sampleToCompute :=
          if sampleToCompute >? nbs then nbs else sampleToCompute in
        let ym := set_innerSamplePos (innerSamplePos ym + sampleToCompute) ym in
        ym ← (if vblNbSample <=? innerSamplePos ym then
                ym ← player vt ym;
                Ret (set_innerSamplePos (innerSamplePos ym - vblNbSample) ym)
              else Ret ym);
        if sampleToCompute >? 0 then
          pOut ← sliceFrom pBuffer off;
          sub ← slice pOut 0 sampleToCompute;
          '(chip, sub) ← Ym2149.Update vt sub (s32 sampleToCompute) (ymChip ym);
          let pBuffer := take (Z.to_nat off) pBuffer ++ sub
                         ++ drop (Z.to_nat (off + sampleToCompute)) pBuffer in
          updateLoop fuel' vt vblNbSample (nbs - sampleToCompute)
                     (off + sampleToCompute) (set_ymChip chip ym) pBuffer
        else
          updateLoop fuel' vt vblNbSample (nbs - sampleToCompute) off ym pBuffer
    end
  else Ret (ym, pBuffer).

Definition Update (fuel : nat) (vt : list Z) (pBuffer : list Z) (nbSample : Z)
    (ym : CYmMusic) : exec (CYmMusic * list Z * bool) :=
  if negb (bMusicOk ym) || bPause ym || bMusicOver ym then
    pBuffer ← bufferClear pBuffer nbSample;
    if bMusicOver ym then Ret (ym, pBuffer, false)
    else Ret (ym, pBuffer, true)
  else if (YM_MIX1 <=? songType ym) && (songType ym <? YM_MIXMAX) then
    '(ym, pBuffer) ← stDigitMix pBuffer nbSample ym;
    Ret (ym, pBuffer, true)
  else if (YM_TRACKER1 <=? songType ym) && (songType ym <? YM_TRACKERMAX) then
    '(ym, pBuffer) ← ymTrackerUpdate fuel pBuffer nbSample ym;
    Ret (ym, pBuffer, true)
  else if playerRate ym =? 0 then Panic
  else
    let vblNbSample := sdiv (replayRate ym) (playerRate ym) in
    '(ym, pBuffer) ← updateLoop fuel vt vblNbSample nbSample 0 ym pBuffer;
    Ret (ym, pBuffer, true).

(** *** Position and seeking *)

Definition GetPos (ym : CYmMusic) : Z :=
  if (YM_MIX1 <=? songType ym) && (songType ym <? YM_MIXMAX) then iMusicPosInMs ym
  else if (nbFrame ym >? 0) && (playerRate ym >? 0)
  then u32 (u32 (currentFrame ym) * 1000) / u32 (playerRate ym)
  else 0.

Definition GetMusicTime (ym : CYmMusic) : Z :=
  if (YM_MIX1 <=? songType ym) && (songType ym <? YM_MIXMAX) then musicLenInMs ym
  else if (nbFrame ym >? 0) && (playerRate ym >? 0)
  then u32 (u32 (nbFrame ym) * 1000) / u32 (playerRate ym)
  else 0.

Definition SetMusicTime (time : Z) (ym : CYmMusic) : exec (CYmMusic * Z) :=
  if negb (IsSeekable ym) then Ret (ym, 0)
  else
    let newTime := time in
    if (YM_V2 <=? songType ym) && (songType ym <? YM_VMAX) then
      let newTime := if GetMusicTime ym <=? newTime then 0 else newTime in
      Ret (set_currentFrame (u32 (newTime * u32 (playerRate ym)) / 1000) ym, newTime)
    else if (YM_TRACKER1 <=? songType ym) && (songType ym <? YM_TRACKERMAX) then
      let newTime := if GetMusicTime ym <=? newTime then 0 else newTime in
      Ret (set_currentFrame (u32 (newTime * u32 (playerRate ym)) / 1000) ym, newTime)
    else if (YM_MIX1 <=? songType ym) && (songType ym <? YM_MIXMAX) then
      ym ← setMixTime time ym;
      Ret (ym, newTime)
    else Ret (ym, newTime).

Definition Restart (ym : CYmMusic) : exec CYmMusic :=
  '(ym, _) ← SetMusicTime 0 ym;
  Ret (set_bMusicOver false ym).

End Player.

(** [NewYmMusic]: a fresh player at [replayRate]; [g] is the process-wide state
    of the volume table. *)
Definition NewYmMusic (g : Globals) (replayRate : Z) : exec (Globals * CYmMusic) :=
  let replayRate := if replayRate <=? 0 then 44100 else replayRate in
  '(g, chip) ← NewYm2149Ex g ATARI_CLOCK 1 (u32 replayRate);
  let ym :=
    mkYmMusic chip 0 0 0 0 0 [] [] [] false 0 0 0 false false 0 0 replayRate false
      EmptyString EmptyString EmptyString EmptyString EmptyString
      0 0 [] (-1) [] [] 0 0 0 0 [] 0 0 0
      0 (repeat (mkTrackerVoice [] 0 0 0 0 0 false false) (Z.to_nat MAX_VOICE))
      0 (repeat 0 (256 * 64)%nat) 0 in
  Ret (g, SetLoopMode false ym).


(** *** The [StSound] interface (stsound.go) *)

(** [StSound]: a handle on one player; [Destroy] leaves it [nil]. *)
Record StSound : Type := mkStSound { music : option CYmMusic }.

Section Api.

Variable sampleAddress : list (list Z).
Variable sampleLen : list Z.
Variable trackerSampleInc : Z -> Z -> Z -> Z.

Definition CreateWithRate (g : Globals) (replayRate : Z) : exec (Globals * StSound) :=
  '(g, ym) ← NewYmMusic g replayRate;
  Ret (g, mkStSound (Some ym)).

Definition Create (g : Globals) : exec (Globals * StSound) :=
  '(g, ym) ← NewYmMusic g 44100;
  Ret (g, mkStSound (Some ym)).

Definition Destroy (s : StSound) : StSound :=
  match music s with
  | Some _ => mkStSound None
  | None => s
  end.

(** A method of [*CYmMusic] called through [s.music]: a nil pointer panics at
    the first field it reads. *)
Definition onMusic {A : Type} (s : StSound) (f : CYmMusic -> exec A) : exec A :=
  match music s with
  | Some ym => f ym
  | None => Panic
  end.

Definition StLoadMemory (vt : list Z) (data : list Z) (s : StSound)
  : exec (StSound * option LoadError) :=
  onMusic s (fun ym =>
    '(ym, e) ← loadMemory vt data ym;
    Ret (mkStSound (Some ym), e)).

(** [for i := 0; i < nbSamples; i++ { buffer[i] = int16(ymBuffer[i]) }] *)
Fixpoint copyOut (n : nat) (i : Z) (ymBuffer buffer : list Z) : exec (list Z) :=
  match n with
  | O => Ret buffer
  | S n' =>
      x ← index ymBuffer i;
      buffer ← store buffer i (s16 x);
      copyOut n' (i + 1) ymBuffer buffer
  end.

(** [Compute]: renders into a zeroed buffer of its own, then copies. *)
Definition Compute (fuel : nat) (vt : list Z) (buffer : list Z) (nbSamples : Z)
    (s : StSound) : exec (StSound * list Z * bool) :=
  if nbSamples <? 0 then Panic
  else
    let ymBuffer := repeat 0 (Z.to_nat nbSamples) in
    onMusic s (fun ym =>
      '(ym, ymBuffer, result) ←
        Update sampleAddress sampleLen trackerSampleInc fuel vt ymBuffer nbSamples ym;
      buffer ← copyOut (Z.to_nat nbSamples) 0 ymBuffer buffer;
      Ret (mkStSound (Some ym), buffer, result)).

Definition StSetLoopMode (loop : bool) (s : StSound) : exec StSound :=
  onMusic s (fun ym => Ret (mkStSound (Some (SetLoopMode loop ym)))).

Definition StSetLowpassFilter (active : bool) (s : StSound) : exec StSound :=
  onMusic s (fun ym => Ret (mkStSound (Some (SetLowpassFilter active ym)))).

Definition GetRegister (r : Z) (s : StSound) : exec Z :=
  onMusic s (fun ym => Ret (ReadYmRegister r ym)).

Definition IsOver (s : StSound) : exec bool :=
  onMusic s (fun ym => Ret (GetMusicOver ym)).

Definition StIsSeekable (s : StSound) : exec bool :=
  onMusic s (fun ym => Ret (IsSeekable ym)).

Definition StGetPos (s : StSound) : exec Z :=
  onMusic s (fun ym => Ret (u32 (GetPos ym))).

Definition Seek (timeInMs : Z) (s : StSound) : exec StSound :=
  onMusic s (fun ym =>
    '(ym, _) ← SetMusicTime (u32 timeInMs) ym;
    Ret (mkStSound (Some ym))).

Definition StRestart (s : StSound) : exec StSound :=
  onMusic s (fun ym => ym ← Restart ym; Ret (mkStSound (Some ym))).

Definition StPlay (s : StSound) : exec StSound :=
  onMusic s (fun ym => Ret (mkStSound (Some (play ym)))).

Definition StPause (s : StSound) : exec StSound :=
  onMusic s (fun ym => Ret (mkStSound (Some (pause ym)))).

Definition StStop (s : StSound) : exec StSound :=
  onMusic s (fun ym => Ret (mkStSound (Some (stop ym)))).

End Api.
End Music.

(** ** Notions used in the statements *)

Module Claims.

Import Ym2149 Music.

(** What the code assumes of a chip it is handed: the arrays have their
    declared sizes, the registers hold bytes and the clock is a [YmU32]. *)
Definition chip_wf (ym : CYm2149Ex) : Prop :=
  length (registers ym) = 14%nat /\
  Forall (fun b => 0 <= b < 256) (registers ym) /\
  length (specialEffect ym) = 3%nat /\
  0 <= internalClock ym < 2^32.

(** The 12-bit tone period of voice [v]: 4 bits of the high register, 8 bits of
    the low one. *)
Definition tonePeriod (ym : CYm2149Ex) (v : Z) : Z :=
  Z.land (reg ym (Z.to_nat (2 * v + 1))) 15 * 256 + reg ym (Z.to_nat (2 * v)).

Definition toneStep (ym : CYm2149Ex) (v : Z) : Z :=
  match v with 0 => stepA ym | 1 => stepB ym | _ => stepC ym end.

Definition tonePos (ym : CYm2149Ex) (v : Z) : Z :=
  match v with 0 => posA ym | 1 => posB ym | _ => posC ym end.

(** The tone step of the specification, in exact integer arithmetic. *)
Definition exactToneStep (clock per rate : Z) : Z :=
  if per <=? 5 then 0 else Z.shiftl clock 28 / (per * rate).

(** The zero values of the two structs. *)
Definition zeroChip : CYm2149Ex :=
  mkYm2149Ex false 0 0 (repeat 0 14%nat) 0 0 0 0 0 0 0 0 0 0 0 0 0 0 0 0
    PtrVol PtrVol PtrVol 0 0 0 0 0 0 0 0 (repeat emptyEffect 3%nat) false 0 0
    (0, 0) NewDcAdjuster.

Definition zeroMusic : CYmMusic :=
  mkYmMusic zeroChip 0 0 0 0 0 [] [] [] false 0 0 0 false false 0 0 0 false
    EmptyString EmptyString EmptyString EmptyString EmptyString
    0 0 [] 0 [] [] 0 0 0 0 [] 0 0 0 0 [] 0 [] 0.

(** The volume table once the first chip of the process has scaled it. *)
Definition scaledTable : list Z := ymVolumeTable (scaleVolumeTable globals0).

(** The chip of a player created with [-rate 8000]. *)
Definition chip8000 : CYm2149Ex :=
  Eval vm_compute in
    match NewYm2149Ex globals0 ATARI_CLOCK 1 8000 with
    | Ret (_, ym) => ym
    | _ => zeroChip
    end.

(** The chip of a player created at the default rate, 44100 Hz. *)
Definition chip44100 : CYm2149Ex :=
  Eval vm_compute in
    match NewYm2149Ex globals0 ATARI_CLOCK 1 44100 with
    | Ret (_, ym) => ym
    | _ => zeroChip
    end.

(** The per-voice fields of the chip, by voice index 0, 1, 2. *)
Definition volOf (ym : CYm2149Ex) (v : Z) : Z :=
  match v with 0 => volA ym | 1 => volB ym | _ => volC ym end.
Definition pVolOf (ym : CYm2149Ex) (v : Z) : VolPtr :=
  match v with 0 => pVolA ym | 1 => pVolB ym | _ => pVolC ym end.
Definition mixerTOf (ym : CYm2149Ex) (v : Z) : Z :=
  match v with 0 => mixerTA ym | 1 => mixerTB ym | _ => mixerTC ym end.
Definition mixerNOf (ym : CYm2149Ex) (v : Z) : Z :=
  match v with 0 => mixerNA ym | 1 => mixerNB ym | _ => mixerNC ym end.
Definition voiceOutOf (ym : CYm2149Ex) (v : Z) : Z :=
  match v with 0 => voiceOutA ym | 1 => voiceOutB ym | _ => voiceOutC ym end.

(** The amplitude register of voice [v] (register 8, 9 or 10). *)
Definition ampReg (ym : CYm2149Ex) (v : Z) : Z := reg ym (Z.to_nat (8 + v)).

(** The term voice [v] contributes to the sum of the next [nextSample]. *)
Definition contribution (vt : list Z) (ym : CYm2149Ex) (v : Z) : exec Z :=
  f ← sampleFront vt ym; Ret (voiceOutOf f v).

(** The chip after [n] calls of [nextSample]. *)
Fixpoint afterSamples (vt : list Z) (n : nat) (ym : CYm2149Ex) : exec CYm2149Ex :=
  match n with
  | O => Ret ym
  | S n' => '(ym, _) ← nextSample vt ym; afterSamples vt n' ym
  end.

(** The contributions of voice [v] to the next [n] samples. *)
Fixpoint voiceTrace (vt : list Z) (v : Z) (n : nat) (ym : CYm2149Ex)
  : exec (list Z) :=
  match n with
  | O => Ret []
  | S n' =>
      c ← contribution vt ym v;
      '(ym, _) ← nextSample vt ym;
      rest ← voiceTrace vt v n' ym;
      Ret (c :: rest)
  end.

(** Register writes [(r, data)] applied in order. *)
Fixpoint writeAll (vt : list Z) (ws : list (Z * Z)) (ym : CYm2149Ex)
  : exec CYm2149Ex :=
  match ws with
  | [] => Ret ym
  | (r, d) :: ws => ym ← WriteRegister vt r d ym; writeAll vt ws ym
  end.

(** The chip of a player at the default rate after the register writes [ws]. *)
Definition chipWith (ws : list (Z * Z)) : CYm2149Ex :=
  match writeAll scaledTable ws chip44100 with
  | Ret ym => ym
  | _ => zeroChip
  end.

(** Voice A at period 2 and level 15, tone on, every noise off. *)
Definition pinnedChip : CYm2149Ex := chipWith [(0, 2); (8, 15); (7, 62)].

(** Voice A at period 2 and level 15, with tone and noise on (noise period 3). *)
Definition noisyChip : CYm2149Ex := chipWith [(0, 2); (8, 15); (6, 3); (7, 54)].

(** Voice A at period 2 on the envelope (shape 8, envelope period 3). *)
Definition envelopeChip : CYm2149Ex :=
  chipWith [(0, 2); (8, 31); (7, 62); (11, 3); (12, 0); (13, 8)].

(** [pinnedChip] after a drum of one byte, 60, has played on voice A: started
    at the replay rate, it ends with the first sample. *)
Definition drumEndedChip : CYm2149Ex :=
  match ym ← DrumStart 0 [60] 1 44100 pinnedChip;
        nextSample scaledTable ym with
  | Ret (ym, _) => ym
  | _ => zeroChip
  end.

(** Whether a SID or a drum runs on voice [v]. *)
Definition effectRuns (ym : CYm2149Ex) (v : Z) : bool :=
  match specialEffect ym !! Z.to_nat v with
  | Some fx => Sid fx || Drum fx
  | None => false
  end.

(** No SID and no drum runs on voice [v]. *)
Definition quietAt (ym : CYm2149Ex) (v : Z) : Prop :=
  exists fx, specialEffect ym !! Z.to_nat v = Some fx
             /\ Sid fx = false /\ Drum fx = false.

(** Voice [v] is pinned and quiet: its step is 0 and its accumulator
    0x80000000 (tone period at most 5), no SID or drum runs on it, its volume
    pointer is at its own volume, which fits 16 bits, and its noise is switched
    off in the mixer. *)
Definition pinnedQuiet (ym : CYm2149Ex) (v : Z) : Prop :=
  toneStep ym v = 0 /\ tonePos ym v = 2^31 /\
  quietAt ym v /\
  pVolOf ym v = PtrVol /\
  0 <= volOf ym v < 65536 /\
  mixerNOf ym v = 65535.

(** What [nextSample] reads of voice [v]. *)
Definition voiceView (ym : CYm2149Ex) (v : Z)
  : Z * Z * VolPtr * Z * Z * Z * option (bool * bool) :=
  (toneStep ym v, tonePos ym v, pVolOf ym v, volOf ym v, mixerNOf ym v,
   ampReg ym v, (fun fx => (Sid fx, Drum fx)) <$> specialEffect ym !! Z.to_nat v).

(** A running drum reads inside its sample buffer: what [DrumStart] sets up
    for a buffer as long as the drum, and [sidVolumeCompute] keeps. *)
Definition drum_ok (fx : YmSpecialEffect) : Prop :=
  Drum fx = true ->
  0 <= DrumPos fx /\ Z.shiftr (DrumPos fx) DRUM_PREC < DrumSize fx /\
  DrumSize fx <= Z.of_nat (length (DrumData fx)).

Definition effects_ok (ym : CYm2149Ex) : Prop :=
  length (specialEffect ym) = 3%nat /\ Forall drum_ok (specialEffect ym).

(** What a chip operation keeps: the replay rate, and registers that are
    bytes. *)
Definition byteRegs (ym : CYm2149Ex) : Prop :=
  Forall (fun b => 0 <= b < 256) (registers ym).

Definition chipFrame (ym ym' : CYm2149Ex) : Prop :=
  replayFrequency ym' = replayFrequency ym /\ (byteRegs ym -> byteRegs ym').

(** A chip on which every operation returns: three effect slots with their
    drums inside their buffers, byte registers, and a replay rate below 65536,
    for which no period times the rate is 0 in 32 bits. *)
Definition chipInv (ym : CYm2149Ex) : Prop :=
  effects_ok ym /\ byteRegs ym /\ 0 < replayFrequency ym < 65536.

(** A drum bank whose drums are not longer than their samples. *)
Definition drums_ok (ym : CYmMusic) : Prop :=
  nbDrum ym <= Z.of_nat (length (pDrumTab ym)) /\
  Forall (fun d => Size d <= Z.of_nat (length (Data d))) (pDrumTab ym).

(** A register-stream song of type YM3, YM5 or YM6 as [ymDecode] sets it up
    (frames of 14 or 16 bytes), with a player rate between 1 and the replay
    rate, on a chip of the invariant. *)
Definition songInv (ym : CYmMusic) : Prop :=
  ((songType ym = YM_V3 /\ streamInc ym = 14) \/
   ((songType ym = YM_V5 \/ songType ym = YM_V6) /\ streamInc ym = 16)) /\
  0 <= loopFrame ym /\
  0 < playerRate ym <= replayRate ym /\ replayRate ym < 2^31 /\
  chipInv (ymChip ym) /\ drums_ok ym.

(** A song between two calls of [Update]: the position inside the current
    frame is below the samples of one frame. *)
Definition playInv (ym : CYmMusic) : Prop :=
  songInv ym /\ 0 <= innerSamplePos ym < replayRate ym / playerRate ym.

(** A call of [Update] that renders nothing: no music, paused, or over. *)
Definition idle (ym : CYmMusic) : bool :=
  negb (bMusicOk ym) || bPause ym || bMusicOver ym.

(** What playing changes of a player: the chip, the current frame, the
    over-flag and the position inside the frame. *)
Definition played (chip : CYm2149Ex) (frame : Z) (over : bool) (inner : Z)
    (ym : CYmMusic) : CYmMusic :=
  set_innerSamplePos inner
    (set_currentFrame frame (set_bMusicOver over (set_ymChip chip ym))).


(** The sum of a list of integers. *)
Definition sumZ (l : list Z) : Z := foldr Z.add 0 l.

(** A DC adjuster whose running sum is the sum of its window of 512 samples,
    each of magnitude at most 2^21. *)
Definition dc_ok (d : DcAdjuster) : Prop :=
  length (dc_buffer d) = 512%nat /\ 0 <= dc_pos d < 512 /\
  Forall (fun x => - 2^21 <= x <= 2^21) (dc_buffer d) /\
  dc_sum d = sumZ (dc_buffer d).

(** A new player at the default rate. *)
Definition newPlayer : CYmMusic :=
  match NewYmMusic globals0 44100 with
  | Ret (_, ym) => ym
  | _ => zeroMusic
  end.

(** The SID step of the specification. *)
Definition exactTimerStep (timerFreq rate : Z) : Z := timerFreq * 2^31 / rate.

(** A new player at the default rate, asked for register [r]. *)
Definition readRegisterOfNewPlayer (r : Z) : exec Z :=
  '(_, ym) ← NewYmMusic globals0 44100;
  Ret (ReadYmRegister r ym).

(** A new chip at 44100 Hz on which a SID voice (resp. the Sync-Buzzer) is
    started with timer frequency [f]: the step it is given. *)
Definition sidStepAt (f : Z) : exec Z :=
  '(_, ym) ← NewYm2149Ex globals0 ATARI_CLOCK 1 44100;
  ym ← SidStart 0 f 15 ym;
  fx ← index (specialEffect ym) 0;
  Ret (SidStep fx).

Definition syncBuzzerStepAt (f : Z) : exec Z :=
  '(_, ym) ← NewYm2149Ex globals0 ATARI_CLOCK 1 44100;
  ym ← SyncBuzzerStart f 8 ym;
  Ret (syncBuzzerStep ym).

(** No MADMAX sample bank and no tracker: what the concrete runs below pass
    for the tables and the function the player is parameterised by. *)
Definition noSamples : list (list Z) := [].
Definition noSampleLen : list Z := [].
Definition noTracker (freq shift rate : Z) : Z := 0.

Definition be16 (x : Z) : list Z := [Z.land (Z.shiftr x 8) 255; Z.land x 255].
Definition be32 (x : Z) : list Z :=
  [Z.land (Z.shiftr x 24) 255; Z.land (Z.shiftr x 16) 255;
   Z.land (Z.shiftr x 8) 255; Z.land x 255].

(** A YM5!/YM6! file image: tag byte [v] (53 or 54), no drums, empty strings,
    frame-major register stream. *)
Definition ymFile (v : Z) (nbFrames attr clock rate loop : Z) (frames : list Z)
  : list Z :=
  [89; 77; v; 33] ++ leonard ++ be32 nbFrames ++ be32 attr ++ be16 0
  ++ be32 clock ++ be16 rate ++ be32 loop ++ be16 0 ++ [0; 0; 0] ++ frames.

(** One frame: tone A period 256, tone A enabled, volume 15, no effects. *)
Definition frame16 : list Z := [0; 1; 0; 0; 0; 0; 0; 62; 15; 0; 0; 0; 0; 255; 0; 0].

(** A two-frame YM6! file played at 60 Hz. *)
Definition ym6_60Hz : list Z := ymFile 54 2 0 2000000 60 0 (frame16 ++ frame16).

(** Load [ym6_60Hz] at 44100 Hz, play one frame (735 samples), then seek to
    the reported position: the frame before, the position, the frame after. *)
Definition seekAfterOneFrame : exec (Z * Z * Z) :=
  '(g, ym) ← NewYmMusic globals0 44100;
  '(ym, _) ← loadMemory (ymVolumeTable g) ym6_60Hz ym;
  '(ym, _, _) ← Music.Update noSamples noSampleLen noTracker 735
                             (ymVolumeTable g) (repeat 0 735%nat) 735 ym;
  let before := currentFrame ym in
  let pos := GetPos ym in
  '(ym, _) ← SetMusicTime pos ym;
  Ret (before, pos, currentFrame ym).

(** The same file played at 50 Hz. *)
Definition ym6_50Hz : list Z := ymFile 54 2 0 2000000 50 0 (frame16 ++ frame16).

(** The player that has loaded [data] at 44100 Hz and rendered [n] samples. *)
Definition playedFor (data : list Z) (n : Z) : CYmMusic :=
  match
    '(g, ym) ← NewYmMusic globals0 44100;
    '(ym, _) ← loadMemory (ymVolumeTable g) data ym;
    '(ym, _, _) ← Music.Update noSamples noSampleLen noTracker (Z.to_nat n)
                               (ymVolumeTable g) (repeat 0 (Z.to_nat n)) n ym;
    Ret ym
  with
  | Ret ym => ym
  | _ => zeroMusic
  end.

(** A one-frame YM3! file, the same frame as a YM3b file whose loop frame, 5,
    is behind its end, and a YM5! header that declares a player rate of 0. *)
Definition frame14 : list Z := [0; 1; 0; 0; 0; 0; 0; 62; 15; 0; 0; 0; 0; 255].
Definition ym3_oneFrame : list Z := [89; 77; 51; 33] ++ frame14.





(** Decidable forms of the invariants. *)
Definition drumCheck (fx : YmSpecialEffect) : bool :=
  negb (Drum fx)
  || ((0 <=? DrumPos fx) && (Z.shiftr (DrumPos fx) DRUM_PREC <? DrumSize fx)
      && (DrumSize fx <=? Z.of_nat (length (DrumData fx)))).

Definition chipCheck (ym : CYm2149Ex) : bool :=
  (length (specialEffect ym) =? 3)%nat
  && forallb drumCheck (specialEffect ym)
  && forallb (fun b => (0 <=? b) && (b <? 256)) (registers ym)
  && (0 <? replayFrequency ym) && (replayFrequency ym <? 65536).

Definition playCheck (ym : CYmMusic) : bool :=
  (((songType ym =? YM_V3) && (streamInc ym =? 14))
   || (((songType ym =? YM_V5) || (songType ym =? YM_V6))
       && (streamInc ym =? 16)))
  && (0 <=? loopFrame ym)
  && (0 <? playerRate ym) && (playerRate ym <=? replayRate ym)
  && (replayRate ym <? 2^31)
  && chipCheck (ymChip ym)
  && (nbDrum ym <=? Z.of_nat (length (pDrumTab ym)))
  && forallb (fun d => Size d <=? Z.of_nat (length (Data d))) (pDrumTab ym)
  && (0 <=? innerSamplePos ym)
  && (innerSamplePos ym <? replayRate ym / playerRate ym).

(** [LoadMemory(data)] on a new player at the default rate: the error it
    returns and whether music is loaded afterwards. *)
Definition loadOnNewPlayer (data : list Z) : exec (option LoadError * bool) :=
  '(g, ym) ← NewYmMusic globals0 44100;
  '(ym, e) ← loadMemory (ymVolumeTable g) data ym;
  Ret (e, bMusicOk ym).

(** The state [loadMemory] hands to [depackFile]. *)
Definition loadPrep (data : list Z) (ym : CYmMusic) : CYmMusic :=
  set_fileSize (s32 (Z.of_nat (length data)))
    (set_pBigMalloc data (unLoad (stop ym))).

(** Players created one after another in the same process, at the rates
    [rates]: the process-wide state they leave behind. *)
Fixpoint globalsAfter (rates : list Z) (g : Globals) : exec Globals :=
  match rates with
  | [] => Ret g
  | r :: rates => '(g, _) ← NewYmMusic g r; globalsAfter rates g
  end.

Section Sessions.

Variable sampleAddress : list (list Z).
Variable sampleLen : list Z.
Variable trackerSampleInc : Z -> Z -> Z -> Z.

(** [Compute(buffer, n)] and the [n] samples it leaves in [buffer]. *)
Definition computed (fuel : nat) (vt : list Z) (buffer : list Z) (n : Z)
    (s : StSound) : exec (StSound * list Z * bool) :=
  '(s, buffer, flag) ←
    Compute sampleAddress sampleLen trackerSampleInc fuel vt buffer n s;
  Ret (s, take (Z.to_nat n) buffer, flag).

(** A sequence of [Compute] calls, each with the caller's buffer and a sample
    count: the samples and the flag of each call. *)
Fixpoint computeAll (fuel : nat) (vt : list Z) (calls : list (list Z * Z))
    (s : StSound) : exec (list (list Z * bool)) :=
  match calls with
  | [] => Ret []
  | (buffer, n) :: calls =>
      '(s, out, flag) ← computed fuel vt buffer n s;
      rest ← computeAll fuel vt calls s;
      Ret ((out, flag) :: rest)
  end.

(** One run: create a player at [rate] in a process whose globals are [g], set
    the filter and the loop flag, load [data], then render [calls]. *)
Definition session (g : Globals) (rate : Z) (filter loop : bool)
    (data : list Z) (fuel : nat) (calls : list (list Z * Z))
  : exec (option LoadError * list (list Z * bool)) :=
  '(g, s) ← CreateWithRate g rate;
  s ← StSetLowpassFilter filter s;
  s ← StSetLoopMode loop s;
  '(s, e) ← StLoadMemory (ymVolumeTable g) data s;
  outs ← computeAll fuel (ymVolumeTable g) calls s;
  Ret (e, outs).

End Sessions.

(** Two call sequences with the same sample counts and buffer sizes. *)
Definition sameCalls (c1 c2 : list (list Z * Z)) : Prop :=
  Forall2 (fun a b => a.2 = b.2 /\ length a.1 = length b.1) c1 c2.

(** The 4-byte tag of a buffer, read big-endian, and the tags that [ymDecode]
    has a case for. *)
Definition tagOf (data : list Z) : Z := readBigEndian32 (take 4 data).

Definition loadableTag (id : Z) : Prop :=
  id = e_YM2a \/ id = e_YM3a \/ id = e_YM3b \/ id = e_YM5a \/ id = e_YM6a.

(** The song type of the decoder's case for the tag [id]. *)
Definition typeOfTag (id : Z) : option Z :=
  if id =? e_YM2a then Some YM_V2
  else if (id =? e_YM3a) || (id =? e_YM3b) then Some YM_V3
  else if id =? e_YM5a then Some YM_V5
  else if id =? e_YM6a then Some YM_V6
  else None.

(** 32 bytes behind a tag. *)
Definition tagged (a b c d : Z) : list Z := [a; b; c; d] ++ repeat 0 32%nat.

(** The fields of an LZH header that starts at offset [hs] of [data]: the
    method id, the little-endian original size, and the bytes that follow the
    header. *)
Definition headerStart (data : list Z) : option Z :=
  Lzh.findHeader (length data - 6) 0 data.






End Claims.

(** * Theorems *)

Import Ym2149 Music Claims.


(** *** Running the outcome monad *)

Lemma bind_Ret {A B : Type} (a : A) (f : A -> exec B) : (Ret a ≫= f) = f a.
Proof. reflexivity. Qed.
Lemma bind_Panic {A B : Type} (f : A -> exec B) : (Panic ≫= f) = Panic.
Proof. reflexivity. Qed.
Lemma bind_OutOfFuel {A B : Type} (f : A -> exec B) : (OutOfFuel ≫= f) = OutOfFuel.
Proof. reflexivity. Qed.

Ltac exec_rw := rewrite ?bind_Ret, ?bind_Panic, ?bind_OutOfFuel.
Ltac exec_step := cbn [mbind exec_mbind exec_bind].

(** *** Fixed-width arithmetic *)

Lemma s32_small (x : Z) : - 2^31 <= x < 2^31 -> s32 x = x.
Proof. intros H. unfold s32. rewrite Z.mod_small; lia. Qed.

Lemma s64_small (x : Z) : - 2^63 <= x < 2^63 -> s64 x = x.
Proof. intros H. unfold s64. rewrite Z.mod_small; lia. Qed.

Lemma u32_small (x : Z) : 0 <= x < 2^32 -> u32 x = x.
Proof. intros H. unfold u32. apply Z.mod_small; lia. Qed.

Lemma u8_small (x : Z) : 0 <= x < 256 -> u8 x = x.
Proof. intros H. unfold u8. apply Z.mod_small. change (2^8) with 256. lia. Qed.

Lemma land_mask_bounds (x : Z) (k : Z) : 0 <= k -> 0 <= Z.land x (2^k - 1) < 2^k.
Proof.
  intros Hk. replace (2^k - 1) with (Z.ones k) by (rewrite Z.ones_equiv; lia).
  rewrite Z.land_ones by lia. apply Z.mod_pos_bound. apply Z.pow_pos_nonneg; lia.
Qed.

Lemma land15 (x : Z) : 0 <= Z.land x 15 < 16.
Proof. exact (land_mask_bounds x 4 ltac:(lia)). Qed.
Lemma land255 (x : Z) : 0 <= Z.land x 255 < 256.
Proof. exact (land_mask_bounds x 8 ltac:(lia)). Qed.
Lemma land31 (x : Z) : 0 <= Z.land x 31 < 32.
Proof. exact (land_mask_bounds x 5 ltac:(lia)). Qed.

(** The period [toneStepCompute] computes from two register bytes. *)
Lemma toneStepCompute_spec (ym : CYm2149Ex) (rHigh rLow : Z) :
  0 <= rLow < 256 ->
  0 <= internalClock ym < 2^32 ->
  0 < replayFrequency ym -> 4095 * replayFrequency ym < 2^31 ->
  let per := Z.land rHigh 15 * 256 + rLow in
  toneStepCompute ym rHigh rLow =
    Ret (if per <=? 5 then 0
         else (Z.shiftl (internalClock ym) 28 / (per * replayFrequency ym)) mod 2^32).
Proof.
  intros Hlo Hclk Hr Hr' per. unfold toneStepCompute.
  pose proof (land15 rHigh) as Hhi.
  rewrite (s32_small (Z.land rHigh 15)) by lia.
  rewrite (s32_small rLow) by lia.
  rewrite Z.shiftl_mul_pow2 by lia. change (2^8) with 256.
  rewrite (s32_small (Z.land rHigh 15 * 256 + rLow)) by lia.
  fold per. destruct (per <=? 5) eqn:E; [reflexivity|].
  apply Z.leb_gt in E.
  assert (Hper : 5 < per <= 4095) by (unfold per; lia).
  assert (Hd : 0 < per * replayFrequency ym < 2^31) by nia.
  rewrite (s32_small (per * replayFrequency ym)) by lia.
  rewrite (s64_small (per * replayFrequency ym)) by lia.
  destruct (per * replayFrequency ym =? 0) eqn:E0; [apply Z.eqb_eq in E0; lia|].
  rewrite (s64_small (internalClock ym)) by lia.
  change (15 + 16 - 3) with 28.
  assert (Hs : 0 <= Z.shiftl (internalClock ym) 28 < 2^60).
  { rewrite Z.shiftl_mul_pow2 by lia. lia. }
  rewrite (s64_small (Z.shiftl (internalClock ym) 28)) by lia.
  unfold sdiv. rewrite Z.quot_div_nonneg by lia.
  assert (Hq : 0 <= Z.shiftl (internalClock ym) 28 / (per * replayFrequency ym) < 2^60).
  { split. apply Z.div_pos; lia. apply Z.div_lt_upper_bound; nia. }
  rewrite s64_small by lia. reflexivity.
Qed.

Tactic Notation "list_of_length" ident(l) integer(n) :=
  do n (destruct l as [|? l]; [simpl in *; discriminate|]);
  destruct l; [|simpl in *; discriminate].

Ltac split_Forall :=
  repeat match goal with
         | H : Forall _ (_ :: _) |- _ => apply Forall_cons in H; destruct H
         end.


Lemma reg_setReg_eq (ym : CYm2149Ex) (i : nat) (v : Z) :
  (i < length (registers ym))%nat -> reg (setReg i v ym) i = v.
Proof.
  intros H. unfold reg, setReg. cbn. rewrite nth_lookup.
  rewrite list_lookup_insert_eq by exact H. reflexivity.
Qed.

Lemma reg_setReg_ne (ym : CYm2149Ex) (i j : nat) (v : Z) :
  i <> j -> reg (setReg i v ym) j = reg ym j.
Proof.
  intros H. unfold reg, setReg. cbn. rewrite !nth_lookup.
  rewrite list_lookup_insert_ne by exact H. reflexivity.
Qed.

Lemma reg_bounds (ym : CYm2149Ex) (i : nat) :
  Forall (fun b => 0 <= b < 256) (registers ym) -> 0 <= reg ym i < 256.
Proof.
  intros H. unfold reg. rewrite nth_lookup.
  destruct (registers ym !! i) as [b|] eqn:E; cbn; [|lia].
  exact (Forall_lookup_1 _ _ _ _ H E).
Qed.

(** C1 (amended): a write to a tone register stores the low 32 bits of the
    specified quotient (0 for a period of at most 5), which is the quotient
    itself when that fits 32 bits, and pins the accumulator of a voice whose
    step is 0.  The replay rate is assumed small enough for the 32-bit product
    [per * replayFrequency] not to overflow. *)
Lemma C1_tone_step (vt : list Z) (ym : CYm2149Ex) (r data : Z) :
  chip_wf ym -> 0 <= r <= 5 ->
  0 < replayFrequency ym -> 4095 * replayFrequency ym < 2^31 ->
  exists ym',
    WriteRegister vt r data ym = Ret ym' /\
    let per := tonePeriod ym' (r / 2) in
    let q := Z.shiftl (internalClock ym') 28 / (per * replayFrequency ym') in
    toneStep ym' (r / 2) = (if per <=? 5 then 0 else q mod 2^32) /\
    (q < 2^32 ->
     toneStep ym' (r / 2)
     = exactToneStep (internalClock ym') per (replayFrequency ym')) /\
    (toneStep ym' (r / 2) = 0 -> tonePos ym' (r / 2) = 2^31).
Proof.
  intros (Hlen & Hbytes & _ & Hclk) Hr Hrate Hrate'.
  pose proof (land255 data) as Hd8. pose proof (land15 data) as Hd4.
  assert (Hcases : r = 0 \/ r = 1 \/ r = 2 \/ r = 3 \/ r = 4 \/ r = 5) by lia.
  destruct Hcases as [-> | [-> | [-> | [-> | [-> | ->]]]]];
    unfold WriteRegister;
    match goal with
    | |- context [toneStepCompute ?c (reg _ ?hi) (reg _ ?lo)] =>
        set (ym1 := c);
        assert (Hhi : 0 <= reg ym1 hi < 256)
          by (subst ym1;
              first [ rewrite reg_setReg_eq by (rewrite Hlen; lia); rewrite u8_small; lia
                    | rewrite reg_setReg_ne by lia; apply reg_bounds, Hbytes ]);
        assert (Hlo : 0 <= reg ym1 lo < 256)
          by (subst ym1;
              first [ rewrite reg_setReg_eq by (rewrite Hlen; lia); rewrite u8_small; lia
                    | rewrite reg_setReg_ne by lia; apply reg_bounds, Hbytes ]);
        rewrite (toneStepCompute_spec ym1 (reg ym1 hi) (reg ym1 lo) Hlo Hclk Hrate Hrate')
    end;
    cbn [mbind exec_mbind exec_bind];
    match goal with
    | |- context [Ret (if ?s =? 0 then _ else _)] => destruct (s =? 0) eqn:Es
    end;
    eexists; (split; [reflexivity|]);
    change (0 / 2) with 0; change (1 / 2) with 0; change (2 / 2) with 1;
    change (3 / 2) with 1; change (4 / 2) with 2; change (5 / 2) with 2;
    unfold tonePeriod, toneStep, tonePos, exactToneStep;
    change (Z.to_nat (2 * 0 + 1)) with 1%nat; change (Z.to_nat (2 * 0)) with 0%nat;
    change (Z.to_nat (2 * 1 + 1)) with 3%nat; change (Z.to_nat (2 * 1)) with 2%nat;
    change (Z.to_nat (2 * 2 + 1)) with 5%nat; change (Z.to_nat (2 * 2)) with 4%nat;
    change (reg (set_posA ?v ?c) ?i) with (reg c i);
    change (reg (set_posB ?v ?c) ?i) with (reg c i);
    change (reg (set_posC ?v ?c) ?i) with (reg c i);
    change (reg (set_stepA ?v ?c) ?i) with (reg c i);
    change (reg (set_stepB ?v ?c) ?i) with (reg c i);
    change (reg (set_stepC ?v ?c) ?i) with (reg c i);
    cbn [stepA stepB stepC posA posB posC set_posA set_posB set_posC
         set_stepA set_stepB set_stepC internalClock replayFrequency] in Es |- *;
    change (internalClock ym1) with (internalClock ym) in *;
    change (replayFrequency ym1) with (replayFrequency ym) in *.
  all: first [apply Z.eqb_eq in Es | apply Z.eqb_neq in Es].
  all: (split; [reflexivity|split]).
  all: try (intros _; reflexivity).
  all: try (intros Hz; contradiction).
  all: intros Hlt;
    match goal with
    | |- context [if ?p <=? 5 then _ else _] =>
        destruct (p <=? 5) eqn:Eper; [reflexivity|]; apply Z.leb_gt in Eper
    end;
    match type of Hlt with
    | ?q < 2^32 =>
        assert (Hm : q mod 2^32 = q)
          by (apply Z.mod_small; split; [|exact Hlt];
              apply Z.div_pos; [rewrite Z.shiftl_mul_pow2 by lia; lia|];
              pose proof (land15 (reg ym1 1%nat)); pose proof (land15 (reg ym1 3%nat));
              pose proof (land15 (reg ym1 5%nat)); nia);
        rewrite Hm in *
    end;
    first [reflexivity | congruence].
Qed.

Lemma chip8000_created :
  exists g, NewYm2149Ex globals0 ATARI_CLOCK 1 8000 = Ret (g, chip8000).
Proof. eexists. vm_compute. reflexivity. Qed.

Lemma chip8000_wf : chip_wf chip8000.
Proof.
  unfold chip_wf. split; [reflexivity|]. split; [|split; [reflexivity|vm_compute; split; [discriminate|reflexivity]]].
  unfold chip8000; cbn [registers]. repeat constructor; lia.
Qed.

(** C1 (counterexample): on the chip of a player created at 8000 Hz, writing
    6 to register 0 (period 6) stores the step 2594876074, while
    [(2000000 << 28) / (6 * 8000)] is 11184810666. *)
Lemma C1_counterexample :
  chip_wf chip8000 /\
  (exists g, NewYm2149Ex globals0 ATARI_CLOCK 1 8000 = Ret (g, chip8000)) /\
  exists ym',
    WriteRegister ymVolumeTable0 0 6 chip8000 = Ret ym' /\
    tonePeriod ym' 0 = 6 /\
    internalClock ym' = 2000000 /\ replayFrequency ym' = 8000 /\
    toneStep ym' 0 = 2594876074 /\
    exactToneStep 2000000 6 8000 = 11184810666.
Proof.
  split; [exact chip8000_wf|]. split; [exact chip8000_created|].
  eexists. split; [vm_compute; reflexivity|].
  repeat split; vm_compute; reflexivity.
Qed.

(** C1 (witness): the hypotheses of [C1_tone_step] hold on that chip. *)
Lemma C1_tone_step_witness :
  exists ym',
    WriteRegister ymVolumeTable0 0 6 chip8000 = Ret ym' /\
    let per := tonePeriod ym' (0 / 2) in
    let q := Z.shiftl (internalClock ym') 28 / (per * replayFrequency ym') in
    toneStep ym' (0 / 2) = (if per <=? 5 then 0 else q mod 2^32) /\
    (q < 2^32 ->
     toneStep ym' (0 / 2)
     = exactToneStep (internalClock ym') per (replayFrequency ym')) /\
    (toneStep ym' (0 / 2) = 0 -> tonePos ym' (0 / 2) = 2^31).
Proof.
  apply (C1_tone_step ymVolumeTable0 chip8000 0 6).
  - exact chip8000_wf.
  - lia.
  - vm_compute. reflexivity.
  - vm_compute. reflexivity.
Defined.

(** ** SID and Sync-Buzzer steps *)

(** The product [YmU32(timerFreq) * (1 << 31)] keeps only the lowest bit of
    the frequency. *)
Lemma timerStep_spec (ym : CYm2149Ex) (f : Z) :
  0 < replayFrequency ym < 2^31 ->
  timerStep ym f = Ret ((f mod 2) * 2^31 / replayFrequency ym).
Proof.
  intros Hr. unfold timerStep.
  rewrite (u32_small (replayFrequency ym)) by lia.
  destruct (replayFrequency ym =? 0) eqn:E; [apply Z.eqb_eq in E; lia|].
  f_equal. f_equal.
  change (u32 (Z.shiftl (u32 1) 31)) with (2^31).
  unfold u32. rewrite Z.mul_mod_idemp_l by lia.
  change (2^32) with (2 * 2^31).
  rewrite Z.mul_mod_distr_r by lia. reflexivity.
Qed.

(** C2 (code at the failing input): with timer frequency 2 at 44100 Hz,
    [SidStart] and [SyncBuzzerStart] store the step 0, where the specified
    [f * 2^31 / r] is 97391; frequency 3 gets the step of frequency 1. *)
Lemma C2_timer_step_overflows :
  sidStepAt 2 = Ret 0 /\ syncBuzzerStepAt 2 = Ret 0 /\
  exactTimerStep 2 44100 = 97391 /\
  sidStepAt 3 = sidStepAt 1 /\ exactTimerStep 3 44100 <> exactTimerStep 1 44100.
Proof.
  split; [vm_compute; reflexivity|].
  split; [vm_compute; reflexivity|].
  split; [vm_compute; reflexivity|].
  split; [vm_compute; reflexivity|].
  vm_compute. discriminate.
Qed.

(** ** Register reads *)

Lemma ReadYmRegister_wraps (ym : CYmMusic) (r : Z) :
  ReadYmRegister (r + 2^32) ym = ReadYmRegister r ym.
Proof.
  unfold ReadYmRegister. f_equal. unfold s32.
  replace (r + 2^32 + 2^31) with (r + 2^31 + 1 * 2^32) by lia.
  rewrite Z.mod_add by lia. reflexivity.
Qed.

(** C10 (code at the failing input): [ReadYmRegister(1<<32 + 7)] on a new
    player returns register 7 (255 after reset), not -1. *)
Lemma C10_ReadYmRegister_truncates :
  readRegisterOfNewPlayer (2^32 + 7) = Ret 255 /\
  readRegisterOfNewPlayer 7 = Ret 255 /\
  readRegisterOfNewPlayer 14 = Ret (-1).
Proof.
  split; [vm_compute; reflexivity|].
  split; vm_compute; reflexivity.
Qed.

(** For an index that fits in 32 bits: -1 outside 0..13, the stored byte
    inside. *)
Lemma ReadYmRegister_spec (ym : CYmMusic) (r : Z) :
  - 2^31 <= r < 2^31 ->
  (~ (0 <= r <= 13) -> ReadYmRegister r ym = -1) /\
  (0 <= r <= 13 -> chip_wf (ymChip ym) ->
   ReadYmRegister r ym = reg (ymChip ym) (Z.to_nat r)).
Proof.
  intros Hr. unfold ReadYmRegister, ReadRegister. rewrite s32_small by lia.
  split.
  - intros Hout. destruct ((0 <=? r) && (r <=? 13)) eqn:E; [|reflexivity].
    apply andb_true_iff in E. lia.
  - intros Hin (_ & Hb & _).
    replace ((0 <=? r) && (r <=? 13)) with true by (symmetry; apply andb_true_iff; lia).
    unfold tab. fold (reg (ymChip ym) (Z.to_nat r)).
    apply s32_small. pose proof (reg_bounds (ymChip ym) (Z.to_nat r) Hb). lia.
Qed.

(** ** Seeking *)

Lemma set_currentFrame_same (ym : CYmMusic) :
  set_currentFrame (currentFrame ym) ym = ym.
Proof. destruct ym. reflexivity. Qed.

(** C9 (amended): when the player rate divides 1000 the round trip through
    milliseconds is exact, and seeking to the reported position leaves the
    whole player, so its current frame, as it was. *)
Lemma C9_seek_to_pos_when_rate_divides_1000 (ym : CYmMusic) :
  IsSeekable ym = true ->
  YM_V2 <= songType ym < YM_VMAX ->
  0 < playerRate ym -> 1000 mod playerRate ym = 0 ->
  0 <= currentFrame ym < nbFrame ym -> nbFrame ym * 1000 < 2^32 ->
  GetPos ym = currentFrame ym * 1000 / playerRate ym /\
  SetMusicTime (GetPos ym) ym = Ret (ym, GetPos ym).
Proof.
  intros Hseek Hty Hrate Hdiv Hcf Hnb.
  assert (Hle : playerRate ym <= 1000).
  { apply Z.mod_divide in Hdiv; [|lia]. apply Z.divide_pos_le in Hdiv; lia. }
  apply Z.mod_divide in Hdiv; [|lia]. destruct Hdiv as [k Hk].
  assert (Hk0 : 0 < k) by nia.
  assert (Hpos : GetPos ym = currentFrame ym * k).
  { unfold GetPos.
    replace ((YM_MIX1 <=? songType ym) && (songType ym <? YM_MIXMAX)) with false
      by (symmetry; apply andb_false_iff; left; apply Z.leb_gt;
          unfold YM_MIX1, YM_VMAX in *; lia).
    replace ((nbFrame ym >? 0) && (playerRate ym >? 0)) with true
      by (symmetry; apply andb_true_iff; split; apply Z.gtb_lt; lia).
    rewrite (u32_small (currentFrame ym)) by lia.
    rewrite (u32_small (currentFrame ym * 1000)) by nia.
    rewrite (u32_small (playerRate ym)) by lia.
    replace (currentFrame ym * 1000) with (currentFrame ym * k * playerRate ym) by nia.
    apply Z.div_mul. lia. }
  assert (Htime : GetMusicTime ym = nbFrame ym * k).
  { unfold GetMusicTime.
    replace ((YM_MIX1 <=? songType ym) && (songType ym <? YM_MIXMAX)) with false
      by (symmetry; apply andb_false_iff; left; apply Z.leb_gt;
          unfold YM_MIX1, YM_VMAX in *; lia).
    replace ((nbFrame ym >? 0) && (playerRate ym >? 0)) with true
      by (symmetry; apply andb_true_iff; split; apply Z.gtb_lt; lia).
    rewrite (u32_small (nbFrame ym)) by lia.
    rewrite (u32_small (nbFrame ym * 1000)) by nia.
    rewrite (u32_small (playerRate ym)) by lia.
    replace (nbFrame ym * 1000) with (nbFrame ym * k * playerRate ym) by nia.
    apply Z.div_mul. lia. }
  split.
  { rewrite Hpos. replace (currentFrame ym * 1000) with (currentFrame ym * k * playerRate ym) by nia.
    symmetry. apply Z.div_mul. lia. }
  unfold SetMusicTime. rewrite Hseek. cbn [negb].
  replace ((YM_V2 <=? songType ym) && (songType ym <? YM_VMAX)) with true
    by (symmetry; apply andb_true_iff; split; [apply Z.leb_le|apply Z.ltb_lt]; lia).
  rewrite Htime, Hpos.
  replace (nbFrame ym * k <=? currentFrame ym * k) with false
    by (symmetry; apply Z.leb_gt; nia).
  rewrite (u32_small (playerRate ym)) by lia.
  rewrite (u32_small (currentFrame ym * k * playerRate ym)) by nia.
  replace (currentFrame ym * k * playerRate ym) with (currentFrame ym * 1000) by nia.
  rewrite Z.div_mul by lia.
  rewrite set_currentFrame_same. reflexivity.
Qed.

(** C9 (witness): a 50 Hz file after its first frame. *)
Lemma C9_seek_to_pos_when_rate_divides_1000_witness :
  GetPos (playedFor ym6_50Hz 882)
  = currentFrame (playedFor ym6_50Hz 882) * 1000
    / playerRate (playedFor ym6_50Hz 882) /\
  SetMusicTime (GetPos (playedFor ym6_50Hz 882)) (playedFor ym6_50Hz 882)
  = Ret (playedFor ym6_50Hz 882, GetPos (playedFor ym6_50Hz 882)).
Proof.
  apply (C9_seek_to_pos_when_rate_divides_1000 (playedFor ym6_50Hz 882)).
  - vm_compute. reflexivity.
  - split; vm_compute; [discriminate|reflexivity].
  - vm_compute. reflexivity.
  - vm_compute. reflexivity.
  - split; vm_compute; [discriminate|reflexivity].
  - vm_compute. reflexivity.
Defined.

(** C9 (counterexample): a two-frame YM6! file at 60 Hz, after one frame:
    the position of frame 1 is 16 ms, and seeking to 16 ms selects frame 0. *)
Lemma C9_counterexample : seekAfterOneFrame = Ret (1, 16, 0).
Proof. vm_compute. reflexivity. Qed.

Lemma ym6_60Hz_loaded :
  ('(g, ym) ← NewYmMusic globals0 44100;
   '(ym, e) ← loadMemory (ymVolumeTable g) ym6_60Hz ym;
   Ret (e, bMusicOk ym, IsSeekable ym, songType ym, playerRate ym, nbFrame ym))
  = Ret (None, true, true, YM_V6, 60, 2).
Proof. vm_compute. reflexivity. Qed.

(** ** Loading *)

Lemma bytes_eqb_true (a b : list Z) : Lzh.bytes_eqb a b = true <-> a = b.
Proof.
  unfold Lzh.bytes_eqb. split.
  - intros H. apply andb_true_iff in H as [Hl Hf].
    apply Nat.eqb_eq in Hl. revert b Hl Hf.
    induction a as [|x a IH]; intros [|y b] Hl Hf; try discriminate; [reflexivity|].
    cbn in Hl, Hf. apply andb_true_iff in Hf as [Hxy Hf].
    apply Z.eqb_eq in Hxy. f_equal; [exact Hxy|]. apply IH; [lia|exact Hf].
  - intros ->. apply andb_true_iff. split; [apply Nat.eqb_refl|].
    induction b as [|y b IH]; [reflexivity|].
    cbn. rewrite Z.eqb_refl. exact IH.
Qed.

(** A buffer that [IsLZHCompressed] does not take for an LZH container is
    handed on by [depackFile] as it is. *)
Lemma depackFile_plain (ym : CYmMusic) :
  Lzh.IsLZHCompressed (pBigMalloc ym) = false ->
  depackFile ym = Ret (inl (pBigMalloc ym)).
Proof.
  intros H. unfold depackFile. rewrite H.
  destruct (length (pBigMalloc ym) <? 22)%nat; reflexivity.
Qed.

Lemma not_lzh_by_third_byte (data : list Z) :
  tab data 2 <> 45 -> Lzh.IsLZHCompressed data = false.
Proof.
  intros H. unfold Lzh.IsLZHCompressed, Lzh.isMagicAt.
  destruct (length data <? 7)%nat; [reflexivity|].
  change (0 + 2) with 2.
  destruct (tab data 2 =? 45) eqn:E; [apply Z.eqb_eq in E; contradiction|].
  reflexivity.
Qed.

Lemma loadMemory_plain (vt : list Z) (data : list Z) (ym : CYmMusic) :
  Lzh.IsLZHCompressed data = false ->
  loadMemory vt data ym =
    '(ym, err) ← ymDecode vt (set_pBigMalloc data (loadPrep data ym));
    match err with
    | Some e => Ret (ym, Some e)
    | None =>
        chip ← Reset vt (ymChip ym);
        let ym := set_ymChip chip ym in
        let ym := set_bMusicOk true ym in
        Ret (set_bPause false ym, None)
    end.
Proof.
  intros H. unfold loadMemory. fold (loadPrep data ym).
  rewrite depackFile_plain by exact H. reflexivity.
Qed.

Lemma loadPrep_notOk (data : list Z) (ym : CYmMusic) :
  bMusicOk (set_pBigMalloc data (loadPrep data ym)) = false.
Proof. reflexivity. Qed.

(** [ymDecode] on a YM5!/YM6! buffer of at least 12 bytes whose signature is
    wrong: the error, and the player untouched. *)
Lemma ymDecode_bad_signature (vt : list Z) (ym : CYmMusic) (v : Z)
    (sig rest : list Z) :
  v = 53 \/ v = 54 -> length sig = 8%nat -> sig <> leonard ->
  pBigMalloc ym = [89; 77; v; 33] ++ sig ++ rest ->
  ymDecode vt ym = Ret (ym, Some ErrNotValidYM).
Proof.
  intros Hv Hlen Hsig Hbuf. unfold ymDecode. rewrite Hbuf.
  assert (Hs : slice ([89; 77; v; 33] ++ sig ++ rest) 4 12 = Ret sig).
  { unfold slice. rewrite !length_app, Hlen. cbn [length].
    replace ((0 <=? 4) && (4 <=? 12) && (12 <=? Z.of_nat (4 + (8 + length rest))))
      with true by (symmetry; rewrite !andb_true_iff; repeat split; apply Z.leb_le; lia).
    change (Z.to_nat 4) with 4%nat. change (Z.to_nat (12 - 4)) with 8%nat.
    simpl. rewrite drop_0, take_app_length' by (symmetry; exact Hlen). reflexivity. }
  rewrite Hs.
  assert (Hne : Lzh.bytes_eqb sig leonard = false).
  { destruct (Lzh.bytes_eqb sig leonard) eqn:E; [|reflexivity].
    apply bytes_eqb_true in E. contradiction. }
  destruct Hv as [-> | ->]; cbn -[slice Lzh.bytes_eqb leonard decodeYm56]; rewrite Hne; reflexivity.
Qed.

(** [ymDecode] on a YM5!/YM6! buffer shorter than 12 bytes: the slice
    [pBigMalloc[4:12]] is out of range. *)
Lemma ymDecode_short_ym56 (vt : list Z) (ym : CYmMusic) (v : Z) (rest : list Z) :
  v = 53 \/ v = 54 -> (length rest < 8)%nat ->
  pBigMalloc ym = [89; 77; v; 33] ++ rest ->
  ymDecode vt ym = Panic.
Proof.
  intros Hv Hlen Hbuf. unfold ymDecode. rewrite Hbuf.
  assert (Hs : slice ([89; 77; v; 33] ++ rest) 4 12 = @Panic (list Z)).
  { unfold slice. rewrite !length_app. cbn [length].
    replace ((0 <=? 4) && (4 <=? 12) && (12 <=? Z.of_nat (4 + length rest)))
      with false by (symmetry; rewrite !andb_false_iff; right; apply Z.leb_gt; lia).
    reflexivity. }
  rewrite Hs.
  destruct Hv as [-> | ->]; cbn -[slice]; reflexivity.
Qed.

(** For a YM5!/YM6! buffer that has the 8 bytes after the tag: a wrong
    signature gives the bad-signature error and leaves no music loaded, and a
    successful load implies the signature. *)
Lemma loadMemory_ym56_signature (vt : list Z) (ym : CYmMusic) (v : Z)
    (sig rest : list Z) :
  v = 53 \/ v = 54 -> length sig = 8%nat ->
  (sig <> leonard ->
   exists ym', loadMemory vt ([89; 77; v; 33] ++ sig ++ rest) ym
               = Ret (ym', Some ErrNotValidYM)
               /\ bMusicOk ym' = false) /\
  (forall ym', loadMemory vt ([89; 77; v; 33] ++ sig ++ rest) ym = Ret (ym', None) ->
               sig = leonard).
Proof.
  intros Hv Hlen.
  assert (Hplain : Lzh.IsLZHCompressed ([89; 77; v; 33] ++ sig ++ rest) = false)
    by (apply not_lzh_by_third_byte; destruct Hv as [-> | ->]; intros Hx;
        vm_compute in Hx; discriminate).
  assert (Hbad : sig <> leonard ->
    exists ym', loadMemory vt ([89; 77; v; 33] ++ sig ++ rest) ym
                = Ret (ym', Some ErrNotValidYM) /\ bMusicOk ym' = false).
  { intros Hsig. rewrite loadMemory_plain by exact Hplain.
    rewrite (ymDecode_bad_signature vt _ v sig rest Hv Hlen Hsig) by reflexivity.
    eexists. split; [reflexivity|]. reflexivity. }
  split; [exact Hbad|].
  intros ym' Hok.
  destruct (decide (sig = leonard)) as [E|E]; [exact E|].
  destruct (Hbad E) as (ym2 & Hload & _). rewrite Hload in Hok. discriminate.
Qed.

(** With fewer than 8 bytes after a YM5!/YM6! tag, [loadMemory] panics. *)
Lemma loadMemory_ym56_short (vt : list Z) (ym : CYmMusic) (v : Z) (rest : list Z) :
  v = 53 \/ v = 54 -> (length rest < 8)%nat ->
  loadMemory vt ([89; 77; v; 33] ++ rest) ym = Panic.
Proof.
  intros Hv Hlen.
  assert (Hplain : Lzh.IsLZHCompressed ([89; 77; v; 33] ++ rest) = false)
    by (apply not_lzh_by_third_byte; destruct Hv as [-> | ->]; intros Hx;
        vm_compute in Hx; discriminate).
  rewrite loadMemory_plain by exact Hplain.
  rewrite (ymDecode_short_ym56 vt _ v rest Hv Hlen) by reflexivity.
  reflexivity.
Qed.

(** C7 (code at the failing input): a buffer that is just the tag [YM5!], or
    the tag [YM6!] and seven more bytes, makes [loadMemory] panic on the slice
    [pBigMalloc[4:12]] where the claim has it return the bad-signature error. *)
Lemma C7_short_buffer_panics :
  loadOnNewPlayer [89; 77; 53; 33] = Panic /\
  loadOnNewPlayer [89; 77; 54; 33; 76; 101; 79; 110; 65; 114; 68] = Panic /\
  loadOnNewPlayer ([89; 77; 53; 33] ++ [0; 0; 0; 0; 0; 0; 0; 0])
  = Ret (Some ErrNotValidYM, false).
Proof.
  split; [vm_compute; reflexivity|].
  split; vm_compute; reflexivity.
Qed.

(** ** Format identification *)

Lemma deInterleave_songType (ym ym' : CYmMusic) :
  deInterleave ym = Ret ym' -> songType ym' = songType ym.
Proof.
  unfold deInterleave.
  destruct (_ =? 0); [intros H; injection H as <-; reflexivity|].
  destruct (_ <? 0); [discriminate|]. cbv zeta.
  destruct (deInterleaveVoices _ _ _ _) as [t| |]; exec_rw; try discriminate.
  intros H. injection H as <-. reflexivity.
Qed.

Lemma decodeYm23_songType (ty loop : Z) (comment type : string)
    (ym ym' : CYmMusic) :
  decodeYm23 ty loop comment type ym = Ret ym' -> songType ym' = ty.
Proof.
  unfold decodeYm23. cbv zeta.
  destruct (sliceFrom _ _) as [s| |]; exec_rw; try discriminate.
  intros H. injection H as <-. reflexivity.
Qed.

Lemma decodeYm56_songType (vt : list Z) (id : Z) (buf : list Z) (ym : CYmMusic) :
  songType (decodeYm56 vt id buf ym) = if id =? e_YM6a then YM_V6 else YM_V5.
Proof.
  unfold decodeYm56.
  repeat match goal with
         | |- context [match ?x with pair _ _ => _ end] => destruct x
         end.
  destruct (id =? e_YM6a); reflexivity.
Qed.

(** What [ymDecode] returns, read off its tag tests: the unknown-format error
    exactly for a tag it has no case for, the unsupported error for YM4!, and
    for the five tags it decodes either the song type of the tag or, for YM5!
    and YM6!, the bad-signature error with the player untouched. *)
Lemma ymDecode_by_tag (vt : list Z) (ym : CYmMusic) :
  (4 <= length (pBigMalloc ym))%nat ->
  let id := tagOf (pBigMalloc ym) in
  (~ loadableTag id -> id <> e_YM4a ->
   ymDecode vt ym
   = Ret (ym, Some (ErrUnknownFormat (take 4 (pBigMalloc ym)) id))) /\
  (id = e_YM4a -> ymDecode vt ym = Ret (ym, Some ErrYM4Unsupported)) /\
  (loadableTag id ->
   forall ym' e, ymDecode vt ym = Ret (ym', e) ->
     (e = None /\ typeOfTag id = Some (songType ym')) \/
     (e = Some ErrNotValidYM /\ (id = e_YM5a \/ id = e_YM6a) /\ ym' = ym)).
Proof.
  intros Hlen id. unfold ymDecode. fold (tagOf (pBigMalloc ym)). fold id.
  replace (length (pBigMalloc ym) <? 4)%nat with false
    by (symmetry; apply Nat.ltb_ge; exact Hlen).
  unfold loadableTag.
  assert (D24 : e_YM2a <> e_YM4a) by discriminate.
  assert (D34 : e_YM3a <> e_YM4a) by discriminate.
  assert (D3b4 : e_YM3b <> e_YM4a) by discriminate.
  assert (D54 : e_YM5a <> e_YM4a) by discriminate.
  assert (D64 : e_YM6a <> e_YM4a) by discriminate.
  destruct (id =? e_YM2a) eqn:E2; [apply Z.eqb_eq in E2|apply Z.eqb_neq in E2].
  { split; [intros Hn _; exfalso; apply Hn; tauto|].
    split; [intros H4; exfalso; congruence|].
    intros _ ym' e.
    destruct (decodeYm23 _ _ _ _ _) as [y| |] eqn:Ed; exec_rw; try discriminate.
    destruct (deInterleave y) as [z| |] eqn:Ei; exec_rw; try discriminate.
    intros H. injection H as <- <-. left. split; [reflexivity|].
    rewrite (deInterleave_songType _ _ Ei), (decodeYm23_songType _ _ _ _ _ _ Ed).
    rewrite E2. reflexivity. }
  destruct (id =? e_YM3a) eqn:E3; [apply Z.eqb_eq in E3|apply Z.eqb_neq in E3].
  { split; [intros Hn _; exfalso; apply Hn; tauto|].
    split; [intros H4; exfalso; congruence|].
    intros _ ym' e.
    destruct (decodeYm23 _ _ _ _ _) as [y| |] eqn:Ed; exec_rw; try discriminate.
    destruct (deInterleave y) as [z| |] eqn:Ei; exec_rw; try discriminate.
    intros H. injection H as <- <-. left. split; [reflexivity|].
    rewrite (deInterleave_songType _ _ Ei), (decodeYm23_songType _ _ _ _ _ _ Ed).
    rewrite E3. reflexivity. }
  destruct (id =? e_YM3b) eqn:E3b; [apply Z.eqb_eq in E3b|apply Z.eqb_neq in E3b].
  { split; [intros Hn _; exfalso; apply Hn; tauto|].
    split; [intros H4; exfalso; congruence|].
    intros _ ym' e. destruct (sliceFrom _ _) as [p| |]; exec_rw; try discriminate.
    destruct (decodeYm23 _ _ _ _ _) as [y| |] eqn:Ed; exec_rw; try discriminate.
    destruct (deInterleave y) as [z| |] eqn:Ei; exec_rw; try discriminate.
    intros H. injection H as <- <-. left. split; [reflexivity|].
    rewrite (deInterleave_songType _ _ Ei), (decodeYm23_songType _ _ _ _ _ _ Ed).
    rewrite E3b. reflexivity. }
  destruct ((id =? e_YM5a) || (id =? e_YM6a)) eqn:E56.
  { apply orb_true_iff in E56. rewrite !Z.eqb_eq in E56.
    split; [intros Hn _; exfalso; apply Hn; tauto|].
    split; [intros H4; exfalso; destruct E56; congruence|].
    intros _ ym' e. destruct (slice _ _ _) as [sig| |]; exec_rw; try discriminate.
    destruct (Lzh.bytes_eqb sig leonard); cbn [negb]; exec_rw.
    - destruct (sliceFrom _ _) as [b| |]; exec_rw; try discriminate.
      destruct (deInterleave _) as [z| |] eqn:Ei; exec_rw; try discriminate.
      intros H. injection H as <- <-. left. split; [reflexivity|].
      rewrite (deInterleave_songType _ _ Ei), decodeYm56_songType.
      destruct E56 as [E|E]; rewrite E; reflexivity.
    - intros H. injection H as <- <-. right. tauto. }
  apply orb_false_iff in E56. rewrite !Z.eqb_neq in E56. destruct E56 as [E5 E6].
  destruct (id =? e_YM4a) eqn:E4; [apply Z.eqb_eq in E4|apply Z.eqb_neq in E4].
  { split; [intros _ H; contradiction|]. split; [intros _; reflexivity|].
    intros [H|[H|[H|[H|H]]]]; contradiction. }
  split; [intros _ _; reflexivity|]. split; [intros H; contradiction|].
  intros [H|[H|[H|[H|H]]]]; contradiction.
Qed.

(** ** LZH *)


















(** ** The mixing stage of [nextSample] *)

Lemma index_lookup {A : Type} (l : list A) (i : Z) (x : A) :
  0 <= i -> l !! Z.to_nat i = Some x -> index l i = Ret x.
Proof.
  intros Hi Hl. unfold index. pose proof (lookup_lt_Some _ _ _ Hl) as Hlen.
  rewrite Hl.
  destruct (Z.leb_spec 0 i); [|lia].
  destruct (Z.ltb_spec i (Z.of_nat (length l))); [reflexivity|lia].
Qed.

Lemma store_in_range {A : Type} (l : list A) (i : Z) (v : A) :
  0 <= i < Z.of_nat (length l) -> store l i v = Ret (<[Z.to_nat i := v]> l).
Proof.
  intros Hi. unfold store.
  destruct (Z.leb_spec 0 i); [|lia].
  destruct (Z.ltb_spec i (Z.of_nat (length l))); [reflexivity|lia].
Qed.

Lemma nth_insert_ne (l : list Z) (i j : nat) (v : Z) :
  i <> j -> nth j (<[i := v]> l) 0 = nth j l 0.
Proof.
  intros H. rewrite !nth_lookup, list_lookup_insert_ne by exact H. reflexivity.
Qed.

Ltac chip_proj :=
  cbn [bFilter replayFrequency internalClock registers stepA stepB stepC
       posA posB posC volA volB volC volE mixerTA mixerTB mixerTC
       mixerNA mixerNB mixerNC pVolA pVolB pVolC noiseStep noisePos rndRack
       currentNoise envStep envPos envPhase envShape specialEffect bSyncBuzzer
       syncBuzzerStep syncBuzzerPhase lowPassFilter dcAdjust
       set_bFilter set_replayFrequency set_internalClock set_registers
       set_stepA set_stepB set_stepC set_posA set_posB set_posC
       set_volA set_volB set_volC set_volE set_mixerTA set_mixerTB set_mixerTC
       set_mixerNA set_mixerNB set_mixerNC set_pVolA set_pVolB set_pVolC
       set_noiseStep set_noisePos set_rndRack set_currentNoise set_envStep
       set_envPos set_envPhase set_envShape set_specialEffect set_bSyncBuzzer
       set_syncBuzzerStep set_syncBuzzerPhase set_lowPassFilter set_dcAdjust
       setReg setVoiceVol fst snd].

Ltac fx_proj :=
  cbn [Drum DrumSize DrumData DrumPos DrumStep Sid SidPos SidStep SidVol
       set_Drum set_DrumSize set_DrumData set_DrumPos set_DrumStep
       set_Sid set_SidPos set_SidStep set_SidVol bumpSid].

Ltac voice_idx :=
  change (Z.to_nat 0) with 0%nat in *; change (Z.to_nat 1) with 1%nat in *;
  change (Z.to_nat 2) with 2%nat in *;
  change (Z.to_nat (8 + 0)) with 8%nat in *;
  change (Z.to_nat (8 + 1)) with 9%nat in *;
  change (Z.to_nat (8 + 2)) with 10%nat in *.

Ltac view_unfold :=
  unfold voiceView, toneStep, tonePos, pVolOf, volOf, mixerNOf, ampReg, reg.

Lemma voice_cases (v : Z) : 0 <= v <= 2 -> v = 0 \/ v = 1 \/ v = 2.
Proof. lia. Qed.

Lemma lor_ones16 (a : Z) : Z.lor (a mod 2^16) 65535 = 65535.
Proof.
  pose proof (Z.mod_pos_bound a (2^16) ltac:(lia)) as Hb.
  destruct (Z.eq_dec (a mod 2^16) 0) as [->|Hne]; [reflexivity|].
  change 65535 with (Z.ones 16). apply Z.lor_ones_low; [lia|].
  apply Z.log2_lt_pow2; lia.
Qed.

Lemma s32_mod16 (x : Z) : s32 x mod 2^16 = x mod 2^16.
Proof.
  unfold s32. rewrite (Z.mod_eq (x + 2^31) (2^32)) by lia.
  replace (x + 2^31 - 2^32 * ((x + 2^31) / 2^32) - 2^31)
    with (x + (- 2^16 * ((x + 2^31) / 2^32)) * 2^16) by lia.
  apply Z_mod_plus_full.
Qed.

(** A voice whose accumulator is 0x80000000 and whose noise is off passes its
    volume through the gate, whatever the tone bit of the mixer and the noise
    generator are. *)
Lemma voiceOut_pinned (vol mixerT bn : Z) :
  0 <= vol < 65536 -> voiceOut vol (2^31) mixerT bn 65535 = vol.
Proof.
  intros Hv. unfold voiceOut.
  replace (signOf (2^31)) with (Z.ones 32) by (vm_compute; reflexivity).
  rewrite (s32_small vol) by lia.
  set (bt := Z.land (Z.lor _ _) _).
  assert (Hbt : s32 bt mod 2^16 = 65535).
  { rewrite s32_mod16. subst bt.
    rewrite <- Z.land_ones by lia.
    rewrite <- Z.land_assoc.
    rewrite (Z.land_lor_distr_l bn 65535 (Z.ones 16)).
    rewrite Z.land_ones by lia.
    change (Z.land 65535 (Z.ones 16)) with 65535.
    rewrite lor_ones16.
    rewrite (Z.land_lor_distr_l (Z.ones 32) mixerT 65535).
    change (Z.land (Z.ones 32) 65535) with 65535.
    change 65535 with (Z.ones 16) at 2. rewrite Z.land_ones by lia.
    rewrite Z.lor_comm. apply lor_ones16. }
  rewrite <- (Z.mod_small vol (2^16)) at 1 by lia.
  rewrite <- Z.land_ones by lia.
  rewrite <- Z.land_assoc, (Z.land_comm (Z.ones 16)), Z.land_ones by lia.
  rewrite Hbt. change 65535 with (Z.ones 16). rewrite Z.land_ones by lia.
  apply Z.mod_small. lia.
Qed.

Lemma WriteRegister_8 (vt : list Z) (d : Z) (ym : CYm2149Ex) :
  WriteRegister vt 8 d ym
  = Ret (set_pVolA (if testmask d 16 then PtrEnv else PtrVol)
           (set_volA (tab vt (Z.land d 15)) (setReg 8 (u8 (Z.land d 31)) ym))).
Proof. reflexivity. Qed.

Lemma WriteRegister_9 (vt : list Z) (d : Z) (ym : CYm2149Ex) :
  WriteRegister vt 9 d ym
  = Ret (set_pVolB (if testmask d 16 then PtrEnv else PtrVol)
           (set_volB (tab vt (Z.land d 15)) (setReg 9 (u8 (Z.land d 31)) ym))).
Proof. reflexivity. Qed.

Lemma WriteRegister_10 (vt : list Z) (d : Z) (ym : CYm2149Ex) :
  WriteRegister vt 10 d ym
  = Ret (set_pVolC (if testmask d 16 then PtrEnv else PtrVol)
           (set_volC (tab vt (Z.land d 15)) (setReg 10 (u8 (Z.land d 31)) ym))).
Proof. reflexivity. Qed.

Lemma quietAt_view (ym ym' : CYm2149Ex) (v : Z) :
  voiceView ym' v = voiceView ym v -> quietAt ym v -> quietAt ym' v.
Proof.
  unfold voiceView, quietAt. intros E (fx & Hfx & Hs & Hd).
  assert (E' := f_equal snd E). cbn [snd] in E'. clear E.
  rename E' into E. rewrite Hfx in E. cbn in E.
  destruct (specialEffect ym' !! Z.to_nat v) as [fx'|]; [|discriminate].
  cbn in E. injection E as E1 E2. exists fx'. split; [reflexivity|].
  split; congruence.
Qed.

Lemma pinnedQuiet_view (ym ym' : CYm2149Ex) (v : Z) :
  voiceView ym' v = voiceView ym v -> pinnedQuiet ym v -> pinnedQuiet ym' v.
Proof.
  intros E (H1 & H2 & H3 & H4 & H5 & H6).
  pose proof (quietAt_view _ _ _ E H3) as H3'.
  unfold voiceView in E. injection E as E1 E2 E3 E4 E5 _ _.
  unfold pinnedQuiet. rewrite E1, E2, E3, E4, E5. tauto.
Qed.

Lemma drum_ok_quiet (fx : YmSpecialEffect) : Drum fx = false -> drum_ok fx.
Proof. intros H H'. congruence. Qed.

Lemma u8_range (x : Z) : 0 <= u8 x < 256.
Proof. unfold u8. apply Z.mod_pos_bound. reflexivity. Qed.

Lemma chipFrame_refl (ym : CYm2149Ex) : chipFrame ym ym.
Proof. split; [reflexivity|tauto]. Qed.

Lemma chipFrame_trans (a b c : CYm2149Ex) :
  chipFrame a b -> chipFrame b c -> chipFrame a c.
Proof. intros [H1 H2] [H3 H4]. split; [congruence|tauto]. Qed.

Ltac frame_tac :=
  split; [reflexivity|];
  let Hb := fresh "Hb" in
  unfold byteRegs; intros Hb; chip_proj;
  first [exact Hb | apply Forall_insert; [exact Hb|apply u8_range]].

(** One effect slot of [nextSample]: it returns, keeps running drums inside
    their buffers, and leaves a voice without effect as it is. *)
Lemma sidVolumeCompute_spec (vt : list Z) (w : Z) (ym : CYm2149Ex) :
  0 <= w <= 2 -> effects_ok ym ->
  exists ym', sidVolumeCompute vt w w ym = Ret ym' /\ effects_ok ym' /\
    chipFrame ym ym' /\
    forall v, 0 <= v <= 2 -> quietAt ym v -> voiceView ym' v = voiceView ym v.
Proof.
  intros Hw [Hlen Hok]. unfold sidVolumeCompute.
  destruct (specialEffect ym) as [|e0 [|e1 [|e2 [|? ?]]]] eqn:Hfx; try discriminate.
  inversion Hok as [|? ? Hok0 Hok' E0]; subst.
  inversion Hok' as [|? ? Hok1 Hok'' E1]; subst.
  inversion Hok'' as [|? ? Hok2 _ E2]; subst.
  assert (Hq : forall v fx, [e0; e1; e2] !! Z.to_nat v = Some fx ->
                 quietAt ym v -> Sid fx = false /\ Drum fx = false).
  { intros v fx E (fx' & E' & Hs & Hd). rewrite Hfx in E'.
    rewrite E in E'. injection E' as <-. tauto. }
  apply voice_cases in Hw as [-> | [-> | ->]].
  - rewrite (index_lookup _ 0 e0) by (lia || reflexivity). exec_rw.
    destruct (Sid e0) eqn:Es.
    + change (s32 (8 + 0)) with 8.
      match goal with |- context [if ?b then _ else _] => destruct b end;
        rewrite WriteRegister_8; eexists; (split; [reflexivity|]);
        (split; [split; chip_proj; rewrite Hfx; [reflexivity|auto]|]);
        (split; [frame_tac|]);
        intros v Hv Hqv; apply voice_cases in Hv as [-> | [-> | ->]];
        try (destruct (Hq 0 e0 eq_refl Hqv); congruence);
        view_unfold; voice_idx; chip_proj; rewrite !nth_insert_ne by lia; reflexivity.
    + destruct (Drum e0) eqn:Ed.
      * destruct (Hok0 Ed) as (Hp & Hlt & Hsz).
        assert (Hi : 0 <= Z.shiftr (DrumPos e0) DRUM_PREC)
          by (apply Z.shiftr_nonneg; exact Hp).
        destruct (lookup_lt_is_Some_2 (DrumData e0)
                    (Z.to_nat (Z.shiftr (DrumPos e0) DRUM_PREC)) ltac:(lia))
          as [b Hb].
        rewrite (index_lookup _ _ b Hi Hb). exec_rw. cbv zeta.
        chip_proj. rewrite Hfx.
        rewrite store_in_range by (cbn [length]; lia). exec_rw.
        eexists; split; [reflexivity|]. split.
        { split; chip_proj; voice_idx; cbn [insert list_insert length];
            [reflexivity|].
          repeat (apply List.Forall_cons; auto).
          fx_proj.
          match goal with |- context [if ?c then _ else _] =>
            destruct c eqn:Ec end.
          - apply drum_ok_quiet. reflexivity.
          - intros _. fx_proj. apply Z.leb_gt in Ec.
            split; [unfold u32; apply Z.mod_pos_bound; lia|]. split; [lia|lia]. }
        split; [frame_tac|].
        intros v Hv Hqv; apply voice_cases in Hv as [-> | [-> | ->]];
          try (destruct (Hq 0 e0 eq_refl Hqv); congruence);
          view_unfold; voice_idx; chip_proj; rewrite Hfx;
          cbn [insert list_insert lookup list_lookup]; reflexivity.
      * eexists; split; [reflexivity|]. split; [split; rewrite Hfx; auto|].
        split; [apply chipFrame_refl|]. reflexivity.
  - rewrite (index_lookup _ 1 e1) by (lia || reflexivity). exec_rw.
    destruct (Sid e1) eqn:Es.
    + change (s32 (8 + 1)) with 9.
      match goal with |- context [if ?b then _ else _] => destruct b end;
        rewrite WriteRegister_9; eexists; (split; [reflexivity|]);
        (split; [split; chip_proj; rewrite Hfx; [reflexivity|auto]|]);
        (split; [frame_tac|]);
        intros v Hv Hqv; apply voice_cases in Hv as [-> | [-> | ->]];
        try (destruct (Hq 1 e1 eq_refl Hqv); congruence);
        view_unfold; voice_idx; chip_proj; rewrite !nth_insert_ne by lia; reflexivity.
    + destruct (Drum e1) eqn:Ed.
      * destruct (Hok1 Ed) as (Hp & Hlt & Hsz).
        assert (Hi : 0 <= Z.shiftr (DrumPos e1) DRUM_PREC)
          by (apply Z.shiftr_nonneg; exact Hp).
        destruct (lookup_lt_is_Some_2 (DrumData e1)
                    (Z.to_nat (Z.shiftr (DrumPos e1) DRUM_PREC)) ltac:(lia))
          as [b Hb].
        rewrite (index_lookup _ _ b Hi Hb). exec_rw. cbv zeta.
        chip_proj. rewrite Hfx.
        rewrite store_in_range by (cbn [length]; lia). exec_rw.
        eexists; split; [reflexivity|]. split.
        { split; chip_proj; voice_idx; cbn [insert list_insert length];
            [reflexivity|].
          repeat (apply List.Forall_cons; auto).
          fx_proj.
          match goal with |- context [if ?c then _ else _] =>
            destruct c eqn:Ec end.
          - apply drum_ok_quiet. reflexivity.
          - intros _. fx_proj. apply Z.leb_gt in Ec.
            split; [unfold u32; apply Z.mod_pos_bound; lia|]. split; [lia|lia]. }
        split; [frame_tac|].
        intros v Hv Hqv; apply voice_cases in Hv as [-> | [-> | ->]];
          try (destruct (Hq 1 e1 eq_refl Hqv); congruence);
          view_unfold; voice_idx; chip_proj; rewrite Hfx;
          cbn [insert list_insert lookup list_lookup]; reflexivity.
      * eexists; split; [reflexivity|]. split; [split; rewrite Hfx; auto|].
        split; [apply chipFrame_refl|]. reflexivity.
  - rewrite (index_lookup _ 2 e2) by (lia || reflexivity). exec_rw.
    destruct (Sid e2) eqn:Es.
    + change (s32 (8 + 2)) with 10.
      match goal with |- context [if ?b then _ else _] => destruct b end;
        rewrite WriteRegister_10; eexists; (split; [reflexivity|]);
        (split; [split; chip_proj; rewrite Hfx; [reflexivity|auto]|]);
        (split; [frame_tac|]);
        intros v Hv Hqv; apply voice_cases in Hv as [-> | [-> | ->]];
        try (destruct (Hq 2 e2 eq_refl Hqv); congruence);
        view_unfold; voice_idx; chip_proj; rewrite !nth_insert_ne by lia; reflexivity.
    + destruct (Drum e2) eqn:Ed.
      * destruct (Hok2 Ed) as (Hp & Hlt & Hsz).
        assert (Hi : 0 <= Z.shiftr (DrumPos e2) DRUM_PREC)
          by (apply Z.shiftr_nonneg; exact Hp).
        destruct (lookup_lt_is_Some_2 (DrumData e2)
                    (Z.to_nat (Z.shiftr (DrumPos e2) DRUM_PREC)) ltac:(lia))
          as [b Hb].
        rewrite (index_lookup _ _ b Hi Hb). exec_rw. cbv zeta.
        chip_proj. rewrite Hfx.
        rewrite store_in_range by (cbn [length]; lia). exec_rw.
        eexists; split; [reflexivity|]. split.
        { split; chip_proj; voice_idx; cbn [insert list_insert length];
            [reflexivity|].
          repeat (apply List.Forall_cons; auto).
          fx_proj.
          match goal with |- context [if ?c then _ else _] =>
            destruct c eqn:Ec end.
          - apply drum_ok_quiet. reflexivity.
          - intros _. fx_proj. apply Z.leb_gt in Ec.
            split; [unfold u32; apply Z.mod_pos_bound; lia|]. split; [lia|lia]. }
        split; [frame_tac|].
        intros v Hv Hqv; apply voice_cases in Hv as [-> | [-> | ->]];
          try (destruct (Hq 2 e2 eq_refl Hqv); congruence);
          view_unfold; voice_idx; chip_proj; rewrite Hfx;
          cbn [insert list_insert lookup list_lookup]; reflexivity.
      * eexists; split; [reflexivity|]. split; [split; rewrite Hfx; auto|].
        split; [apply chipFrame_refl|]. reflexivity.
Qed.

Lemma quietAt_same_effects (ym ym' : CYm2149Ex) (v : Z) :
  specialEffect ym' = specialEffect ym -> quietAt ym v -> quietAt ym' v.
Proof. unfold quietAt. intros ->. tauto. Qed.

(** The first half of [nextSample] returns and leaves a quiet voice alone. *)
Lemma sampleFront_spec (vt : list Z) (ym : CYm2149Ex) :
  effects_ok ym ->
  exists f, sampleFront vt ym = Ret f /\ effects_ok f /\ chipFrame ym f /\
    forall v, 0 <= v <= 2 -> quietAt ym v -> voiceView f v = voiceView ym v.
Proof.
  intros Hok. unfold sampleFront.
  match goal with |- context [sidVolumeCompute vt 0 0 ?y] => set (ym1 := y) end.
  assert (Hfx : specialEffect ym1 = specialEffect ym).
  { subst ym1. destruct (testmask (noisePos ym) 4294901760);
      unfold rndCompute; cbv zeta;
      repeat match goal with |- context [if ?b then _ else _] => destruct b end;
      reflexivity. }
  assert (Hview : forall v, 0 <= v <= 2 -> voiceView ym1 v = voiceView ym v).
  { intros v Hv. subst ym1. apply voice_cases in Hv as [-> | [-> | ->]];
      destruct (testmask (noisePos ym) 4294901760);
      unfold rndCompute; cbv zeta;
      repeat match goal with |- context [if ?b then _ else _] => destruct b end;
      reflexivity. }
  assert (Hok1 : effects_ok ym1) by (unfold effects_ok; rewrite Hfx; exact Hok).
  assert (F1 : chipFrame ym ym1).
  { subst ym1. destruct (testmask (noisePos ym) 4294901760);
      unfold rndCompute; cbv zeta;
      repeat match goal with |- context [if ?b then _ else _] => destruct b end;
      frame_tac. }
  clearbody ym1.
  destruct (sidVolumeCompute_spec vt 0 ym1 ltac:(lia) Hok1)
    as (ym2 & E2 & Hok2 & F2 & V2).
  destruct (sidVolumeCompute_spec vt 1 ym2 ltac:(lia) Hok2)
    as (ym3 & E3 & Hok3 & F3 & V3).
  destruct (sidVolumeCompute_spec vt 2 ym3 ltac:(lia) Hok3)
    as (ym4 & E4 & Hok4 & F4 & V4).
  rewrite E2. exec_rw. rewrite E3. exec_rw. rewrite E4.
  exists ym4. split; [reflexivity|]. split; [exact Hok4|].
  split; [eauto using chipFrame_trans|].
  intros v Hv Hq.
  assert (Hq1 : quietAt ym1 v) by (apply (quietAt_same_effects ym); auto).
  pose proof (V2 v Hv Hq1) as W2.
  pose proof (quietAt_view _ _ _ W2 Hq1) as Hq2.
  pose proof (V3 v Hv Hq2) as W3.
  pose proof (quietAt_view _ _ _ W3 Hq2) as Hq3.
  pose proof (V4 v Hv Hq3) as W4.
  rewrite W4, W3, W2. apply Hview, Hv.
Qed.

Lemma bumpSid_ok (fx : YmSpecialEffect) : drum_ok fx -> drum_ok (bumpSid fx).
Proof. unfold drum_ok. fx_proj. tauto. Qed.

(** The second half of [nextSample] returns and leaves a voice of step 0
    pinned at 0x80000000 alone. *)
Lemma sampleBack_spec (vol : Z) (ym : CYm2149Ex) :
  effects_ok ym ->
  exists ym' s, sampleBack vol ym = Ret (ym', s) /\ effects_ok ym' /\
    chipFrame ym ym' /\
    forall v, 0 <= v <= 2 -> toneStep ym v = 0 -> tonePos ym v = 2^31 ->
      voiceView ym' v = voiceView ym v.
Proof.
  intros [Hlen Hok]. unfold sampleBack.
  destruct (specialEffect ym) as [|e0 [|e1 [|e2 [|? ?]]]] eqn:Hfx; try discriminate.
  inversion Hok as [|? ? Hok0 Hok' E0]; subst.
  inversion Hok' as [|? ? Hok1 Hok'' E1]; subst.
  inversion Hok'' as [|? ? Hok2 _ E2]; subst.
  match goal with |- context [withEffect 0 bumpSid ?y] => set (ym1 := y) end.
  assert (Hfx1 : specialEffect ym1 = [e0; e1; e2]).
  { subst ym1. cbv zeta.
    repeat match goal with |- context [if ?b then _ else _] => destruct b end;
      chip_proj; exact Hfx. }
  assert (Hview : forall v, 0 <= v <= 2 -> toneStep ym v = 0 ->
                    tonePos ym v = 2^31 -> voiceView ym1 v = voiceView ym v).
  { intros v Hv Hs Hp. subst ym1. cbv zeta.
    apply voice_cases in Hv as [-> | [-> | ->]];
      unfold toneStep, tonePos in Hs, Hp;
      repeat match goal with |- context [if ?b then _ else _] => destruct b end;
      view_unfold; chip_proj; rewrite ?Hs, ?Hp; reflexivity. }
  assert (F1 : chipFrame ym ym1).
  { subst ym1. cbv zeta.
    repeat match goal with |- context [if ?b then _ else _] => destruct b end;
      frame_tac. }
  clearbody ym1.
  unfold withEffect. rewrite Hfx1.
  rewrite (index_lookup _ 0 e0) by (lia || reflexivity). exec_rw.
  rewrite store_in_range by (cbn [length]; lia). exec_rw. chip_proj.
  voice_idx. cbn [insert list_insert].
  rewrite (index_lookup _ 1 e1) by (lia || reflexivity). exec_rw.
  rewrite store_in_range by (cbn [length]; lia). exec_rw. chip_proj.
  voice_idx. cbn [insert list_insert].
  rewrite (index_lookup _ 2 e2) by (lia || reflexivity). exec_rw.
  rewrite store_in_range by (cbn [length]; lia). exec_rw. chip_proj.
  voice_idx. cbn [insert list_insert]. cbv zeta. chip_proj.
  destruct (bFilter ym1); unfold LowPassFilter; chip_proj;
    try (destruct (lowPassFilter ym1) as [lp0 lp1]);
    eexists _, _; (split; [reflexivity|]);
    (split; [split; chip_proj;
               [reflexivity
               |repeat (apply List.Forall_cons; auto using bumpSid_ok)]|]);
    (split; [apply (chipFrame_trans _ _ _ F1); frame_tac|]);
    intros v Hv Hs Hp; rewrite <- (Hview v Hv Hs Hp);
    apply voice_cases in Hv as [-> | [-> | ->]];
    view_unfold; chip_proj; voice_idx; rewrite Hfx1; reflexivity.
Qed.

(** [nextSample] returns on a chip whose drums are inside their buffers, and
    keeps a pinned quiet voice pinned and quiet, at its volume. *)
Lemma nextSample_spec (vt : list Z) (ym : CYm2149Ex) :
  effects_ok ym ->
  exists ym' s, nextSample vt ym = Ret (ym', s) /\ effects_ok ym' /\
    chipFrame ym ym' /\
    forall v, 0 <= v <= 2 -> pinnedQuiet ym v ->
      pinnedQuiet ym' v /\ volOf ym' v = volOf ym v.
Proof.
  intros Hok. unfold nextSample.
  destruct (sampleFront_spec vt ym Hok) as (f & Ef & Hokf & Ff & Vf).
  rewrite Ef. exec_rw. cbv zeta.
  destruct (sampleBack_spec
              (s32 (s32 (voiceOutA f + voiceOutB f) + voiceOutC f)) f Hokf)
    as (ym' & s & Eb & Hok' & Fb & Vb).
  rewrite Eb. exists ym', s. split; [reflexivity|]. split; [exact Hok'|].
  split; [exact (chipFrame_trans _ _ _ Ff Fb)|].
  intros v Hv Hpq.
  assert (Hq : quietAt ym v) by (destruct Hpq as (_ & _ & H & _); exact H).
  pose proof (Vf v Hv Hq) as W1.
  pose proof (pinnedQuiet_view ym f v W1 Hpq) as Hpf.
  destruct Hpf as (Hs & Hp & Hrest).
  pose proof (Vb v Hv Hs Hp) as W2.
  assert (W : voiceView ym' v = voiceView ym v) by (rewrite W2; exact W1).
  split; [exact (pinnedQuiet_view ym ym' v W Hpq)|].
  unfold voiceView in W. injection W as _ _ _ W _ _ _. exact W.
Qed.

Lemma tab_range (vt : list Z) (i : Z) :
  Forall (fun x => 0 <= x < 65536) vt -> 0 <= tab vt i < 65536.
Proof.
  intros H. unfold tab. rewrite nth_lookup.
  destruct (vt !! Z.to_nat i) as [x|] eqn:E; cbn; [|lia].
  exact (Forall_lookup_1 _ _ _ _ H E).
Qed.

(** The contribution of a pinned quiet voice is its volume. *)
Lemma contribution_pinned (vt : list Z) (ym : CYm2149Ex) (v : Z) :
  0 <= v <= 2 -> effects_ok ym -> pinnedQuiet ym v ->
  contribution vt ym v = Ret (volOf ym v).
Proof.
  intros Hv Hok Hpq. unfold contribution.
  destruct (sampleFront_spec vt ym Hok) as (f & Ef & _ & _ & Vf).
  rewrite Ef. exec_rw. f_equal.
  assert (Hq : quietAt ym v) by (destruct Hpq as (_ & _ & H & _); exact H).
  pose proof (Vf v Hv Hq) as W.
  destruct (pinnedQuiet_view ym f v W Hpq) as (Hs & Hp & _ & Hpv & Hvol & Hn).
  assert (Ha : volOf f v = volOf ym v)
    by (unfold voiceView in W; injection W as _ _ _ W _ _ _; exact W).
  rewrite <- Ha.
  apply voice_cases in Hv as [-> | [-> | ->]];
    unfold tonePos, pVolOf, volOf, mixerNOf in Hp, Hpv, Hvol, Hn;
    unfold voiceOutOf, voiceOutA, voiceOutB, voiceOutC, derefA, derefB, derefC,
      volOf;
    rewrite Hpv, Hp, Hn; apply voiceOut_pinned; exact Hvol.
Qed.

(** A pinned quiet voice contributes its volume to every following sample. *)
Lemma pinned_voice_constant (vt : list Z) (ym : CYm2149Ex) (v : Z) (n : nat) :
  0 <= v <= 2 -> effects_ok ym -> pinnedQuiet ym v ->
  exists ym', afterSamples vt n ym = Ret ym' /\
    contribution vt ym' v = Ret (volOf ym v).
Proof.
  intros Hv. revert ym. induction n as [|n IH]; intros ym Hok Hpq.
  - exists ym. split; [reflexivity|]. apply contribution_pinned; assumption.
  - cbn [afterSamples].
    destruct (nextSample_spec vt ym Hok) as (ym1 & s & E & Hok1 & _ & V).
    destruct (V v Hv Hpq) as [Hpq1 Ha].
    rewrite E. exec_rw. rewrite <- Ha. apply IH; assumption.
Qed.

(** A write with bit 4 clear to the amplitude register of voice [v] puts the
    voice on its own volume, the table entry of the value written. *)
Lemma WriteRegister_amplitude (vt : list Z) (ym : CYm2149Ex) (v d : Z) :
  0 <= v <= 2 -> Z.land d 16 = 0 -> length (registers ym) = 14%nat ->
  exists ymw, WriteRegister vt (8 + v) d ym = Ret ymw /\
    ampReg ymw v = Z.land d 31 /\ volOf ymw v = tab vt (Z.land d 15) /\
    pVolOf ymw v = PtrVol /\
    (toneStep ymw v, tonePos ymw v, mixerNOf ymw v, specialEffect ymw)
    = (toneStep ym v, tonePos ym v, mixerNOf ym v, specialEffect ym).
Proof.
  intros Hv Hd Hlen.
  assert (Hm : testmask d 16 = false) by (unfold testmask; rewrite Hd; reflexivity).
  assert (Hb : 0 <= Z.land d 31 < 256).
  { change 31 with (Z.ones 5). rewrite Z.land_ones by lia.
    pose proof (Z.mod_pos_bound d (2^5) ltac:(lia)). lia. }
  assert (Hu : u8 (Z.land d 31) = Z.land d 31)
    by (unfold u8; apply Z.mod_small; lia).
  apply voice_cases in Hv as [-> | [-> | ->]].
  - change (8 + 0) with 8. rewrite WriteRegister_8, Hm, Hu.
    eexists. split; [reflexivity|].
    split; [|split; [reflexivity|split; reflexivity]].
    unfold ampReg, reg, setReg. chip_proj. voice_idx.
    rewrite nth_lookup, list_lookup_insert_eq by lia. reflexivity.
  - change (8 + 1) with 9. rewrite WriteRegister_9, Hm, Hu.
    eexists. split; [reflexivity|].
    split; [|split; [reflexivity|split; reflexivity]].
    unfold ampReg, reg, setReg. chip_proj. voice_idx.
    rewrite nth_lookup, list_lookup_insert_eq by lia. reflexivity.
  - change (8 + 2) with 10. rewrite WriteRegister_10, Hm, Hu.
    eexists. split; [reflexivity|].
    split; [|split; [reflexivity|split; reflexivity]].
    unfold ampReg, reg, setReg. chip_proj. voice_idx.
    rewrite nth_lookup, list_lookup_insert_eq by lia. reflexivity.
Qed.

Lemma land_31_15 (d : Z) : Z.land (Z.land d 31) 15 = Z.land d 15.
Proof. rewrite <- Z.land_assoc. reflexivity. Qed.

(** C6 (amended): on a chip with three effect slots whose running drums are
    inside their buffers, take a voice whose tone step is 0 and whose
    accumulator is 0x80000000, on which no SID or drum effect runs and whose
    noise is switched off in the mixer.  If its volume pointer is at its own
    volume, a 16-bit value, the voice contributes that volume to every
    following sample, whatever the tone-enable bit of the mixer is.  After a
    write with bit 4 clear to its amplitude register, that volume is the
    volume-table entry of the amplitude register. *)
Theorem C6_pinned_quiet_voice_is_constant
    (vt : list Z) (ym : CYm2149Ex) (v d : Z) (n : nat) :
  0 <= v <= 2 -> effects_ok ym ->
  toneStep ym v = 0 -> tonePos ym v = 2^31 -> quietAt ym v ->
  mixerNOf ym v = 65535 ->
  (pVolOf ym v = PtrVol -> 0 <= volOf ym v < 65536 ->
   exists ym', afterSamples vt n ym = Ret ym' /\
     contribution vt ym' v = Ret (volOf ym v)) /\
  (Forall (fun x => 0 <= x < 65536) vt -> length (registers ym) = 14%nat ->
   Z.land d 16 = 0 ->
   exists ymw ym', WriteRegister vt (8 + v) d ym = Ret ymw /\
     ampReg ymw v = Z.land d 31 /\
     afterSamples vt n ymw = Ret ym' /\
     contribution vt ym' v = Ret (tab vt (Z.land (ampReg ymw v) 15))).
Proof.
  intros Hv Hok Hs Hp Hq Hn. split.
  - intros Hpv Hvol. apply pinned_voice_constant; [exact Hv|exact Hok|].
    exact (conj Hs (conj Hp (conj Hq (conj Hpv (conj Hvol Hn))))).
  - intros Hvt Hlen Hd.
    destruct (WriteRegister_amplitude vt ym v d Hv Hd Hlen)
      as (ymw & Ew & Ha & Hvw & Hpw & Hsame).
    injection Hsame as Hs' Hp' Hn' Hfx.
    assert (Hokw : effects_ok ymw) by (unfold effects_ok; rewrite Hfx; exact Hok).
    assert (Hpq : pinnedQuiet ymw v).
    { unfold pinnedQuiet. rewrite Hs', Hp', Hn', Hvw.
      split; [exact Hs|]. split; [exact Hp|].
      split; [exact (quietAt_same_effects ym ymw v Hfx Hq)|].
      split; [exact Hpw|]. split; [apply tab_range; exact Hvt|exact Hn]. }
    destruct (pinned_voice_constant vt ymw v n Hv Hokw Hpq) as (ym' & E & Hc).
    exists ymw, ym'. split; [exact Ew|]. split; [exact Ha|].
    split; [exact E|]. rewrite Hc, Hvw, Ha, land_31_15. reflexivity.
Qed.

Lemma scaledTable_range : Forall (fun x => 0 <= x < 65536) scaledTable.
Proof.
  replace scaledTable
    with [20; 53; 88; 125; 193; 258; 385; 525; 753; 1029; 1523; 2077; 3110;
          4395; 7073; 10922] by (vm_compute; reflexivity).
  repeat (apply List.Forall_cons; [lia|]). apply Forall_nil.
Qed.

Lemma chipWith_effects_ok (ws : list (Z * Z)) :
  specialEffect (chipWith ws) = repeat emptyEffect 3 -> effects_ok (chipWith ws).
Proof.
  intros E. unfold effects_ok. rewrite E. split; [reflexivity|].
  repeat (apply List.Forall_cons; [apply drum_ok_quiet; reflexivity|]).
  apply Forall_nil.
Qed.

(** C6 (witness): voice A of [pinnedChip], with 15 written to register 8. *)
Lemma C6_pinned_quiet_voice_is_constant_witness :
  (exists ym', afterSamples scaledTable 3 pinnedChip = Ret ym' /\
     contribution scaledTable ym' 0 = Ret (volOf pinnedChip 0)) /\
  (exists ymw ym', WriteRegister scaledTable (8 + 0) 15 pinnedChip = Ret ymw /\
     ampReg ymw 0 = Z.land 15 31 /\
     afterSamples scaledTable 3 ymw = Ret ym' /\
     contribution scaledTable ym' 0
     = Ret (tab scaledTable (Z.land (ampReg ymw 0) 15))).
Proof.
  assert (Hok : effects_ok pinnedChip)
    by (apply chipWith_effects_ok; vm_compute; reflexivity).
  assert (Hs : toneStep pinnedChip 0 = 0) by (vm_compute; reflexivity).
  assert (Hp : tonePos pinnedChip 0 = 2^31) by (vm_compute; reflexivity).
  assert (Hq : quietAt pinnedChip 0).
  { exists emptyEffect. split; [vm_compute; reflexivity|split; reflexivity]. }
  assert (Hn : mixerNOf pinnedChip 0 = 65535) by (vm_compute; reflexivity).
  assert (Hpv : pVolOf pinnedChip 0 = PtrVol) by (vm_compute; reflexivity).
  assert (Hv : volOf pinnedChip 0 = 10922) by (vm_compute; reflexivity).
  assert (Hl : length (registers pinnedChip) = 14%nat) by (vm_compute; reflexivity).
  destruct (C6_pinned_quiet_voice_is_constant scaledTable pinnedChip 0 15 3
              ltac:(lia) Hok Hs Hp Hq Hn) as [Ha Hb].
  split.
  - apply Ha; [exact Hpv|rewrite Hv; lia].
  - apply Hb; [exact scaledTable_range|exact Hl|reflexivity].
Defined.

(** C6 (as stated): with the noise of voice A enabled, or its amplitude
    register on the envelope, a voice of period 2 and step 0 is silent on some
    samples and follows the envelope on others, instead of holding the level of
    its amplitude register; and after a drum has ended on the voice, with
    register 8 still at 15, bit 4 clear and no effect running, the voice holds
    the last level of the drum, 2550, not the table entry 10922. *)
Lemma C6_counterexample :
  (tonePeriod noisyChip 0, toneStep noisyChip 0, ampReg noisyChip 0,
   tab scaledTable 15) = (2, 0, 15, 10922) /\
  voiceTrace scaledTable 0 8 noisyChip
  = Ret [10922; 10922; 10922; 0; 10922; 0; 10922; 0] /\
  (tonePeriod envelopeChip 0, toneStep envelopeChip 0, ampReg envelopeChip 0)
  = (2, 0, 31) /\
  voiceTrace scaledTable 0 8 envelopeChip
  = Ret [10922; 10922; 7073; 4395; 3110; 2077; 1523; 1029] /\
  (tonePeriod drumEndedChip 0, toneStep drumEndedChip 0, tonePos drumEndedChip 0,
   ampReg drumEndedChip 0, effectRuns drumEndedChip 0, mixerNOf drumEndedChip 0,
   pVolOf drumEndedChip 0) = (2, 0, 2^31, 15, false, 65535, PtrVol) /\
  voiceTrace scaledTable 0 4 drumEndedChip = Ret [2550; 2550; 2550; 2550].
Proof.
  split; [vm_compute; reflexivity|]. split; [vm_compute; reflexivity|].
  split; [vm_compute; reflexivity|]. split; [vm_compute; reflexivity|].
  split; vm_compute; reflexivity.
Qed.

(** ** Runs of the player are repeatable (C8) *)

Lemma scaleVolumeTable_idem (g : Globals) :
  scaleVolumeTable (scaleVolumeTable g) = scaleVolumeTable g.
Proof.
  unfold scaleVolumeTable at 2.
  destruct (negb (volumeTableInitialized g) && (tab (ymVolumeTable g) 15 =? 32767))
    eqn:E; [|exact eq_refl].
  unfold scaleVolumeTable at 2. rewrite E. reflexivity.
Qed.

(** A new chip sees the globals only through the scaled table. *)
Lemma NewYm2149Ex_scaled (g : Globals) (masterClock prediv playRate : Z) :
  NewYm2149Ex (scaleVolumeTable g) masterClock prediv playRate
  = NewYm2149Ex g masterClock prediv playRate.
Proof. unfold NewYm2149Ex. rewrite scaleVolumeTable_idem. reflexivity. Qed.

Lemma NewYmMusic_scaled (g : Globals) (replayRate : Z) :
  NewYmMusic (scaleVolumeTable g) replayRate = NewYmMusic g replayRate.
Proof. unfold NewYmMusic. rewrite NewYm2149Ex_scaled. reflexivity. Qed.

Lemma NewYmMusic_globals (g g' : Globals) (replayRate : Z) (ym : CYmMusic) :
  NewYmMusic g replayRate = Ret (g', ym) -> g' = scaleVolumeTable g.
Proof.
  unfold NewYmMusic, NewYm2149Ex. cbv zeta.
  destruct (u32 1 =? 0); [discriminate|].
  destruct (Reset _ _); exec_rw; [|discriminate|discriminate].
  intros H. injection H as <- _. reflexivity.
Qed.

(** Whatever players a process has created, its volume table scales to the
    table of a fresh process. *)
Lemma globalsAfter_scaled (rates : list Z) (g g' : Globals) :
  globalsAfter rates g = Ret g' -> scaleVolumeTable g' = scaleVolumeTable g.
Proof.
  revert g. induction rates as [|r rates IH]; intros g; cbn [globalsAfter].
  - intros H. injection H as <-. reflexivity.
  - destruct (NewYmMusic g r) as [[g1 ym]| |] eqn:E; exec_rw; try discriminate.
    intros H. apply IH in H. rewrite H.
    rewrite (NewYmMusic_globals _ _ _ _ E). apply scaleVolumeTable_idem.
Qed.

Section Repeatable.

Variable sampleAddress : list (list Z).
Variable sampleLen : list Z.
Variable trackerSampleInc : Z -> Z -> Z -> Z.

Lemma session_scaled (g : Globals) (rate : Z) (filter loop : bool)
    (data : list Z) (fuel : nat) (calls : list (list Z * Z)) :
  session sampleAddress sampleLen trackerSampleInc (scaleVolumeTable g)
          rate filter loop data fuel calls
  = session sampleAddress sampleLen trackerSampleInc g
            rate filter loop data fuel calls.
Proof. unfold session, CreateWithRate. rewrite NewYmMusic_scaled. reflexivity. Qed.

(** The copy loop of [Compute] replaces the first [n] samples of the caller's
    buffer when both buffers hold them, and panics when one is too short. *)
Lemma copyOut_ok (n : nat) (i : Z) (ymBuffer buffer : list Z) :
  0 <= i ->
  i + Z.of_nat n <= Z.of_nat (length ymBuffer) ->
  i + Z.of_nat n <= Z.of_nat (length buffer) ->
  copyOut n i ymBuffer buffer
  = Ret (take (Z.to_nat i) buffer
         ++ map s16 (take n (drop (Z.to_nat i) ymBuffer))
         ++ drop (Z.to_nat i + n) buffer).
Proof.
  revert i buffer. induction n as [|n IH]; intros i buffer Hi H1 H2.
  - cbn [copyOut]. rewrite take_0, Nat.add_0_r. cbn [map app].
    rewrite take_drop. reflexivity.
  - cbn [copyOut].
    destruct (lookup_lt_is_Some_2 ymBuffer (Z.to_nat i) ltac:(lia)) as [x Hx].
    rewrite (index_lookup _ _ x Hi Hx). exec_rw.
    rewrite store_in_range by lia. exec_rw.
    rewrite IH by (rewrite ?length_insert; lia).
    f_equal.
    replace (Z.to_nat (i + 1)) with (S (Z.to_nat i)) by lia.
    rewrite (drop_S ymBuffer x (Z.to_nat i) Hx). cbn [take map].
    rewrite (take_S_r _ _ (s16 x))
      by (apply list_lookup_insert_eq; lia).
    rewrite take_insert_ge by lia.
    rewrite drop_insert_lt by lia.
    rewrite <- app_assoc. cbn [app].
    replace (S (Z.to_nat i) + n)%nat with (Z.to_nat i + S n)%nat by lia.
    reflexivity.
Qed.

Lemma copyOut_short (n : nat) (i : Z) (ymBuffer buffer : list Z) :
  0 <= i -> (0 < n)%nat ->
  Z.of_nat (length ymBuffer) < i + Z.of_nat n
  \/ Z.of_nat (length buffer) < i + Z.of_nat n ->
  copyOut n i ymBuffer buffer = Panic.
Proof.
  revert i buffer. induction n as [|n IH]; intros i buffer Hi Hn H; [lia|].
  cbn [copyOut]. unfold index.
  destruct (Z.leb_spec 0 i) as [_|?]; [|lia]. cbn [andb].
  destruct (Z.ltb_spec i (Z.of_nat (length ymBuffer))) as [L1|L1]; [|reflexivity].
  destruct (lookup_lt_is_Some_2 ymBuffer (Z.to_nat i) ltac:(lia)) as [x Hx].
  rewrite Hx. exec_rw. unfold store.
  destruct (Z.leb_spec 0 i) as [_|?]; [|lia]. cbn [andb].
  destruct (Z.ltb_spec i (Z.of_nat (length buffer))) as [L2|L2]; [|reflexivity].
  exec_rw. apply IH; [lia|lia|rewrite length_insert; lia].
Qed.

(** What [Compute] leaves in the first [n] samples does not depend on what
    the caller's buffer held. *)
Lemma computed_indep (fuel : nat) (vt : list Z) (b1 b2 : list Z) (n : Z)
    (s : StSound) :
  length b1 = length b2 ->
  computed sampleAddress sampleLen trackerSampleInc fuel vt b1 n s
  = computed sampleAddress sampleLen trackerSampleInc fuel vt b2 n s.
Proof.
  intros Hlen. unfold computed, Compute.
  destruct (n <? 0); [reflexivity|].
  unfold onMusic. destruct (music s) as [ym|]; [|reflexivity].
  destruct (Update _ _ _ _ _ _ _ _) as [[[ym' yb] flag]| |]; exec_rw;
    [|reflexivity|reflexivity].
  destruct (Nat.eq_dec (Z.to_nat n) 0%nat) as [E0|E0].
  { rewrite E0. cbn [copyOut]. exec_rw. rewrite !take_0. reflexivity. }
  destruct (Z_le_gt_dec (0 + Z.of_nat (Z.to_nat n)) (Z.of_nat (length yb)))
    as [H1|H1];
    [destruct (Z_le_gt_dec (0 + Z.of_nat (Z.to_nat n)) (Z.of_nat (length b1)))
       as [H2|H2]|].
  - rewrite (copyOut_ok _ 0 yb b1) by lia.
    rewrite (copyOut_ok _ 0 yb b2) by lia. exec_rw.
    change (Z.to_nat 0) with 0%nat. rewrite !take_0, !drop_0. cbn [app].
    rewrite !take_app_length'
      by (rewrite length_map, length_take; lia).
    reflexivity.
  - rewrite (copyOut_short _ 0 yb b1) by lia.
    rewrite (copyOut_short _ 0 yb b2) by lia. reflexivity.
  - rewrite (copyOut_short _ 0 yb b1) by lia.
    rewrite (copyOut_short _ 0 yb b2) by lia. reflexivity.
Qed.

Lemma computeAll_indep (fuel : nat) (vt : list Z) (c1 c2 : list (list Z * Z))
    (s : StSound) :
  sameCalls c1 c2 ->
  computeAll sampleAddress sampleLen trackerSampleInc fuel vt c1 s
  = computeAll sampleAddress sampleLen trackerSampleInc fuel vt c2 s.
Proof.
  intros H. revert s. induction H as [|[b1 n1] [b2 n2] c1 c2 [Hn Hl] _ IH];
    intros s; [reflexivity|].
  cbn [fst snd] in Hn, Hl. subst n2. cbn [computeAll].
  rewrite (computed_indep fuel vt b1 b2 n1 s Hl).
  destruct (computed _ _ _ _ _ _ _ _) as [[[s' out] flag]| |]; exec_rw;
    [|reflexivity|reflexivity].
  rewrite IH. reflexivity.
Qed.

Lemma session_indep (g : Globals) (rate : Z) (filter loop : bool)
    (data : list Z) (fuel : nat) (c1 c2 : list (list Z * Z)) :
  sameCalls c1 c2 ->
  session sampleAddress sampleLen trackerSampleInc g rate filter loop data fuel c1
  = session sampleAddress sampleLen trackerSampleInc g rate filter loop data fuel c2.
Proof.
  intros H. unfold session.
  destruct (CreateWithRate g rate) as [[g' s]| |]; exec_rw;
    [|reflexivity|reflexivity].
  destruct (StSetLowpassFilter filter s) as [s1| |]; exec_rw;
    [|reflexivity|reflexivity].
  destruct (StSetLoopMode loop s1) as [s2| |]; exec_rw;
    [|reflexivity|reflexivity].
  destruct (StLoadMemory _ data s2) as [[s3 e]| |]; exec_rw;
    [|reflexivity|reflexivity].
  rewrite (computeAll_indep fuel _ c1 c2 s3 H). reflexivity.
Qed.

End Repeatable.

(** [Reset] returns on a chip with its three effect slots, with the noise
    generator at its fixed start. *)
Lemma Reset_rndRack (vt : list Z) (ym : CYm2149Ex) :
  length (specialEffect ym) = 3%nat ->
  exists ym', Reset vt ym = Ret ym' /\ rndRack ym' = 1.
Proof.
  intros Hlen. destruct ym. cbn [specialEffect] in Hlen.
  destruct specialEffect0 as [|e0 [|e1 [|e2 [|? ?]]]]; try discriminate.
  eexists. split; [vm_compute; reflexivity|]. reflexivity.
Qed.

(** C8: a run (create a player, set the filter and the loop flag, load the
    bytes, render a sequence of buffers) gives the same load result, samples
    and flags whatever players the process created before and whatever the
    caller's buffers held; and [Reset] leaves the noise register at 1. *)
Theorem C8_runs_are_repeatable
    (sampleAddress : list (list Z)) (sampleLen : list Z)
    (trackerSampleInc : Z -> Z -> Z -> Z)
    (rates : list Z) (g : Globals) (rate : Z) (filter loop : bool)
    (data : list Z) (fuel : nat) (calls1 calls2 : list (list Z * Z))
    (vt : list Z) (chip : CYm2149Ex) :
  globalsAfter rates globals0 = Ret g ->
  sameCalls calls1 calls2 ->
  length (specialEffect chip) = 3%nat ->
  session sampleAddress sampleLen trackerSampleInc g rate filter loop data
          fuel calls1
  = session sampleAddress sampleLen trackerSampleInc globals0 rate filter loop
            data fuel calls2
  /\ exists chip', Reset vt chip = Ret chip' /\ rndRack chip' = 1.
Proof.
  intros Hg Hc Hlen. split; [|exact (Reset_rndRack vt chip Hlen)].
  rewrite <- (session_scaled _ _ _ g).
  rewrite (globalsAfter_scaled _ _ _ Hg).
  rewrite session_scaled. apply session_indep, Hc.
Qed.

(** C8 (witness): a process that has already created one player, and a caller
    whose buffer is not zeroed. *)
Lemma C8_runs_are_repeatable_witness :
  session noSamples noSampleLen noTracker (scaleVolumeTable globals0)
          44100 true false ym6_60Hz 64 [([1; 2; 3; 4], 4)]
  = session noSamples noSampleLen noTracker globals0
            44100 true false ym6_60Hz 64 [([0; 0; 0; 0], 4)]
  /\ exists chip', Reset scaledTable chip44100 = Ret chip' /\ rndRack chip' = 1.
Proof.
  apply (C8_runs_are_repeatable noSamples noSampleLen noTracker [44100]).
  - vm_compute. reflexivity.
  - apply Forall2_cons; [split; reflexivity|apply Forall2_nil].
  - vm_compute. reflexivity.
Defined.

(** ** Chip operations return *)

Lemma s32_zero (x : Z) : s32 x = 0 -> x mod 2^32 = 0.
Proof.
  unfold s32. intros H.
  assert (H' : (x + 2^31) mod 2^32 = 2^31) by lia.
  pose proof (Z.div_mod (x + 2^31) (2^32) ltac:(lia)) as Hd.
  replace x with ((x + 2^31) / 2^32 * 2^32) by lia.
  apply Z.mod_mul. lia.
Qed.

(** The divisor of a step computation is not 0 for a rate below 65536. *)
Lemma step_divisor (per rf : Z) :
  0 < per < 65536 -> 0 < rf < 65536 -> (s64 (s32 (per * rf)) =? 0) = false.
Proof.
  intros Hp Hr. apply Z.eqb_neq. intros H.
  assert (Hs : - 2^31 <= s32 (per * rf) < 2^31)
    by (unfold s32; pose proof (Z.mod_pos_bound (per * rf + 2^31) (2^32)); lia).
  rewrite s64_small in H by lia.
  apply s32_zero in H. rewrite Z.mod_small in H by nia. nia.
Qed.

Lemma toneStepCompute_returns (ym : CYm2149Ex) (rHigh rLow : Z) :
  0 < replayFrequency ym < 65536 -> 0 <= rLow < 256 ->
  exists s, toneStepCompute ym rHigh rLow = Ret s.
Proof.
  intros Hr Hl. unfold toneStepCompute.
  pose proof (land15 rHigh) as Hh.
  rewrite (s32_small (Z.land rHigh 15)) by lia.
  rewrite (s32_small rLow) by lia.
  rewrite Z.shiftl_mul_pow2 by lia. change (2^8) with 256.
  rewrite (s32_small (Z.land rHigh 15 * 256 + rLow)) by lia.
  destruct (Z.leb_spec (Z.land rHigh 15 * 256 + rLow) 5); [eexists; reflexivity|].
  rewrite step_divisor by lia. eexists; reflexivity.
Qed.

Lemma noiseStepCompute_returns (ym : CYm2149Ex) (rNoise : Z) :
  0 < replayFrequency ym < 65536 -> exists s, noiseStepCompute ym rNoise = Ret s.
Proof.
  intros Hr. unfold noiseStepCompute.
  pose proof (land31 rNoise) as Hn.
  rewrite (s32_small (Z.land rNoise 31)) by lia.
  destruct (Z.ltb_spec (Z.land rNoise 31) 3); [eexists; reflexivity|].
  rewrite step_divisor by lia. eexists; reflexivity.
Qed.

Lemma envStepCompute_returns (ym : CYm2149Ex) (rHigh rLow : Z) :
  0 < replayFrequency ym < 65536 -> 0 <= rHigh < 256 -> 0 <= rLow < 256 ->
  exists s, envStepCompute ym rHigh rLow = Ret s.
Proof.
  intros Hr Hh Hl. unfold envStepCompute.
  rewrite (s32_small rHigh) by lia.
  rewrite (s32_small rLow) by lia.
  rewrite Z.shiftl_mul_pow2 by lia. change (2^8) with 256.
  rewrite (s32_small (rHigh * 256 + rLow)) by lia.
  destruct (Z.ltb_spec (rHigh * 256 + rLow) 3); [eexists; reflexivity|].
  rewrite step_divisor by lia. eexists; reflexivity.
Qed.

Lemma byteRegs_setReg (ym : CYm2149Ex) (i : nat) (x : Z) :
  byteRegs ym -> byteRegs (setReg i (u8 x) ym).
Proof.
  unfold byteRegs. intros H. chip_proj.
  apply Forall_insert; [exact H|apply u8_range].
Qed.

Lemma reg_byte (ym : CYm2149Ex) (i : nat) : byteRegs ym -> 0 <= reg ym i < 256.
Proof. apply reg_bounds. Qed.

Ltac chipInv_tac Hfx Hb Hr :=
  split; [unfold effects_ok; chip_proj; exact Hfx|];
  split; [unfold byteRegs; chip_proj;
          first [exact Hb | apply Forall_insert; [exact Hb|apply u8_range]]|];
  chip_proj; exact Hr.

(** Every register write returns, on a chip of the invariant, a chip of the
    invariant with the same effect slots. *)
Lemma WriteRegister_returns (vt : list Z) (r d : Z) (ym : CYm2149Ex) :
  chipInv ym ->
  exists ym', WriteRegister vt r d ym = Ret ym' /\ chipInv ym' /\
    specialEffect ym' = specialEffect ym /\
    replayFrequency ym' = replayFrequency ym.
Proof.
  intros (Hfx & Hb & Hr).
  assert (Htone : forall i x hi lo,
            exists s, toneStepCompute (setReg i (u8 x) ym)
                        (reg (setReg i (u8 x) ym) hi)
                        (reg (setReg i (u8 x) ym) lo) = Ret s).
  { intros. apply toneStepCompute_returns; [exact Hr|].
    apply reg_byte, byteRegs_setReg, Hb. }
  assert (Henv : forall i x,
            exists s, envStepCompute (setReg i (u8 x) ym)
                        (reg (setReg i (u8 x) ym) 12)
                        (reg (setReg i (u8 x) ym) 11) = Ret s).
  { intros. apply envStepCompute_returns; [exact Hr| |];
      apply reg_byte, byteRegs_setReg, Hb. }
  assert (Hnoise : forall i x,
            exists s, noiseStepCompute (setReg i (u8 x) ym)
                        (reg (setReg i (u8 x) ym) 6) = Ret s).
  { intros. apply noiseStepCompute_returns. exact Hr. }
  assert (Hdefault : chipInv ym /\ specialEffect ym = specialEffect ym /\
                     replayFrequency ym = replayFrequency ym)
    by (split; [exact (conj Hfx (conj Hb Hr))|split; reflexivity]).
  destruct r as [|p|p];
    [|do 4 (try destruct p as [p|p|])|];
    unfold WriteRegister; cbv zeta;
    try (eexists; split; [reflexivity|exact Hdefault]);
    try (match goal with
         | |- context [toneStepCompute (setReg ?i (u8 ?x) ym) (reg _ ?hi) (reg _ ?lo)] =>
             destruct (Htone i x hi lo) as [s Es]; rewrite Es
         | |- context [envStepCompute (setReg ?i (u8 ?x) ym) _ _] =>
             destruct (Henv i x) as [s Es]; rewrite Es
         | |- context [noiseStepCompute (setReg ?i (u8 ?x) ym) _] =>
             destruct (Hnoise i x) as [s Es]; rewrite Es
         end; exec_rw);
    try match goal with |- context [if ?b then _ else _] => destruct b end;
    (eexists; split; [reflexivity|]);
    (split; [chipInv_tac Hfx Hb Hr|split; reflexivity]).
Qed.

Lemma withEffect_eq (v : Z) (f : YmSpecialEffect -> YmSpecialEffect)
    (ym : CYm2149Ex) (fx : YmSpecialEffect) :
  0 <= v -> specialEffect ym !! Z.to_nat v = Some fx ->
  withEffect v f ym
  = Ret (set_specialEffect (<[Z.to_nat v := f fx]> (specialEffect ym)) ym).
Proof.
  intros Hv H. unfold withEffect. rewrite (index_lookup _ _ _ Hv H). exec_rw.
  pose proof (lookup_lt_Some _ _ _ H) as Hl.
  rewrite store_in_range by lia. reflexivity.
Qed.

Lemma effect_slot (ym : CYm2149Ex) (v : Z) :
  effects_ok ym -> 0 <= v <= 2 ->
  exists fx, specialEffect ym !! Z.to_nat v = Some fx /\ drum_ok fx.
Proof.
  intros [Hlen Hok] Hv.
  destruct (lookup_lt_is_Some_2 (specialEffect ym) (Z.to_nat v) ltac:(lia))
    as [fx Hfx].
  exists fx. split; [exact Hfx|]. exact (Forall_lookup_1 _ _ _ _ Hok Hfx).
Qed.

(** An update of one effect slot that keeps its drum inside its buffer. *)
Lemma withEffect_returns (v : Z) (f : YmSpecialEffect -> YmSpecialEffect)
    (ym : CYm2149Ex) :
  chipInv ym -> 0 <= v <= 2 -> (forall fx, drum_ok fx -> drum_ok (f fx)) ->
  exists ym', withEffect v f ym = Ret ym' /\ chipInv ym' /\
    replayFrequency ym' = replayFrequency ym.
Proof.
  intros (Hfx & Hb & Hr) Hv Hf.
  destruct (effect_slot ym v Hfx Hv) as (fx & E & Hd).
  rewrite (withEffect_eq v f ym fx ltac:(lia) E).
  eexists. split; [reflexivity|]. split; [|reflexivity].
  destruct Hfx as [Hlen Hok].
  split; [|split; [exact Hb|exact Hr]].
  split; chip_proj; [rewrite length_insert; exact Hlen|].
  apply Forall_insert; [exact Hok|apply Hf, Hd].
Qed.

Lemma SidStop_returns (v : Z) (ym : CYm2149Ex) :
  chipInv ym -> 0 <= v <= 2 ->
  exists ym', SidStop v ym = Ret ym' /\ chipInv ym' /\
    replayFrequency ym' = replayFrequency ym.
Proof.
  intros H Hv. apply withEffect_returns; [exact H|exact Hv|].
  intros fx Hd. unfold drum_ok in *. fx_proj. exact Hd.
Qed.

Lemma SyncBuzzerStop_inv (ym : CYm2149Ex) :
  chipInv ym -> chipInv (SyncBuzzerStop ym).
Proof. intros (Hfx & Hb & Hr). unfold SyncBuzzerStop. cbv zeta. chipInv_tac Hfx Hb Hr. Qed.

Lemma timerStep_returns (ym : CYm2149Ex) (f : Z) :
  0 < replayFrequency ym < 65536 -> exists s, timerStep ym f = Ret s.
Proof.
  intros Hr. unfold timerStep. rewrite (u32_small (replayFrequency ym)) by lia.
  destruct (Z.eqb_spec (replayFrequency ym) 0); [lia|]. eexists; reflexivity.
Qed.

Lemma SidStart_returns (v f vol : Z) (ym : CYm2149Ex) :
  chipInv ym -> 0 <= v <= 2 ->
  exists ym', SidStart v f vol ym = Ret ym' /\ chipInv ym' /\
    replayFrequency ym' = replayFrequency ym.
Proof.
  intros H Hv. unfold SidStart.
  destruct (timerStep_returns ym f ltac:(apply H)) as [s Es]. rewrite Es. exec_rw.
  destruct (withEffect_returns v (set_SidStep s) ym H Hv) as (y1 & E1 & H1 & R1);
    [intros fx Hd; unfold drum_ok in *; fx_proj; exact Hd|].
  rewrite E1. exec_rw.
  destruct (withEffect_returns v (set_SidVol (Z.land vol 15)) y1 H1 Hv)
    as (y2 & E2 & H2 & R2);
    [intros fx Hd; unfold drum_ok in *; fx_proj; exact Hd|].
  rewrite E2. exec_rw.
  destruct (withEffect_returns v (set_Sid true) y2 H2 Hv) as (y3 & E3 & H3 & R3);
    [intros fx Hd; unfold drum_ok in *; fx_proj; exact Hd|].
  exists y3. split; [exact E3|]. split; [exact H3|congruence].
Qed.

Lemma SyncBuzzerStart_returns (f shape : Z) (ym : CYm2149Ex) :
  chipInv ym ->
  exists ym', SyncBuzzerStart f shape ym = Ret ym' /\ chipInv ym' /\
    replayFrequency ym' = replayFrequency ym.
Proof.
  intros H. unfold SyncBuzzerStart.
  destruct (timerStep_returns ym f ltac:(apply H)) as [s Es]. rewrite Es. exec_rw.
  cbv zeta. eexists. split; [reflexivity|]. split; [|reflexivity].
  destruct H as (Hfx & Hb & Hr). chipInv_tac Hfx Hb Hr.
Qed.

(** [DrumStart] with a drum no longer than its buffer. *)
Lemma DrumStart_returns (v : Z) (buf : list Z) (size freq : Z) (ym : CYm2149Ex) :
  chipInv ym -> 0 <= v <= 2 -> size <= Z.of_nat (length buf) ->
  exists ym', DrumStart v buf size freq ym = Ret ym' /\ chipInv ym' /\
    replayFrequency ym' = replayFrequency ym.
Proof.
  intros H Hv Hsz. unfold DrumStart.
  destruct ((0 <? Z.of_nat (length buf)) && (0 <? size)) eqn:Ec;
    [|exists ym; split; [reflexivity|split; [exact H|reflexivity]]].
  apply andb_true_iff in Ec as [_ Hs%Z.ltb_lt].
  destruct H as (Hfx & Hb & Hr).
  destruct (effect_slot ym v Hfx Hv) as (fx & E & Hd).
  rewrite (withEffect_eq v _ ym fx ltac:(lia) E). exec_rw.
  pose proof (lookup_lt_Some _ _ _ E) as Hl.
  rewrite (withEffect_eq v _ _ (set_DrumData buf fx) ltac:(lia))
    by (chip_proj; apply list_lookup_insert_eq; exact Hl).
  exec_rw. chip_proj. rewrite list_insert_insert_eq.
  rewrite (withEffect_eq v _ _ (set_DrumPos 0 (set_DrumData buf fx)) ltac:(lia))
    by (chip_proj; apply list_lookup_insert_eq; exact Hl).
  exec_rw. chip_proj. rewrite list_insert_insert_eq.
  destruct (Z.eqb_spec (replayFrequency ym) 0); [lia|].
  rewrite (withEffect_eq v _ _
             (set_DrumSize size (set_DrumPos 0 (set_DrumData buf fx))) ltac:(lia))
    by (chip_proj; apply list_lookup_insert_eq; exact Hl).
  exec_rw. chip_proj. rewrite list_insert_insert_eq.
  match goal with |- context [set_DrumStep ?q _] => set (step := q) end.
  rewrite (withEffect_eq v _ _
             (set_DrumStep step
                (set_DrumSize size (set_DrumPos 0 (set_DrumData buf fx))))
             ltac:(lia))
    by (chip_proj; apply list_lookup_insert_eq; exact Hl).
  chip_proj. rewrite list_insert_insert_eq.
  eexists. split; [reflexivity|]. split; [|reflexivity].
  destruct Hfx as [Hlen Hok].
  split; [|split; [exact Hb|exact Hr]].
  split; chip_proj; [rewrite length_insert; exact Hlen|].
  apply Forall_insert; [exact Hok|].
  intros _. fx_proj. change (Z.shiftr 0 DRUM_PREC) with 0. lia.
Qed.

Lemma DrumStop_returns (v : Z) (ym : CYm2149Ex) :
  chipInv ym -> 0 <= v <= 2 ->
  exists ym', DrumStop v ym = Ret ym' /\ chipInv ym' /\
    replayFrequency ym' = replayFrequency ym.
Proof.
  intros H Hv. apply withEffect_returns; [exact H|exact Hv|].
  intros fx Hd. apply drum_ok_quiet. reflexivity.
Qed.

(** [Reset] returns, and resets to a chip of the invariant. *)
Lemma Reset_returns (vt : list Z) (ym : CYm2149Ex) :
  chipInv ym ->
  exists ym', Reset vt ym = Ret ym' /\ chipInv ym' /\
    replayFrequency ym' = replayFrequency ym.
Proof.
  intros ([Hlen _] & _ & Hr). destruct ym. cbn [specialEffect] in Hlen.
  cbn [replayFrequency] in Hr.
  destruct specialEffect0 as [|e0 [|e1 [|e2 [|? ?]]]]; try discriminate.
  eexists. split; [vm_compute; reflexivity|]. split; [|reflexivity].
  split; [split; [reflexivity|]|split].
  - cbn [specialEffect].
    repeat (apply List.Forall_cons; [apply drum_ok_quiet; reflexivity|]).
    apply Forall_nil.
  - unfold byteRegs. cbn [registers].
    repeat (apply List.Forall_cons; [lia|]). apply Forall_nil.
  - exact Hr.
Qed.


(** ** [Update] on a loaded song (C3) *)

Ltac mus_proj :=
  cbn [ymChip songType nbFrame loopFrame currentFrame nbDrum pDrumTab pBigMalloc
       pDataStream bLoop fileSize playerRate attrib bMusicOk bPause streamInc
       innerSamplePos replayRate bMusicOver pSongName pSongAuthor pSongComment
       pSongType pSongPlayer nbRepeat nbMixBlock pMixBlock mixPos
       pBigSampleBuffer pCurrentMixSample currentSampleLength currentPente
       currentPos nbTimeKey pTimeInfo musicLenInMs iMusicPosAccurateSample
       iMusicPosInMs nbVoice ymTrackerVoice ymTrackerNbSampleBefore
       ymTrackerVolumeTable ymTrackerFreqShift
       set_ymChip set_currentFrame set_bMusicOver set_innerSamplePos played].



Lemma songInv_played (c : CYm2149Ex) (f : Z) (o : bool) (i : Z) (ym : CYmMusic) :
  songInv ym -> chipInv c -> songInv (played c f o i ym).
Proof.
  intros (H1 & H2 & H3 & H4 & _ & H6) Hc. unfold songInv, drums_ok in *. mus_proj.
  tauto.
Qed.

(** [for i := 0; i <= 10; i++ { WriteRegister(i, data[i]) }] on a frame. *)
Lemma writeRegs_returns (vt : list Z) (n : nat) (i : Z) (data : list Z)
    (chip : CYm2149Ex) :
  chipInv chip -> 0 <= i -> i + Z.of_nat n <= Z.of_nat (length data) ->
  exists chip', writeRegs vt n i data chip = Ret chip' /\ chipInv chip'.
Proof.
  revert i chip. induction n as [|n IH]; intros i chip H Hi Hlen.
  - exists chip. split; [reflexivity|exact H].
  - cbn [writeRegs].
    destruct (lookup_lt_is_Some_2 data (Z.to_nat i) ltac:(lia)) as [b Hb].
    rewrite (index_lookup _ _ b Hi Hb). exec_rw.
    destruct (WriteRegister_returns vt (s32 i) (s32 b) chip H)
      as (c1 & E1 & H1 & _).
    rewrite E1. exec_rw. apply IH; [exact H1|lia|lia].
Qed.

Lemma index_in_range {A : Type} (l : list A) (i : Z) :
  0 <= i < Z.of_nat (length l) -> exists x, index l i = Ret x.
Proof.
  intros H. destruct (lookup_lt_is_Some_2 l (Z.to_nat i) ltac:(lia)) as [x Hx].
  exists x. apply index_lookup; [lia|exact Hx].
Qed.

Lemma land3 (x : Z) : 0 <= Z.land x 3 < 4.
Proof. exact (land_mask_bounds x 2 ltac:(lia)). Qed.
Lemma land7 (x : Z) : 0 <= Z.land x 7 < 8.
Proof. exact (land_mask_bounds x 3 ltac:(lia)). Qed.

Lemma voice_of_code (code : Z) :
  0 <= code < 4 -> code <> 0 -> 0 <= s32 (u8 (code - 1)) <= 2.
Proof.
  intros H Hn. rewrite u8_small by lia. rewrite s32_small by lia. lia.
Qed.

Lemma drum_in_bank (ym : CYmMusic) (ndrum : Z) :
  drums_ok ym -> 0 <= ndrum < nbDrum ym ->
  exists drum, index (pDrumTab ym) ndrum = Ret drum
               /\ Size drum <= Z.of_nat (length (Data drum)).
Proof.
  intros [Hn Hd] Hi.
  destruct (lookup_lt_is_Some_2 (pDrumTab ym) (Z.to_nat ndrum) ltac:(lia))
    as [d Hl].
  exists d. split; [apply index_lookup; [lia|exact Hl]|].
  exact (Forall_lookup_1 _ _ _ _ Hd Hl).
Qed.

Lemma set_ymChip_same (ym : CYmMusic) : set_ymChip (ymChip ym) ym = ym.
Proof. destruct ym. reflexivity. Qed.

Lemma set_ymChip_twice (c c' : CYm2149Ex) (ym : CYmMusic) :
  set_ymChip c' (set_ymChip c ym) = set_ymChip c' ym.
Proof. destruct ym. reflexivity. Qed.

(** The YM5 effects of one frame. *)
Lemma readYm5Effects_returns (data : list Z) (ym : CYmMusic) :
  length data = 16%nat -> chipInv (ymChip ym) -> drums_ok ym ->
  exists chip, readYm5Effects data ym = Ret (set_ymChip chip ym) /\ chipInv chip.
Proof.
  intros Hlen Hc Hd. unfold readYm5Effects.
  destruct (index_in_range data 1 ltac:(lia)) as [d1 E1]. rewrite E1. exec_rw.
  cbv zeta.
  assert (Hsid : exists c1,
    (if negb (Z.land (Z.shiftr d1 4) 3 =? 0)
     then
       d6 ← index data 6;
       d14 ← index data 14;
       match mfpFreq (Z.land (Z.shiftr d6 5) 7) d14 with
       | Some tmpFreq =>
           dv ← index data (u8 (Z.land (Z.shiftr d1 4) 3 - 1) + 8);
           chip ← SidStart (s32 (u8 (Z.land (Z.shiftr d1 4) 3 - 1))) tmpFreq
                           (s32 (Z.land dv 15)) (ymChip ym);
           Ret (set_ymChip chip ym)
       | None => Ret ym
       end
     else Ret ym) = Ret (set_ymChip c1 ym) /\ chipInv c1).
  { pose proof (land3 (Z.shiftr d1 4)) as Hcode.
    destruct (Z.eqb_spec (Z.land (Z.shiftr d1 4) 3) 0) as [|Hne]; cbn [negb];
      [exists (ymChip ym); rewrite set_ymChip_same; split; [reflexivity|exact Hc]|].
    destruct (index_in_range data 6 ltac:(lia)) as [d6 E6]. rewrite E6. exec_rw.
    destruct (index_in_range data 14 ltac:(lia)) as [d14 E14]. rewrite E14. exec_rw.
    destruct (mfpFreq _ d14) as [frq|];
      [|exists (ymChip ym); rewrite set_ymChip_same; split; [reflexivity|exact Hc]].
    pose proof (voice_of_code _ Hcode Hne) as Hv.
    rewrite u8_small in * by lia. rewrite s32_small in Hv by lia.
    destruct (index_in_range data (Z.land (Z.shiftr d1 4) 3 - 1 + 8) ltac:(lia))
      as [dv Ev].
    rewrite Ev. exec_rw.
    destruct (SidStart_returns (s32 (Z.land (Z.shiftr d1 4) 3 - 1)) frq
                (s32 (Z.land dv 15)) (ymChip ym) Hc
                ltac:(rewrite s32_small by lia; lia))
      as (c1 & Es & Hc1 & _).
    rewrite Es. exec_rw. exists c1. split; [reflexivity|exact Hc1]. }
  destruct Hsid as (c1 & Es & Hc1). rewrite Es. exec_rw. clear Es.
  destruct (index_in_range data 3 ltac:(lia)) as [d3 E3]. rewrite E3. exec_rw.
  pose proof (land3 (Z.shiftr d3 4)) as Hcode.
  destruct (Z.eqb_spec (Z.land (Z.shiftr d3 4) 3) 0) as [|Hne]; cbn [negb];
    [exists c1; split; [reflexivity|exact Hc1]|].
  pose proof (voice_of_code _ Hcode Hne) as Hv.
  rewrite u8_small in * by lia. rewrite s32_small in Hv by lia.
  destruct (index_in_range data (8 + (Z.land (Z.shiftr d3 4) 3 - 1)) ltac:(lia))
    as [dv Ev].
  rewrite Ev. exec_rw. mus_proj.
  pose proof (land31 dv) as Hnd.
  destruct (Z.ltb_spec (Z.land dv 31) (nbDrum ym));
    [|exists c1; split; [reflexivity|exact Hc1]].
  destruct (index_in_range data 8 ltac:(lia)) as [d8 E8]. rewrite E8. exec_rw.
  destruct (index_in_range data 15 ltac:(lia)) as [d15 E15]. rewrite E15. exec_rw.
  destruct (mfpFreq _ d15) as [frq|];
    [|exists c1; split; [reflexivity|exact Hc1]].
  destruct (drum_in_bank ym (Z.land dv 31) Hd ltac:(lia)) as (drum & Edr & Hsz).
  rewrite Edr. exec_rw.
  destruct (DrumStart_returns (s32 (Z.land (Z.shiftr d3 4) 3 - 1)) (Data drum)
              (Size drum) frq c1 Hc1 ltac:(rewrite s32_small by lia; lia) Hsz)
    as (c2 & E2 & Hc2 & _).
  rewrite E2. exec_rw. rewrite set_ymChip_twice.
  exists c2. split; [reflexivity|exact Hc2].
Qed.

Lemma land48_cases (y : Z) :
  0 <= y < 64 ->
  Z.land y 48 = 0 \/ Z.land y 48 = 16 \/ Z.land y 48 = 32 \/ Z.land y 48 = 48.
Proof.
  intros H. destruct y as [|p|p]; [left; reflexivity| |lia].
  do 6 (try destruct p as [p|p|]); try lia; vm_compute; auto 6.
Qed.

(** The voice an effect code of a YM6 frame names is 0, 1 or 2. *)
Lemma effect_voice (rc : Z) :
  Z.land (Z.land rc 240) 48 <> 0 ->
  0 <= Z.shiftr (Z.land (Z.land rc 240) 48) 4 - 1 <= 2 /\
  u8 (Z.shiftr (Z.land (Z.land rc 240) 48) 4 - 1)
  = Z.shiftr (Z.land (Z.land rc 240) 48) 4 - 1.
Proof.
  assert (E : Z.land (Z.land rc 240) 48 = Z.land (Z.land rc 63) 48).
  { rewrite <- !Z.land_assoc. reflexivity. }
  rewrite E. change 63 with (Z.ones 6). rewrite Z.land_ones by lia.
  pose proof (Z.mod_pos_bound rc (2^6) ltac:(lia)) as Hb.
  intros Hne. clear E. set (y := rc mod 2^6) in *. clearbody y.
  change (2^6) with 64 in Hb.
  destruct (land48_cases y Hb) as [H|[H|[H|H]]];
    rewrite H in *; [congruence| | |]; vm_compute; intuition congruence.
Qed.

(** One effect slot of a YM6 frame. *)
Lemma readYm6Effect_returns (pReg : list Z) (code prediv count : Z)
    (ym : CYmMusic) :
  length pReg = 16%nat -> 0 <= code < 16 -> 0 <= prediv < 16 -> 0 <= count < 16 ->
  chipInv (ymChip ym) -> drums_ok ym ->
  exists chip, readYm6Effect pReg code prediv count ym = Ret (set_ymChip chip ym)
               /\ chipInv chip.
Proof.
  intros Hlen Hcode Hpre Hcnt Hc Hd. unfold readYm6Effect.
  destruct (index_in_range pReg code ltac:(lia)) as [rc Erc]. rewrite Erc. exec_rw.
  destruct (index_in_range pReg prediv ltac:(lia)) as [rp Erp]. rewrite Erp. exec_rw.
  destruct (index_in_range pReg count ltac:(lia)) as [cv Ecv]. rewrite Ecv. exec_rw.
  cbv zeta.
  assert (Hnone : exists chip, Ret ym = Ret (set_ymChip chip ym) /\ chipInv chip)
    by (exists (ymChip ym); rewrite set_ymChip_same; split; [reflexivity|exact Hc]).
  destruct (Z.eqb_spec (Z.land (Z.land rc 240) 48) 0) as [|Hne]; cbn [negb];
    [exact Hnone|].
  destruct (effect_voice rc Hne) as [Hv' Hu]. rewrite Hu in *.
  set (voice := Z.shiftr (Z.land (Z.land rc 240) 48) 4 - 1) in *.
  assert (Hv : 0 <= s32 voice <= 2) by (rewrite s32_small by lia; lia).
  destruct (index_in_range pReg (voice + 8) ltac:(lia)) as [dv Edv].
  destruct ((Z.land (Z.land rc 240) 192 =? 0) || (Z.land (Z.land rc 240) 192 =? 128)).
  - destruct (mfpFreq _ cv) as [frq|]; [|exact Hnone].
    destruct (Z.land (Z.land rc 240) 192 =? 0); [|exact Hnone].
    rewrite Edv. exec_rw.
    destruct (SidStart_returns (s32 voice) frq (s32 (Z.land dv 15)) (ymChip ym)
                Hc Hv) as (c1 & E1 & H1 & _).
    rewrite E1. exec_rw. exists c1. split; [reflexivity|exact H1].
  - destruct (Z.land (Z.land rc 240) 192 =? 64).
    + rewrite Edv. exec_rw. pose proof (land31 dv) as Hnd.
      destruct (Z.ltb_spec (Z.land dv 31) (nbDrum ym)); [|exact Hnone].
      destruct (mfpFreq _ cv) as [frq|]; [|exact Hnone].
      destruct (drum_in_bank ym (Z.land dv 31) Hd ltac:(lia)) as (drum & Edr & Hsz).
      rewrite Edr. exec_rw.
      destruct (DrumStart_returns (s32 voice) (Data drum) (Size drum) frq
                  (ymChip ym) Hc Hv Hsz) as (c1 & E1 & H1 & _).
      rewrite E1. exec_rw. exists c1. split; [reflexivity|exact H1].
    + destruct (mfpFreq _ cv) as [frq|]; [|exact Hnone].
      rewrite Edv. exec_rw.
      destruct (SyncBuzzerStart_returns frq (s32 (Z.land dv 15)) (ymChip ym) Hc)
        as (c1 & E1 & H1 & _).
      rewrite E1. exec_rw. exists c1. split; [reflexivity|exact H1].
Qed.

Lemma slice_in_range {A : Type} (l : list A) (lo hi : Z) :
  0 <= lo <= hi -> hi <= Z.of_nat (length l) ->
  exists s, slice l lo hi = Ret s /\ Z.of_nat (length s) = hi - lo.
Proof.
  intros H1 H2. unfold slice.
  destruct (Z.leb_spec 0 lo); [|lia]. destruct (Z.leb_spec lo hi); [|lia].
  destruct (Z.leb_spec hi (Z.of_nat (length l))); [|lia]. cbn [andb].
  eexists. split; [reflexivity|]. rewrite length_take, length_drop. lia.
Qed.

(** The registers 11 to 13 and the effects of a frame of a YM3, YM5 or YM6
    song, after the registers 0 to 10 have been written. *)
Lemma player_tail_returns (sa : list (list Z)) (sl : list Z) (vt : list Z)
    (data : list Z) (ym : CYmMusic) :
  songInv ym -> Z.of_nat (length data) = streamInc ym ->
  exists chip,
    (if songType ym =? YM_V2 then
       chip ← playerYm2 sa sl vt data (ymChip ym);
       Ret (set_ymChip chip ym)
     else if YM_V3 <=? songType ym then
       d11 ← index data 11;
       chip ← WriteRegister vt 11 (s32 d11) (ymChip ym);
       d12 ← index data 12;
       chip ← WriteRegister vt 12 (s32 d12) chip;
       d13 ← index data 13;
       chip ← (if negb (d13 =? 255)
               then WriteRegister vt 13 (s32 d13) chip else Ret chip);
       if YM_V5 <=? songType (set_ymChip chip ym) then
         if songType (set_ymChip chip ym) =? YM_V6 then
           ym ← readYm6Effect data 1 6 14 (set_ymChip chip ym);
           readYm6Effect data 3 8 15 ym
         else readYm5Effects data (set_ymChip chip ym)
       else Ret (set_ymChip chip ym)
     else Ret ym) = Ret (set_ymChip chip ym) /\ chipInv chip.
Proof.
  intros (Hty & Hlf & Hpr & Hrr & Hc & Hd) Hlen.
  assert (Hlen14 : 14 <= Z.of_nat (length data))
    by (destruct Hty as [[_ E]|[_ E]]; rewrite E in Hlen; lia).
  assert (H2 : (songType ym =? YM_V2) = false)
    by (apply Z.eqb_neq; unfold YM_V2, YM_V3, YM_V5, YM_V6 in *; lia).
  assert (H3 : (YM_V3 <=? songType ym) = true)
    by (apply Z.leb_le; unfold YM_V2, YM_V3, YM_V5, YM_V6 in *; lia).
  rewrite H2, H3.
  destruct (index_in_range data 11 ltac:(lia)) as [d11 E11]. rewrite E11. exec_rw.
  destruct (WriteRegister_returns vt 11 (s32 d11) (ymChip ym) Hc)
    as (c1 & E1 & Hc1 & _). rewrite E1. exec_rw.
  destruct (index_in_range data 12 ltac:(lia)) as [d12 E12]. rewrite E12. exec_rw.
  destruct (WriteRegister_returns vt 12 (s32 d12) c1 Hc1)
    as (c2 & E2 & Hc2 & _). rewrite E2. exec_rw.
  destruct (index_in_range data 13 ltac:(lia)) as [d13 E13]. rewrite E13. exec_rw.
  assert (H13 : exists c3,
            (if negb (d13 =? 255) then WriteRegister vt 13 (s32 d13) c2 else Ret c2)
            = Ret c3 /\ chipInv c3).
  { destruct (negb (d13 =? 255)); [|exists c2; split; [reflexivity|exact Hc2]].
    destruct (WriteRegister_returns vt 13 (s32 d13) c2 Hc2) as (c3 & E3 & Hc3 & _).
    exists c3. split; [exact E3|exact Hc3]. }
  destruct H13 as (c3 & E3 & Hc3). rewrite E3. exec_rw. cbv zeta. mus_proj.
  assert (Hd3 : drums_ok (set_ymChip c3 ym)) by exact Hd.
  destruct Hty as [[Hty Hinc]|[Hty Hinc]].
  - rewrite Hty. change (YM_V5 <=? YM_V3) with false. cbv iota.
    exists c3. split; [reflexivity|exact Hc3].
  - assert (H5 : (YM_V5 <=? songType ym) = true)
      by (apply Z.leb_le; unfold YM_V5, YM_V6 in *; lia).
    rewrite H5. assert (Hl16 : length data = 16%nat) by lia.
    destruct (songType ym =? YM_V6).
    + destruct (readYm6Effect_returns data 1 6 14 (set_ymChip c3 ym) Hl16
                  ltac:(lia) ltac:(lia) ltac:(lia) Hc3 Hd3) as (c4 & E4 & Hc4).
      rewrite E4. exec_rw. rewrite set_ymChip_twice.
      destruct (readYm6Effect_returns data 3 8 15 (set_ymChip c4 ym) Hl16
                  ltac:(lia) ltac:(lia) ltac:(lia) Hc4 Hd) as (c5 & E5 & Hc5).
      rewrite E5. rewrite set_ymChip_twice.
      exists c5. split; [reflexivity|exact Hc5].
    + destruct (readYm5Effects_returns data (set_ymChip c3 ym) Hl16 Hc3 Hd3)
        as (c4 & E4 & Hc4).
      rewrite E4. rewrite set_ymChip_twice.
      exists c4. split; [reflexivity|exact Hc4].
Qed.

Lemma songInv_frame (f : Z) (ym : CYmMusic) :
  songInv ym -> songInv (set_currentFrame f ym).
Proof. intros H. exact H. Qed.

Lemma songInv_chip (c : CYm2149Ex) (ym : CYmMusic) :
  songInv ym -> chipInv c -> songInv (set_ymChip c ym).
Proof.
  intros (H1 & H2 & H3 & H4 & _ & H6) Hc. unfold songInv, drums_ok in *. mus_proj.
  tauto.
Qed.

(** One frame of the song from the current frame [f] on: either the stream
    ends here, or the registers and effects of the frame are written. *)
Lemma player_frame_returns (sa : list (list Z)) (sl : list Z) (vt : list Z)
    (f : Z) (ym : CYmMusic) :
  songInv ym -> 0 <= f ->
  exists chip frame over,
    (let ym := set_currentFrame f ym in
     let ptr := currentFrame ym * streamInc ym in
     if ptr + streamInc ym >? Z.of_nat (length (pDataStream ym)) then
       Ret (set_bMusicOver true ym)
     else
       data ← slice (pDataStream ym) ptr (ptr + streamInc ym);
       chip ← writeRegs vt 11 0 data (ymChip ym);
       chip ← SidStop 0 chip;
       chip ← SidStop 1 chip;
       chip ← SidStop 2 chip;
       let chip := SyncBuzzerStop chip in
       let ym := set_ymChip chip ym in
       ym ← (if songType ym =? YM_V2 then
               chip ← playerYm2 sa sl vt data (ymChip ym);
               Ret (set_ymChip chip ym)
             else if YM_V3 <=? songType ym then
               d11 ← index data 11;
               chip ← WriteRegister vt 11 (s32 d11) (ymChip ym);
               d12 ← index data 12;
               chip ← WriteRegister vt 12 (s32 d12) chip;
               d13 ← index data 13;
               chip ← (if negb (d13 =? 255)
                       then WriteRegister vt 13 (s32 d13) chip else Ret chip);
               let ym := set_ymChip chip ym in
               if YM_V5 <=? songType ym then
                 if songType ym =? YM_V6 then
                   ym ← readYm6Effect data 1 6 14 ym;
                   readYm6Effect data 3 8 15 ym
                 else readYm5Effects data ym
               else Ret ym
             else Ret ym);
       Ret (set_currentFrame (currentFrame ym + 1) ym))
    = Ret (played chip frame over (innerSamplePos ym) ym) /\ chipInv chip.
Proof.
  intros Hinv Hf. cbv zeta.
  change (currentFrame (set_currentFrame f ym)) with f.
  change (streamInc (set_currentFrame f ym)) with (streamInc ym).
  change (pDataStream (set_currentFrame f ym)) with (pDataStream ym).
  change (ymChip (set_currentFrame f ym)) with (ymChip ym).
  assert (Hinc : 14 <= streamInc ym <= 16)
    by (destruct Hinv as ([[_ E]|[_ E]] & _); rewrite E; lia).
  assert (Hc : chipInv (ymChip ym)) by apply Hinv.
  destruct (Z.gtb_spec (f * streamInc ym + streamInc ym)
              (Z.of_nat (length (pDataStream ym)))) as [Hend|Hin].
  { exists (ymChip ym), f, true. split; [|exact Hc].
    destruct ym. reflexivity. }
  destruct (slice_in_range (pDataStream ym) (f * streamInc ym)
              (f * streamInc ym + streamInc ym) ltac:(nia) ltac:(lia))
    as (data & Ed & Hlen).
  rewrite Ed. exec_rw.
  destruct (writeRegs_returns vt 11 0 data (ymChip ym) Hc ltac:(lia) ltac:(lia))
    as (c1 & E1 & Hc1). rewrite E1. exec_rw.
  destruct (SidStop_returns 0 c1 Hc1 ltac:(lia)) as (c2 & E2 & Hc2 & _).
  rewrite E2. exec_rw.
  destruct (SidStop_returns 1 c2 Hc2 ltac:(lia)) as (c3 & E3 & Hc3 & _).
  rewrite E3. exec_rw.
  destruct (SidStop_returns 2 c3 Hc3 ltac:(lia)) as (c4 & E4 & Hc4 & _).
  rewrite E4. exec_rw.
  pose proof (SyncBuzzerStop_inv c4 Hc4) as Hc5.
  set (c5 := SyncBuzzerStop c4) in *. clearbody c5.
  set (ym1 := set_ymChip c5 (set_currentFrame f ym)).
  assert (Hinv1 : songInv ym1)
    by (apply songInv_chip; [apply songInv_frame; exact Hinv|exact Hc5]).
  destruct (player_tail_returns sa sl vt data ym1 Hinv1 ltac:(subst ym1; mus_proj; lia))
    as (c6 & E6 & Hc6).
  rewrite E6. exec_rw.
  exists c6, (f + 1), (bMusicOver ym). split; [|exact Hc6].
  subst ym1. destruct ym. reflexivity.
Qed.

(** [player] returns on a song of the invariant, and changes only the chip,
    the current frame and the over-flag. *)
Lemma player_returns (sa : list (list Z)) (sl : list Z) (vt : list Z)
    (ym : CYmMusic) :
  songInv ym ->
  exists chip frame over,
    player sa sl vt ym = Ret (played chip frame over (innerSamplePos ym) ym)
    /\ chipInv chip.
Proof.
  intros Hinv. unfold player.
  assert (H0 : exists f0, 0 <= f0 /\
            (if currentFrame ym <? 0 then set_currentFrame 0 ym else ym)
            = set_currentFrame f0 ym).
  { destruct (Z.ltb_spec (currentFrame ym) 0).
    - exists 0. split; [lia|reflexivity].
    - exists (currentFrame ym). split; [lia|]. destruct ym. reflexivity. }
  destruct H0 as (f0 & Hf0 & E0). cbv zeta. rewrite E0. clear E0.
  change (nbFrame (set_currentFrame f0 ym)) with (nbFrame ym).
  change (currentFrame (set_currentFrame f0 ym)) with f0.
  change (bLoop (set_currentFrame f0 ym)) with (bLoop ym).
  assert (Hc : chipInv (ymChip ym)) by apply Hinv.
  destruct (nbFrame ym <=? f0).
  - destruct (bLoop ym).
    + exec_rw.
      change (loopFrame (set_currentFrame f0 ym)) with (loopFrame ym).
      replace (set_currentFrame (loopFrame ym) (set_currentFrame f0 ym))
        with (set_currentFrame (loopFrame ym) ym) by (destruct ym; reflexivity).
      apply (player_frame_returns sa sl vt (loopFrame ym) ym Hinv).
      apply Hinv.
    + change (ymChip (set_bMusicOver true (set_currentFrame f0 ym)))
        with (ymChip ym).
      destruct (Reset_returns vt (ymChip ym) Hc) as (c1 & E1 & Hc1 & _).
      rewrite E1. exec_rw.
      exists c1, f0, true. split; [|exact Hc1]. destruct ym. reflexivity.
  - exec_rw. apply (player_frame_returns sa sl vt f0 ym Hinv Hf0).
Qed.





Lemma chipCheck_sound (ym : CYm2149Ex) : chipCheck ym = true -> chipInv ym.
Proof.
  unfold chipCheck. rewrite !andb_true_iff.
  intros ((((H1 & H2) & H3) & H4) & H5).
  apply Nat.eqb_eq in H1. apply Z.ltb_lt in H4, H5.
  split; [split; [exact H1|]|split; [|lia]].
  - apply Forall_forall. intros fx Hin.
    rewrite forallb_forall in H2. specialize (H2 fx Hin).
    unfold drumCheck in H2. intros Hd. rewrite Hd in H2. cbn [negb orb] in H2.
    rewrite !andb_true_iff in H2. destruct H2 as ((A & B) & C).
    apply Z.leb_le in A, C. apply Z.ltb_lt in B. lia.
  - unfold byteRegs. apply Forall_forall. intros b Hin.
    rewrite forallb_forall in H3. specialize (H3 b Hin).
    apply andb_true_iff in H3 as [A B]. apply Z.leb_le in A. apply Z.ltb_lt in B.
    lia.
Qed.

Lemma playCheck_sound (ym : CYmMusic) : playCheck ym = true -> playInv ym.
Proof.
  unfold playCheck. rewrite !andb_true_iff.
  intros (((((((((H1 & H2) & H3) & H4) & H5) & H6) & H7) & H8) & H9) & H10).
  apply Z.leb_le in H2, H4, H7, H9. apply Z.ltb_lt in H3, H5, H10.
  split; [|lia].
  split; [|split; [exact H2|split; [lia|split; [exact H5|split]]]].
  - apply orb_true_iff in H1 as [H1|H1]; apply andb_true_iff in H1 as [A B];
      apply Z.eqb_eq in B.
    + left. apply Z.eqb_eq in A. tauto.
    + right. apply orb_true_iff in A as [A|A]; apply Z.eqb_eq in A; tauto.
  - apply chipCheck_sound, H6.
  - split; [exact H7|]. apply Forall_forall. intros d Hin.
    rewrite forallb_forall in H8. specialize (H8 d Hin). apply Z.leb_le in H8.
    exact H8.
Qed.



(** ** De-interleaving and the register-stream loader *)

Lemma sliceFrom_in_range {A : Type} (l : list A) (lo : Z) :
  0 <= lo <= Z.of_nat (length l) -> sliceFrom l lo = Ret (drop (Z.to_nat lo) l).
Proof.
  intros H. unfold sliceFrom.
  destruct (Z.leb_spec 0 lo); [|lia].
  destruct (Z.leb_spec lo (Z.of_nat (length l))); [|lia]. reflexivity.
Qed.

Section DeInterleave.

Variable ym : CYmMusic.
Let n := nbFrame ym.
Let inc := streamInc ym.
Let stream := pDataStream ym.

Hypothesis Hn : 0 <= n.
Hypothesis Hinc : 0 < inc.
Hypothesis Hlen : n * inc <= Z.of_nat (length stream).

Lemma cell_inj (f f' v v' : Z) :
  0 <= v < inc -> 0 <= v' < inc -> f * inc + v = f' * inc + v' ->
  f = f' /\ v = v'.
Proof.
  intros Hv Hv' E.
  assert (f = f'); [|subst; lia].
  destruct (Z.lt_trichotomy f f') as [H|[H|H]]; [|exact H|]; nia.
Qed.

Lemma deInterleaveFrames_spec (cnt : nat) :
  forall (frame voice : Z) (tmp : list Z),
  0 <= frame -> 0 <= voice < inc ->
  frame + Z.of_nat cnt <= n ->
  n * inc <= Z.of_nat (length tmp) ->
  exists tmp',
    deInterleaveFrames cnt frame voice (voice * n) ym tmp = Ret tmp' /\
    length tmp' = length tmp /\
    (forall k, frame <= k < frame + Z.of_nat cnt ->
       tmp' !! Z.to_nat (k * inc + voice) = stream !! Z.to_nat (voice * n + k)) /\
    (forall j, (forall k, frame <= k < frame + Z.of_nat cnt ->
                          j <> Z.to_nat (k * inc + voice)) ->
       tmp' !! j = tmp !! j).
Proof.
  induction cnt as [|cnt IH]; intros frame voice tmp Hf Hv Hcnt Htmp.
  - exists tmp. split; [reflexivity|]. split; [reflexivity|].
    split; [intros k Hk; lia|reflexivity].
  - cbn [deInterleaveFrames]. fold inc. fold stream.
    assert (Hsrc : 0 <= voice * n + frame < Z.of_nat (length stream)) by nia.
    destruct (lookup_lt_is_Some_2 stream (Z.to_nat (voice * n + frame)) ltac:(lia))
      as [b Hb].
    rewrite (index_lookup stream (voice * n + frame) b ltac:(lia) Hb). exec_rw.
    assert (Hdst : 0 <= frame * inc + voice < Z.of_nat (length tmp)) by nia.
    rewrite store_in_range by exact Hdst. exec_rw.
    destruct (IH (frame + 1) voice (<[Z.to_nat (frame * inc + voice) := b]> tmp)
                ltac:(lia) Hv ltac:(lia) ltac:(rewrite length_insert; exact Htmp))
      as (tmp' & E & Hl & Hset & Hkeep).
    exists tmp'. split; [exact E|]. split; [rewrite Hl; apply length_insert|].
    split.
    + intros k Hk. destruct (Z.eq_dec k frame) as [->|Hne].
      * rewrite Hkeep.
        -- rewrite list_lookup_insert_eq by lia. symmetry. exact Hb.
        -- intros k' Hk' Eq.
           assert (0 <= k' * inc) by nia. assert (0 <= frame * inc) by nia.
           assert (frame * inc + voice = k' * inc + voice) by lia. nia.
      * apply Hset. lia.
    + intros j Hj. rewrite Hkeep.
      * apply list_lookup_insert_ne. intros Eq. apply (Hj frame); [lia|].
        symmetry. exact Eq.
      * intros k Hk. apply Hj. lia.
Qed.

Lemma deInterleaveVoices_spec (cnt : nat) :
  forall (voice : Z) (tmp : list Z),
  0 <= voice -> voice + Z.of_nat cnt <= inc ->
  n * inc <= Z.of_nat (length tmp) ->
  exists tmp',
    deInterleaveVoices cnt voice ym tmp = Ret tmp' /\
    length tmp' = length tmp /\
    (forall v f, voice <= v < voice + Z.of_nat cnt -> 0 <= f < n ->
       tmp' !! Z.to_nat (f * inc + v) = stream !! Z.to_nat (v * n + f)) /\
    (forall j, (forall v f, voice <= v < voice + Z.of_nat cnt -> 0 <= f < n ->
                            j <> Z.to_nat (f * inc + v)) ->
       tmp' !! j = tmp !! j).
Proof.
  induction cnt as [|cnt IH]; intros voice tmp Hv Hcnt Htmp.
  - exists tmp. split; [reflexivity|]. split; [reflexivity|].
    split; [intros v f Hv'; lia|reflexivity].
  - cbn [deInterleaveVoices]. fold n.
    destruct (deInterleaveFrames_spec (Z.to_nat n) 0 voice tmp ltac:(lia)
                ltac:(lia) ltac:(lia) Htmp) as (tmp1 & E1 & Hl1 & Hset1 & Hkeep1).
    rewrite E1. exec_rw.
    destruct (IH (voice + 1) tmp1 ltac:(lia) ltac:(lia) ltac:(rewrite Hl1; exact Htmp))
      as (tmp' & E & Hl & Hset & Hkeep).
    exists tmp'. split; [exact E|]. split; [congruence|].
    split.
    + intros v f Hv' Hf. destruct (Z.eq_dec v voice) as [->|Hne].
      * rewrite Hkeep; [apply Hset1; lia|].
        intros v' f' Hv'' Hf' Eq.
        assert (0 <= f * inc) by nia. assert (0 <= f' * inc) by nia.
        assert (Ez : f * inc + voice = f' * inc + v') by lia.
        apply cell_inj in Ez; lia.
      * apply Hset; lia.
    + intros j Hj. rewrite Hkeep.
      * apply Hkeep1. intros k Hk. apply Hj; lia.
      * intros v f Hv' Hf. apply Hj; lia.
Qed.

(** [deInterleave] turns a register-major stream into a frame-major one. *)
Lemma deInterleave_spec :
  Z.land (attrib ym) A_STREAMINTERLEAVED <> 0 ->
  exists tmp,
    deInterleave ym
    = Ret (set_attrib (s32 (Z.land (attrib ym) (Z.lnot A_STREAMINTERLEAVED)))
             (set_pDataStream tmp (set_pBigMalloc tmp ym))) /\
    Z.of_nat (length tmp) = n * inc /\
    forall f v, 0 <= f < n -> 0 <= v < inc ->
      tmp !! Z.to_nat (f * inc + v) = stream !! Z.to_nat (v * n + f).
Proof.
  intros Hattr. unfold deInterleave.
  destruct (Z.eqb_spec (Z.land (attrib ym) A_STREAMINTERLEAVED) 0); [contradiction|].
  fold n. fold inc.
  destruct (Z.ltb_spec (n * inc) 0); [nia|]. cbv zeta.
  destruct (deInterleaveVoices_spec (Z.to_nat inc) 0
              (repeat 0 (Z.to_nat (n * inc))) ltac:(lia) ltac:(lia)
              ltac:(rewrite repeat_length; lia))
    as (tmp & E & Hl & Hset & _).
  rewrite E. exec_rw. exists tmp. split; [reflexivity|].
  split; [rewrite Hl, repeat_length; lia|].
  intros f v Hf Hv. apply Hset; lia.
Qed.

End DeInterleave.

(** The state [ymDecode] leaves for the tag YM3!, before [deInterleave]. *)
Lemma decodeYm23_returns (ty loop : Z) (comment type : string) (ym : CYmMusic) :
  4 <= Z.of_nat (length (pBigMalloc ym)) ->
  exists ym',
    decodeYm23 ty loop comment type ym = Ret ym' /\
    songType ym' = ty /\ nbFrame ym' = sdiv (s32 (fileSize ym - 4)) 14 /\
    loopFrame ym' = loop /\ playerRate ym' = 50 /\ streamInc ym' = 14 /\
    pDataStream ym' = drop 4 (pBigMalloc ym) /\
    attrib ym' = Z.lor A_STREAMINTERLEAVED A_TIMECONTROL /\
    nbDrum ym' = 0 /\ pDrumTab ym' = pDrumTab ym /\
    ymChip ym' = SetClock ATARI_CLOCK (ymChip ym) /\
    (replayRate ym', innerSamplePos ym', bMusicOver ym', bLoop ym', currentFrame ym')
    = (replayRate ym, innerSamplePos ym, bMusicOver ym, bLoop ym, currentFrame ym).
Proof.
  intros Hlen. unfold decodeYm23. cbv zeta.
  match goal with
  | |- context [sliceFrom ?l 4] => change l with (pBigMalloc ym)
  end.
  rewrite sliceFrom_in_range by lia. exec_rw.
  eexists. split; [reflexivity|].
  repeat split; reflexivity.
Qed.


(** The YM2!, YM3! and YM3b cases of [ymDecode] return on a buffer whose
    length is the recorded file size, and so does [deInterleave] after them:
    the stream behind the tag holds [nbFrame] frames of 14 bytes. *)
Lemma decodeYm23_loads (ty loop : Z) (comment type : string) (ym : CYmMusic) :
  4 <= Z.of_nat (length (pBigMalloc ym)) < 2^31 ->
  fileSize ym = Z.of_nat (length (pBigMalloc ym)) ->
  exists ymD ymI,
    decodeYm23 ty loop comment type ym = Ret ymD /\
    deInterleave ymD = Ret ymI /\
    ymChip ymI = SetClock ATARI_CLOCK (ymChip ym).
Proof.
  intros Hlen Hsize.
  destruct (decodeYm23_returns ty loop comment type ym ltac:(lia))
    as (ymD & ED & _ & Hnb & _ & _ & Hinc & Hds & Hattr & _ & _ & Hchip & _).
  set (n := (Z.of_nat (length (pBigMalloc ym)) - 4) / 14).
  assert (Hn : nbFrame ymD = n).
  { rewrite Hnb, Hsize. rewrite s32_small by lia.
    unfold sdiv. apply Z.quot_div_nonneg; lia. }
  assert (Hn0 : 0 <= n) by (apply Z.div_pos; lia).
  assert (Hfit : n * 14 <= Z.of_nat (length (pBigMalloc ym)) - 4)
    by (unfold n; rewrite Z.mul_comm; apply Z.mul_div_le; lia).
  assert (Hsl : Z.of_nat (length (pDataStream ymD))
                = Z.of_nat (length (pBigMalloc ym)) - 4)
    by (rewrite Hds, length_drop; lia).
  destruct (deInterleave_spec ymD ltac:(lia) ltac:(lia)
              ltac:(rewrite Hn, Hinc, Hsl; exact Hfit)
              ltac:(rewrite Hattr; discriminate))
    as (tmp & EI & _).
  eexists ymD, _. split; [exact ED|]. split; [exact EI|]. exact Hchip.
Qed.

(** A decoded register stream becomes the loaded song when the chip has its
    three effect slots. *)
Lemma load_after_decode (vt : list Z) (ymI : CYmMusic) :
  length (specialEffect (ymChip ymI)) = 3%nat ->
  exists ym',
    (chip ← Reset vt (ymChip ymI);
     let ym := set_ymChip chip ymI in
     let ym := set_bMusicOk true ym in
     Ret (set_bPause false ym, @None LoadError)) = Ret (ym', None).
Proof.
  intros H. destruct (Reset_rndRack vt (ymChip ymI) H) as (chip & E & _).
  rewrite E. exec_rw. eexists. reflexivity.
Qed.

Ltac mus_all :=
  cbn [ymChip songType nbFrame loopFrame currentFrame nbDrum pDrumTab
       pBigMalloc pDataStream bLoop fileSize playerRate attrib bMusicOk
       bPause streamInc innerSamplePos replayRate bMusicOver pSongName
       pSongAuthor pSongComment pSongType pSongPlayer nbRepeat nbMixBlock
       pMixBlock mixPos pBigSampleBuffer pCurrentMixSample
       currentSampleLength currentPente currentPos nbTimeKey pTimeInfo
       musicLenInMs iMusicPosAccurateSample iMusicPosInMs nbVoice
       ymTrackerVoice ymTrackerNbSampleBefore ymTrackerVolumeTable
       ymTrackerFreqShift set_ymChip set_songType set_nbFrame
       set_loopFrame set_currentFrame set_nbDrum set_pDrumTab
       set_pBigMalloc set_pDataStream set_bLoop set_fileSize
       set_playerRate set_attrib set_bMusicOk set_bPause set_streamInc
       set_innerSamplePos set_replayRate set_bMusicOver set_pSongName
       set_pSongAuthor set_pSongComment set_pSongType set_pSongPlayer
       set_nbRepeat set_nbMixBlock set_pMixBlock set_mixPos
       set_pBigSampleBuffer set_pCurrentMixSample set_currentSampleLength
       set_currentPente set_currentPos set_nbTimeKey set_pTimeInfo
       set_musicLenInMs set_iMusicPosAccurateSample set_iMusicPosInMs
       set_nbVoice set_ymTrackerVoice set_ymTrackerNbSampleBefore
       set_ymTrackerVolumeTable set_ymTrackerFreqShift setPlayerRate
       setAttrib unLoad stop loadPrep SetLoopMode played].

(** *** The YM5!/YM6! header *)

Lemma low_bit (x : Z) : Z.land x 1 = x mod 2.
Proof.
  change (Z.land x 1) with (Z.land x (Z.ones 1)).
  rewrite Z.land_ones by lia. reflexivity.
Qed.

Lemma s32_mod2 (x : Z) : s32 x mod 2 = x mod 2.
Proof.
  unfold s32. rewrite (Z.mod_eq (x + 2^31) (2^32)) by lia.
  replace (x + 2^31 - 2^32 * ((x + 2^31) / 2^32) - 2^31)
    with (x + (- 2^31 * ((x + 2^31) / 2^32)) * 2) by lia.
  apply Z_mod_plus_full.
Qed.

Lemma lor8_mod2 (a : Z) : Z.lor a 8 mod 2 = a mod 2.
Proof.
  rewrite <- !Z.bit0_mod, Z.lor_spec.
  change (Z.testbit 8 0) with false. rewrite orb_false_r. reflexivity.
Qed.

Lemma land_not4_mod2 (a : Z) : Z.land a (Z.lnot 4) mod 2 = a mod 2.
Proof.
  rewrite <- !Z.bit0_mod, Z.land_spec.
  change (Z.testbit (Z.lnot 4) 0) with true. rewrite andb_true_r. reflexivity.
Qed.

Lemma shifted_bit0 (x k : Z) : 0 < k -> Z.testbit (u32 (Z.shiftl x k)) 0 = false.
Proof.
  intros Hk. unfold u32. rewrite Z.mod_pow2_bits_low by lia.
  apply Z.shiftl_spec_low. lia.
Qed.

Lemma be32_mod2 (a b c d : Z) : readBigEndian32 [a; b; c; d] mod 2 = d mod 2.
Proof.
  unfold readBigEndian32. cbn [length Nat.ltb Nat.leb].
  change (tab [a; b; c; d] 0) with a. change (tab [a; b; c; d] 1) with b.
  change (tab [a; b; c; d] 2) with c. change (tab [a; b; c; d] 3) with d.
  rewrite <- !Z.bit0_mod, !Z.lor_spec, !shifted_bit0 by lia. reflexivity.
Qed.

Ltac decode56_cases :=
  repeat (match goal with
          | |- context [match readMotorolaDword ?b with pair _ _ => _ end] =>
              destruct (readMotorolaDword b)
          | |- context [match readMotorolaWord ?b with pair _ _ => _ end] =>
              destruct (readMotorolaWord b)
          | |- context [nbDrum ?y >? 0] => destruct (nbDrum y >? 0)
          | |- context [match loadDrums ?a ?b ?c ?d with pair _ _ => _ end] =>
              destruct (loadDrums a b c d)
          | |- context [match readNtString ?b with pair _ _ => _ end] =>
              destruct (readNtString b)
          end; cbv beta iota).

(** The attribute a YM5!/YM6! header leaves has the interleave bit of the
    last byte of its attribute word. *)
Lemma decodeYm56_attrib (vt : list Z) (id n0 n1 n2 n3 a0 a1 a2 a3 : Z)
    (rest : list Z) (ym : CYmMusic) :
  attrib (decodeYm56 vt id (n0 :: n1 :: n2 :: n3 :: a0 :: a1 :: a2 :: a3 :: rest) ym)
    mod 2 = a3 mod 2.
Proof.
  unfold decodeYm56.
  change (readMotorolaDword (n0 :: n1 :: n2 :: n3 :: a0 :: a1 :: a2 :: a3 :: rest))
    with (readBigEndian32 [n0; n1; n2; n3], a0 :: a1 :: a2 :: a3 :: rest).
  cbv beta iota.
  change (readMotorolaDword (a0 :: a1 :: a2 :: a3 :: rest))
    with (readBigEndian32 [a0; a1; a2; a3], rest).
  cbv beta iota.
  decode56_cases; destruct (id =? e_YM6a); mus_all;
    change A_TIMECONTROL with 8; try change A_DRUM4BITS with 4;
    rewrite ?s32_mod2, ?land_not4_mod2, ?lor8_mod2, ?s32_mod2; apply be32_mod2.
Qed.

(** The header does not touch the effect slots of the chip. *)
Lemma decodeYm56_slots (vt : list Z) (id : Z) (buf : list Z) (ym : CYmMusic) :
  specialEffect (ymChip (decodeYm56 vt id buf ym)) = specialEffect (ymChip ym).
Proof.
  unfold decodeYm56. decode56_cases; destruct (id =? e_YM6a); reflexivity.
Qed.

Lemma header_shape (data : list Z) :
  (20 <= length data)%nat ->
  exists n0 n1 n2 n3 a0 a1 a2 rest,
    drop 12 data = n0 :: n1 :: n2 :: n3 :: a0 :: a1 :: a2 :: tab data 19 :: rest.
Proof.
  intros H.
  do 20 (destruct data as [|? data]; [cbn [length] in H; lia|]).
  do 8 eexists. reflexivity.
Qed.

Lemma deInterleave_plain (ym : CYmMusic) :
  Z.land (attrib ym) A_STREAMINTERLEAVED = 0 -> deInterleave ym = Ret ym.
Proof. intros H. unfold deInterleave. rewrite H. reflexivity. Qed.

(** C4 (amended): for an uncompressed buffer of at least 4 bytes,
    [loadMemory] fails with the unknown-format error exactly when the tag is
    none of YM2!, YM3!, YM3b, YM4!, YM5!, YM6! (so also for MIX1, YMT1 and
    YMT2), with the unsupported error when it is YM4!, and after either error
    no music is loaded.  For the five tags it decodes, every load that returns
    has identified the format: either the music is loaded with the song type
    of its tag (YM2! as 0, YM3! and YM3b as 1, YM5! as 3, YM6! as 4), or the
    tag is YM5! or YM6! and the load fails with the bad-signature error and no
    music loaded.  On a chip that has its three effect slots, a YM2!, YM3! or
    YM3b buffer shorter than 2^31 bytes always loads, and so does a YM5! or
    YM6! buffer of at least 20 bytes that has the signature and whose
    attribute word has the interleave bit clear. *)
Theorem C4_format_errors (vt : list Z) (ym : CYmMusic) (data : list Z) :
  (4 <= length data)%nat -> Lzh.IsLZHCompressed data = false ->
  let id := tagOf data in
  (~ loadableTag id -> id <> e_YM4a ->
   exists ym', loadMemory vt data ym
               = Ret (ym', Some (ErrUnknownFormat (take 4 data) id))
               /\ bMusicOk ym' = false) /\
  (id = e_YM4a ->
   exists ym', loadMemory vt data ym = Ret (ym', Some ErrYM4Unsupported)
               /\ bMusicOk ym' = false) /\
  (loadableTag id ->
   forall ym' e, loadMemory vt data ym = Ret (ym', e) ->
     (e = None /\ typeOfTag id = Some (songType ym') /\ bMusicOk ym' = true) \/
     (e = Some ErrNotValidYM /\ (id = e_YM5a \/ id = e_YM6a) /\
      bMusicOk ym' = false)) /\
  (id = e_YM2a \/ id = e_YM3a \/ id = e_YM3b ->
   Z.of_nat (length data) < 2^31 ->
   length (specialEffect (ymChip ym)) = 3%nat ->
   exists ym', loadMemory vt data ym = Ret (ym', None)) /\
  (id = e_YM5a \/ id = e_YM6a ->
   (20 <= length data)%nat -> take 8 (drop 4 data) = leonard ->
   Z.land (tab data 19) A_STREAMINTERLEAVED = 0 ->
   length (specialEffect (ymChip ym)) = 3%nat ->
   exists ym', loadMemory vt data ym = Ret (ym', None)).
Proof.
  intros Hlen Hplain id.
  rewrite (loadMemory_plain vt data ym Hplain).
  set (ym1 := set_pBigMalloc data (loadPrep data ym)).
  assert (Hbuf : pBigMalloc ym1 = data) by reflexivity.
  assert (Hnok : bMusicOk ym1 = false) by reflexivity.
  assert (Hfs : fileSize ym1 = s32 (Z.of_nat (length data))) by reflexivity.
  assert (Hchip : ymChip ym1 = ymChip ym) by reflexivity.
  clearbody ym1.
  assert (Hlen1 : (4 <= length (pBigMalloc ym1))%nat) by (rewrite Hbuf; exact Hlen).
  destruct (ymDecode_by_tag vt ym1 Hlen1) as (Hunk & H4 & Hok).
  rewrite Hbuf in Hunk, H4, Hok. fold id in Hunk, H4, Hok.
  split; [|split; [|split; [|split]]].
  - intros Hn Hn4. rewrite (Hunk Hn Hn4). exec_rw.
    eexists. split; [reflexivity|]. exact Hnok.
  - intros E. rewrite (H4 E). exec_rw.
    eexists. split; [reflexivity|]. exact Hnok.
  - intros Hl ym' e. destruct (ymDecode vt ym1) as [[y e0]| |] eqn:Ed; exec_rw;
      try discriminate.
    destruct (Hok Hl y e0 eq_refl) as [[-> Hty]|(-> & H56 & ->)].
    + destruct (Reset vt (ymChip y)) as [chip| |]; exec_rw; try discriminate.
      cbv zeta. intros H. injection H as <- <-. left.
      split; [reflexivity|]. split; [exact Hty|reflexivity].
    + intros H. injection H as <- <-. right.
      split; [reflexivity|]. split; [exact H56|exact Hnok].
  - intros Hid Hsz H3.
    assert (Hfs' : fileSize ym1 = Z.of_nat (length (pBigMalloc ym1)))
      by (rewrite Hfs, Hbuf; apply s32_small; lia).
    assert (Hl4 : 4 <= Z.of_nat (length (pBigMalloc ym1)) < 2^31)
      by (rewrite Hbuf; lia).
    assert (Htag : tagOf (pBigMalloc ym1) = id) by (rewrite Hbuf; reflexivity).
    unfold ymDecode. fold (tagOf (pBigMalloc ym1)). rewrite Htag.
    replace (length (pBigMalloc ym1) <? 4)%nat with false
      by (symmetry; apply Nat.ltb_ge; exact Hlen1).
    destruct Hid as [E|[E|E]]; rewrite E.
    + change (e_YM2a =? e_YM2a) with true. cbv iota.
      destruct (decodeYm23_loads YM_V2 0 "Converted by Leonard."%string
                  "YM 2"%string ym1 Hl4 Hfs') as (ymD & ymI & ED & EI & Hc).
      rewrite ED. exec_rw. rewrite EI. exec_rw.
      apply load_after_decode. rewrite Hc, Hchip. exact H3.
    + change (e_YM3a =? e_YM2a) with false.
      change (e_YM3a =? e_YM3a) with true. cbv iota.
      destruct (decodeYm23_loads YM_V3 0 EmptyString "YM 3"%string ym1 Hl4 Hfs')
        as (ymD & ymI & ED & EI & Hc).
      rewrite ED. exec_rw. rewrite EI. exec_rw.
      apply load_after_decode. rewrite Hc, Hchip. exact H3.
    + change (e_YM3b =? e_YM2a) with false.
      change (e_YM3b =? e_YM3a) with false.
      change (e_YM3b =? e_YM3b) with true. cbv iota.
      rewrite sliceFrom_in_range
        by (rewrite Hfs'; rewrite s32_small by lia; lia).
      exec_rw.
      destruct (decodeYm23_loads YM_V3
                  (readLittleEndian32
                     (drop (Z.to_nat (s32 (fileSize ym1 - 4))) (pBigMalloc ym1)))
                  EmptyString "YM 3b (loop)"%string ym1 Hl4 Hfs')
        as (ymD & ymI & ED & EI & Hc).
      rewrite ED. exec_rw. rewrite EI. exec_rw.
      apply load_after_decode. rewrite Hc, Hchip. exact H3.
  - intros Hid H20 Hsig Hbit H3.
    assert (Htag : tagOf (pBigMalloc ym1) = id) by (rewrite Hbuf; reflexivity).
    unfold ymDecode. fold (tagOf (pBigMalloc ym1)). rewrite Htag.
    replace (length (pBigMalloc ym1) <? 4)%nat with false
      by (symmetry; apply Nat.ltb_ge; exact Hlen1).
    assert (E2 : (id =? e_YM2a) = false)
      by (destruct Hid as [E|E]; rewrite E; reflexivity).
    assert (E3 : (id =? e_YM3a) = false)
      by (destruct Hid as [E|E]; rewrite E; reflexivity).
    assert (E3b : (id =? e_YM3b) = false)
      by (destruct Hid as [E|E]; rewrite E; reflexivity).
    assert (E56 : (id =? e_YM5a) || (id =? e_YM6a) = true)
      by (destruct Hid as [E|E]; rewrite E; reflexivity).
    rewrite E2, E3, E3b, E56.
    assert (Hs : slice (pBigMalloc ym1) 4 12 = Ret leonard).
    { unfold slice. rewrite Hbuf.
      destruct (Z.leb_spec 12 (Z.of_nat (length data))); [|lia].
      change (Z.to_nat (12 - 4)) with 8%nat. change (Z.to_nat 4) with 4%nat.
      rewrite Hsig. reflexivity. }
    rewrite Hs. exec_rw. change (Lzh.bytes_eqb leonard leonard) with true.
    cbn [negb].
    rewrite sliceFrom_in_range by (rewrite Hbuf; lia). exec_rw.
    rewrite Hbuf. change (Z.to_nat 12) with 12%nat.
    destruct (header_shape data H20)
      as (n0 & n1 & n2 & n3 & a0 & a1 & a2 & rest & Hshape).
    rewrite Hshape.
    set (ymD := decodeYm56 _ _ _ _).
    assert (Hattr : Z.land (attrib ymD) A_STREAMINTERLEAVED = 0).
    { change A_STREAMINTERLEAVED with 1. rewrite low_bit. unfold ymD.
      rewrite decodeYm56_attrib, <- low_bit. exact Hbit. }
    rewrite (deInterleave_plain ymD Hattr). exec_rw.
    apply load_after_decode. unfold ymD. rewrite decodeYm56_slots, Hchip.
    exact H3.
Qed.

Lemma ym3_twoFrames_plain :
  Lzh.IsLZHCompressed ([89; 77; 51; 33] ++ frame14 ++ frame14) = false.
Proof. vm_compute. reflexivity. Qed.

Lemma ym6_60Hz_plain : Lzh.IsLZHCompressed ym6_60Hz = false.
Proof. vm_compute. reflexivity. Qed.

(** C4 (witness): a YM3! file of two frames and the YM6! file [ym6_60Hz],
    loaded into a new player. *)
Lemma C4_format_errors_witness :
  (exists ym', loadMemory scaledTable ([89; 77; 51; 33] ++ frame14 ++ frame14)
                          newPlayer = Ret (ym', None) /\
               songType ym' = YM_V3 /\ bMusicOk ym' = true) /\
  (exists ym', loadMemory scaledTable ym6_60Hz newPlayer = Ret (ym', None) /\
               songType ym' = YM_V6 /\ bMusicOk ym' = true).
Proof.
  split.
  - destruct (C4_format_errors scaledTable newPlayer
                ([89; 77; 51; 33] ++ frame14 ++ frame14)
                ltac:(cbn [length app frame14]; lia) ym3_twoFrames_plain)
      as (_ & _ & Hty & Hload & _).
    destruct (Hload (or_intror (or_introl eq_refl))
                ltac:(cbn [length app frame14]; lia) eq_refl) as (ym' & E).
    exists ym'. split; [exact E|].
    destruct (Hty (or_intror (or_introl eq_refl)) ym' None E)
      as [(_ & Ht & Hk)|(H & _)]; [|discriminate].
    split; [|exact Hk]. injection Ht as <-. reflexivity.
  - assert (Hl4 : (4 <= length ym6_60Hz)%nat) by (vm_compute; lia).
    assert (Hl20 : (20 <= length ym6_60Hz)%nat) by (vm_compute; lia).
    assert (Hid : tagOf ym6_60Hz = e_YM6a) by (vm_compute; reflexivity).
    assert (Hsig : take 8 (drop 4 ym6_60Hz) = leonard) by (vm_compute; reflexivity).
    assert (Hbit : Z.land (tab ym6_60Hz 19) A_STREAMINTERLEAVED = 0)
      by (vm_compute; reflexivity).
    destruct (C4_format_errors scaledTable newPlayer ym6_60Hz Hl4 ym6_60Hz_plain)
      as (_ & _ & Hty & _ & Hload).
    destruct (Hload (or_intror Hid) Hl20 Hsig Hbit eq_refl) as (ym' & E).
    exists ym'. split; [exact E|].
    assert (Hlt : loadableTag (tagOf ym6_60Hz)).
    { unfold loadableTag. rewrite Hid. tauto. }
    destruct (Hty Hlt ym' None E) as [(_ & Ht & Hk)|(H & _)]; [|discriminate].
    split; [|exact Hk]. rewrite Hid in Ht. injection Ht as <-. reflexivity.
Defined.

(** C4 (counterexample): buffers tagged MIX1, YMT1 and YMT2, which
    [IsYMFile] accepts, are refused by [loadMemory] on a new player with the
    unknown-format error. *)
Lemma C4_counterexample :
  IsYMFile (tagged 77 73 88 49) = true /\
  loadOnNewPlayer (tagged 77 73 88 49)
  = Ret (Some (ErrUnknownFormat [77; 73; 88; 49] e_MIX1), false) /\
  IsYMFile (tagged 89 77 84 49) = true /\
  loadOnNewPlayer (tagged 89 77 84 49)
  = Ret (Some (ErrUnknownFormat [89; 77; 84; 49] e_YMT1), false) /\
  IsYMFile (tagged 89 77 84 50) = true /\
  loadOnNewPlayer (tagged 89 77 84 50)
  = Ret (Some (ErrUnknownFormat [89; 77; 84; 50] e_YMT2), false).
Proof.
  split; [vm_compute; reflexivity|].
  split; [vm_compute; reflexivity|].
  split; [vm_compute; reflexivity|].
  split; [vm_compute; reflexivity|].
  split; vm_compute; reflexivity.
Qed.

(** ** Further properties of the chip *)





Lemma chip44100_inv : chipInv chip44100.
Proof. apply (chipCheck_sound chip44100). vm_compute. reflexivity. Qed.


(** Every register write returns on a chip of the invariant and keeps the
    invariant, the effect slots and the replay rate; a register number outside
    0..13 changes nothing. *)
Theorem WriteRegister_keeps_invariant (vt : list Z) (r d : Z) (ym : CYm2149Ex) :
  chipInv ym ->
  exists ym',
    WriteRegister vt r d ym = Ret ym' /\ chipInv ym' /\
    specialEffect ym' = specialEffect ym /\
    replayFrequency ym' = replayFrequency ym /\
    (~ (0 <= r <= 13) -> ym' = ym).
Proof.
  intros Hinv.
  destruct (WriteRegister_returns vt r d ym Hinv) as (ym' & E & Hinv' & Hfx & Hrf).
  exists ym'. split; [exact E|]. split; [exact Hinv'|].
  split; [exact Hfx|]. split; [exact Hrf|].
  intros Hout. revert E.
  destruct r as [|p|p]; [lia| |intros E; injection E as <-; reflexivity].
  do 4 (try destruct p as [p|p|]); try lia;
    intros E; injection E as <-; reflexivity.
Qed.

Lemma WriteRegister_keeps_invariant_witness :
  exists ym',
    WriteRegister scaledTable 11 77 chip44100 = Ret ym' /\ chipInv ym' /\
    specialEffect ym' = specialEffect chip44100 /\
    replayFrequency ym' = replayFrequency chip44100 /\
    (~ (0 <= 11 <= 13) -> ym' = chip44100).
Proof.
  apply (WriteRegister_keeps_invariant scaledTable 11 77 chip44100).
  exact chip44100_inv.
Defined.

(** The noise and envelope steps: 0 below period 3, and otherwise the low 32
    bits of the clock, shifted by 12 resp. 23 bits, over period times rate,
    when the rate is small enough for the 32-bit product not to overflow. *)
Theorem noise_and_envelope_steps (ym : CYm2149Ex) (rNoise rHigh rLow : Z) :
  0 <= internalClock ym < 2^32 ->
  0 < replayFrequency ym -> 65535 * replayFrequency ym < 2^31 ->
  0 <= rHigh < 256 -> 0 <= rLow < 256 ->
  noiseStepCompute ym rNoise
  = Ret (if Z.land rNoise 31 <? 3 then 0
         else (Z.shiftl (internalClock ym) 12
               / (Z.land rNoise 31 * replayFrequency ym)) mod 2^32) /\
  envStepCompute ym rHigh rLow
  = Ret (if rHigh * 256 + rLow <? 3 then 0
         else (Z.shiftl (internalClock ym) 23
               / ((rHigh * 256 + rLow) * replayFrequency ym)) mod 2^32).
Proof.
  intros Hclk Hr Hr' Hh Hl.
  assert (Hstep : forall per k, 0 < per <= 65535 -> 0 <= k <= 28 ->
    (if s64 (s32 (per * replayFrequency ym)) =? 0 then Panic
     else Ret (u32 (s64 (sdiv (s64 (Z.shiftl (s64 (internalClock ym)) k))
                              (s64 (s32 (per * replayFrequency ym)))))))
    = Ret ((Z.shiftl (internalClock ym) k / (per * replayFrequency ym)) mod 2^32)).
  { intros per k Hper Hk.
    assert (Hd : 0 < per * replayFrequency ym < 2^31) by nia.
    rewrite (s32_small (per * replayFrequency ym)) by lia.
    rewrite (s64_small (per * replayFrequency ym)) by lia.
    destruct (Z.eqb_spec (per * replayFrequency ym) 0); [lia|].
    rewrite (s64_small (internalClock ym)) by lia.
    assert (Hs : 0 <= Z.shiftl (internalClock ym) k < 2^60).
    { rewrite Z.shiftl_mul_pow2 by lia.
      assert (0 < 2^k <= 2^28)
        by (split; [apply Z.pow_pos_nonneg; lia|apply Z.pow_le_mono_r; lia]).
      nia. }
    rewrite (s64_small (Z.shiftl (internalClock ym) k)) by lia.
    unfold sdiv. rewrite Z.quot_div_nonneg by lia.
    assert (Hq : 0 <= Z.shiftl (internalClock ym) k / (per * replayFrequency ym)
                 < 2^60).
    { split; [apply Z.div_pos; lia|apply Z.div_lt_upper_bound; nia]. }
    rewrite s64_small by lia. reflexivity. }
  split.
  - unfold noiseStepCompute. pose proof (land31 rNoise) as Hn.
    rewrite (s32_small (Z.land rNoise 31)) by lia.
    destruct (Z.ltb_spec (Z.land rNoise 31) 3); [reflexivity|].
    change (16 - 1 - 3) with 12. apply Hstep; lia.
  - unfold envStepCompute.
    rewrite (s32_small rHigh) by lia. rewrite (s32_small rLow) by lia.
    rewrite Z.shiftl_mul_pow2 by lia. change (2^8) with 256.
    rewrite (s32_small (rHigh * 256 + rLow)) by lia.
    destruct (Z.ltb_spec (rHigh * 256 + rLow) 3); [reflexivity|].
    change (16 + 16 - 9) with 23. apply Hstep; lia.
Qed.

Lemma noise_and_envelope_steps_witness :
  noiseStepCompute chip8000 7
  = Ret (if Z.land 7 31 <? 3 then 0
         else (Z.shiftl (internalClock chip8000) 12
               / (Z.land 7 31 * replayFrequency chip8000)) mod 2^32) /\
  envStepCompute chip8000 1 44
  = Ret (if 1 * 256 + 44 <? 3 then 0
         else (Z.shiftl (internalClock chip8000) 23
               / ((1 * 256 + 44) * replayFrequency chip8000)) mod 2^32).
Proof.
  apply (noise_and_envelope_steps chip8000 7 1 44).
  - vm_compute. split; [discriminate|reflexivity].
  - vm_compute. reflexivity.
  - vm_compute. reflexivity.
  - lia.
  - lia.
Defined.

(** [SidStart] on voice 0, 1 or 2 turns the SID of that slot on with the step
    the 32-bit product leaves and the volume masked to 4 bits, and touches
    nothing else of the slot and no other slot. *)
Theorem SidStart_sets_slot (voice f vol : Z) (ym : CYm2149Ex)
    (fx : YmSpecialEffect) :
  0 <= voice -> specialEffect ym !! Z.to_nat voice = Some fx ->
  0 < replayFrequency ym < 2^31 ->
  SidStart voice f vol ym
  = Ret (set_specialEffect
           (<[Z.to_nat voice :=
                set_Sid true
                  (set_SidVol (Z.land vol 15)
                     (set_SidStep ((f mod 2) * 2^31 / replayFrequency ym) fx))]>
              (specialEffect ym)) ym).
Proof.
  intros Hv Hfx Hr. unfold SidStart. rewrite timerStep_spec by exact Hr. exec_rw.
  pose proof (lookup_lt_Some _ _ _ Hfx) as Hl.
  rewrite (withEffect_eq voice _ ym fx Hv Hfx). exec_rw.
  rewrite (withEffect_eq voice _ _ (set_SidStep ((f mod 2) * 2^31 / replayFrequency ym) fx) Hv)
    by (chip_proj; apply list_lookup_insert_eq; exact Hl).
  exec_rw. chip_proj. rewrite list_insert_insert_eq.
  rewrite (withEffect_eq voice _ _
             (set_SidVol (Z.land vol 15)
                (set_SidStep ((f mod 2) * 2^31 / replayFrequency ym) fx)) Hv)
    by (chip_proj; apply list_lookup_insert_eq; exact Hl).
  chip_proj. rewrite list_insert_insert_eq.
  destruct ym. reflexivity.
Qed.

Lemma SidStart_sets_slot_witness :
  SidStart 1 5 255 chip44100
  = Ret (set_specialEffect
           (<[Z.to_nat 1 :=
                set_Sid true
                  (set_SidVol (Z.land 255 15)
                     (set_SidStep ((5 mod 2) * 2^31 / replayFrequency chip44100)
                                  emptyEffect))]>
              (specialEffect chip44100)) chip44100).
Proof.
  apply (SidStart_sets_slot 1 5 255 chip44100 emptyEffect).
  - lia.
  - vm_compute. reflexivity.
  - vm_compute. split; reflexivity.
Defined.

(** [Reset] on a chip with its three effect slots: every register reads 0
    except the mixer, which reads 255 (everything off); the three tone
    generators are pinned, the noise generator and the envelope are at their
    start, no effect runs, and the clock, the replay rate and the filter switch
    are kept. *)
Theorem Reset_state (vt : list Z) (ym : CYm2149Ex) :
  length (specialEffect ym) = 3%nat ->
  exists ym',
    Reset vt ym = Ret ym' /\
    registers ym' = [0; 0; 0; 0; 0; 0; 0; 255; 0; 0; 0; 0; 0; 0] /\
    (forall v, 0 <= v <= 2 -> toneStep ym' v = 0 /\ tonePos ym' v = 2^31 /\
                             pVolOf ym' v = PtrVol /\ volOf ym' v = tab vt 0 /\
                             mixerTOf ym' v = 65535 /\ mixerNOf ym' v = 65535) /\
    (noiseStep ym', noisePos ym', currentNoise ym', rndRack ym') = (0, 0, 65535, 1) /\
    (envStep ym', envPos ym', envPhase ym', envShape ym') = (0, 0, 0, 0) /\
    specialEffect ym' = repeat emptyEffect 3 /\
    (bSyncBuzzer ym', syncBuzzerStep ym', syncBuzzerPhase ym') = (false, 0, 0) /\
    lowPassFilter ym' = (0, 0) /\ dcAdjust ym' = NewDcAdjuster /\
    (internalClock ym', replayFrequency ym', bFilter ym')
    = (internalClock ym, replayFrequency ym, bFilter ym).
Proof.
  intros Hlen. destruct ym. cbn [specialEffect] in Hlen.
  destruct specialEffect0 as [|e0 [|e1 [|e2 [|? ?]]]]; try discriminate.
  eexists. split; [vm_compute; reflexivity|].
  split; [reflexivity|]. split.
  { intros v Hv. apply voice_cases in Hv as [-> | [-> | ->]];
      repeat split; reflexivity. }
  repeat split; reflexivity.
Qed.

Lemma Reset_state_witness :
  exists ym',
    Reset scaledTable noisyChip = Ret ym' /\
    registers ym' = [0; 0; 0; 0; 0; 0; 0; 255; 0; 0; 0; 0; 0; 0] /\
    (forall v, 0 <= v <= 2 -> toneStep ym' v = 0 /\ tonePos ym' v = 2^31 /\
                             pVolOf ym' v = PtrVol /\ volOf ym' v = tab scaledTable 0 /\
                             mixerTOf ym' v = 65535 /\ mixerNOf ym' v = 65535) /\
    (noiseStep ym', noisePos ym', currentNoise ym', rndRack ym') = (0, 0, 65535, 1) /\
    (envStep ym', envPos ym', envPhase ym', envShape ym') = (0, 0, 0, 0) /\
    specialEffect ym' = repeat emptyEffect 3 /\
    (bSyncBuzzer ym', syncBuzzerStep ym', syncBuzzerPhase ym') = (false, 0, 0) /\
    lowPassFilter ym' = (0, 0) /\ dcAdjust ym' = NewDcAdjuster /\
    (internalClock ym', replayFrequency ym', bFilter ym')
    = (internalClock noisyChip, replayFrequency noisyChip, bFilter noisyChip).
Proof.
  apply (Reset_state scaledTable noisyChip). vm_compute. reflexivity.
Defined.

Lemma s16_range (x : Z) : - 32768 <= s16 x < 32768.
Proof.
  unfold s16. pose proof (Z.mod_pos_bound (x + 2^15) (2^16) ltac:(lia)). lia.
Qed.

Lemma sampleBack_int16 (vol : Z) (ym ym' : CYm2149Ex) (s : Z) :
  sampleBack vol ym = Ret (ym', s) -> - 32768 <= s < 32768.
Proof.
  unfold sampleBack. cbv zeta.
  repeat (match goal with
          | |- context [withEffect ?v ?f ?y] => destruct (withEffect v f y)
          end; exec_rw; try discriminate).
  match goal with |- context [if bFilter ?y then _ else _] => destruct (bFilter y) end.
  - unfold LowPassFilter.
    match goal with |- context [lowPassFilter ?y] => destruct (lowPassFilter y) end.
    intros H. injection H as _ <-. apply s16_range.
  - intros H. injection H as _ <-. apply s16_range.
Qed.

(** [nextSample] returns a 16-bit sample on a chip of the invariant, and keeps
    the invariant and the replay rate. *)
Theorem nextSample_returns_int16 (vt : list Z) (ym : CYm2149Ex) :
  chipInv ym ->
  exists ym' s,
    nextSample vt ym = Ret (ym', s) /\ - 32768 <= s < 32768 /\
    chipInv ym' /\ replayFrequency ym' = replayFrequency ym.
Proof.
  intros (Hfx & Hb & Hr).
  destruct (nextSample_spec vt ym Hfx) as (ym' & s & E & Hfx' & [F1 F2] & _).
  exists ym', s. split; [exact E|].
  split.
  - unfold nextSample in E.
    destruct (sampleFront vt ym) as [f| |];
      rewrite ?bind_Ret, ?bind_Panic, ?bind_OutOfFuel in E; try discriminate.
    exact (sampleBack_int16 _ _ _ _ E).
  - split; [split; [exact Hfx'|split; [auto|lia]]|exact F1].
Qed.

Lemma nextSample_returns_int16_witness :
  exists ym' s,
    nextSample scaledTable noisyChip = Ret (ym', s) /\ - 32768 <= s < 32768 /\
    chipInv ym' /\ replayFrequency ym' = replayFrequency noisyChip.
Proof.
  apply (nextSample_returns_int16 scaledTable noisyChip).
  apply chipCheck_sound. vm_compute. reflexivity.
Defined.

Lemma lxor_bits (a b : Z) :
  0 <= a < 2 -> 0 <= b < 2 -> Z.lxor a b = (a + b) mod 2.
Proof.
  intros Ha Hb.
  assert (Ha' : a = 0 \/ a = 1) by lia. assert (Hb' : b = 0 \/ b = 1) by lia.
  destruct Ha' as [-> | ->], Hb' as [-> | ->]; reflexivity.
Qed.

Lemma low16_no_bit16 (x : Z) : 0 <= x < 2^16 -> Z.land x (2^16) = 0.
Proof.
  intros H. rewrite <- (Z.mod_small x (2^16)) by lia.
  rewrite <- Z.land_ones by lia. rewrite <- Z.land_assoc. apply Z.land_0_r.
Qed.

(** The noise register is a 17-bit shift register that never reaches 0: a step
    shifts it right and feeds bit 0 xor bit 2 in at bit 16; the mask returned
    is 0 or 0xffff, and nothing else of the chip changes. *)
Theorem rndCompute_lfsr (ym : CYm2149Ex) :
  0 < rndRack ym < 2^17 ->
  let bit := (rndRack ym + rndRack ym / 4) mod 2 in
  fst (rndCompute ym) = set_rndRack (rndRack ym / 2 + bit * 2^16) ym /\
  0 < rndRack (fst (rndCompute ym)) < 2^17 /\
  snd (rndCompute ym) = (if bit =? 0 then 65535 else 0).
Proof.
  intros Hr bit. unfold rndCompute. cbv zeta.
  assert (Hbit : Z.lxor (Z.land (rndRack ym) 1) (Z.land (Z.shiftr (rndRack ym) 2) 1)
                 = bit).
  { change 1 with (Z.ones 1). rewrite !Z.land_ones by lia.
    rewrite Z.shiftr_div_pow2 by lia. change (2^1) with 2. change (2^2) with 4.
    rewrite lxor_bits by (apply Z.mod_pos_bound; lia).
    unfold bit. rewrite <- Z.add_mod by lia. reflexivity. }
  rewrite Hbit.
  assert (Hb : bit = 0 \/ bit = 1)
    by (unfold bit; pose proof (Z.mod_pos_bound (rndRack ym + rndRack ym / 4) 2); lia).
  assert (Hnew : u32 (Z.lor (Z.shiftr (rndRack ym) 1) (u32 (Z.shiftl bit 16)))
                 = rndRack ym / 2 + bit * 2^16).
  { rewrite Z.shiftr_div_pow2 by lia. change (2^1) with 2.
    rewrite Z.shiftl_mul_pow2 by lia.
    assert (Hh : 0 <= rndRack ym / 2 < 2^16)
      by (split; [apply Z.div_pos; lia|apply Z.div_lt_upper_bound; lia]).
    rewrite (u32_small (bit * 2^16)) by lia.
    destruct Hb as [-> | ->].
    - rewrite Z.mul_0_l, Z.lor_0_r, Z.add_0_r. apply u32_small. lia.
    - rewrite Z.mul_1_l.
      pose proof (Z.add_lor_land (rndRack ym / 2) (2^16)) as Hadd.
      rewrite low16_no_bit16 in Hadd by lia.
      rewrite <- Hadd, Z.add_0_r. apply u32_small. lia. }
  rewrite Hnew.
  assert (Hpos : 0 < rndRack ym / 2 + bit * 2^16 < 2^17).
  { assert (Hh : 0 <= rndRack ym / 2 < 2^16)
      by (split; [apply Z.div_pos; lia|apply Z.div_lt_upper_bound; lia]).
    destruct Hb as [Hb | Hb]; [|lia].
    assert (rndRack ym <> 1).
    { intros E. unfold bit in Hb. rewrite E in Hb. vm_compute in Hb. discriminate. }
    assert (1 <= rndRack ym / 2) by (apply Z.div_le_lower_bound; lia). lia. }
  destruct Hb as [Hb | Hb]; rewrite Hb in *; cbn [negb Z.eqb fst snd];
    (split; [reflexivity|split; [exact Hpos|reflexivity]]).
Qed.

Lemma rndCompute_lfsr_witness :
  let bit := (rndRack chip44100 + rndRack chip44100 / 4) mod 2 in
  fst (rndCompute chip44100)
  = set_rndRack (rndRack chip44100 / 2 + bit * 2^16) chip44100 /\
  0 < rndRack (fst (rndCompute chip44100)) < 2^17 /\
  snd (rndCompute chip44100) = (if bit =? 0 then 65535 else 0).
Proof.
  apply (rndCompute_lfsr chip44100). vm_compute. split; reflexivity.
Defined.




Lemma sumZ_insert (l : list Z) (i : nat) (x : Z) :
  (i < length l)%nat -> sumZ (<[i := x]> l) = sumZ l - nth i l 0 + x.
Proof.
  revert i. induction l as [|a l IH]; intros i Hi; [cbn in Hi; lia|].
  destruct i as [|i]; cbn [insert list_insert sumZ foldr nth].
  - change (foldr Z.add 0 l) with (sumZ l). lia.
  - change (foldr Z.add 0 (<[i := x]> l)) with (sumZ (<[i := x]> l)).
    change (foldr Z.add 0 l) with (sumZ l).
    rewrite IH by (cbn [length] in Hi; lia). lia.
Qed.

Lemma sumZ_bound (l : list Z) (b : Z) :
  Forall (fun x => - b <= x <= b) l ->
  - (Z.of_nat (length l) * b) <= sumZ l <= Z.of_nat (length l) * b.
Proof.
  induction 1 as [|a l Ha _ IH]; cbn [sumZ foldr length]; [lia|].
  change (foldr Z.add 0 l) with (sumZ l). lia.
Qed.

(** The DC adjuster keeps the sum of its window of the last 512 samples: for
    samples of magnitude at most 2^21 the 32-bit sum never wraps, the position
    advances modulo 512, and the level returned is the truncated mean, of
    magnitude at most 2^21 again. *)
Theorem AddSample_keeps_window_sum (sample : Z) (d : DcAdjuster) :
  dc_ok d -> - 2^21 <= sample <= 2^21 ->
  dc_ok (AddSample sample d) /\
  dc_buffer (AddSample sample d) = <[Z.to_nat (dc_pos d) := sample]> (dc_buffer d) /\
  dc_pos (AddSample sample d) = (dc_pos d + 1) mod 512 /\
  GetDcLevel (AddSample sample d) = Z.quot (sumZ (dc_buffer (AddSample sample d))) 512 /\
  - 2^21 <= GetDcLevel (AddSample sample d) <= 2^21.
Proof.
  intros (Hlen & Hpos & Hb & Hsum) Hs.
  pose proof (sumZ_bound _ _ Hb) as Hbound. rewrite Hlen in Hbound.
  assert (Hold : - 2^21 <= tab (dc_buffer d) (dc_pos d) <= 2^21).
  { unfold tab. rewrite nth_lookup.
    destruct (dc_buffer d !! Z.to_nat (dc_pos d)) as [x|] eqn:E; cbn; [|lia].
    exact (Forall_lookup_1 _ _ _ _ Hb E). }
  assert (Hnew : dc_sum (AddSample sample d)
                 = sumZ (<[Z.to_nat (dc_pos d) := sample]> (dc_buffer d))).
  { unfold AddSample. cbn [dc_sum]. rewrite Hsum.
    rewrite (s32_small (sumZ (dc_buffer d) - tab (dc_buffer d) (dc_pos d))) by lia.
    rewrite s32_small by lia.
    rewrite sumZ_insert by lia. unfold tab. reflexivity. }
  assert (Hb' : Forall (fun x => - 2^21 <= x <= 2^21)
                  (<[Z.to_nat (dc_pos d) := sample]> (dc_buffer d)))
    by (apply Forall_insert; assumption).
  pose proof (sumZ_bound _ _ Hb') as Hbound'.
  rewrite length_insert, Hlen in Hbound'.
  assert (Hp : dc_pos (AddSample sample d) = (dc_pos d + 1) mod 512).
  { unfold AddSample. cbn [dc_pos].
    change (DC_ADJUST_BUFFERLEN - 1) with (Z.ones 9). apply Z.land_ones. lia. }
  split; [|split; [reflexivity|split; [exact Hp|]]].
  - split; [unfold AddSample; cbn [dc_buffer]; rewrite length_insert; exact Hlen|].
    split; [rewrite Hp; apply Z.mod_pos_bound; lia|].
    split; [exact Hb'|exact Hnew].
  - unfold GetDcLevel, sdiv. rewrite Hnew.
    change (dc_buffer (AddSample sample d))
      with (<[Z.to_nat (dc_pos d) := sample]> (dc_buffer d)).
    change DC_ADJUST_BUFFERLEN with 512.
    split; [reflexivity|].
    set (t := sumZ (<[Z.to_nat (dc_pos d) := sample]> (dc_buffer d))) in *.
    assert (Ht : - (512 * 2^21) <= t <= 512 * 2^21) by lia.
    clearbody t.
    pose proof (Z.quot_rem' t 512) as Hq.
    pose proof (Z.rem_bound_abs t 512 ltac:(lia)) as Hr.
    lia.
Qed.

Lemma NewDcAdjuster_ok : dc_ok NewDcAdjuster.
Proof.
  split; [reflexivity|]. split; [split; [discriminate|reflexivity]|].
  split; [|vm_compute; reflexivity].
  apply Forall_forall. intros x Hin.
  apply repeat_spec in Hin. subst x. lia.
Qed.

Lemma AddSample_keeps_window_sum_witness :
  dc_ok (AddSample 30000 NewDcAdjuster) /\
  dc_buffer (AddSample 30000 NewDcAdjuster)
  = <[Z.to_nat (dc_pos NewDcAdjuster) := 30000]> (dc_buffer NewDcAdjuster) /\
  dc_pos (AddSample 30000 NewDcAdjuster) = (dc_pos NewDcAdjuster + 1) mod 512 /\
  GetDcLevel (AddSample 30000 NewDcAdjuster)
  = Z.quot (sumZ (dc_buffer (AddSample 30000 NewDcAdjuster))) 512 /\
  - 2^21 <= GetDcLevel (AddSample 30000 NewDcAdjuster) <= 2^21.
Proof.
  apply (AddSample_keeps_window_sum 30000 NewDcAdjuster).
  - exact NewDcAdjuster_ok.
  - lia.
Defined.

(** The envelope table holds volume levels: whatever shape, phase and position
    [nextSample] looks up, the entry is between 0 and 15, an index of the
    volume table. *)
Theorem envelope_level_in_range (shape phase pos : Z) :
  0 <= envDataAt shape phase pos <= 15.
Proof.
  assert (H : forallb (forallb (forallb (fun v => (0 <=? v) && (v <=? 15)))) envData
              = true) by (vm_compute; reflexivity).
  unfold envDataAt, tab. rewrite !nth_lookup.
  destruct (envData !! Z.to_nat shape) as [t|] eqn:E1; cbn [from_option id];
    [|rewrite lookup_nil; cbn; rewrite lookup_nil; cbn; lia].
  rewrite forallb_forall in H.
  pose proof (H t (proj1 (list_elem_of_In _ _) (list_elem_of_lookup_2 _ _ _ E1))) as H1.
  destruct (t !! Z.to_nat phase) as [row|] eqn:E2; cbn [from_option id];
    [|rewrite lookup_nil; cbn; lia].
  rewrite forallb_forall in H1.
  pose proof (H1 row (proj1 (list_elem_of_In _ _) (list_elem_of_lookup_2 _ _ _ E2))) as H2.
  destruct (row !! Z.to_nat pos) as [v|] eqn:E3; cbn [from_option id]; [|lia].
  rewrite forallb_forall in H2.
  pose proof (H2 v (proj1 (list_elem_of_In _ _) (list_elem_of_lookup_2 _ _ _ E3))) as H3.
  apply andb_true_iff in H3 as [A B]. apply Z.leb_le in A, B. lia.
Qed.

(** ** Further properties of the player *)

(** [player] returns on a song of the invariant; it changes the chip, the
    current frame and the over-flag and nothing else, and the song keeps its
    invariant. *)
Theorem player_changes_only_playback (sa : list (list Z)) (sl : list Z)
    (vt : list Z) (ym : CYmMusic) :
  songInv ym ->
  exists chip frame over,
    player sa sl vt ym = Ret (played chip frame over (innerSamplePos ym) ym) /\
    chipInv chip /\ songInv (played chip frame over (innerSamplePos ym) ym).
Proof.
  intros Hinv.
  destruct (player_returns sa sl vt ym Hinv) as (c & f & o & E & Hc).
  exists c, f, o. split; [exact E|]. split; [exact Hc|].
  apply songInv_played; assumption.
Qed.

Lemma player_changes_only_playback_witness :
  exists chip frame over,
    player noSamples noSampleLen scaledTable (playedFor ym6_50Hz 882)
    = Ret (played chip frame over (innerSamplePos (playedFor ym6_50Hz 882))
                  (playedFor ym6_50Hz 882)) /\
    chipInv chip /\
    songInv (played chip frame over (innerSamplePos (playedFor ym6_50Hz 882))
                    (playedFor ym6_50Hz 882)).
Proof.
  apply (player_changes_only_playback noSamples noSampleLen scaledTable
           (playedFor ym6_50Hz 882)).
  apply (playCheck_sound (playedFor ym6_50Hz 882)). vm_compute. reflexivity.
Defined.

(** At the end of the song with looping off, [player] sets the over-flag,
    resets the chip, and leaves the current frame where it is. *)
Theorem player_ends_song (sa : list (list Z)) (sl : list Z) (vt : list Z)
    (ym : CYmMusic) :
  0 <= currentFrame ym -> nbFrame ym <= currentFrame ym -> bLoop ym = false ->
  length (specialEffect (ymChip ym)) = 3%nat ->
  exists chip,
    Reset vt (ymChip ym) = Ret chip /\
    player sa sl vt ym = Ret (set_ymChip chip (set_bMusicOver true ym)).
Proof.
  intros H0 Hend Hloop Hlen.
  destruct (Reset_rndRack vt (ymChip ym) Hlen) as (chip & E & _).
  exists chip. split; [exact E|]. unfold player.
  destruct (Z.ltb_spec (currentFrame ym) 0); [lia|]. cbv zeta.
  destruct (Z.leb_spec (nbFrame ym) (currentFrame ym)); [|lia].
  rewrite Hloop.
  change (ymChip (set_bMusicOver true ym)) with (ymChip ym).
  rewrite E. reflexivity.
Qed.

Lemma player_ends_song_witness :
  exists chip,
    Reset scaledTable (ymChip (playedFor ym3_oneFrame 882)) = Ret chip /\
    player noSamples noSampleLen scaledTable (playedFor ym3_oneFrame 882)
    = Ret (set_ymChip chip (set_bMusicOver true (playedFor ym3_oneFrame 882))).
Proof.
  apply (player_ends_song noSamples noSampleLen scaledTable
           (playedFor ym3_oneFrame 882)).
  - vm_compute. discriminate.
  - vm_compute. discriminate.
  - vm_compute. reflexivity.
  - vm_compute. reflexivity.
Defined.

Lemma register_song_not_mix (ym : CYmMusic) :
  YM_V2 <= songType ym < YM_VMAX ->
  (YM_MIX1 <=? songType ym) && (songType ym <? YM_MIXMAX) = false.
Proof.
  intros H. apply andb_false_iff. left. apply Z.leb_gt.
  unfold YM_MIX1, YM_VMAX in *. lia.
Qed.

Lemma GetMusicTime_register (ym : CYmMusic) :
  YM_V2 <= songType ym < YM_VMAX -> 0 <= nbFrame ym -> nbFrame ym * 1000 < 2^32 ->
  playerRate ym < 2^32 ->
  GetMusicTime ym
  = if (nbFrame ym >? 0) && (playerRate ym >? 0)
    then nbFrame ym * 1000 / playerRate ym else 0.
Proof.
  intros Hty Hn Hn' Hr. unfold GetMusicTime. rewrite register_song_not_mix by exact Hty.
  destruct (Z.gtb_spec (nbFrame ym) 0); [|reflexivity].
  destruct (Z.gtb_spec (playerRate ym) 0); [|reflexivity]. cbn [andb].
  rewrite (u32_small (nbFrame ym)) by lia.
  rewrite (u32_small (nbFrame ym * 1000)) by lia.
  rewrite (u32_small (playerRate ym)) by lia. reflexivity.
Qed.

Lemma SetMusicTime_register (time : Z) (ym : CYmMusic) :
  IsSeekable ym = true -> YM_V2 <= songType ym < YM_VMAX ->
  SetMusicTime time ym
  = Ret (set_currentFrame
           (u32 ((if GetMusicTime ym <=? time then 0 else time)
                 * u32 (playerRate ym)) / 1000) ym,
         if GetMusicTime ym <=? time then 0 else time).
Proof.
  intros Hs Hty. unfold SetMusicTime. rewrite Hs. cbn [negb]. cbv zeta.
  replace ((YM_V2 <=? songType ym) && (songType ym <? YM_VMAX)) with true
    by (symmetry; apply andb_true_iff; split; [apply Z.leb_le|apply Z.ltb_lt]; lia).
  reflexivity.
Qed.

(** Seeking in a register-stream song never lands outside it: a time at or
    behind the end rewinds to frame 0 and time 0, and any other time selects
    the frame [time * player_rate / 1000], which is below the number of
    frames. *)
Theorem SetMusicTime_lands_inside (time : Z) (ym : CYmMusic) :
  IsSeekable ym = true -> YM_V2 <= songType ym < YM_VMAX ->
  0 <= time < 2^32 -> 0 <= nbFrame ym -> nbFrame ym * 1000 < 2^32 ->
  playerRate ym < 2^32 ->
  (GetMusicTime ym <= time -> SetMusicTime time ym = Ret (set_currentFrame 0 ym, 0)) /\
  (time < GetMusicTime ym ->
   SetMusicTime time ym
   = Ret (set_currentFrame (time * playerRate ym / 1000) ym, time) /\
   0 <= time * playerRate ym / 1000 < nbFrame ym).
Proof.
  intros Hs Hty Ht Hn Hn' Hr.
  rewrite (SetMusicTime_register time ym Hs Hty).
  split; intros Hcmp.
  - destruct (Z.leb_spec (GetMusicTime ym) time); [|lia]. reflexivity.
  - destruct (Z.leb_spec (GetMusicTime ym) time); [lia|].
    rewrite (GetMusicTime_register ym Hty Hn Hn' Hr) in Hcmp.
    destruct (Z.gtb_spec (nbFrame ym) 0); [|cbn [andb] in Hcmp; lia].
    destruct (Z.gtb_spec (playerRate ym) 0); [|cbn [andb] in Hcmp; lia].
    cbn [andb] in Hcmp.
    assert (Hq : time * playerRate ym < nbFrame ym * 1000).
    { pose proof (Z.mul_div_le (nbFrame ym * 1000) (playerRate ym) ltac:(lia)).
      nia. }
    rewrite (u32_small (playerRate ym)) by lia.
    rewrite (u32_small (time * playerRate ym)) by nia.
    split; [reflexivity|].
    split; [apply Z.div_pos; nia|apply Z.div_lt_upper_bound; lia].
Qed.

Lemma SetMusicTime_lands_inside_witness :
  (GetMusicTime (playedFor ym6_60Hz 0) <= 16 ->
   SetMusicTime 16 (playedFor ym6_60Hz 0)
   = Ret (set_currentFrame 0 (playedFor ym6_60Hz 0), 0)) /\
  (16 < GetMusicTime (playedFor ym6_60Hz 0) ->
   SetMusicTime 16 (playedFor ym6_60Hz 0)
   = Ret (set_currentFrame (16 * playerRate (playedFor ym6_60Hz 0) / 1000)
                           (playedFor ym6_60Hz 0), 16) /\
   0 <= 16 * playerRate (playedFor ym6_60Hz 0) / 1000
     < nbFrame (playedFor ym6_60Hz 0)).
Proof.
  apply (SetMusicTime_lands_inside 16 (playedFor ym6_60Hz 0)).
  - vm_compute. reflexivity.
  - split; vm_compute; [discriminate|reflexivity].
  - lia.
  - vm_compute. discriminate.
  - vm_compute. reflexivity.
  - vm_compute. reflexivity.
Defined.



(** [Restart] clears the over-flag; it rewinds a register-stream song to frame
    0 only when the song is seekable. *)
Theorem Restart_rewinds (ym : CYmMusic) :
  YM_V2 <= songType ym < YM_VMAX ->
  Restart ym
  = Ret (set_bMusicOver false
           (if IsSeekable ym then set_currentFrame 0 ym else ym)).
Proof.
  intros Hty. unfold Restart.
  destruct (IsSeekable ym) eqn:Hs.
  - rewrite (SetMusicTime_register 0 ym Hs Hty). exec_rw.
    destruct (GetMusicTime ym <=? 0); reflexivity.
  - unfold SetMusicTime. rewrite Hs. reflexivity.
Qed.

Lemma Restart_rewinds_witness :
  Restart (playedFor ym6_60Hz 735)
  = Ret (set_bMusicOver false
           (if IsSeekable (playedFor ym6_60Hz 735)
            then set_currentFrame 0 (playedFor ym6_60Hz 735)
            else playedFor ym6_60Hz 735)).
Proof.
  apply (Restart_rewinds (playedFor ym6_60Hz 735)).
  split; vm_compute; [discriminate|reflexivity].
Defined.

(** ** Further properties of the loader *)

(** [deInterleave] on an interleaved stream of [nbFrame * streamInc] bytes
    returns, clears the interleaved attribute, and leaves a frame-major stream
    of that length: byte [v] of frame [f] is byte [f] of register [v] of the
    source.  Without the attribute it leaves the song as it is. *)
Theorem deInterleave_layout (ym : CYmMusic) :
  0 <= nbFrame ym -> 0 < streamInc ym ->
  nbFrame ym * streamInc ym <= Z.of_nat (length (pDataStream ym)) ->
  (Z.land (attrib ym) A_STREAMINTERLEAVED = 0 -> deInterleave ym = Ret ym) /\
  (Z.land (attrib ym) A_STREAMINTERLEAVED <> 0 ->
   exists tmp,
     deInterleave ym
     = Ret (set_attrib (s32 (Z.land (attrib ym) (Z.lnot A_STREAMINTERLEAVED)))
              (set_pDataStream tmp (set_pBigMalloc tmp ym))) /\
     Z.of_nat (length tmp) = nbFrame ym * streamInc ym /\
     forall f v, 0 <= f < nbFrame ym -> 0 <= v < streamInc ym ->
       tmp !! Z.to_nat (f * streamInc ym + v)
       = pDataStream ym !! Z.to_nat (v * nbFrame ym + f)).
Proof.
  intros Hn Hinc Hlen. split.
  - intros H. unfold deInterleave. rewrite H. reflexivity.
  - intros H. exact (deInterleave_spec ym Hn Hinc Hlen H).
Qed.

Lemma deInterleave_layout_witness :
  let ym := set_pDataStream [10; 11; 12; 20; 21; 22]
              (set_nbFrame 3 (set_streamInc 2 (set_attrib 9 zeroMusic))) in
  (Z.land (attrib ym) A_STREAMINTERLEAVED = 0 -> deInterleave ym = Ret ym) /\
  (Z.land (attrib ym) A_STREAMINTERLEAVED <> 0 ->
   exists tmp,
     deInterleave ym
     = Ret (set_attrib (s32 (Z.land (attrib ym) (Z.lnot A_STREAMINTERLEAVED)))
              (set_pDataStream tmp (set_pBigMalloc tmp ym))) /\
     Z.of_nat (length tmp) = nbFrame ym * streamInc ym /\
     forall f v, 0 <= f < nbFrame ym -> 0 <= v < streamInc ym ->
       tmp !! Z.to_nat (f * streamInc ym + v)
       = pDataStream ym !! Z.to_nat (v * nbFrame ym + f)).
Proof.
  apply (deInterleave_layout
           (set_pDataStream [10; 11; 12; 20; 21; 22]
              (set_nbFrame 3 (set_streamInc 2 (set_attrib 9 zeroMusic))))).
  - vm_compute. discriminate.
  - vm_compute. reflexivity.
  - vm_compute. discriminate.
Defined.

Lemma chipInv_SetClock (c : Z) (chip : CYm2149Ex) :
  chipInv chip -> chipInv (SetClock c chip).
Proof. intros H. exact H. Qed.

(** Loading an uncompressed YM3! file succeeds and leaves a song ready to be
    played: [nbFrame] frames of 14 registers at 50 Hz, seekable, not paused,
    with the invariant of [Update], and a frame-major stream in which register
    [v] of frame [f] is byte [v * nbFrame + f] of the file's stream. *)
Theorem load_YM3_ready_to_play (vt : list Z) (ym : CYmMusic) (stream : list Z) :
  chipInv (ymChip ym) -> 50 <= replayRate ym < 2^31 ->
  0 <= innerSamplePos ym < replayRate ym / 50 ->
  Z.of_nat (length stream) < 2^31 - 4 ->
  let n := Z.of_nat (length stream) / 14 in
  exists ym',
    loadMemory vt ([89; 77; 51; 33] ++ stream) ym = Ret (ym', None) /\
    playInv ym' /\ idle ym' = false /\ IsSeekable ym' = true /\
    (songType ym', nbFrame ym', playerRate ym', loopFrame ym', currentFrame ym')
    = (YM_V3, n, 50, 0, 0) /\
    Z.of_nat (length (pDataStream ym')) = n * 14 /\
    forall f v, 0 <= f < n -> 0 <= v < 14 ->
      pDataStream ym' !! Z.to_nat (f * 14 + v) = stream !! Z.to_nat (v * n + f).
Proof.
  intros Hc Hrr Hin Hlen n.
  set (data := [89; 77; 51; 33] ++ stream).
  assert (Hplain : Lzh.IsLZHCompressed data = false)
    by (apply not_lzh_by_third_byte; discriminate).
  rewrite (loadMemory_plain vt data ym Hplain).
  set (ym0 := set_pBigMalloc data (loadPrep data ym)).
  assert (Hbuf : pBigMalloc ym0 = data) by reflexivity.
  assert (Hsize : fileSize ym0 = Z.of_nat (length stream) + 4).
  { change (fileSize ym0) with (s32 (Z.of_nat (length data))).
    subst data. rewrite length_app. cbn [length]. rewrite s32_small by lia. lia. }
  assert (Hdl : Z.of_nat (length data) = Z.of_nat (length stream) + 4)
    by (subst data; rewrite length_app; cbn [length]; lia).
  unfold ymDecode. rewrite Hbuf.
  destruct (Nat.ltb_spec (length data) 4); [lia|].
  change (take 4 data) with [89; 77; 51; 33].
  change (readBigEndian32 [89; 77; 51; 33] =? e_YM2a) with false.
  change (readBigEndian32 [89; 77; 51; 33] =? e_YM3a) with true. cbv iota zeta.
  destruct (decodeYm23_returns YM_V3 0 EmptyString "YM 3"%string ym0
              ltac:(rewrite Hbuf; lia))
    as (ymD & ED & Hty & Hnb & Hlf & Hpr & Hinc & Hds & Hattr & Hnd & Hdt & Hchip & Hrest).
  rewrite ED. exec_rw.
  assert (Hn : nbFrame ymD = n).
  { rewrite Hnb, Hsize.
    replace (Z.of_nat (length stream) + 4 - 4) with (Z.of_nat (length stream)) by lia.
    rewrite s32_small by lia. unfold sdiv. apply Z.quot_div_nonneg; lia. }
  assert (Hstream : pDataStream ymD = stream) by (rewrite Hds, Hbuf; reflexivity).
  assert (Hn0 : 0 <= n) by (apply Z.div_pos; lia).
  assert (Hfit : n * 14 <= Z.of_nat (length stream))
    by (unfold n; rewrite Z.mul_comm; apply Z.mul_div_le; lia).
  destruct (deInterleave_spec ymD ltac:(lia) ltac:(lia)
              ltac:(rewrite Hn, Hinc, Hstream; exact Hfit)
              ltac:(rewrite Hattr; discriminate))
    as (tmp & EI & Hl & Hlay).
  rewrite EI. exec_rw. cbv zeta in Hl, Hlay. rewrite Hn, Hinc in Hl, Hlay.
  rewrite Hstream in Hlay.
  set (ymI := set_attrib _ _).
  assert (HchipI : ymChip ymI = SetClock ATARI_CLOCK (ymChip ym))
    by (change (ymChip ymI) with (ymChip ymD); rewrite Hchip; reflexivity).
  destruct (Reset_returns vt (ymChip ymI)
              ltac:(rewrite HchipI; apply chipInv_SetClock; exact Hc))
    as (chip & ER & HcR & _).
  rewrite ER. exec_rw. cbv zeta.
  injection Hrest as Hrr' Hin' Hov' Hlp' Hcf.
  change (currentFrame ym0) with 0 in Hcf.
  change (replayRate ym0) with (replayRate ym) in Hrr'.
  change (innerSamplePos ym0) with (innerSamplePos ym) in Hin'.
  change (bMusicOver ym0) with false in Hov'.
  change (pDrumTab ym0) with (@nil DigiDrum) in Hdt.
  eexists. split; [reflexivity|].
  split.
  { split.
    - split; [left; split|]; [exact Hty|exact Hinc|].
      split; [change (0 <= loopFrame ymD); lia|].
      split; [change (0 < playerRate ymD <= replayRate ymD); lia|].
      split; [change (replayRate ymD < 2^31); lia|].
      split; [exact HcR|].
      split; [change (nbDrum ymD <= Z.of_nat (length (pDrumTab ymD)));
              rewrite Hnd, Hdt; cbn [length]; lia|].
      change (Forall (fun d => Size d <= Z.of_nat (length (Data d))) (pDrumTab ymD)).
      rewrite Hdt. apply Forall_nil.
    - change (0 <= innerSamplePos ymD < replayRate ymD / playerRate ymD).
      rewrite Hin', Hrr', Hpr. exact Hin. }
  split.
  { unfold idle. change (negb true || false || bMusicOver ymD = false).
    rewrite Hov'. reflexivity. }
  split.
  { unfold IsSeekable.
    change (negb (Z.land (s32 (Z.land (attrib ymD) (Z.lnot A_STREAMINTERLEAVED)))
                         A_TIMECONTROL =? 0) = true).
    rewrite Hattr. reflexivity. }
  split.
  { change ((songType ymD, nbFrame ymD, playerRate ymD, loopFrame ymD,
             currentFrame ymD) = (YM_V3, n, 50, 0, 0)).
    rewrite Hty, Hn, Hpr, Hlf.
    rewrite Hcf. reflexivity. }
  split; [exact Hl|exact Hlay].
Qed.

Lemma load_YM3_ready_to_play_witness :
  exists ym',
    loadMemory scaledTable ([89; 77; 51; 33] ++ frame14 ++ frame14) newPlayer
    = Ret (ym', None) /\ playInv ym' /\ nbFrame ym' = 2.
Proof.
  assert (Hc : chipInv (ymChip newPlayer))
    by (apply chipCheck_sound; vm_compute; reflexivity).
  assert (Hr : replayRate newPlayer = 44100) by (vm_compute; reflexivity).
  assert (Hi : innerSamplePos newPlayer = 0) by (vm_compute; reflexivity).
  destruct (load_YM3_ready_to_play scaledTable newPlayer (frame14 ++ frame14) Hc
              ltac:(rewrite Hr; lia)
              ltac:(rewrite Hi, Hr; change (44100 / 50) with 882; lia)
              ltac:(cbn [length app frame14]; lia))
    as (ym' & E & Hinv & _ & _ & Hf & _).
  exists ym'. split; [exact E|]. split; [exact Hinv|].
  injection Hf as _ Hn _ _ _. rewrite Hn. reflexivity.
Defined.
